(* ===== verification/_CoqProject ===== *)
-Q . S2P
Prelude.v
Text.v
RustStd.v
Addresses.v
NetAddress.v
Logger.v
Patterns.v
Files.v
Config.v
Sql.v
Fees.v
Settings.v
Bitcoind.v
WalletDatabase.v
WalletRefinement.v
Wallet.v
Ldk.v
Payment.v
LdkDatabase.v
Shared.v
DurableConnection.v
AsyncRequests.v
Node.v
Probe.v
Controller.v
EventHandler.v
Protocol.v
Events.v
Auth.v
Keys.v
Deploy.v
Hosts.v
Ctl.v
Api.v
ApiNode.v
ApiRoutes.v
Waiting.v
Server.v
WebSocket.v
Exporter.v
Cli.v
Keybinding.v
Tui.v
TuiApp.v
TuiRuns.v
TuiConnect.v
Terminal.v
Startup.v
DeployedNode.v
