(* ===== verification/Prelude.v ===== *)
(** * kld: a verification library for the kuutamo lightning distribution

    kld is a Lightning node: LDK (the [lightning] crate) runs the protocol, bdk the on-chain
    wallet, CockroachDB keeps the state, bitcoind is the view of the chain, and a REST API is the
    way in. Around the node are a deployment manager that makes the machines and their secrets, a
    command line client and a terminal interface. What is the program's own is the glue that
    makes these one system, and that is what is modelled: what is written where, who waits for
    whom, what is reported to the caller, and what is left behind when a step fails or panics.

    ** How the parts interact

    The deployment manager (src/mgr) checks a cluster file, makes certificates, seeds and
    macaroons, and uploads them to hosts. There the process starts (src/kld/src/kld/main.rs,
    [start_ldk]): it reads the seed, loads from the database what LDK needs, and leaves the rest
    to a background task. A request comes in over the API (src/kld/src/api), made by the client
    (src/kld/src/cli) or the interface (src/tui), is let through by its macaroon, and calls the
    controller (src/kld/src/ldk/controller.rs). The controller asks LDK, the wallet
    (src/kld/src/wallet/bdk_wallet.rs) and the tables (src/kld/src/database/ldk_database.rs).
    Requests that LDK answers later with an event register a one-shot channel and wait; the
    background task hands every event to the event handler
    (src/kld/src/ldk/event_handler.rs), which writes tables, answers waiting requests, funds
    channels and sweeps outputs. bdk stores the wallet through
    src/kld/src/database/wallet_database.rs on the same kind of connection.

    ** The files

    The base:
    - Prelude: outcomes ([result]: Ok, Err or a panic), commands ([cmd]: state passing where a
      failed command keeps what it did), machine integers, hash maps with an unspecified order.
    - Text, RustStd: numbers as text; what the source uses of [std]: trimming, splitting, UTF-8,
      addresses, paths. Addresses: the text of IP and socket addresses is read back. Patterns:
      regular expressions. Files: the file system and programs.
    - Sql: SQL statement forms on tables as lists of rows, the connection with statements that
      fail and with an open transaction, tables with a primary key as maps.

    The node (src/kld/src):
    - WalletDatabase: wallet_database.rs, one definition per method, on the seven tables of
      V2__wallet.sql. WalletRefinement: the abstract store that bdk's traits promise, and the
      simulation.
    - Settings: src/kld/src/settings, the arguments of the process and how they are read.
    - Logger: logger.rs. NetAddress: api/skt_addr.rs, addresses of the Lightning network.
    - Fees: the tests of bitcoind_client.rs on answers, the estimates, channel_utils.rs,
      utxo_lookup.rs, the fee rates of payloads.rs. Bitcoind: the requests of bitcoind_client.rs,
      its start, its wait for synchronisation and its broadcast tasks.
    - Wallet: bdk_wallet.rs with its mutex.
    - Ldk: the types of the libraries, abstract. Payment: the records of
      database/{payment,invoice,forward,peer}.rs. LdkDatabase: ldk_database.rs, one
      definition per method, and the writes that run as spawned tasks.
    - Shared: both databases on the one session that main.rs gives them. DurableConnection: the
      connection task and the reconnection of database/mod.rs.
    - AsyncRequests: [AsyncSenders] of controller.rs. Node: the state the controller and the
      event handler share, the calls to LDK as the class [Lightning], errors of ldk/mod.rs,
      threads. Controller: controller.rs and peer_manager.rs. EventHandler: event_handler.rs, a
      definition per arm. Probe: [send_probe] of controller.rs and the tasks that call it.
    - Protocol: API calls and events interleaved, as a step relation. Events: theorems on the
      arms of the event handler.
    - Auth: macaroon_auth.rs and the route tables. Api, ApiNode: the handlers of
      api. ApiRoutes: requests through their guard to their handlers. WebSocket: api/ws.rs.
    - Waiting: threads that wait, with a table of senders as the interface: what each has asked
      for and what is promised to it. Server: every request as a thread beside the events, and
      the steps of the whole node.
    - Keys: key_generator.rs and the macaroon files. Startup: kld/main.rs and [start_ldk].

    Around the node:
    - Config: src/mgr/src/config.rs. Deploy: certs, secrets.rs, ssh.rs, flake.rs and the steps of
      main.rs before a host is touched. Hosts: the commands on hosts (install.rs,
      nixos_rebuild.rs, reboot.rs, ssh.rs, utils.rs, generate_config.rs) and [main] of main.rs.
      Ctl: src/ctl, the report of a host. DeployedNode: the process of the node under a
      configuration, by way of the environment that src/nix/modules gives its service.
    - Exporter: src/kld/src/prometheus.rs, the metrics and the health answer.
    - Cli: src/kld/src/cli, and what the routes of the node make of its requests.
    - Keybinding, Tui, TuiApp, TuiRuns: src/tui/src, the text of keys and the bindings; the
      components with [update] and [draw]; the application with its queue; what holds of its runs.
      TuiConnect: the certificate and the macaroon that app.rs and query.rs send, and what the
      node makes of them. Terminal: tui.rs, the panic handler, the frame of [App::run].

    A definition has the name of the function it models. A method that changes state is a
    command on the state of its component; [in_db], [in_wallet] and [in_world] run it as a part
    of the node. Code outside src/ is a class ([Bdk], [Lightning], [LdkTypes], [Driver],
    [Macaroons], [Os], [Web], [Rpc], [Clap], ...); a class named [...Laws] states the documented
    behaviour that a theorem relies on, and the files end with small instances on which the
    theorems are applied to concrete inputs. The clock and the random generator are arguments.

    ** The theorems

    - Refinement: [WalletRefinement.wallet_database_refines_store] (from empty tables and on a
      working connection, every allowed sequence of bdk's calls and batches gets the answers of
      the abstract store, and the iterations list what it holds); what the excluded calls do is in [set_raw_tx_never_replaces], [set_tx_without_raw_duplicates] and
      [utxo_value_bound]. [Api.list_channels_joins]: an imperative loop is a join.
      [Cli.commands_arrive_as_meant] and [typed_text_is_sent]: what the user gives is what the
      server gets; [lost_arguments] and [refused_commands_exit_with_zero] where it is not.
    - The whole node: [payments_are_answered_by_their_events],
      [channels_are_opened_with_their_transactions] and [failed_keysend_is_an_error], over every
      interleaving of requests and events.
    - The connection: [reconnection_is_one_session] (a simulation), [lost_session_is_replaced],
      [end_of_reconnection].
    - Waiting for events: [payment_call_returns_first_outcome] in every interleaving,
      [pay_invoice_stores_the_outcome], and its failure [outcome_before_registration_is_lost];
      [funding_request_is_answered] for channels.
    - What is stored: [open_batch_holds_node_writes], [monitors_in_order_are_current] and
      [monitors_out_of_order_are_stale] for the spawned writes, [persist_manager_never_stores],
      [channels_keep_their_history], [claimed_payment_record], [forwards_are_totalled],
      [sweep_is_recorded], [update_initializing_without_row].
    - What is read: [fetch_invoices_groups_payments], [fetch_payments_needs_invoices],
      [fetch_peer_one_address].
    - Start and restart: [restart_forgets_the_channels] (for any order of the spawned writes, and
      what their order adds), [restart_keeps_the_identity],
      [manager_macaroons_open_the_node], [served_chain_is_the_settings].
    - Addresses: [parse_print_ip], [parse_print_socket_addr], [address_text_read],
      [shown_peers_can_be_connected]. Broadcasts: [packages_need_their_order]. The log:
      [line_determines_record].
    - The wallet: [transfer_broadcasts_what_it_signed], [transfer_min_conf],
      [sync_round_only_forward].
    - The API: [readonly_requests_change_nothing] and [macaroon_roles] (who may change what),
      [close_by_number], [local_remote_balance_sums], [forward_amounts],
      [expired_invoices_are_shown_unpaid].
    - The deployment: [parsed_config_well_formed] (what the checks of a cluster file give),
      [name_patterns_equivalent], [subnet_gives_the_prefix], [installed_hosts_get_their_secrets],
      [new_ipv6_address_is_overlooked], [only_named_hosts_are_contacted]; and of its result:
      [deployed_settings_are_read], [deployed_process_runs], [ipv6_only_node_does_not_start].
    - The exporter: [exporter_only_observes] (also what a scrape shows) and [uptime_starts_with_the_first_scrape]. The report
      of a host: [info_names], [version_read], [inline_is_read_back].
    - The interface: [keys_never_fail] (an invariant of all runs with safe bindings; not so with
      others, [executing_letter_panics]), [key_sequences_are_read_back],
      [no_channels_cannot_be_shown], [answers_of_a_second_are_mixed], [interface_is_let_in],
      [terminal_is_given_back].
    - Termination: [send_probe_terminates], [queue_is_emptied].
    - Numbers and text: [fee_rate_roundtrip], [estimates_stay_acceptable], [scid_decomposition],
      [jit_channel_ids], [channel_ready_needs_a_short_alias], [refused_path_blames_a_channel].

    ** Bounds and fuel

    Integers are [Z] with the width of the Rust type in the hypotheses ([u64], [i32], ...) and
    the casts written out; the operators of an unsigned type are [arith], which panics or wraps
    as the build says ([Build]). Instants are microseconds. Fuel: [Text.trim_end_fuel],
    [RustStd.trim_fuel], [RustStd.split_str_fuel] and [Keybinding.extract_fuel] remove at least
    one character a round, so that the length of the text is enough; [Probe.probe_prefixes]
    removes a hop a round, and has one round more than the path has hops; [Tui.nav_loop] has a
    round more than the list has items and needs two; [TuiApp.drain] has the [work] of the queue,
    which [queue_is_emptied] shows to be enough. [Hosts.wait_until] is a loop of the code without
    a bound of its own: the rounds it is given are an argument, and its lemma says that more
    rounds do not change an answer; the wait for synchronisation of Bitcoind is given its rounds
    in the same way. [Terminal.stop_fuel] is the bound of 101 rounds that the code has itself.
    Every other function is structural.

    ** What is not modelled

    TLS and the frames of sockets, the log lines of the modules other than where a line is all
    that is left of a failure, signals, the layout and the styles of the screen; what the
    libraries do inside; the generated Rust types of responses and the serde attributes that only
    name fields (a response that copies a field of LDK's details as it is carries the details);
    what clap does with the tables of arguments. A statement either reaches the server and takes
    effect whole or fails, and then aborts an open transaction; a lost connection drops the
    transaction. Whether a task of the runtime is ever run is not claimed; theorems about spawned
    writes say what holds when they have run. Left out as code that is not part of the running
    program: the mock of bitcoind, the test utilities, the build script, style.rs (in no crate),
    the frame counter of the interface.

    What could follow: the shutdown (what the tasks of the runtime have done when the process
    exits), the modules of the deployment other than the environment of the node. *)

From stdpp Require Export base gmap strings list fin_maps pretty.
From Stdlib Require Export ZArith Lia.
From Stdlib Require Export Strings.Byte.

#[global] Open Scope Z_scope.

(** ** Outcomes

    A Rust function of type [Result<A, E>] ends in one of three ways: it returns [Ok], it
    returns [Err], or it panics ([unwrap] on a failed conversion, an index out of range, an
    overflow in a build with overflow checks). *)

Inductive result (E A : Type) : Type :=
| Ok (a : A)
| Err (e : E)
| Panic (why : string).
Arguments Ok {E A} a.
Arguments Err {E A} e.
Arguments Panic {E A} why.

Definition result_bind {E A B} (r : result E A) (f : A → result E B) : result E B :=
  match r with
  | Ok a => f a
  | Err e => Err e
  | Panic w => Panic w
  end.

Definition result_map {E A B} (f : A → B) (r : result E A) : result E B :=
  result_bind r (λ a, Ok (f a)).

(** [Result::map_err]. *)
Definition map_err {E F A} (f : E → F) (r : result E A) : result F A :=
  match r with
  | Ok a => Ok a
  | Err e => Err (f e)
  | Panic w => Panic w
  end.

(** [Option::ok_or] / [Context::context] on an option. *)
Definition ok_or {E A} (e : E) (o : option A) : result E A :=
  match o with Some a => Ok a | None => Err e end.

(** [Option::unwrap] / [Option::expect]. *)
Definition expect {E A} (why : string) (o : option A) : result E A :=
  match o with Some a => Ok a | None => Panic why end.

(** [Iterator::collect::<Result<Vec<_>, _>>()] over a fallible map: stops at the first
    failure. *)
Fixpoint result_mapM {E A B} (f : A → result E B) (l : list A) : result E (list B) :=
  match l with
  | [] => Ok []
  | a :: l =>
      result_bind (f a) (λ b, result_bind (result_mapM f l) (λ bs, Ok (b :: bs)))
  end.

(** ** Commands: state passing with outcomes

    A method that reads and writes the state [S] is a [cmd S E A]. The state it leaves behind
    is part of the result also when it fails: an effect that happened before an early return
    stays. *)

Definition cmd (S E A : Type) : Type := S → result E A * S.

Definition cmd_ret {S E A} (a : A) : cmd S E A := λ s, (Ok a, s).
Definition cmd_err {S E A} (e : E) : cmd S E A := λ s, (Err e, s).
Definition cmd_panic {S E A} (w : string) : cmd S E A := λ s, (Panic w, s).
Definition cmd_lift {S E A} (r : result E A) : cmd S E A := λ s, (r, s).
Definition cmd_bind {S E A B} (m : cmd S E A) (f : A → cmd S E B) : cmd S E B := λ s,
  match m s with
  | (Ok a, s') => f a s'
  | (Err e, s') => (Err e, s')
  | (Panic w, s') => (Panic w, s')
  end.
Definition cmd_map {S E A B} (f : A → B) (m : cmd S E A) : cmd S E B :=
  cmd_bind m (λ a, cmd_ret (f a)).
Definition cmd_map_err {S E F A} (f : E → F) (m : cmd S E A) : cmd S F A := λ s,
  let '(r, s') := m s in (map_err f r, s').

Declare Scope kld_scope.
Delimit Scope kld_scope with kld.
#[global] Open Scope kld_scope.
Notation "'let*' p ':=' m 'in' k" := (cmd_bind m (λ p, k))
  (at level 10, p as pattern, m at level 100, k at level 200) : kld_scope.
Notation "'let?' p ':=' m 'in' k" := (result_bind m (λ p, k))
  (at level 10, p as pattern, m at level 100, k at level 200) : kld_scope.

(** [for x in l { body }] where the body may return early. *)
Fixpoint cmd_forM {S E A} (f : A → cmd S E ()) (l : list A) : cmd S E () :=
  match l with
  | [] => cmd_ret ()
  | a :: l => let* _ := f a in cmd_forM f l
  end.

Lemma cmd_bind_ok {S E A B} (m : cmd S E A) (f : A → cmd S E B) s a s' :
  m s = (Ok a, s') → cmd_bind m f s = f a s'.
Proof. intros H. unfold cmd_bind. by rewrite H. Qed.

Lemma cmd_bind_err {S E A B} (m : cmd S E A) (f : A → cmd S E B) s e s' :
  m s = (Err e, s') → cmd_bind m f s = (Err e, s').
Proof. intros H. unfold cmd_bind. by rewrite H. Qed.

Lemma cmd_bind_panic {S E A B} (m : cmd S E A) (f : A → cmd S E B) s w s' :
  m s = (Panic w, s') → cmd_bind m f s = (Panic w, s').
Proof. intros H. unfold cmd_bind. by rewrite H. Qed.

Lemma cmd_map_ok {S E A B} (f : A → B) (m : cmd S E A) s a s' :
  m s = (Ok a, s') → cmd_map f m s = (Ok (f a), s').
Proof. intros H. unfold cmd_map. by rewrite (cmd_bind_ok _ _ _ _ _ H). Qed.

Lemma cmd_bind_ret {S E A B} (a : A) (f : A → cmd S E B) s : cmd_bind (cmd_ret a) f s = f a s.
Proof. done. Qed.

Lemma cmd_bind_bind {S E A B C} (m : cmd S E A) (f : A → cmd S E B) (g : B → cmd S E C) s :
  cmd_bind (cmd_bind m f) g s = cmd_bind m (λ a, cmd_bind (f a) g) s.
Proof. unfold cmd_bind. by destruct (m s) as [[]]. Qed.

Lemma cmd_bind_map {S E A B C} (g : A → B) (m : cmd S E A) (f : B → cmd S E C) s :
  cmd_bind (cmd_map g m) f s = cmd_bind m (λ a, f (g a)) s.
Proof. unfold cmd_map. by rewrite cmd_bind_bind. Qed.

Lemma cmd_bind_lift {S E A B} (r : result E A) (f : A → cmd S E B) a s :
  r = Ok a → cmd_bind (cmd_lift r) f s = f a s.
Proof. by intros ->. Qed.

Lemma cmd_bind_inv {S E A B} (m : cmd S E A) (f : A → cmd S E B) s b s' :
  cmd_bind m f s = (Ok b, s') → ∃ a s1, m s = (Ok a, s1) ∧ f a s1 = (Ok b, s').
Proof. unfold cmd_bind. destruct (m s) as [[a| |] s1]; [|done..]. by exists a, s1. Qed.

Lemma result_mapM_ok {E A B} (f : A → result E B) (g : A → B) (l : list A) :
  (∀ a, a ∈ l → f a = Ok (g a)) → result_mapM f l = Ok (g <$> l).
Proof.
  induction l as [|a l IH]; intros H; simpl; [done|].
  rewrite (H a) by set_solver. simpl. rewrite IH by set_solver. done.
Qed.

Lemma result_mapM_forall {E A B} (f : A → result E B) (P : B → Prop) (l : list A) :
  (∀ a, a ∈ l → ∃ b, f a = Ok b ∧ P b) →
  ∃ m, result_mapM f l = Ok m ∧ (∀ b, b ∈ m → P b) ∧ ∀ a b, a ∈ l → f a = Ok b → b ∈ m.
Proof.
  induction l as [|a l IH]; intros Hl; simpl.
  - exists []. split; [done|]. split; [by intros ? ?%elem_of_nil|by intros ? ? ?%elem_of_nil].
  - destruct (Hl a) as (b & Hb & HP); [by left|]. rewrite Hb. simpl.
    destruct IH as (m & -> & Hm & Hin); [intros; apply Hl; by right|]. simpl.
    exists (b :: m). split; [done|]. split.
    + intros b' [->|?]%elem_of_cons; auto.
    + intros a' b' [->|Ha]%elem_of_cons Hb'; [rewrite Hb in Hb'; injection Hb' as ->; by left|right; eauto].
Qed.

Lemma result_mapM_Forall2 {E A B} (f : A → result E B) (l : list A) (m : list B) :
  result_mapM f l = Ok m ↔ Forall2 (λ a b, f a = Ok b) l m.
Proof.
  revert m. induction l as [|a l IH]; intros m; simpl.
  - split; [intros [= <-]; constructor|by intros ->%Forall2_nil_inv_l].
  - split.
    + destruct (f a) eqn:Ha; simpl; [|done..]. destruct (result_mapM f l) eqn:Hl; simpl; [|done..].
      intros [= <-]. constructor; [done|by apply IH].
    + intros (b & m' & Ha & Hm & ->)%Forall2_cons_inv_l. rewrite Ha. simpl.
      apply IH in Hm. by rewrite Hm.
Qed.

Lemma result_mapM_elem {E A B} (f : A → result E B) (l : list A) (m : list B) b :
  result_mapM f l = Ok m → b ∈ m → ∃ a, a ∈ l ∧ f a = Ok b.
Proof.
  rewrite result_mapM_Forall2. induction 1 as [|a b' l m Ha _ IH]; [by intros ?%elem_of_nil|].
  intros [->|Hb]%elem_of_cons; [exists a; split; [by left|done]|].
  destruct (IH Hb) as (a' & ? & ?). exists a'. split; [by right|done].
Qed.

Lemma result_mapM_fmap {E A B C} (f : B → result E C) (g : A → B) (l : list A) :
  result_mapM f (g <$> l) = result_mapM (λ a, f (g a)) l.
Proof. induction l as [|a l IH]; [done|]. simpl. by rewrite <- IH. Qed.

Lemma result_mapM_panic {E A B} (f : A → result E B) (l : list A) w a :
  a ∈ l → f a = Panic w → (∀ b, b ∈ l → ∀ e, f b ≠ Err e) →
  ∃ w', result_mapM f l = Panic w'.
Proof.
  intros Ha Hf. induction l as [|b l IH]; [by apply elem_of_nil in Ha|]. intros Hne. simpl.
  assert (b ∈ b :: l) as Hb by by left. destruct (f b) eqn:Hfb; simpl.
  - apply elem_of_cons in Ha as [->|Ha]; [congruence|].
    destruct IH as [w' ->]; [done|intros b' Hb'; apply Hne; by right|]. by exists w'.
  - by destruct (Hne b Hb e).
  - by eexists.
Qed.

(** A list whose elements all come from some [f b] with [P b] is the image of a list. *)
Lemma list_preimage {A B} (f : B → A) (P : B → Prop) (l : list A) :
  (∀ a, a ∈ l → ∃ b, a = f b ∧ P b) → ∃ m, l = f <$> m ∧ ∀ b, b ∈ m → P b.
Proof.
  induction l as [|a l IH]; intros Hl.
  - exists []. split; [done|]. by intros b ?%elem_of_nil.
  - destruct (Hl a) as (b & -> & Hb); [by left|].
    destruct IH as (m & -> & Hm); [intros; apply Hl; by right|].
    exists (b :: m). split; [done|]. by intros b' [->|?]%elem_of_cons; [|apply Hm].
Qed.

(** ** Machine integers

    A [w]-bit integer is a [Z]; an [as] cast between widths wraps, [try_into] fails when the
    value does not fit. *)

Definition in_unsigned (w z : Z) : Prop := 0 ≤ z < 2 ^ w.
Definition in_signed (w z : Z) : Prop := - 2 ^ (w - 1) ≤ z < 2 ^ (w - 1).
#[global] Instance in_unsigned_dec w z : Decision (in_unsigned w z) := _.
#[global] Instance in_signed_dec w z : Decision (in_signed w z) := _.

Definition wrap_unsigned (w z : Z) : Z := z mod 2 ^ w.
Definition wrap_signed (w z : Z) : Z := (z + 2 ^ (w - 1)) mod 2 ^ w - 2 ^ (w - 1).

Abbreviation as_u16 := (wrap_unsigned 16).
Abbreviation as_u32 := (wrap_unsigned 32).
Abbreviation as_u64 := (wrap_unsigned 64).
Abbreviation as_i16 := (wrap_signed 16).
Abbreviation as_i32 := (wrap_signed 32).
Abbreviation as_i64 := (wrap_signed 64).
Abbreviation u8 := (in_unsigned 8).
Abbreviation u16 := (in_unsigned 16).
Abbreviation u32 := (in_unsigned 32).
Abbreviation u64 := (in_unsigned 64).
Abbreviation i32 := (in_signed 32).
Abbreviation i64 := (in_signed 64).

Definition u64_max : Z := 2 ^ 64 - 1.
Definition u32_max : Z := 2 ^ 32 - 1.

(** [u64::try_from] / [u32::try_from] followed by [unwrap]. *)
Definition unwrap_unsigned {E} (w z : Z) : result E Z :=
  if bool_decide (in_unsigned w z) then Ok z
  else Panic "out of range integral type conversion attempted".

(** The arithmetic operators on unsigned integers: a build with overflow checks panics, a
    build without them wraps. Which of the two is a setting of the build, not of the code. *)
Class Build := { overflow_checks : bool }.

Definition arith {E} `{Build} (w z : Z) : result E Z :=
  if bool_decide (in_unsigned w z) then Ok z
  else if overflow_checks then Panic "attempt to compute with overflow"
  else Ok (wrap_unsigned w z).

Lemma wrap_unsigned_id w z : in_unsigned w z → wrap_unsigned w z = z.
Proof. intros [? ?]. unfold wrap_unsigned. by apply Z.mod_small. Qed.

Lemma wrap_signed_id w z : in_signed w z → 0 < w → wrap_signed w z = z.
Proof.
  intros [? ?] Hw. unfold wrap_signed.
  assert (2 ^ w = 2 * 2 ^ (w - 1)) as Hp.
  { rewrite <- Z.pow_succ_r by lia. f_equal. lia. }
  rewrite Z.mod_small; lia.
Qed.

(** A value that travels through the signed type of the same width and back is unchanged:
    the casts [x as i64 as u64] around every integer column. *)
Lemma unsigned_signed_unsigned w z :
  0 < w → in_unsigned w z → wrap_unsigned w (wrap_signed w z) = z.
Proof.
  intros Hw [H0 H1]. unfold wrap_unsigned, wrap_signed.
  assert (2 ^ w = 2 * 2 ^ (w - 1)) as Hp.
  { rewrite <- Z.pow_succ_r by lia. f_equal. lia. }
  assert (0 < 2 ^ (w - 1)) by (apply Z.pow_pos_nonneg; lia).
  rewrite Zminus_mod_idemp_l.
  replace (z + 2 ^ (w - 1) - 2 ^ (w - 1)) with z by lia.
  apply Z.mod_small. lia.
Qed.

(** Stored as a signed value and read back with [try_into().unwrap()], a value survives
    exactly when it fits the signed type. *)
Lemma unsigned_signed_small w z :
  0 < w → in_unsigned w z → z < 2 ^ (w - 1) → wrap_signed w z = z.
Proof. intros Hw [? ?] ?. apply wrap_signed_id; [|done]. unfold in_signed. lia. Qed.

Lemma unsigned_signed_large w z :
  0 < w → in_unsigned w z → 2 ^ (w - 1) ≤ z → wrap_signed w z < 0.
Proof.
  intros Hw [H0 H1] Hz. unfold wrap_signed.
  assert (2 ^ w = 2 * 2 ^ (w - 1)) as Hp.
  { rewrite <- Z.pow_succ_r by lia. f_equal. lia. }
  replace (z + 2 ^ (w - 1)) with ((z - 2 ^ (w - 1)) + 1 * 2 ^ w) by lia.
  rewrite Z.mod_add by lia. rewrite Z.mod_small by lia. lia.
Qed.

Lemma wrap_signed_inj w z1 z2 :
  0 < w → in_unsigned w z1 → in_unsigned w z2 →
  wrap_signed w z1 = wrap_signed w z2 → z1 = z2.
Proof.
  intros Hw H1 H2 Heq.
  by rewrite <- (unsigned_signed_unsigned w z1), <- (unsigned_signed_unsigned w z2), Heq.
Qed.

Lemma unwrap_unsigned_ok {E} w z : in_unsigned w z → unwrap_unsigned (E:=E) w z = Ok z.
Proof. intros H. unfold unwrap_unsigned. by rewrite bool_decide_eq_true_2. Qed.

Lemma arith_ok {E} `{Build} w z : in_unsigned w z → arith (E:=E) w z = Ok z.
Proof. intros Hz. unfold arith. by rewrite bool_decide_eq_true_2. Qed.

Create HintDb kld.
Create Rewrite HintDb kld.
#[export] Hint Rewrite @wrap_unsigned_id @unsigned_signed_unsigned using (first [done | lia]) : kld.
#[export] Hint Resolve wrap_unsigned_id unsigned_signed_unsigned unwrap_unsigned_ok : kld.

(** Instants are microseconds since the Unix epoch (the tables keep no more);
    [OffsetDateTime::unix_timestamp] gives whole seconds. *)
Definition unix_timestamp (micros : Z) : Z := micros / 1000000.

(** ** Bytes and strings *)

Abbreviation bytes := (list byte).
#[global] Instance byte_eq_dec : EqDecision byte := Byte.byte_eq_dec.

(** [str::starts_with], [str::strip_prefix]. *)
Fixpoint strip_prefix (p s : string) : option string :=
  match p, s with
  | EmptyString, _ => Some s
  | String a p, String b s => if Ascii.eqb a b then strip_prefix p s else None
  | String _ _, EmptyString => None
  end.
Definition starts_with (p s : string) : bool :=
  match strip_prefix p s with Some _ => true | None => false end.

(** [s.split_once(c)] for a one-character separator: the text before and after the first
    occurrence. *)
Fixpoint split_once (c : Ascii.ascii) (s : string) : option (string * string) :=
  match s with
  | EmptyString => None
  | String a s =>
      if Ascii.eqb a c then Some ("", s)%string
      else match split_once c s with
           | Some (l, r) => Some (String a l, r)
           | None => None
           end
  end.

(** [s.split(c)]: never empty, a separator at either end gives an empty piece. *)
Fixpoint split_char (c : Ascii.ascii) (s : string) : list string :=
  match s with
  | EmptyString => [""%string]
  | String a s =>
      if Ascii.eqb a c then ""%string :: split_char c s
      else match split_char c s with
           | x :: xs => String a x :: xs
           | [] => [String a ""]
           end
  end.

Lemma strip_prefix_app p s : strip_prefix p (p +:+ s) = Some s.
Proof. induction p as [|a p IH]; simpl; [done|]. by rewrite Ascii.eqb_refl. Qed.

Lemma starts_with_app p s : starts_with p (p +:+ s) = true.
Proof. unfold starts_with. by rewrite strip_prefix_app. Qed.

Lemma strip_prefix_Some p s r : strip_prefix p s = Some r → s = p +:+ r.
Proof.
  revert s. induction p as [|a p IH]; intros s; simpl.
  - by intros [= ->].
  - destruct s as [|b s]; [done|].
    destruct (Ascii.eqb_spec a b); [|done]. subst. intros ->%IH. done.
Qed.

(** ** Hash maps

    A [HashMap] whose keys only have an equality: an association list without duplicate keys.
    The order in which a [HashMap] is iterated is not specified; it is [hash_order]. *)

Class HashOrder := { hash_order : ∀ {A : Type}, list A → list A }.
Class HashOrderLaws `{HashOrder} := {
  hash_order_perm : ∀ {A : Type} (l : list A), hash_order l ≡ₚ l;
}.
Definition list_order : HashOrder := {| hash_order _ l := l |}.
Lemma list_order_laws : @HashOrderLaws list_order.
Proof. by split. Defined.

Section HashMap.
Context {K V : Type} `{EqDecision K}.
Implicit Types m : list (K * V).

Fixpoint hm_get (k : K) m : option V :=
  match m with
  | [] => None
  | (k', v) :: m => if decide (k = k') then Some v else hm_get k m
  end.

(** [insert]: replaces the value of a key that is present. *)
Fixpoint hm_insert (k : K) (v : V) m : list (K * V) :=
  match m with
  | [] => [(k, v)]
  | (k', v') :: m => if decide (k = k') then (k, v) :: m else (k', v') :: hm_insert k v m
  end.

Definition hm_remove (k : K) m : list (K * V) :=
  List.filter (λ p, negb (bool_decide (p.1 = k))) m.

Lemma hm_get_insert k k' v m :
  hm_get k (hm_insert k' v m) = if decide (k = k') then Some v else hm_get k m.
Proof.
  induction m as [|[k2 v2] m IH]; simpl; [done|].
  destruct (decide (k' = k2)); simpl; subst; [by destruct (decide (k = k2))|].
  rewrite IH. repeat case_decide; congruence.
Qed.

Lemma hm_get_insert_eq k v m : hm_get k (hm_insert k v m) = Some v.
Proof. by rewrite hm_get_insert, decide_True. Qed.

Lemma hm_get_insert_ne k k' v m : k ≠ k' → hm_get k (hm_insert k' v m) = hm_get k m.
Proof. intros. by rewrite hm_get_insert, decide_False. Qed.

Lemma hm_get_remove k k' m :
  hm_get k (hm_remove k' m) = if decide (k = k') then None else hm_get k m.
Proof.
  unfold hm_remove. induction m as [|[k2 v2] m IH]; simpl; [by case_decide|].
  case_bool_decide; simpl; rewrite IH; repeat case_decide; congruence.
Qed.

Lemma hm_get_remove_eq k m : hm_get k (hm_remove k m) = None.
Proof. by rewrite hm_get_remove, decide_True. Qed.

Lemma hm_get_remove_ne k k' m : k ≠ k' → hm_get k (hm_remove k' m) = hm_get k m.
Proof. intros. by rewrite hm_get_remove, decide_False. Qed.

Lemma hm_get_in k v m : hm_get k m = Some v → (k, v) ∈ m.
Proof.
  induction m as [|[k' v'] m IH]; simpl; [done|]. case_decide; subst.
  - intros [= ->]. by left.
  - intros. right. auto.
Qed.

Lemma hm_insert_elem k v m p : p ∈ hm_insert k v m → p = (k, v) ∨ p ∈ m.
Proof.
  induction m as [|[k' v'] m IH]; simpl; [by intros ->%list_elem_of_singleton; left|].
  case_decide as Hk; intros [->|Hp]%elem_of_cons.
  - by left.
  - right. by right.
  - right. by left.
  - destruct (IH Hp) as [->|?]; [by left|right; by right].
Qed.

Lemma hm_keys_insert k v m : NoDup m.*1 → NoDup (hm_insert k v m).*1.
Proof.
  induction m as [|[k' v'] m IH]; simpl; [by intros _; apply NoDup_singleton|].
  intros [Hn Hnd]%NoDup_cons. case_decide as Hk; simpl; apply NoDup_cons; subst; [done|].
  split; [|by apply IH]. intros Hin. apply list_elem_of_fmap in Hin as ([k2 v2] & -> & Hp).
  apply hm_insert_elem in Hp as [[= -> ->]|Hp]; [done|]. apply Hn, list_elem_of_fmap.
  by exists (k2, v2).
Qed.

Lemma hm_in_get k v m : NoDup m.*1 → (k, v) ∈ m → hm_get k m = Some v.
Proof.
  induction m as [|[k' v'] m IH]; simpl; [by intros _ ?%elem_of_nil|].
  intros [Hn Hnd]%NoDup_cons [[= <- <-]|Hin]%elem_of_cons; [by rewrite decide_True|].
  rewrite decide_False; [by apply IH|]. intros ->. apply Hn, list_elem_of_fmap.
  by exists (k', v).
Qed.
End HashMap.

#[export] Hint Rewrite @hm_get_insert_eq @hm_get_remove_eq : kld.

(** ** Tactics *)

(** Runs the next command of a goal [cmd_bind m f s = _] (or of an enclosing term) whose
    outcome is given by the lemma [H]. *)
Ltac cmd_step H :=
  first [ rewrite (cmd_bind_ok _ _ _ _ _ H)
        | rewrite (cmd_bind_err _ _ _ _ _ H)
        | rewrite (cmd_bind_panic _ _ _ _ _ H)
        | rewrite H ]; cbn beta iota.

(** Splits every conditional and match of the goal and its hypotheses, closing the
    contradictory branches. *)
Ltac split_cases :=
  repeat (case_match || case_bool_decide); simplify_eq/=; try done.
