(* ===== verification/Text.v ===== *)
(** * Numbers as text

    [Display] and [FromStr] of the unsigned integers, as the standard library of Rust defines
    them: decimal without leading zeros one way; an optional plus sign and at least one digit,
    with a range check, the other way. *)

From S2P Require Import Prelude.
From Stdlib Require Import Ascii Decimal DecimalString DecimalN.

(** [x.to_string()]. *)
Definition print_nat (z : Z) : string := NilZero.string_of_uint (N.to_uint (Z.to_N z)).

Definition digit (c : Ascii.ascii) : option Z :=
  let n := Z.of_nat (Ascii.nat_of_ascii c) - 48 in
  if bool_decide (0 ≤ n < 10) then Some n else None.

Fixpoint parse_digits (acc : Z) (s : string) : option Z :=
  match s with
  | EmptyString => Some acc
  | String c s => match digit c with Some d => parse_digits (acc * 10 + d) s | None => None end
  end.

(** [s.parse::<u..>().ok()] for a width of [w] bits. *)
Definition parse_unsigned (w : Z) (s : string) : option Z :=
  let digits := match s with String "+"%char s => s | _ => s end in
  match digits with
  | EmptyString => None
  | _ =>
      match parse_digits 0 digits with
      | Some v => if bool_decide (in_unsigned w v) then Some v else None
      | None => None
      end
  end.

Ltac eval_digit :=
  match goal with
  | |- context [digit ?c] =>
      let v := eval vm_compute in (digit c) in
      replace (digit c) with v by (vm_compute; reflexivity); cbn beta iota
  end.

Lemma parse_digits_acc u acc :
  parse_digits (Z.pos acc) (NilEmpty.string_of_uint u) = Some (Z.pos (Pos.of_uint_acc u acc)).
Proof.
  revert acc. induction u as [|u IH|u IH|u IH|u IH|u IH|u IH|u IH|u IH|u IH|u IH]; intros acc;
    cbn [NilEmpty.string_of_uint parse_digits Pos.of_uint_acc]; [done|..];
    eval_digit; rewrite <- IH; f_equal; lia.
Qed.

Lemma parse_digits_uint u :
  parse_digits 0 (NilEmpty.string_of_uint u) = Some (Z.of_N (N.of_uint u)).
Proof.
  unfold N.of_uint.
  induction u as [|u IH|u IH|u IH|u IH|u IH|u IH|u IH|u IH|u IH|u IH];
    cbn [NilEmpty.string_of_uint parse_digits Pos.of_uint Z.of_N]; [done| |..];
    eval_digit; [by rewrite <- IH|..]; rewrite <- parse_digits_acc; done.
Qed.

Lemma parse_digits_print z : 0 ≤ z → parse_digits 0 (print_nat z) = Some z.
Proof.
  intros Hz. unfold print_nat, NilZero.string_of_uint.
  destruct (N.to_uint (Z.to_N z)) eqn:Hu; [|rewrite <- Hu, parse_digits_uint,
    DecimalN.Unsigned.of_to, Z2N.id by done; done..].
  pose proof (DecimalN.Unsigned.of_to (Z.to_N z)) as Hof. rewrite Hu in Hof. simpl in Hof.
  transitivity (Some 0); [vm_compute; reflexivity|f_equal; lia].
Qed.

(** The characters of a printed number are digits. *)
Definition is_digit (c : Ascii.ascii) : Prop := is_Some (digit c).
Fixpoint all_digits (s : string) : Prop :=
  match s with EmptyString => True | String c s => is_digit c ∧ all_digits s end.

Lemma parse_digits_all acc s v : parse_digits acc s = Some v → all_digits s.
Proof.
  revert acc. induction s as [|c s IH]; intros acc; simpl; [done|].
  destruct (digit c) eqn:Hc; [|done]. intros H. split; [by eexists|by eapply IH].
Qed.

Lemma print_digits z : 0 ≤ z → all_digits (print_nat z).
Proof. intros Hz. eapply parse_digits_all, parse_digits_print, Hz. Qed.

Lemma print_nonempty z : print_nat z ≠ ""%string.
Proof. unfold print_nat, NilZero.string_of_uint. by destruct (N.to_uint _). Qed.

Lemma parse_print w z : in_unsigned w z → parse_unsigned w (print_nat z) = Some z.
Proof.
  intros Hz. pose proof (parse_digits_print z ltac:(apply Hz)) as Hp.
  pose proof (print_digits z ltac:(apply Hz)) as Hd. pose proof (print_nonempty z) as Hn.
  unfold parse_unsigned. destruct (print_nat z) as [|c s] eqn:Hs; [done|].
  assert (c ≠ "+"%char) as Hplus.
  { intros ->. destruct Hd as [[d Hd] _]. discriminate. }
  assert (match String c s with String "+"%char s => s | _ => String c s end = String c s) as ->.
  { destruct c as [[] [] [] [] [] [] [] []]; try done. }
  rewrite Hp. by rewrite bool_decide_eq_true_2.
Qed.

Lemma parse_unsigned_range w s z : parse_unsigned w s = Some z → in_unsigned w z.
Proof.
  unfold parse_unsigned. destruct (match s with String "+"%char s => s | _ => s end); [done|].
  destruct (parse_digits _ _); [|done]. case_bool_decide; [|done]. by intros [= <-].
Qed.

Lemma print_inj z1 z2 : 0 ≤ z1 → 0 ≤ z2 → print_nat z1 = print_nat z2 → z1 = z2.
Proof.
  intros H1 H2 Heq. pose proof (parse_digits_print z1 H1) as Hp.
  rewrite Heq, parse_digits_print in Hp by done. congruence.
Qed.

(** ** Suffixes *)

Fixpoint string_rev (s : string) : string :=
  match s with EmptyString => EmptyString | String c s => string_rev s +:+ String c "" end.

(** [s.ends_with(p)] and [s.strip_suffix(p)]. *)
Definition strip_suffix (p s : string) : option string :=
  match strip_prefix (string_rev p) (string_rev s) with
  | Some r => Some (string_rev r)
  | None => None
  end.
Definition ends_with (p s : string) : bool :=
  match strip_suffix p s with Some _ => true | None => false end.

(** [s.trim_end_matches(p)]: the suffix is removed as often as it occurs. *)
Fixpoint trim_end_fuel (fuel : nat) (p s : string) : string :=
  match fuel with
  | O => s
  | S fuel => match strip_suffix p s with Some r => trim_end_fuel fuel p r | None => s end
  end.
Definition trim_end_matches (p s : string) : string := trim_end_fuel (String.length s) p s.

Lemma append_nil_r s : s +:+ ""%string = s.
Proof.
  induction s as [|c s IH]; [done|]. change (String c (s +:+ ""%string) = String c s).
  by rewrite IH.
Qed.

Lemma append_assoc s1 s2 s3 : (s1 +:+ s2) +:+ s3 = s1 +:+ (s2 +:+ s3).
Proof.
  induction s1 as [|c s1 IH]; [done|].
  change (String c ((s1 +:+ s2) +:+ s3) = String c (s1 +:+ (s2 +:+ s3))). by rewrite IH.
Qed.

Lemma string_rev_app s1 s2 : string_rev (s1 +:+ s2) = string_rev s2 +:+ string_rev s1.
Proof.
  induction s1 as [|c s1 IH]; [by rewrite append_nil_r|].
  change (string_rev (s1 +:+ s2) +:+ String c "" = string_rev s2 +:+ (string_rev s1 +:+ String c "")).
  by rewrite IH, append_assoc.
Qed.

Lemma string_rev_rev s : string_rev (string_rev s) = s.
Proof.
  induction s as [|c s IH]; [done|].
  change (string_rev (string_rev s +:+ String c "") = String c s).
  rewrite string_rev_app, IH. done.
Qed.

Lemma strip_suffix_app p s : strip_suffix p (s +:+ p) = Some s.
Proof.
  unfold strip_suffix. rewrite string_rev_app, strip_prefix_app. by rewrite string_rev_rev.
Qed.

Lemma strip_suffix_Some p s r : strip_suffix p s = Some r → s = r +:+ p.
Proof.
  unfold strip_suffix. destruct (strip_prefix _ _) as [r'|] eqn:Hr; [|done]. intros [= <-].
  apply strip_prefix_Some in Hr. rewrite <- (string_rev_rev s), Hr, string_rev_app.
  by rewrite string_rev_rev.
Qed.

Lemma string_length_app s1 s2 :
  String.length (s1 +:+ s2) = (String.length s1 + String.length s2)%nat.
Proof.
  induction s1 as [|c s1 IH]; [done|].
  change (Datatypes.S (String.length (s1 +:+ s2)) = Datatypes.S (String.length s1 + String.length s2)).
  by rewrite IH.
Qed.

Lemma ends_with_app p s : ends_with p (s +:+ p) = true.
Proof. unfold ends_with. by rewrite strip_suffix_app. Qed.

(** Text of digits does not end in a text that starts with something else. *)
Lemma all_digits_app s1 s2 : all_digits (s1 +:+ s2) ↔ all_digits s1 ∧ all_digits s2.
Proof.
  induction s1 as [|c s1 IH]; [by intuition|].
  change (is_digit c ∧ all_digits (s1 +:+ s2) ↔ (is_digit c ∧ all_digits s1) ∧ all_digits s2).
  rewrite IH. tauto.
Qed.

Lemma digits_no_suffix p s : all_digits s → ¬ all_digits p → strip_suffix p s = None.
Proof.
  intros Hs Hp. destruct (strip_suffix p s) as [r|] eqn:Hr; [|done].
  apply strip_suffix_Some in Hr. rewrite Hr, all_digits_app in Hs. tauto.
Qed.

Lemma trim_end_digits p s : all_digits s → ¬ all_digits p → trim_end_matches p (s +:+ p) = s.
Proof.
  intros Hs Hp. unfold trim_end_matches. rewrite string_length_app.
  destruct p as [|c p]; [by destruct Hp|]. simpl. rewrite Nat.add_succ_r. cbn [trim_end_fuel].
  rewrite strip_suffix_app. generalize (String.length s + String.length p)%nat. intros fuel.
  destruct fuel; simpl; [done|]. by rewrite digits_no_suffix.
Qed.
