(* ===== verification/RustStd.v ===== *)
(** * Pieces of the standard library of Rust

    What the deployment manager and the command line client use of [std]: trimming, UTF-8
    validation, ordered maps, addresses as text ([IpAddr]: [FromStr] and [Display]) and paths of
    a Unix system. Text is the list of its UTF-8 bytes. *)

From Stdlib Require Import Ascii.
From stdpp Require Import sorting gmap.
From S2P Require Import Prelude Text.

#[local] Open Scope string_scope.
#[local] Open Scope Z_scope.

(** [[..].join(sep)]. *)
Fixpoint join (sep : string) (l : list string) : string :=
  match l with
  | [] => ""
  | [s] => s
  | s :: l => s +:+ sep +:+ join sep l
  end.

(** [char::to_ascii_lowercase] and [to_ascii_uppercase]. *)
Definition to_ascii_lowercase_char (c : ascii) : ascii :=
  let n := nat_of_ascii c in
  if (65 <=? n)%nat && (n <=? 90)%nat then ascii_of_nat (n + 32) else c.
Definition to_ascii_uppercase_char (c : ascii) : ascii :=
  let n := nat_of_ascii c in
  if (97 <=? n)%nat && (n <=? 122)%nat then ascii_of_nat (n - 32) else c.
Fixpoint to_ascii_lowercase (s : string) : string :=
  match s with
  | EmptyString => EmptyString
  | String c s => String (to_ascii_lowercase_char c) (to_ascii_lowercase s)
  end.

(** [str::split_once] and [str::split] for a separator that is not empty. *)
Fixpoint split_once_str (p s : string) : option (string * string) :=
  match strip_prefix p s with
  | Some r => Some (EmptyString, r)
  | None => match s with
            | EmptyString => None
            | String a s => match split_once_str p s with
                            | Some (l, r) => Some (String a l, r)
                            | None => None
                            end
            end
  end.
Fixpoint split_str_fuel (fuel : nat) (p s : string) : list string :=
  match fuel with
  | O => [s]
  | S fuel => match split_once_str p s with
              | Some (l, r) => l :: split_str_fuel fuel p r
              | None => [s]
              end
  end.
Definition split_str (p s : string) : list string := split_str_fuel (String.length s) p s.

(** [str::replace]; [skip] counts the characters of the last occurrence. *)
Fixpoint replace_from (skip : nat) (from to s : string) : string :=
  match s with
  | EmptyString => ""
  | String c s' =>
      match skip with
      | S skip => replace_from skip from to s'
      | O => if starts_with from s
             then to +:+ replace_from (String.length from - 1) from to s'
             else String c (replace_from 0 from to s')
      end
  end.
Definition replace : string → string → string → string := replace_from 0.

(** ** Trimming *)

Definition of_codes (l : list nat) : string := String.string_of_list_ascii (ascii_of_nat <$> l).

(** The encodings of the characters with the property White_Space. *)
Definition whitespace : list string :=
  of_codes <$> [[9]; [10]; [11]; [12]; [13]; [32]; [194; 133]; [194; 160]; [225; 154; 128];
    [226; 128; 128]; [226; 128; 129]; [226; 128; 130]; [226; 128; 131]; [226; 128; 132];
    [226; 128; 133]; [226; 128; 134]; [226; 128; 135]; [226; 128; 136]; [226; 128; 137];
    [226; 128; 138]; [226; 128; 168]; [226; 128; 169]; [226; 128; 175]; [226; 129; 159];
    [227; 128; 128]]%nat.

(** The rest after the first of the given pieces that the text begins (ends) with. *)
Definition strip_any (strip : string → string → option string) (pieces : list string)
    (s : string) : option string :=
  list_find (λ p, is_Some (strip p s)) pieces ≫= λ '(_, p), strip p s.

(** Fuel: a piece has at least one byte, so the length of the text is enough. *)
Fixpoint trim_fuel (strip : string → string → option string) (pieces : list string)
    (fuel : nat) (s : string) : string :=
  match fuel with
  | O => s
  | S fuel =>
      match strip_any strip pieces s with
      | Some r => trim_fuel strip pieces fuel r
      | None => s
      end
  end.
Definition trim_start_of (pieces : list string) (s : string) : string :=
  trim_fuel strip_prefix pieces (String.length s) s.
Definition trim_end_of (pieces : list string) (s : string) : string :=
  trim_fuel strip_suffix pieces (String.length s) s.

(** [s.trim()] and [s.trim_matches(|c| ..)] for a set of characters. *)
Definition trim (s : string) : string := trim_end_of whitespace (trim_start_of whitespace s).
Definition trim_matches (chars : list string) (s : string) : string :=
  trim_end_of chars (trim_start_of chars s).

Example trim_both : trim (" kld " +:+ of_codes [10; 194; 160]%nat) = "kld".
Proof. vm_compute. reflexivity. Qed.
Example trim_equals : trim_matches ["="; of_codes [10%nat]] ("ab=c==" +:+ of_codes [10%nat]) = "ab=c".
Proof. vm_compute. reflexivity. Qed.

(** ** UTF-8 *)

(** [str::from_utf8] succeeds: the well-formed byte sequences of Unicode. *)
Definition byte_range (lo hi : Z) (c : ascii) : bool :=
  let z := Z.of_N (N_of_ascii c) in bool_decide (lo ≤ z ≤ hi).
Definition tail_byte : ascii → bool := byte_range 0x80 0xBF.

Fixpoint from_utf8_ok (s : string) : bool :=
  match s with
  | EmptyString => true
  | String c s1 =>
      if byte_range 0 0x7F c then from_utf8_ok s1
      else match s1 with
      | EmptyString => false
      | String c1 s2 =>
          if byte_range 0xC2 0xDF c then tail_byte c1 && from_utf8_ok s2
          else match s2 with
          | EmptyString => false
          | String c2 s3 =>
              if byte_range 0xE0 0xEF c then
                (if byte_range 0xE0 0xE0 c then byte_range 0xA0 0xBF c1
                 else if byte_range 0xED 0xED c then byte_range 0x80 0x9F c1 else tail_byte c1) &&
                tail_byte c2 && from_utf8_ok s3
              else match s3 with
              | EmptyString => false
              | String c3 s4 =>
                  byte_range 0xF0 0xF4 c &&
                  (if byte_range 0xF0 0xF0 c then byte_range 0x90 0xBF c1
                   else if byte_range 0xF4 0xF4 c then byte_range 0x80 0x8F c1 else tail_byte c1) &&
                  tail_byte c2 && tail_byte c3 && from_utf8_ok s4
              end
          end
      end
  end.

Definition from_utf8 (s : string) : option string := if from_utf8_ok s then Some s else None.

(** ** [BTreeMap<String, V>]

    A finite map that is iterated in the order of its keys, which is the order of their bytes. *)

Definition key_le {V} (p q : string * V) : Prop := String.le p.1 q.1.
#[global] Instance key_le_dec {V} : RelDecision (@key_le V) := λ p q, _.
Definition btree_iter {V} (m : gmap string V) : list (string * V) :=
  merge_sort key_le (map_to_list m).

(** [HashMap<String, V>]: the same without an order. *)
Definition hash_iter `{HashOrder} {V} (m : gmap string V) : list (string * V) :=
  hash_order (map_to_list m).

Lemma btree_iter_perm {V} (m : gmap string V) : btree_iter m ≡ₚ map_to_list m.
Proof. apply merge_sort_Permutation. Qed.

Lemma elem_of_btree_iter {V} (m : gmap string V) k v : (k, v) ∈ btree_iter m ↔ m !! k = Some v.
Proof. by rewrite btree_iter_perm, elem_of_map_to_list. Qed.

#[global] Instance key_le_total {V} : Total (@key_le V).
Proof. intros p q. apply (total String.le). Qed.

Lemma btree_iter_sorted {V} (m : gmap string V) : Sorted key_le (btree_iter m).
Proof. apply Sorted_merge_sort, _. Qed.

#[global] Instance key_le_trans {V} : Transitive (@key_le V).
Proof. intros p q r. apply (transitivity (R := String.le)). Qed.

(** Iterating over a map whose values were changed in place. *)
Lemma btree_iter_fmap {V W} (f : V → W) (m : gmap string V) :
  btree_iter (f <$> m) = prod_map id f <$> btree_iter m.
Proof.
  apply (Sorted_unique_strong key_le).
  - intros [k1 v1] [k2 v2] H1 H2 H12 H21. assert (k1 = k2) as <- by by apply (anti_symm String.le).
    f_equal. apply elem_of_btree_iter in H1. apply list_elem_of_fmap in H2 as ([k v] & [= -> ->] & Hv).
    apply elem_of_btree_iter in Hv. rewrite lookup_fmap, Hv in H1. by injection H1.
  - apply btree_iter_sorted.
  - apply (Sorted_fmap _ key_le); [by intros [] []|]. apply btree_iter_sorted.
  - by rewrite !btree_iter_perm, map_to_list_fmap.
Qed.

Lemma hash_iter_perm `{HashOrderLaws} {V} (m : gmap string V) : hash_iter m ≡ₚ map_to_list m.
Proof. apply hash_order_perm. Qed.

Lemma elem_of_hash_iter `{HashOrderLaws} {V} (m : gmap string V) k v :
  (k, v) ∈ hash_iter m ↔ m !! k = Some v.
Proof. by rewrite hash_iter_perm, elem_of_map_to_list. Qed.

#[export] Hint Rewrite @elem_of_btree_iter : kld.

(** ** Addresses

    [IpAddr]: four octets, or eight groups of 16 bits. A parser returns what it read and the
    rest of the text; [read_atomically] is that a failing parser returns no rest. *)

Inductive IpAddr :=
| V4 (a b c d : Z)
| V6 (segments : list Z).
#[global] Instance IpAddr_eq_dec : EqDecision IpAddr.
Proof. solve_decision. Defined.

Definition is_ipv4 (a : IpAddr) : bool := match a with V4 _ _ _ _ => true | V6 _ => false end.
Definition is_ipv6 (a : IpAddr) : bool := negb (is_ipv4 a).

Abbreviation parser A := (string → option (A * string)).

(** [char::to_digit] for a radix of at most 16. *)
Definition to_digit (radix : Z) (c : ascii) : option Z :=
  let n := Z.of_nat (nat_of_ascii c) in
  let d := if bool_decide (48 ≤ n ≤ 57) then n - 48
           else if bool_decide (97 ≤ n ≤ 102) then n - 87
           else if bool_decide (65 ≤ n ≤ 70) then n - 55 else 16 in
  if bool_decide (d < radix) then Some d else None.

Definition read_given_char (c : ascii) : parser () := λ s,
  match s with
  | String a s => if Ascii.eqb a c then Some ((), s) else None
  | "" => None
  end.

(** The loop of [read_number]: fails when the value overflows [w] bits or there are more than
    [max] digits. *)
Fixpoint read_digits (radix w : Z) (max count : nat) (acc : Z) (s : string) :
    option (Z * nat * string) :=
  match s with
  | String c s' =>
      match to_digit radix c with
      | Some d =>
          let acc := acc * radix + d in
          if bool_decide (in_unsigned w acc ∧ S count ≤ max)%nat
          then read_digits radix w max (S count) acc s' else None
      | None => Some (acc, count, s)
      end
  | "" => Some (acc, count, "")
  end.
Definition read_number (radix w : Z) (max : nat) (allow_zero_prefix : bool) : parser Z := λ s,
  let has_leading_zero := match s with String "0"%char _ => true | _ => false end in
  match read_digits radix w max 0 0 s with
  | Some (v, count, rest) =>
      if bool_decide (count = 0)%nat then None
      else if negb allow_zero_prefix && has_leading_zero && bool_decide (1 < count)%nat then None
      else Some (v, rest)
  | None => None
  end.
Definition read_separator {A} (sep : ascii) (index : nat) (inner : parser A) : parser A := λ s,
  if bool_decide (0 < index)%nat then '((), s) ← read_given_char sep s; inner s else inner s.

Definition read_octet (index : nat) : parser Z :=
  read_separator "." index (read_number 10 8 3 false).
Definition read_ipv4_addr : parser (Z * Z * Z * Z) := λ s,
  '(a, s) ← read_octet 0 s; '(b, s) ← read_octet 1 s;
  '(c, s) ← read_octet 2 s; '(d, s) ← read_octet 3 s; Some ((a, b, c, d), s).

(** [read_groups]: up to [remaining] groups, the last two of which may be written as an IPv4
    address. *)
Fixpoint read_groups (remaining index : nat) (s : string) : list Z * bool * string :=
  match remaining with
  | O => ([], false, s)
  | S rest =>
      match (match rest with
             | O => None
             | S _ => read_separator ":" index read_ipv4_addr s
             end) with
      | Some ((a, b, c, d), s) => ([a * 256 + b; c * 256 + d], true, s)
      | None =>
          match read_separator ":" index (read_number 16 16 4 true) s with
          | Some (g, s) => let '(gs, ipv4, s) := read_groups rest (S index) s in (g :: gs, ipv4, s)
          | None => ([], false, s)
          end
      end
  end.
Definition read_ipv6_addr : parser (list Z) := λ s,
  let '(head, head_ipv4, s) := read_groups 8 0 s in
  if bool_decide (length head = 8)%nat then Some (head, s)
  else if head_ipv4 then None
  else
    '((), s) ← read_given_char ":" s; '((), s) ← read_given_char ":" s;
    let '(tail, _, s) := read_groups (8 - (length head + 1)) 0 s in
    Some ((head ++ replicate (8 - length head - length tail) 0 ++ tail)%list, s).

(** [s.parse::<IpAddr>().ok()]. *)
Definition parse_ip (s : string) : option IpAddr :=
  match (match read_ipv4_addr s with
         | Some ((a, b, c, d), rest) => Some (V4 a b c d, rest)
         | None => '(g, rest) ← read_ipv6_addr s; Some (V6 g, rest)
         end) with
  | Some (a, "") => Some a
  | _ => None
  end.

(** [Display]. *)
Definition hex_digit (d : Z) : string :=
  of_codes [if bool_decide (d < 10) then (48 + Z.to_nat d)%nat else (87 + Z.to_nat d)%nat].
Definition print_hex16 (z : Z) : string :=
  (if bool_decide (4096 ≤ z) then hex_digit (z / 4096) else "") +:+
  (if bool_decide (256 ≤ z) then hex_digit (z / 256 mod 16) else "") +:+
  (if bool_decide (16 ≤ z) then hex_digit (z / 16 mod 16) else "") +:+ hex_digit (z mod 16).
Definition print_ipv4 (a b c d : Z) : string :=
  join "." [print_nat a; print_nat b; print_nat c; print_nat d].
Definition fmt_subslice (l : list Z) : string := join ":" (print_hex16 <$> l).

(** The first longest run of zeros, as its start and its length. *)
Fixpoint zero_run (l : list Z) (i : nat) (current longest : nat * nat) : nat * nat :=
  match l with
  | [] => longest
  | z :: l =>
      if bool_decide (z = 0) then
        let current := (if bool_decide (current.2 = 0)%nat then i else current.1, S current.2) in
        zero_run l (S i) current (if bool_decide (longest.2 < current.2)%nat then current else longest)
      else zero_run l (S i) (0, 0)%nat longest
  end.
Definition print_ipv6 (l : list Z) : string :=
  match l with
  | [0; 0; 0; 0; 0; 65535; g; h] =>
      "::ffff:" +:+ print_ipv4 (g / 256) (g mod 256) (h / 256) (h mod 256)
  | _ =>
      let '(start, len) := zero_run l 0 (0, 0)%nat (0, 0)%nat in
      if bool_decide (1 < len)%nat
      then fmt_subslice (take start l) +:+ "::" +:+ fmt_subslice (drop (start + len) l)
      else fmt_subslice l
  end.
Definition print_ip (a : IpAddr) : string :=
  match a with V4 a b c d => print_ipv4 a b c d | V6 l => print_ipv6 l end.

Example parse_ip_examples :
  parse_ip "199.127.64.2" = Some (V4 199 127 64 2) ∧ parse_ip "199.127.64.02" = None ∧
  parse_ip "2605:9880:400::1" = Some (V6 [9733; 39040; 1024; 0; 0; 0; 0; 1]) ∧
  parse_ip "::ffff:1.2.3.4" = Some (V6 [0; 0; 0; 0; 0; 65535; 258; 772]) ∧
  parse_ip "2607:5300:203:7cdf::/" = None ∧ parse_ip "1::2::3" = None ∧ parse_ip "" = None ∧
  parse_ip "1:2:3:4:5:6:7::" = Some (V6 [1; 2; 3; 4; 5; 6; 7; 0]) ∧ parse_ip "256.1.1.1" = None.
Proof. vm_compute. repeat split. Qed.

Example print_ip_examples :
  print_ip (V6 [9733; 39040; 1024; 0; 0; 0; 0; 1]) = "2605:9880:400::1" ∧
  print_ip (V4 192 168 0 1) = "192.168.0.1" ∧ print_ip (V6 (replicate 8 0)) = "::" ∧
  print_ip (V6 [0; 0; 0; 0; 0; 65535; 258; 772]) = "::ffff:1.2.3.4" ∧
  print_ip (V6 [1; 0; 2; 3; 4; 5; 6; 65535]) = "1:0:2:3:4:5:6:ffff".
Proof. vm_compute. repeat split. Qed.

(** ** Paths of a Unix system *)

Definition is_relative (p : string) : bool := negb (starts_with "/" p).

(** [base.join(p)]. *)
Definition path_join (base p : string) : string :=
  if starts_with "/" p then p
  else if bool_decide (base = "") || ends_with "/" base then base +:+ p
  else base +:+ "/" +:+ p.

(** ** What the parsers of addresses read

    A parser reads a beginning of the text. None of its characters is a slash, and the numbers
    have their width. *)

Definition over (P : ascii → Prop) (u : string) : Prop := Forall P (String.list_ascii_of_string u).
Definition reads {A} (P : ascii → Prop) (Q : A → Prop) (p : parser A) : Prop :=
  ∀ s a r, p s = Some (a, r) → (∃ u, s = u +:+ r ∧ over P u) ∧ Q a.

Lemma over_app P u v : over P (u +:+ v) ↔ over P u ∧ over P v.
Proof.
  unfold over. induction u as [|c u IH]; [simpl; naive_solver|].
  change (Forall P (c :: String.list_ascii_of_string (u +:+ v)) ↔
          Forall P (c :: String.list_ascii_of_string u) ∧ Forall P (String.list_ascii_of_string v)).
  rewrite !Forall_cons, IH. tauto.
Qed.

Definition address_char (c : ascii) : Prop := is_Some (to_digit 16 c) ∨ c = "."%char ∨ c = ":"%char.

Lemma to_digit_10 c d : to_digit 10 c = Some d → to_digit 16 c = Some d.
Proof. unfold to_digit. repeat case_bool_decide; intros [= <-]; try done; lia. Qed.

Lemma reads_char c : address_char c → reads address_char (λ _, True) (read_given_char c).
Proof.
  intros Hc [|a s] [] r; simpl; [done|]. destruct (Ascii.eqb_spec a c); [|done]. intros [= <-].
  subst. split; [|done]. exists (String c ""). split; [done|]. by constructor.
Qed.

Lemma read_digits_spec radix w max count acc s v n r :
  (radix = 10 ∨ radix = 16) → in_unsigned w acc → read_digits radix w max count acc s = Some (v, n, r) →
  (∃ u, s = u +:+ r ∧ over address_char u) ∧ in_unsigned w v.
Proof.
  intros Hr. revert count acc. induction s as [|c s IH]; intros count acc Hacc; simpl.
  - intros [= <- <- <-]. split; [|done]. exists "". by split; [|constructor].
  - destruct (to_digit radix c) as [d|] eqn:Hd.
    + case_bool_decide as Hb; [|done]. intros H. apply IH in H as [(u & -> & Hu) Hv]; [|by apply Hb].
      split; [|done]. exists (String c u). split; [done|]. constructor; [|done]. left.
      exists d. destruct Hr as [-> | ->]; [by apply to_digit_10|done].
    + intros [= <- <- <-]. split; [|done]. exists "". by split; [|constructor].
Qed.

Lemma reads_number radix w max z :
  (radix = 10 ∨ radix = 16) → 0 ≤ w → reads address_char (in_unsigned w) (read_number radix w max z).
Proof.
  intros Hr Hw s a r. unfold read_number.
  destruct (read_digits radix w max 0 0 s) as [[[v n] r']|] eqn:Hd; [|done].
  apply read_digits_spec in Hd; [|done|unfold in_unsigned; lia].
  repeat case_match; intros [= <- <-]; done.
Qed.

Lemma reads_separator {A} Q c i (p : parser A) :
  address_char c → reads address_char Q p → reads address_char Q (read_separator c i p).
Proof.
  intros Hc Hp s a r. unfold read_separator. case_bool_decide; [|apply Hp].
  destruct (read_given_char c s) as [[[] s']|] eqn:Hs; [|done]. simpl. intros Hr.
  apply reads_char in Hs as [(u & -> & Hu) _]; [|done]. apply Hp in Hr as [(v & -> & Hv) HQ].
  split; [|done]. exists (u +:+ v). by rewrite append_assoc, over_app.
Qed.

Definition octets_ok (a b c d : Z) : Prop :=
  in_unsigned 8 a ∧ in_unsigned 8 b ∧ in_unsigned 8 c ∧ in_unsigned 8 d.

Lemma reads_octet i : reads address_char (in_unsigned 8) (read_octet i).
Proof. apply reads_separator; [right; by left|]. apply reads_number; [by left|lia]. Qed.

Lemma reads_ipv4_addr :
  reads address_char (λ '(a, b, c, d), octets_ok a b c d) read_ipv4_addr.
Proof.
  intros s [[[a b] c] d] r. unfold read_ipv4_addr.
  destruct (read_octet 0 s) as [[a' s1]|] eqn:H1; [|done]. simpl.
  destruct (read_octet 1 s1) as [[b' s2]|] eqn:H2; [|done]. simpl.
  destruct (read_octet 2 s2) as [[c' s3]|] eqn:H3; [|done]. simpl.
  destruct (read_octet 3 s3) as [[d' s4]|] eqn:H4; [|done]. simpl. intros [= -> -> -> -> ->].
  apply reads_octet in H1 as [(u1 & -> & Hu1) Ha], H2 as [(u2 & -> & Hu2) Hb],
    H3 as [(u3 & -> & Hu3) Hc], H4 as [(u4 & -> & Hu4) Hd].
  split; [|by split_and!]. exists (u1 +:+ u2 +:+ u3 +:+ u4).
  rewrite !append_assoc, !over_app. by split_and!.
Qed.

Lemma read_groups_spec n i s l v4 r :
  read_groups n i s = (l, v4, r) →
  (∃ u, s = u +:+ r ∧ over address_char u) ∧ Forall (in_unsigned 16) l ∧ (length l ≤ n)%nat.
Proof.
  assert (address_char ":") as Hc by (right; by right).
  revert i s l v4 r. induction n as [|n IH]; intros i s l v4 r; cbn [read_groups].
  - intros [= <- <- <-]. split; [exists ""; by split; [|constructor]|]. split; [by constructor|simpl; lia].
  - match goal with |- context [match ?o with Some _ => _ | None => _ end] =>
      destruct o as [[[[[a b] c] d] s']|] eqn:H4 end.
    + intros [= <- <- <-]. destruct n as [|n]; [done|].
      apply (reads_separator _ _ _ _ Hc reads_ipv4_addr) in H4 as [Hu (Ha & Hb & Hc' & Hd)].
      split; [done|]. unfold in_unsigned in *. split; [repeat constructor; lia|simpl; lia].
    + clear H4. destruct (read_separator ":" i _ s) as [[g s']|] eqn:Hg.
      * apply (reads_separator (in_unsigned 16) _ _ _ Hc) in Hg as [(u & -> & Hu) HQ];
          [|apply reads_number; [by right|lia]].
        destruct (read_groups n (S i) s') as [[gs v4'] s''] eqn:Hgs. intros [= <- <- <-].
        apply IH in Hgs as [(v & -> & Hv) [Hl Hn]]. split; [|split; [by constructor|simpl; lia]].
        exists (u +:+ v). by rewrite append_assoc, over_app.
      * intros [= <- <- <-]. split; [exists ""; by split; [|constructor]|]. split; [by constructor|simpl; lia].
Qed.

Lemma reads_ipv6_addr :
  reads address_char (λ l, Forall (in_unsigned 16) l ∧ length l = 8%nat) read_ipv6_addr.
Proof.
  intros s l r. unfold read_ipv6_addr.
  destruct (read_groups 8 0 s) as [[hd v4] s1] eqn:Hh.
  apply read_groups_spec in Hh as [(u & -> & Hu) [Hhd Hn]].
  case_bool_decide as H8; [intros [= <- <-]; split; [by exists u|done]|]. destruct v4; [done|].
  assert (reads address_char (λ _, True) (read_given_char ":")) as Hcolon
    by (apply reads_char; right; by right).
  destruct (read_given_char ":" s1) as [[[] s2]|] eqn:H1; [|done]. simpl.
  destruct (read_given_char ":" s2) as [[[] s3]|] eqn:H2; [|done]. simpl.
  apply Hcolon in H1 as [(u1 & -> & Hu1) _], H2 as [(u2 & -> & Hu2) _].
  destruct (read_groups _ 0 s3) as [[tl v4] s4] eqn:Ht.
  apply read_groups_spec in Ht as [(u3 & -> & Hu3) [Htl Hm]]. intros [= <- <-]. split.
  - exists (u +:+ u1 +:+ u2 +:+ u3). rewrite !append_assoc, !over_app. by split_and!.
  - rewrite !Forall_app, !length_app, length_replicate. split; [|lia].
    split_and!; [done| |done]. apply Forall_replicate. by split.
Qed.

(** An address that was read is well formed. *)
Definition ip_ok (a : IpAddr) : Prop :=
  match a with
  | V4 a b c d => octets_ok a b c d
  | V6 l => Forall (in_unsigned 16) l ∧ length l = 8%nat
  end.

Lemma parse_ip_spec s a : parse_ip s = Some a → over address_char s ∧ ip_ok a.
Proof.
  unfold parse_ip. destruct (read_ipv4_addr s) as [[[[[x y] z] t] r]|] eqn:H4.
  - destruct r; [|done]. intros [= <-]. apply reads_ipv4_addr in H4 as [(u & -> & Hu) ?].
    by rewrite append_nil_r.
  - destruct (read_ipv6_addr s) as [[g r]|] eqn:H6; simpl; [|done]. destruct r; [|done].
    intros [= <-]. apply reads_ipv6_addr in H6 as [(u & -> & Hu) ?]. by rewrite append_nil_r.
Qed.

Lemma split_once_over c u v :
  over (λ a, a ≠ c) u → split_once c (u +:+ String c v) = Some (u, v).
Proof.
  unfold over. induction u as [|a u IH]; [intros _; simpl; by rewrite Ascii.eqb_refl|].
  change (String a u +:+ String c v) with (String a (u +:+ String c v)).
  intros [Ha Hu]%Forall_cons. simpl. destruct (Ascii.eqb_spec a c); [done|]. by rewrite IH.
Qed.

Lemma split_once_Some c s u v : split_once c s = Some (u, v) → s = u +:+ String c v.
Proof.
  revert u. induction s as [|a s IH]; intros u; simpl; [done|].
  destruct (Ascii.eqb_spec a c) as [->|_]; [by intros [= <- <-]|].
  destruct (split_once c s) as [[u' v']|]; [|done]. intros [= <- <-]. by rewrite (IH u').
Qed.
Lemma split_once_none c u : over (λ a, a ≠ c) u → split_once c u = None.
Proof.
  unfold over. induction u as [|a u IH]; [done|]. intros [Ha Hu]%Forall_cons. simpl.
  destruct (Ascii.eqb_spec a c); [done|]. by rewrite IH.
Qed.

Lemma over_impl (P Q : ascii → Prop) u : (∀ c, P c → Q c) → over P u → over Q u.
Proof. intros HPQ Hu. by eapply Forall_impl. Qed.

Lemma address_char_no_slash c : address_char c → c ≠ "/"%char.
Proof. intros Hc ->. by destruct Hc as [[d Hd]|[Hd|Hd]]. Qed.

Lemma path_join_inj base p q :
  is_relative p = true → is_relative q = true → path_join base p = path_join base q → p = q.
Proof.
  unfold is_relative, path_join. intros Hp%negb_true_iff Hq%negb_true_iff. rewrite Hp, Hq.
  destruct (_ || _); [apply (inj (String.append base))|].
  intros H%(inj (String.append base)). by apply (inj (String.append "/")) in H.
Qed.

Lemma path_join_pre base dir : is_relative dir = true → ∃ pre, path_join base dir = pre +:+ dir.
Proof.
  unfold is_relative, path_join. intros ->%negb_true_iff. destruct (_ || _); [by eexists|].
  exists (base +:+ "/"). by rewrite append_assoc.
Qed.

Lemma path_join_file base p :
  base ≠ "" → ends_with "/" base = false → is_relative p = true →
  path_join base p = base +:+ "/" +:+ p.
Proof.
  unfold is_relative, path_join. intros Hb He ->%negb_true_iff.
  by rewrite bool_decide_eq_false_2, He.
Qed.

Lemma strip_prefix_app_l p u v :
  (String.length p ≤ String.length u)%nat →
  starts_with p (u +:+ v) = starts_with p u.
Proof.
  unfold starts_with. revert u. induction p as [|a p IH]; intros [|b u] Hl; simpl in *; try done; [lia|].
  change (strip_prefix (String a p) (String b u +:+ v)) with
    (if Ascii.eqb a b then strip_prefix p (u +:+ v) else None). destruct (Ascii.eqb a b); [|done].
  apply IH. lia.
Qed.

Lemma string_length_rev s : String.length (string_rev s) = String.length s.
Proof. induction s as [|c s IH]; simpl; [done|]. rewrite string_length_app, IH. simpl. lia. Qed.

Lemma ends_with_app_r p u v :
  (String.length p ≤ String.length v)%nat → ends_with p (u +:+ v) = ends_with p v.
Proof.
  intros Hl. assert (∀ s, ends_with p s = starts_with (string_rev p) (string_rev s)) as Hrev.
  { intros s. unfold ends_with, strip_suffix, starts_with. by destruct (strip_prefix _ _). }
  rewrite !Hrev, string_rev_app. apply strip_prefix_app_l. by rewrite !string_length_rev.
Qed.

(** Joining twice, when the directory has a name. *)
Lemma path_join_join base dir p :
  is_relative dir = true → dir ≠ "" → ends_with "/" dir = false → is_relative p = true →
  path_join (path_join base dir) p = path_join base (dir +:+ "/" +:+ p).
Proof.
  intros Hd Hne He Hp. destruct (path_join_pre base dir Hd) as [pre Hpre].
  rewrite path_join_file; [|rewrite Hpre|rewrite Hpre|done].
  - unfold is_relative, path_join in *. apply negb_true_iff in Hd.
    assert (starts_with "/" (dir +:+ "/" +:+ p) = false) as ->.
    { rewrite strip_prefix_app_l; [done|]. destruct dir; [done|]. simpl. lia. }
    rewrite Hd. destruct (_ || _); by rewrite ?append_assoc.
  - destruct pre, dir; done.
  - rewrite ends_with_app_r; [done|]. destruct dir; [done|]. simpl. lia.
Qed.

(** ** Splitting and replacing *)

Lemma split_char_over sep a : over (λ c, c ≠ sep) a → split_char sep a = [a].
Proof.
  induction a as [|c a IH]; [done|]. unfold over. simpl. intros [Hc Ha]%Forall_cons.
  destruct (Ascii.eqb_spec c sep) as [->|_]; [done|]. by rewrite IH.
Qed.

Lemma split_char_app sep pre a :
  split_char sep (pre +:+ String sep a) = (split_char sep pre ++ split_char sep a)%list.
Proof.
  induction pre as [|c pre IH]; simpl; [by rewrite Ascii.eqb_refl|]. rewrite IH.
  destruct (Ascii.eqb c sep); [done|]. by destruct (split_char sep pre) eqn:Hs; [destruct pre as [|b pre]; simpl in Hs; repeat case_match|].
Qed.

Lemma split_char_join sep l : l ≠ [] → Forall (over (λ c, c ≠ sep)) l →
  split_char sep (join (String sep "") l) = l.
Proof.
  intros Hne Hl. induction Hl as [|s l Hs Hl IH]; [done|]. destruct l as [|s' l].
  - by apply split_char_over.
  - change (join (String sep "") (s :: s' :: l)) with (s +:+ String sep (join (String sep "") (s' :: l))).
    rewrite split_char_app, IH by done. by rewrite split_char_over.
Qed.

Lemma split_once_str_here p u v : over (λ a, ∀ q, strip_prefix p (String a q) = None) u →
  is_Some (strip_prefix p (p +:+ v)) → split_once_str p (u +:+ p +:+ v) = Some (u, v).
Proof.
  intros Hu _. induction u as [|a u IH].
  - change ("" +:+ p +:+ v) with (p +:+ v). pose proof (strip_prefix_app p v) as Hp.
    destruct (p +:+ v) as [|b r]; simpl in *; by rewrite Hp.
  - unfold over in Hu. simpl in Hu. apply Forall_cons in Hu as [Ha Hu].
    change (String a u +:+ p +:+ v) with (String a (u +:+ p +:+ v)). simpl.
    rewrite Ha, IH by done. done.
Qed.

Lemma split_once_str_not p u : over (λ a, ∀ q, strip_prefix p (String a q) = None) u →
  strip_prefix p "" = None → split_once_str p u = None.
Proof.
  intros Hu Hp. induction u as [|a u IH]; simpl; [by rewrite Hp|].
  unfold over in Hu. simpl in Hu. apply Forall_cons in Hu as [Ha Hu]. by rewrite Ha, IH.
Qed.

Lemma replace_over c from to u v : over (λ a, a ≠ c) u →
  replace (String c from) to (u +:+ v) = u +:+ replace (String c from) to v.
Proof.
  unfold replace. induction u as [|a u IH]; [done|]. unfold over. simpl.
  intros [Ha Hu]%Forall_cons. unfold starts_with at 1. simpl.
  destruct (Ascii.eqb_spec c a) as [->|_]; [done|]. by rewrite IH.
Qed.

