(* ===== verification/Addresses.v ===== *)
(** * The text of addresses is read back

    [Display] of the addresses of [std::net] and the parser of the same module are inverse: the
    text of an address, followed by what is no part of one, is read as that address. The
    addresses of sockets, an address with a port, are built on them. *)

From Stdlib Require Import Ascii.
From S2P Require Import Prelude Text RustStd.

#[local] Open Scope string_scope.
#[local] Open Scope Z_scope.

(** ** Addresses of sockets *)

(** [SocketAddr]; the flow information and the scope of an IPv6 one are left out by [Display]
    when they are zero. *)
Record SocketAddr := mk_socket_addr { sa_ip : IpAddr; sa_port : Z }.
#[global] Instance SocketAddr_eq_dec : EqDecision SocketAddr.
Proof. solve_decision. Defined.

Definition read_port : parser Z := λ s,
  '((), s) ← read_given_char ":" s; read_number 10 16 (String.length s) true s.
Definition read_scope_id : parser Z := λ s,
  '((), s) ← read_given_char "%" s; read_number 10 32 (String.length s) true s.
Definition read_socket_addr_v4 : parser SocketAddr := λ s,
  '((a, b, c, d), s) ← read_ipv4_addr s; '(port, s) ← read_port s;
  Some (mk_socket_addr (V4 a b c d) port, s).
(** The address and its scope, which is 0 when it is not given. *)
Definition read_socket_addr_v6 : parser (SocketAddr * Z) := λ s,
  '((), s) ← read_given_char "[" s; '(l, s) ← read_ipv6_addr s;
  let '(scope, s) := match read_scope_id s with Some (i, s) => (i, s) | None => (0, s) end in
  '((), s) ← read_given_char "]" s; '(port, s) ← read_port s;
  Some (mk_socket_addr (V6 l) port, scope, s).
(** [s.parse::<SocketAddr>().ok()], with the scope. *)
Definition parse_socket_addr (s : string) : option (SocketAddr * Z) :=
  match (match read_socket_addr_v4 s with
         | Some (a, rest) => Some (a, 0, rest)
         | None => read_socket_addr_v6 s
         end) with
  | Some (r, "") => Some r
  | _ => None
  end.

Example parse_socket_addr_examples :
  parse_socket_addr "127.0.0.1:2312" = Some (mk_socket_addr (V4 127 0 0 1) 2312, 0) ∧
  parse_socket_addr "[2001:db8::1]:1212" =
    Some (mk_socket_addr (V6 [8193; 3512; 0; 0; 0; 0; 0; 1]) 1212, 0) ∧
  parse_socket_addr "[fe80::1%3]:80" = Some (mk_socket_addr (V6 [65152; 0; 0; 0; 0; 0; 0; 1]) 80, 3) ∧
  parse_socket_addr "127.0.0.1:65536" = None ∧ parse_socket_addr "::1:80" = None.
Proof. vm_compute. repeat split. Qed.

(** ** Texts that a parser reads *)

(** The text goes on with no character of [P]. *)
Definition stops (P : ascii → Prop) (s : string) : Prop :=
  match s with String c _ => ¬ P c | "" => True end.
(** Followed by no character of [P], the text is read as [a]. *)
Definition reads_as {A} (P : ascii → Prop) (p : parser A) (u : string) (a : A) : Prop :=
  ∀ rest, stops P rest → p (u +:+ rest) = Some (a, rest).

Lemma stops_impl (P Q : ascii → Prop) s : (∀ c, Q c → P c) → stops P s → stops Q s.
Proof. destruct s; simpl; auto. Qed.

(** A text is cut in one way into characters of [P] and a rest without one at its start. *)
Lemma span_unique (P : ascii → Prop) u v r s :
  over P u → over P v → stops P r → stops P s → u +:+ r = v +:+ s → u = v ∧ r = s.
Proof.
  unfold over. revert v. induction u as [|c u IH]; intros [|d v]; cbn [String.list_ascii_of_string].
  - done.
  - intros _ [Hd _]%Forall_cons Hr _ Heq. change (r = String d (v +:+ s)) in Heq. subst. destruct (Hr Hd).
  - intros [Hc _]%Forall_cons _ _ Hs Heq. change (String c (u +:+ r) = s) in Heq. subst. destruct (Hs Hc).
  - intros [_ Hu]%Forall_cons [_ Hv]%Forall_cons Hr Hs Heq. injection Heq as -> Heq.
    by destruct (IH v Hu Hv Hr Hs Heq) as [-> ->].
Qed.

(** ** Numbers *)

Definition digit_of (radix : Z) (c : ascii) : Prop := is_Some (to_digit radix c).

Lemma to_digit_decimal c : to_digit 10 c = digit c.
Proof.
  unfold to_digit, digit. repeat case_bool_decide; try lia; try done; f_equal; lia.
Qed.

Lemma read_digits_app radix w max n acc u v k rest :
  stops (digit_of radix) rest → read_digits radix w max n acc u = Some (v, k, "") →
  read_digits radix w max n acc (u +:+ rest) = Some (v, k, rest).
Proof.
  intros Hs. revert n acc. induction u as [|c u IH]; intros n acc; simpl.
  - intros [= -> ->]. destruct rest as [|c rest]; simpl; [done|].
    destruct (to_digit radix c) eqn:Hc; [|done]. destruct Hs. by eexists.
  - destruct (to_digit radix c); [|done]. case_bool_decide; [|done]. apply IH.
Qed.

Lemma digit_range c d : digit c = Some d → 0 ≤ d < 10.
Proof. unfold digit. cbv zeta. case_bool_decide; [intros [= <-]; lia|done]. Qed.

Lemma parse_digits_ge acc u v : 0 ≤ acc → parse_digits acc u = Some v → acc ≤ v.
Proof.
  revert acc. induction u as [|c u IH]; intros acc Hacc; simpl; [intros [= <-]; lia|].
  destruct (digit c) eqn:Hd; [|done]. apply digit_range in Hd. intros Hp. apply IH in Hp; [|lia]. lia.
Qed.

Lemma read_digits_decimal w max n acc u v :
  0 ≤ acc → parse_digits acc u = Some v → in_unsigned w v → (n + String.length u ≤ max)%nat →
  read_digits 10 w max n acc u = Some (v, (n + String.length u)%nat, "").
Proof.
  revert n acc. induction u as [|c u IH]; intros n acc Hacc; simpl.
  - intros [= ->] _ _. by rewrite Nat.add_0_r.
  - rewrite to_digit_decimal. destruct (digit c) as [d|] eqn:Hd; [|done].
    apply digit_range in Hd.
    intros Hp Hv Hmax. pose proof (parse_digits_ge (acc * 10 + d) u v ltac:(lia) Hp).
    rewrite bool_decide_eq_true_2 by (unfold in_unsigned in *; split; lia).
    rewrite (IH (S n)) by (done || lia). do 3 f_equal. lia.
Qed.

(** A number is read back, by a parser that takes as many digits as it has. *)
Lemma number_read_back w max zero z :
  in_unsigned w z → (String.length (print_nat z) ≤ max)%nat →
  (zero = false → String.length (print_nat z) = 1%nat ∨ ∃ c s, print_nat z = String c s ∧ c ≠ "0"%char) →
  reads_as (digit_of 10) (read_number 10 w max zero) (print_nat z) z.
Proof.
  intros Hz Hmax Hlead rest Hs. unfold read_number.
  rewrite (read_digits_app _ _ _ _ _ _ z (String.length (print_nat z)) _ Hs).
  2: { apply (read_digits_decimal w max 0 0); [done|apply parse_digits_print, Hz|done|done]. }
  pose proof (print_nonempty z) as Hne. destruct (print_nat z) as [|c s]; [done|].
  rewrite bool_decide_eq_false_2 by done. destruct zero; simpl; [done|].
  destruct (Hlead eq_refl) as [Hone | (c' & s' & [= <- <-] & Hc)].
  - simpl in Hone. rewrite (bool_decide_eq_false_2 (1 < _)%nat) by lia. by rewrite andb_false_r.
  - destruct c as [[] [] [] [] [] [] [] []]; try done.
Qed.

(** Octets have at most three digits and no zero before them. *)
Lemma octet_digits z : in_unsigned 8 z →
  (String.length (print_nat z) ≤ 3)%nat ∧
  (String.length (print_nat z) = 1%nat ∨ ∃ c s, print_nat z = String c s ∧ c ≠ "0"%char).
Proof.
  assert (Forall (λ n, (bool_decide (String.length (print_nat (Z.of_nat n)) ≤ 3)%nat &&
    (bool_decide (String.length (print_nat (Z.of_nat n)) = 1%nat) ||
     match print_nat (Z.of_nat n) with String c _ => negb (Ascii.eqb c "0") | _ => false end)) = true)
    (seq 0 256)) as Hall by (apply (bool_decide_unpack _); vm_compute; exact I).
  intros [Hlo Hhi]. rewrite Forall_forall in Hall.
  specialize (Hall (Z.to_nat z) ltac:(apply elem_of_seq; lia)). rewrite Z2Nat.id in Hall by done.
  apply andb_true_iff in Hall as [H3 Hor]. apply bool_decide_eq_true in H3. split; [done|].
  apply orb_true_iff in Hor as [H1|Hc]; [left; by apply bool_decide_eq_true in H1|right].
  destruct (print_nat z) as [|c s]; [done|]. exists c, s. split; [done|]. by intros ->.
Qed.

Lemma digit_of_decimal_hex c : digit_of 10 c → digit_of 16 c.
Proof. intros [d Hd]. exists d. by apply to_digit_10. Qed.

Lemma hex_digit_spec d : 0 ≤ d < 16 → ∃ c, hex_digit d = String c "" ∧ to_digit 16 c = Some d.
Proof.
  intros Hd. assert (d ∈ Z.of_nat <$> seq 0 16) as Hin.
  { apply list_elem_of_fmap. exists (Z.to_nat d). split; [lia|]. apply elem_of_seq. lia. }
  cbn in Hin. repeat (apply elem_of_cons in Hin as [->|Hin];
    [eexists; split; [vm_compute; reflexivity|vm_compute; reflexivity]|]).
  by apply elem_of_nil in Hin.
Qed.

Lemma read_digits_step radix w max n acc c d u :
  to_digit radix c = Some d → in_unsigned w (acc * radix + d) → (S n ≤ max)%nat →
  read_digits radix w max n acc (String c u) = read_digits radix w max (S n) (acc * radix + d) u.
Proof. intros Hc Ha Hn. simpl. rewrite Hc. by rewrite bool_decide_eq_true_2. Qed.

Lemma append_cons c u v : String c u +:+ v = String c (u +:+ v).
Proof. done. Qed.
Lemma append_nil u : "" +:+ u = u.
Proof. done. Qed.

Ltac div_lia := Z.to_euclidean_division_equations; lia.

(** The digits of a group: one to four of them. *)
Lemma hex16_digits z : in_unsigned 16 z →
  ∃ c u, print_hex16 z = String c u ∧ over (digit_of 16) (print_hex16 z) ∧
    ∃ n, read_digits 16 16 4 0 0 (print_hex16 z) = Some (z, S n, "").
Proof.
  intros [Hlo Hhi]. change (2 ^ 16) with 65536 in Hhi. unfold print_hex16, over.
  destruct (hex_digit_spec (z mod 16) ltac:(div_lia)) as (c0 & -> & H0).
  destruct (hex_digit_spec (z / 16 mod 16) ltac:(div_lia)) as (c1 & -> & H1).
  destruct (hex_digit_spec (z / 256 mod 16) ltac:(div_lia)) as (c2 & -> & H2).
  destruct (bool_decide_reflect (4096 ≤ z)) as [H4|H4];
    [destruct (hex_digit_spec (z / 4096) ltac:(div_lia)) as (c3 & -> & H3)|].
  all: destruct (bool_decide_reflect (256 ≤ z)); try div_lia.
  all: destruct (bool_decide_reflect (16 ≤ z)); try div_lia.
  all: rewrite ?append_cons, ?append_nil; eexists _, _; split; [reflexivity|]; split;
    [repeat (apply Forall_cons_2; [by eexists|]); by apply Forall_nil_2|].
  all: eexists; repeat (erewrite read_digits_step; [|eassumption|split; div_lia|lia]).
  all: simpl; do 3 f_equal; div_lia.
Qed.

Lemma hex16_read_back z : in_unsigned 16 z →
  reads_as (digit_of 16) (read_number 16 16 4 true) (print_hex16 z) z.
Proof.
  intros Hz rest Hs. destruct (hex16_digits z Hz) as (c & u & _ & _ & n & Hd).
  unfold read_number. rewrite (read_digits_app _ _ _ _ _ _ z (S n) _ Hs Hd). done.
Qed.

(** ** IPv4 *)

Lemma octet_read_back z : in_unsigned 8 z →
  reads_as (digit_of 10) (read_octet 0) (print_nat z) z ∧
  ∀ i, reads_as (digit_of 10) (read_octet (S i)) ("." +:+ print_nat z) z.
Proof.
  intros Hz. destruct (octet_digits z Hz) as [Hlen Hlead].
  pose proof (number_read_back 8 3 false z Hz Hlen (λ _, Hlead)) as Hn. by split.
Qed.

Lemma dot_no_digit u : stops (digit_of 10) ("." +:+ u).
Proof. intros [d Hd]. vm_compute in Hd. done. Qed.

Lemma ipv4_read_back a b c d : octets_ok a b c d →
  reads_as (digit_of 10) read_ipv4_addr (print_ipv4 a b c d) (a, b, c, d).
Proof.
  intros (Ha & Hb & Hc & Hd) rest Hs. unfold read_ipv4_addr, print_ipv4. cbn [join].
  rewrite !append_assoc.
  rewrite (proj1 (octet_read_back a Ha) _ (dot_no_digit _)). cbn [mbind option_bind].
  rewrite <- (append_assoc "." (print_nat b)), (proj2 (octet_read_back b Hb) _ _ (dot_no_digit _)).
  cbn [mbind option_bind].
  rewrite <- (append_assoc "." (print_nat c)), (proj2 (octet_read_back c Hc) _ _ (dot_no_digit _)).
  cbn [mbind option_bind].
  by rewrite <- (append_assoc "." (print_nat d)), (proj2 (octet_read_back d Hd) _ _ Hs).
Qed.

Lemma read_digits_span radix w max n acc s v k r :
  read_digits radix w max n acc s = Some (v, k, r) →
  ∃ u, s = u +:+ r ∧ over (digit_of radix) u ∧ stops (digit_of radix) r.
Proof.
  revert n acc. induction s as [|c s IH]; intros n acc; simpl.
  - intros [= <- <- <-]. exists "". split_and!; [done|by apply Forall_nil_2|done].
  - destruct (to_digit radix c) as [d|] eqn:Hc.
    + case_bool_decide; [|done]. intros Hd. destruct (IH _ _ Hd) as (u & -> & Hu & Hr).
      exists (String c u). split_and!; [done| |done]. apply Forall_cons_2; [by exists d|done].
    + intros [= <- <- <-]. exists "". split_and!; [done|by apply Forall_nil_2|].
      intros [d Hd]. congruence.
Qed.
Lemma read_number_span radix w max zero s v r :
  read_number radix w max zero s = Some (v, r) →
  ∃ u, s = u +:+ r ∧ over (digit_of radix) u ∧ stops (digit_of radix) r.
Proof.
  unfold read_number. destruct (read_digits radix w max 0 0 s) as [[[x n] r']|] eqn:Hd; [|done].
  apply read_digits_span in Hd. repeat case_match; by intros [= -> ->].
Qed.

(** What begins with a number in hexadecimal and goes on without a dot is no IPv4 address. *)
Lemma ipv4_stops u rest :
  over (digit_of 16) u → stops (λ c, digit_of 16 c ∨ c = "."%char) rest →
  read_ipv4_addr (u +:+ rest) = None.
Proof.
  intros Hu Hr. destruct (read_ipv4_addr (u +:+ rest)) as [[q r]|] eqn:Hq; [|done]. exfalso.
  revert Hq. unfold read_ipv4_addr.
  destruct (read_octet 0 (u +:+ rest)) as [[a s1]|] eqn:H0; [|done]. cbn [mbind option_bind].
  destruct (read_octet 1 s1) as [[b s2]|] eqn:H1; [|done]. intros _.
  apply read_number_span in H0 as (v & Heq & Hv & Hs1).
  unfold read_octet, read_separator in H1. destruct s1 as [|c s1]; [done|]. simpl in H1.
  destruct (Ascii.eqb_spec c "."); [subst|done].
  destruct (span_unique (digit_of 16) u v rest (String "." s1)) as [_ ->]; [done| | | |done|].
  - by apply (over_impl (digit_of 10)); [apply digit_of_decimal_hex|].
  - eapply stops_impl; [|exact Hr]. by left.
  - intros [d Hd]. by vm_compute in Hd.
  - apply Hr. by right.
Qed.

(** ** IPv6 *)

(** Groups as they follow each other: with a colon before each but the first of all. *)
Fixpoint groups (index : nat) (l : list Z) : string :=
  match l with
  | [] => ""
  | g :: l => (match index with O => "" | S _ => ":" end) +:+ print_hex16 g +:+ groups (S index) l
  end.
Lemma groups_S i j l : groups (S i) l = groups (S j) l.
Proof. revert i j. induction l as [|g l IH]; intros i j; cbn [groups]; [done|]. by rewrite (IH _ (S j)). Qed.
Lemma groups_join l : fmt_subslice l = groups 0 l.
Proof.
  destruct l as [|g l]; [done|]. unfold fmt_subslice. cbn [groups]. rewrite append_nil.
  revert g. induction l as [|h l IH]; intros g; [by cbn; rewrite append_nil_r|].
  change (join ":" (print_hex16 <$> g :: h :: l)) with
    (print_hex16 g +:+ ":" +:+ join ":" (print_hex16 <$> h :: l)).
  rewrite IH, (groups_S 0 1). done.
Qed.

(** Where the groups end: no digit, no dot, and no group after a colon. *)
Definition ends_groups (rest : string) : Prop :=
  stops (λ c, digit_of 16 c ∨ c = "."%char) rest ∧
  match rest with String ":"%char s => stops (digit_of 16) s | _ => True end.

Lemma no_number radix w max zero s :
  stops (digit_of radix) s → read_number radix w max zero s = None.
Proof.
  intros Hs. unfold read_number. destruct s as [|c s]; [done|]. simpl in *.
  destruct (to_digit radix c) eqn:Hc; [|done]. destruct Hs. by eexists.
Qed.
Lemma no_group i s :
  match i with
  | O => stops (digit_of 16) s
  | S _ => match s with String ":"%char s => stops (digit_of 16) s | _ => True end
  end →
  read_separator ":" i read_ipv4_addr s = None ∧
  read_separator ":" i (read_number 16 16 4 true) s = None.
Proof.
  assert (∀ s, stops (digit_of 16) s → read_ipv4_addr s = None) as H4.
  { intros t Ht. unfold read_ipv4_addr.
    assert (read_octet 0 t = None) as ->; [|done]. apply (no_number 10 8 3 false t).
    eapply stops_impl; [|exact Ht]. apply digit_of_decimal_hex. }
  destruct i as [|i]; unfold read_separator; simpl; intros Hs.
  - split; [by apply H4|by apply no_number].
  - destruct s as [|c s]; [done|]. cbn [read_given_char]. destruct (Ascii.eqb_spec c ":"); [subst|done].
    cbn [mbind option_bind]. split; [by apply H4|by apply no_number].
Qed.

Lemma groups_stop i l rest :
  stops (λ c, digit_of 16 c ∨ c = "."%char) rest →
  stops (λ c, digit_of 16 c ∨ c = "."%char) (groups (S i) l +:+ rest).
Proof.
  intros Hr. destruct l as [|g l]; [done|]. simpl. intros [[d Hd]|Hd]; [by vm_compute in Hd|done].
Qed.

Lemma groups_read_back l n i rest :
  Forall (in_unsigned 16) l → (length l ≤ n)%nat → ends_groups rest →
  read_groups n i (groups i l +:+ rest) = (l, false, rest).
Proof.
  intros Hl Hn [Hr Hc]. revert n i Hn. induction Hl as [|g l Hg Hl IH]; intros [|n] i Hn;
    [done| |simpl in Hn; lia|].
  - destruct (no_group i rest) as [H4 Hg].
    { destruct i; [|done]. eapply stops_impl; [|exact Hr]. by left. }
    cbn [groups read_groups]. rewrite append_nil, H4, Hg. by destruct n.
  - pose proof (groups_stop i l rest Hr) as Hs.
    destruct (hex16_digits g Hg) as (_ & _ & _ & Hu & _).
    pose proof (ipv4_stops _ _ Hu Hs) as H4.
    pose proof (hex16_read_back g Hg (groups (S i) l +:+ rest)
      ltac:(eapply stops_impl; [|exact Hs]; by left)) as Hnum.
    assert (read_separator ":" i read_ipv4_addr (groups i (g :: l) +:+ rest) = None ∧
      read_separator ":" i (read_number 16 16 4 true) (groups i (g :: l) +:+ rest) =
        Some (g, groups (S i) l +:+ rest)) as [Hsep4 Hsep].
    { cbn [groups]. rewrite !append_assoc. by destruct i. }
    cbn [read_groups]. rewrite Hsep4, Hsep. rewrite IH by (simpl in Hn; lia). by destruct n.
Qed.

(** The longest run of zeros is one. *)
Definition zeros (full : list Z) (r : nat * nat) : Prop :=
  ∀ j, (r.1 ≤ j < r.1 + r.2)%nat → full !! j = Some 0.
Lemma zero_run_zeros full l i current longest :
  drop i full = l → zeros full current → (current.2 ≠ 0 → current.1 + current.2 = i)%nat →
  zeros full longest → zeros full (zero_run l i current longest).
Proof.
  revert i current longest. induction l as [|z l IH]; intros i current longest Hd Hc Hci Hl; cbn [zero_run];
    [done|].
  assert (full !! i = Some z) as Hz by (rewrite <- (Nat.add_0_r i), <- lookup_drop, Hd; done).
  assert (drop (S i) full = l) as Hd' by (rewrite <- Nat.add_1_r, <- drop_drop, Hd; done).
  case_bool_decide as H0; [|apply IH; try done; by intros j Hj; simpl in Hj; lia].
  cbv zeta. set (current' := (if bool_decide (current.2 = 0)%nat then i else current.1, S current.2)).
  assert (zeros full current' ∧ (current'.1 + current'.2 = S i)%nat) as [Hc' Hci'].
  { subst current'. simpl. case_bool_decide as H2; simpl.
    - rewrite H2. split; [|lia]. intros j Hj. simpl in Hj. replace j with i by lia. by subst.
    - specialize (Hci H2). split; [|lia]. intros j Hj. simpl in Hj.
      destruct (decide (j = i)) as [->|]; [by subst|]. apply Hc. lia. }
  apply IH; [done|done|done|]. by case_bool_decide.
Qed.
Lemma zero_run_spec l start len :
  zero_run l 0 (0, 0)%nat (0, 0)%nat = (start, len) →
  (len ≠ 0 → start + len ≤ length l)%nat ∧
  (take start l ++ replicate len 0 ++ drop (start + len) l)%list = l.
Proof.
  intros Hr. assert (zeros l (start, len)) as Hz.
  { rewrite <- Hr. apply zero_run_zeros; try done; by intros j Hj; simpl in Hj; lia. }
  assert (len ≠ 0 → start + len ≤ length l)%nat as Hlen.
  { intros Hne. specialize (Hz (start + len - 1)%nat ltac:(simpl; lia)).
    apply lookup_lt_Some in Hz. lia. }
  split; [done|]. destruct (decide (len = 0)%nat) as [->|Hne].
  { simpl. by rewrite Nat.add_0_r, take_drop. }
  specialize (Hlen Hne). rewrite <- (take_drop start l) at 3. f_equal.
  rewrite <- (take_drop len (drop start l)), drop_drop. f_equal.
  apply replicate_as_elem_of. rewrite length_take, length_drop. split; [lia|].
  intros y (j & Hj)%list_elem_of_lookup. apply lookup_take_Some in Hj as [Hj Hlt].
  rewrite lookup_drop, Hz in Hj by (simpl; lia). by injection Hj.
Qed.

Lemma print_ipv6_cases l :
  (∃ g h, l = [0; 0; 0; 0; 0; 65535; g; h] ∧
     print_ipv6 l = "::ffff:" +:+ print_ipv4 (g / 256) (g mod 256) (h / 256) (h mod 256)) ∨
  print_ipv6 l =
    let '(start, len) := zero_run l 0 (0, 0)%nat (0, 0)%nat in
    if bool_decide (1 < len)%nat
    then fmt_subslice (take start l) +:+ "::" +:+ fmt_subslice (drop (start + len) l)
    else fmt_subslice l.
Proof.
  unfold print_ipv6.
  repeat (match goal with
          | |- context [match ?x with _ => _ end] => is_var x; destruct x; try (by right)
          end).
  left. eauto.
Qed.

(** No character of an address follows. *)
Definition ends_address : string → Prop := stops address_char.
Lemma ends_groups_address rest : ends_address rest → ends_groups rest.
Proof.
  intros Hr. split.
  - eapply stops_impl; [|exact Hr]. intros c [Hc|Hc]; [by left|by right; left].
  - destruct rest as [|c rest]; [done|]. destruct (Ascii.eqb_spec c ":") as [->|Hne].
    + destruct Hr. right. by right.
    + destruct c as [[] [] [] [] [] [] [] []]; try done.
Qed.
Lemma ends_digits rest : ends_address rest → stops (digit_of 10) rest.
Proof. apply stops_impl. intros c Hc. left. by apply digit_of_decimal_hex. Qed.

Lemma double_colon rest : ends_groups ("::" +:+ rest).
Proof. split; [|intros [d Hd]; by vm_compute in Hd]. intros [[d Hd]|Hd]; [by vm_compute in Hd|done]. Qed.

Lemma ipv6_head hd s l rest :
  Forall (in_unsigned 16) hd → (length hd < 8)%nat →
  (∃ tl v4, read_groups (8 - (length hd + 1)) 0 s = (tl, v4, rest) ∧
     l = (hd ++ replicate (8 - length hd - length tl) 0 ++ tl)%list) →
  read_ipv6_addr (groups 0 hd +:+ "::" +:+ s) = Some (l, rest).
Proof.
  intros Hh Hlen (tl & v4 & Htl & ->). unfold read_ipv6_addr.
  rewrite (groups_read_back hd 8 0 _ Hh ltac:(lia) (double_colon s)).
  rewrite bool_decide_eq_false_2 by lia. 
  change ("::" +:+ s) with (String ":" (String ":" s)). cbn -[read_groups Nat.sub Nat.add]. by rewrite Htl.
Qed.

Lemma mapped_tail g h rest n :
  in_unsigned 16 g → in_unsigned 16 h → ends_address rest →
  read_groups (S (S (S n))) 0
    ("ffff:" +:+ print_ipv4 (g / 256) (g mod 256) (h / 256) (h mod 256) +:+ rest) =
  ([65535; g; h], true, rest).
Proof.
  intros [Hg0 Hg1] [Hh0 Hh1] Hr. change (2 ^ 16) with 65536 in *.
  set (t := print_ipv4 _ _ _ _).
  assert (octets_ok (g / 256) (g mod 256) (h / 256) (h mod 256)) as Hok
    by (unfold octets_ok, in_unsigned; change (2 ^ 8) with 256; split_and!; div_lia).
  pose proof (ipv4_read_back _ _ _ _ Hok rest (ends_digits _ Hr)) as H4. fold t in H4.
  change ("ffff:" +:+ t +:+ rest) with (print_hex16 65535 +:+ ":" +:+ t +:+ rest).
  assert (in_unsigned 16 65535) as Hf by (split; lia).
  assert (stops (λ c, digit_of 16 c ∨ c = "."%char) (":" +:+ t +:+ rest)) as Hc
    by (intros [[d Hd]|Hd]; [by vm_compute in Hd|done]).
  destruct (hex16_digits 65535 Hf) as (_ & _ & _ & Hu & _).
  pose proof (ipv4_stops _ _ Hu Hc) as Hno.
  pose proof (hex16_read_back 65535 Hf (":" +:+ t +:+ rest)
    ltac:(eapply stops_impl; [|exact Hc]; by left)) as Hnum.
  assert (read_separator ":" 1 read_ipv4_addr (":" +:+ t +:+ rest) =
    Some ((g / 256, g mod 256, h / 256, h mod 256), rest)) as Hsep by exact H4.
  assert (read_groups (S (S n)) 1 (":" +:+ t +:+ rest) = ([g; h], true, rest)) as Htail.
  { cbn [read_groups]. rewrite Hsep. do 3 f_equal; [div_lia|f_equal; div_lia]. }
  set (s := print_hex16 65535 +:+ ":" +:+ t +:+ rest) in *.
  assert (read_separator ":" 0 read_ipv4_addr s = None ∧
    read_separator ":" 0 (read_number 16 16 4 true) s = Some (65535, ":" +:+ t +:+ rest)) as [H1 H2]
    by (split; [exact Hno|exact Hnum]).
  remember (S (S n)) as m. cbn [read_groups]. rewrite H1, H2, Htail. by subst m.
Qed.

(** The text of an IPv6 address is read as that address. *)
Lemma ipv6_read_back l rest :
  Forall (in_unsigned 16) l → length l = 8%nat → ends_address rest →
  read_ipv6_addr (print_ipv6 l +:+ rest) = Some (l, rest).
Proof.
  intros Hl Hlen Hr. pose proof (ends_groups_address _ Hr) as Hend.
  destruct (print_ipv6_cases l) as [(g & h & -> & ->)| ->].
  - rewrite !Forall_cons in Hl. destruct Hl as (_ & _ & _ & _ & _ & _ & Hg & Hh & _).
    change ("::ffff:" +:+ ?t) with (groups 0 [] +:+ "::" +:+ "ffff:" +:+ t).
    rewrite !append_assoc. apply ipv6_head; [by apply Forall_nil_2|simpl; lia|].
    exists [65535; g; h], true. split; [|done]. by apply mapped_tail.
  - destruct (zero_run l 0 (0, 0)%nat (0, 0)%nat) as [start len] eqn:Hrun.
    destruct (zero_run_spec _ _ _ Hrun) as [Hle Heq]. case_bool_decide as H1.
    + specialize (Hle ltac:(lia)). rewrite !groups_join, !append_assoc.
      assert (length (take start l) = start) as Hstart by (rewrite length_take; lia).
      apply ipv6_head; [by apply Forall_take|lia|].
      exists (drop (start + len) l), false. rewrite Hstart, length_drop. split.
      * apply groups_read_back; [by apply Forall_drop|rewrite length_drop; lia|done].
      * rewrite <- Heq at 1. do 3 f_equal. lia.
    + rewrite groups_join. unfold read_ipv6_addr.
      rewrite (groups_read_back l 8 0 _ Hl ltac:(lia) Hend). by rewrite bool_decide_eq_true_2.
Qed.

Lemma ipv6_is_not_ipv4 l rest :
  Forall (in_unsigned 16) l → length l = 8%nat → ends_address rest →
  read_ipv4_addr (print_ipv6 l +:+ rest) = None.
Proof.
  intros Hl Hlen Hr.
  assert (∀ g l rest, in_unsigned 16 g → stops (λ c, digit_of 16 c ∨ c = "."%char) rest →
    read_ipv4_addr (groups 0 (g :: l) +:+ rest) = None) as Hgroups.
  { intros g k r Hg Hs. cbn [groups]. rewrite append_nil, append_assoc.
    destruct (hex16_digits g Hg) as (_ & _ & _ & Hu & _). apply ipv4_stops; [done|by apply groups_stop]. }
  assert (∀ s, read_ipv4_addr ("::" +:+ s) = None) as Hcolons.
  { intros s. unfold read_ipv4_addr.
    assert (read_octet 0 ("::" +:+ s) = None) as ->; [|done].
    apply (no_number 10 8 3 false). intros [d Hd]. by vm_compute in Hd. }
  pose proof (ends_groups_address _ Hr) as [Hend _].
  destruct (print_ipv6_cases l) as [(g & h & -> & ->)| ->].
  - change ("::ffff:" +:+ ?t) with ("::" +:+ "ffff:" +:+ t). rewrite append_assoc. apply Hcolons.
  - destruct l as [|g l]; [done|]. apply Forall_cons in Hl as [Hg Hl].
    destruct (zero_run _ 0 (0, 0)%nat (0, 0)%nat) as [[|start] len];
      case_bool_decide; rewrite !groups_join, ?append_assoc; try (apply Hgroups; done).
    + apply Hcolons.
    + cbn [take]. apply Hgroups; [done|]. apply double_colon.
Qed.

(** The text of an IPv6 address has a colon after the digits it may begin with. *)
Lemma ipv6_text_colon l : Forall (in_unsigned 16) l → length l = 8%nat →
  ∃ u r, print_ipv6 l = u +:+ String ":" r ∧ over (digit_of 16) u.
Proof.
  intros Hl Hlen.
  destruct (print_ipv6_cases l) as [(g & h & -> & ->)| ->].
  { exists "", (":ffff:" +:+ print_ipv4 (g / 256) (g mod 256) (h / 256) (h mod 256)).
    split; [done|by apply Forall_nil_2]. }
  destruct l as [|g [|h l]]; [done..|]. apply Forall_cons in Hl as [Hg Hl].
  destruct (hex16_digits g Hg) as (_ & _ & _ & Hu & _).
  destruct (zero_run _ 0 (0, 0)%nat (0, 0)%nat) as [[|start] len]; case_bool_decide;
    rewrite !groups_join.
  - exists "". eexists. split; [reflexivity|by apply Forall_nil_2].
  - exists (print_hex16 g). eexists. split; [|done]. cbn [groups]. rewrite append_nil. reflexivity.
  - exists (print_hex16 g). cbn [take groups]. rewrite append_nil.
    destruct start as [|start]; cbn [take groups]; eexists; (split; [|done]);
      rewrite ?append_nil_r, ?append_assoc; reflexivity.
  - exists (print_hex16 g). eexists. split; [|done]. cbn [groups]. rewrite append_nil. reflexivity.
Qed.

(** The text of an address is parsed as that address. *)
Theorem parse_print_ip a : ip_ok a → parse_ip (print_ip a) = Some a.
Proof.
  destruct a as [a b c d|l]; unfold parse_ip; simpl.
  - intros Hok. pose proof (ipv4_read_back a b c d Hok "" I) as H4.
    rewrite append_nil_r in H4. by rewrite H4.
  - intros [Hl Hlen]. pose proof (ipv6_is_not_ipv4 l "" Hl Hlen I) as H4.
    pose proof (ipv6_read_back l "" Hl Hlen I) as H6. rewrite append_nil_r in H4, H6.
    by rewrite H4, H6.
Qed.

(** ** The text of the address of a socket *)

Definition print_socket_addr (a : SocketAddr) : string :=
  match sa_ip a with
  | V4 _ _ _ _ => print_ip (sa_ip a) +:+ ":" +:+ print_nat (sa_port a)
  | V6 _ => "[" +:+ print_ip (sa_ip a) +:+ "]:" +:+ print_nat (sa_port a)
  end.

Lemma port_read_back port : in_unsigned 16 port →
  read_port (":" +:+ print_nat port) = Some (port, "").
Proof.
  intros Hp. change (read_port (":" +:+ ?s)) with (read_number 10 16 (String.length s) true s).
  pose proof (number_read_back 16 (String.length (print_nat port)) true port Hp (le_n _) ltac:(done) "" I)
    as Hn. by rewrite append_nil_r in Hn.
Qed.

Theorem parse_print_socket_addr a :
  ip_ok (sa_ip a) → in_unsigned 16 (sa_port a) →
  parse_socket_addr (print_socket_addr a) = Some (a, 0).
Proof.
  destruct a as [[a b c d|l] port]; simpl; intros Hip Hport; unfold parse_socket_addr.
  - change (print_socket_addr _) with (print_ipv4 a b c d +:+ ":" +:+ print_nat port).
    unfold read_socket_addr_v4.
    rewrite (ipv4_read_back a b c d Hip) by (intros [e He]; by vm_compute in He).
    cbn [mbind option_bind]. by rewrite port_read_back.
  - destruct Hip as [Hl Hlen]. set (t := print_ipv6 l +:+ "]:" +:+ print_nat port).
    change (print_socket_addr _) with ("[" +:+ t).
    assert (read_socket_addr_v4 ("[" +:+ t) = None) as ->.
    { unfold read_socket_addr_v4, read_ipv4_addr.
      assert (read_octet 0 ("[" +:+ t) = None) as ->; [|done].
      apply (no_number 10 8 3 false). intros [e He]. by vm_compute in He. }
    assert (ends_address ("]:" +:+ print_nat port)) as Hend
      by (intros [[e He]|[He|He]]; [by vm_compute in He|done|done]).
    unfold read_socket_addr_v6. change (read_given_char "[" ("[" +:+ t)) with (Some ((), t)).
    cbn [mbind option_bind]. unfold t. rewrite (ipv6_read_back l _ Hl Hlen Hend). cbn [mbind option_bind].
    change (read_scope_id ("]:" +:+ ?s)) with (@None (Z * string)).
    cbn [mbind option_bind].
    assert (read_given_char "]" ("]:" +:+ print_nat port) = Some ((), ":" +:+ print_nat port)) as ->
      by reflexivity.
    cbn [mbind option_bind]. by rewrite port_read_back.
Qed.
