(* ===== verification/NetAddress.v ===== *)
(** * Addresses of the Lightning network (src/kld/src/api/skt_addr.rs)

    [SocketAddress] wraps the address type of LDK: its text, its serde form, and the conversions
    from and to the addresses of the standard library. What LDK reads as an address and as a
    host name is the class [LdkAddresses]. *)

From Stdlib Require Import Ascii.
From S2P Require Import Prelude Text RustStd Addresses.

#[local] Open Scope string_scope.
#[local] Open Scope Z_scope.

(** The arrays of bytes are lists. *)
Inductive SocketAddress :=
| TcpIpV4 (addr : list Z) (port : Z)
| TcpIpV6 (addr : list Z) (port : Z)
| OnionV2 (bytes : list Z)
| OnionV3 (ed25519_pubkey : list Z) (checksum version port : Z)
| Hostname (hostname : string) (port : Z).
#[global] Instance SocketAddress_eq_dec : EqDecision SocketAddress.
Proof. solve_decision. Defined.

Class LdkAddresses := {
  (** [SocketAddress::from_str] of LDK. *)
  ldk_from_str : string → option SocketAddress;
  (** [Hostname::try_from] succeeds. *)
  hostname_ok : string → bool;
  (** [{hostname:?}]. *)
  hostname_debug : string → string;
}.

Definition is_ipv4 (a : SocketAddress) : bool := match a with TcpIpV4 _ _ => true | _ => false end.
Definition is_ipv6 (a : SocketAddress) : bool := match a with TcpIpV6 _ _ => true | _ => false end.

(** [Ipv4Addr::from(addr)] and [Ipv6Addr::from(addr)]. *)
Definition ipv4_from (addr : list Z) : IpAddr :=
  match addr with [a; b; c; d] => V4 a b c d | _ => V4 0 0 0 0 end.
Fixpoint segments (addr : list Z) : list Z :=
  match addr with a :: b :: addr => (a * 256 + b) :: segments addr | _ => [] end.
(** [octets()]. *)
Fixpoint octets (l : list Z) : list Z :=
  match l with g :: l => g / 256 :: g mod 256 :: octets l | [] => [] end.
(** [{bytes:?}] of an array. *)
Definition debug_bytes (l : list Z) : string := "[" +:+ join ", " (print_nat <$> l) +:+ "]".

Section Operations.
Context {LA : LdkAddresses}.

(** [Display]. *)
Definition to_string (a : SocketAddress) : string :=
  match a with
  | TcpIpV4 addr port => print_ip (ipv4_from addr) +:+ ":" +:+ print_nat port
  | TcpIpV6 addr port => "[" +:+ print_ip (V6 (segments addr)) +:+ "]:" +:+ print_nat port
  | OnionV2 bytes => debug_bytes bytes +:+ ".onion"
  | OnionV3 key _ _ port => debug_bytes key +:+ ".onion:" +:+ print_nat port
  | Hostname hostname port => hostname_debug hostname +:+ ":" +:+ print_nat port
  end.

(** [FromStr]. *)
Definition from_str (s : string) : result string SocketAddress :=
  match ldk_from_str s with
  | Some addr => Ok addr
  | None => Err (s +:+ " is not a valid socket address")
  end.

(** [From<SocketAddr>]; the scope of an IPv6 address is dropped. *)
Definition from_socket_addr (a : SocketAddr) : SocketAddress :=
  match sa_ip a with
  | V4 a' b c d => TcpIpV4 [a'; b; c; d] (sa_port a)
  | V6 l => TcpIpV6 (octets l) (sa_port a)
  end.
(** [TryFrom<SocketAddress> for SocketAddr]. *)
Definition to_socket_addr (a : SocketAddress) : result string SocketAddr :=
  match a with
  | TcpIpV4 addr port => Ok (mk_socket_addr (ipv4_from addr) port)
  | TcpIpV6 addr port => Ok (mk_socket_addr (V6 (segments addr)) port)
  | _ => Err "unsupported address type"
  end.

(** ** The serde form *)

Inductive SocketAddressHelper :=
| HIPv4 (a : list Z * Z) | HIPv6 (a : list Z * Z) | HOnionV2 (bytes : list Z)
| HOnionV3 (a : list Z * Z * Z * Z) | HHostname (a : Z * string).

Definition serialize (a : SocketAddress) : SocketAddressHelper :=
  match a with
  | TcpIpV4 addr port => HIPv4 (addr, port)
  | TcpIpV6 addr port => HIPv6 (addr, port)
  | OnionV2 bytes => HOnionV2 bytes
  | OnionV3 key checksum version port => HOnionV3 (key, checksum, version, port)
  | Hostname hostname port => HHostname (port, hostname)
  end.
(** A host name that is not valid is replaced by the empty one; if that is not valid either,
    the [expect] panics. *)
Definition deserialize (h : SocketAddressHelper) : result string SocketAddress :=
  match h with
  | HIPv4 (addr, port) => Ok (TcpIpV4 addr port)
  | HIPv6 (addr, port) => Ok (TcpIpV6 addr port)
  | HOnionV2 bytes => Ok (OnionV2 bytes)
  | HOnionV3 (key, checksum, version, port) => Ok (OnionV3 key checksum version port)
  | HHostname (port, hostname) =>
      if hostname_ok hostname then Ok (Hostname hostname port)
      else if hostname_ok "" then Ok (Hostname "" port)
      else Panic "Replcing invalid hostname with empty one"
  end.
End Operations.

(** An address of LDK: its arrays have their length, its numbers their width. *)
Definition bytes_ok (n : nat) (l : list Z) : Prop := length l = n ∧ Forall (in_unsigned 8) l.
Definition address_ok `{LdkAddresses} (a : SocketAddress) : Prop :=
  match a with
  | TcpIpV4 addr port => bytes_ok 4 addr ∧ u16 port
  | TcpIpV6 addr port => bytes_ok 16 addr ∧ u16 port
  | OnionV2 bytes => bytes_ok 12 bytes
  | OnionV3 key checksum version port => bytes_ok 32 key ∧ u16 checksum ∧ in_unsigned 8 version ∧ u16 port
  | Hostname hostname port => hostname_ok hostname = true ∧ u16 port
  end.

(** What LDK reads: the address of a socket as the standard library reads it; otherwise an onion
    address or a host name (letters, digits, hyphens and dots) with a colon and a port. *)
Definition name_char (c : ascii) : Prop := c ≠ ":"%char ∧ c ≠ "["%char ∧ c ≠ "("%char.
Class LdkAddressLaws `{LdkAddresses} := {
  ldk_reads_sockets s a scope :
    parse_socket_addr s = Some (a, scope) → ldk_from_str s = Some (from_socket_addr a);
  ldk_reads_names s a :
    ldk_from_str s = Some a → parse_socket_addr s = None →
    ∃ host port, s = host +:+ ":" +:+ port ∧ over name_char host ∧ over name_char port;
  hostname_debug_shape h : ∃ r, hostname_debug h = "Hostname(" +:+ r;
}.

Section Theorems.
Context {LA : LdkAddresses}.

Lemma serialized_address_is_read a : address_ok a → deserialize (serialize a) = Ok a.
Proof. destruct a; try done. intros [Hh _]. simpl. by rewrite Hh. Qed.

Lemma octets_segments l n : bytes_ok (2 * n) l → octets (segments l) = l.
Proof.
  intros [Hlen Hl]. revert l Hlen Hl. induction n as [|n IH]; intros l Hlen Hl.
  - by apply length_zero_iff_nil in Hlen as ->.
  - destruct l as [|a [|b l]]; [simpl in Hlen; lia..|].
    apply Forall_cons in Hl as [[Ha0 Ha1] [[Hb0 Hb1] Hl]%Forall_cons]. change (2 ^ 8) with 256 in *.
    cbn [segments octets]. rewrite IH; [|simpl in Hlen; lia|done].
    f_equal; [div_lia|f_equal; div_lia].
Qed.
Lemma segments_ok l n : bytes_ok (2 * n) l → length (segments l) = n ∧ Forall (in_unsigned 16) (segments l).
Proof.
  intros [Hlen Hl]. revert l Hlen Hl. induction n as [|n IH]; intros l Hlen Hl.
  - by apply length_zero_iff_nil in Hlen as ->.
  - destruct l as [|a [|b l]]; [simpl in Hlen; lia..|].
    apply Forall_cons in Hl as [[Ha0 Ha1] [[Hb0 Hb1] Hl]%Forall_cons]. change (2 ^ 8) with 256 in *.
    destruct (IH l ltac:(simpl in Hlen; lia) Hl) as [Hn Hs]. cbn [segments length].
    split; [by rewrite Hn|]. apply Forall_cons_2; [|done]. split; change (2 ^ 16) with 65536; lia.
Qed.

(** The address of a socket, its text and LDK's form of it. *)
Lemma to_socket_addr_spec a sa :
  address_ok a → to_socket_addr a = Ok sa →
  from_socket_addr sa = a ∧ print_socket_addr sa = to_string a ∧ ip_ok (sa_ip sa) ∧ u16 (sa_port sa).
Proof.
  destruct a as [addr port|addr port| | |]; simpl; [| |done..]; intros [Ha Hp] [= <-].
  - destruct Ha as [Hlen Hl]. destruct addr as [|a [|b [|c [|d [|? ?]]]]]; try done.
    rewrite !Forall_cons in Hl. destruct Hl as (H1 & H2 & H3 & H4 & _).
    split; [done|]. split; [done|]. split; [|done]. exact (conj H1 (conj H2 (conj H3 H4))).
  - pose proof (octets_segments addr 8 Ha) as Ho. destruct (segments_ok addr 8 Ha) as [Hn Hs].
    unfold from_socket_addr. simpl. rewrite Ho. split; [done|]. split; [done|]. by split.
Qed.

(** A text that begins with another character than an address does is none. *)
Lemma no_socket_start c s :
  ¬ digit_of 10 c → c ≠ "["%char → parse_socket_addr (String c s) = None.
Proof.
  intros Hc Hb. unfold parse_socket_addr, read_socket_addr_v4, read_ipv4_addr.
  assert (read_octet 0 (String c s) = None) as -> by by apply (no_number 10 8 3 false).
  cbn [mbind option_bind]. unfold read_socket_addr_v6. cbn [read_given_char].
  by destruct (Ascii.eqb_spec c "[").
Qed.

(** Brackets around what is followed by a comma are not the address of a socket. *)
Lemma no_socket_comma u t :
  over address_char u → parse_socket_addr ("[" +:+ u +:+ String "," t) = None.
Proof.
  intros Hu. unfold parse_socket_addr, read_socket_addr_v4, read_ipv4_addr.
  set (s := u +:+ String "," t).
  assert (read_octet 0 ("[" +:+ s) = None) as ->.
  { apply (no_number 10 8 3 false). intros [d Hd]. by vm_compute in Hd. }
  cbn [mbind option_bind]. unfold read_socket_addr_v6.
  change (read_given_char "[" ("[" +:+ s)) with (Some ((), s)). cbn [mbind option_bind].
  destruct (read_ipv6_addr s) as [[l r]|] eqn:Hr; [|done]. cbn [mbind option_bind].
  apply reads_ipv6_addr in Hr as [(v & Heq & Hv) _]. subst s.
  assert (∀ c r', r = String c r' → c = "%"%char ∨ c = "]"%char → False) as Hno.
  { intros c r' -> Hc. assert (¬ address_char c) as Hac.
    { destruct Hc as [-> | ->]; (intros [[d Hd]|[Hd|Hd]]; [by vm_compute in Hd|done|done]). }
    destruct (span_unique address_char u v (String "," t) (String c r')) as [_ [= <-]]; try done.
    - intros [[d Hd]|[Hd|Hd]]; [by vm_compute in Hd|done|done].
    - by destruct Hc. }
  unfold read_scope_id. destruct r as [|c r]; [done|]. cbn [read_given_char].
  destruct (Ascii.eqb_spec c "%"); [by destruct (Hno c r); [|left]|].
  cbn [mbind option_bind read_given_char].
  destruct (Ascii.eqb_spec c "]"); [by destruct (Hno c r); [|right]|done].
Qed.

Lemma debug_bytes_no_socket n l t :
  bytes_ok (S (S n)) l → parse_socket_addr (debug_bytes l +:+ t) = None.
Proof.
  intros [Hlen Hl]. destruct l as [|a [|b l]]; [done..|]. apply Forall_cons in Hl as [[Ha _] _].
  unfold debug_bytes. change (join ", " (print_nat <$> a :: b :: l)) with
    (print_nat a +:+ ", " +:+ join ", " (print_nat <$> b :: l)).
  rewrite !append_assoc. apply no_socket_comma.
  pose proof (print_digits a Ha) as Hd. clear - Hd. unfold over.
  induction (print_nat a) as [|c s IH]; [by apply Forall_nil_2|]. destruct Hd as [[d Hc] Hs].
  apply Forall_cons_2; [|by apply IH]. left. exists d. apply to_digit_10. by rewrite to_digit_decimal.
Qed.

(** The text of an IPv6 address without brackets, and a port, are not the address of a socket. *)
Lemma bare_ipv6_no_socket u r : over (digit_of 16) u → parse_socket_addr (u +:+ String ":" r) = None.
Proof.
  intros Hu. unfold parse_socket_addr, read_socket_addr_v4. rewrite ipv4_stops; [|done|].
  - cbn [mbind option_bind]. unfold read_socket_addr_v6.
    destruct u as [|c u]; [done|]. rewrite append_cons. cbn [read_given_char].
    destruct (Ascii.eqb_spec c "["); [|done]. subst. apply Forall_cons in Hu as [[d Hd] _].
    by vm_compute in Hd.
  - intros [[d Hd]|Hd]; [by vm_compute in Hd|done].
Qed.

Context {LL : LdkAddressLaws}.

(** A name has no more than one colon. *)
Lemma two_colons_refused u v r :
  over name_char u → parse_socket_addr (u +:+ String ":" (v +:+ String ":" r)) = None →
  ldk_from_str (u +:+ String ":" (v +:+ String ":" r)) = None.
Proof.
  intros Hu Hp. destruct (ldk_from_str _) as [a|] eqn:Hs; [|done]. exfalso.
  destruct (ldk_reads_names _ _ Hs Hp) as (host & port & Heq & Hh & Hport).
  apply (span_unique name_char) in Heq as [_ Hr]; [|done..|by intros []|by intros []].
  change (":" +:+ port) with (String ":" port) in Hr. injection Hr as <-. apply over_app in Hport as [_ Hport]. apply Forall_cons in Hport as [[] _]. done.
Qed.

(** A text with a bracket that is no address of a socket is refused. *)
Lemma bracket_refused s :
  parse_socket_addr s = None → ¬ over (λ c, c ≠ "["%char ∧ c ≠ "("%char) s →
  from_str s = Err (s +:+ " is not a valid socket address").
Proof.
  intros Hp Hb. unfold from_str. destruct (ldk_from_str s) as [a|] eqn:Hs; [|done].
  destruct Hb. destruct (ldk_reads_names _ _ Hs Hp) as (host & port & -> & Hh & Hport).
  apply over_app. split; [by eapply over_impl; [|exact Hh]; intros ? []|].
  apply Forall_cons_2; [done|]. by eapply over_impl; [|exact Hport]; intros ? [].
Qed.

(** What the API shows as the address of a peer can be given back to it. An IPv4 or IPv6
    address is shown as the standard library shows the address of a socket, and read as the same
    address of LDK. The onion addresses and the host names, which the node cannot connect to, are
    shown with the debug form of their bytes and of the name, which is not read at all. *)
Theorem address_text_read a :
  address_ok a →
  match to_socket_addr a with
  | Ok sa => from_socket_addr sa = a ∧ from_str (to_string a) = Ok a
  | Err e => e = "unsupported address type" ∧
             from_str (to_string a) = Err (to_string a +:+ " is not a valid socket address")
  | Panic _ => False
  end.
Proof.
  intros Ha. destruct (to_socket_addr a) as [sa|e|w] eqn:Hs; [| |by destruct a].
  - destruct (to_socket_addr_spec a sa Ha Hs) as (Hfrom & Htext & Hip & Hport). split; [done|].
    pose proof (parse_print_socket_addr sa Hip Hport) as Hp. rewrite Htext in Hp.
    unfold from_str. by rewrite (ldk_reads_sockets _ _ _ Hp), Hfrom.
  - assert (∀ c s t, c = "["%char ∨ c = "("%char → ¬ over (λ c, c ≠ "["%char ∧ c ≠ "("%char) (s +:+ String c t))
      as Hover.
    { intros c s t Hc [_ Ho]%over_app. apply Forall_cons in Ho as [[H1 H2] _]. by destruct Hc. }
    destruct a as [| |bytes|key checksum version port|hostname port]; simplify_eq/=; (split; [done|]);
      apply bracket_refused.
    + by apply (debug_bytes_no_socket 10).
    + unfold debug_bytes. rewrite !append_assoc. apply (Hover _ ""). by left.
    + apply (debug_bytes_no_socket 30). apply Ha.
    + unfold debug_bytes. rewrite !append_assoc. apply (Hover _ ""). by left.
    + destruct (hostname_debug_shape hostname) as [r ->]. apply no_socket_start; [|done].
      intros [d Hd]. by vm_compute in Hd.
    + destruct (hostname_debug_shape hostname) as [r ->].
      change ("Hostname(" +:+ r) with ("Hostname" +:+ String "(" r). rewrite !append_assoc.
      apply Hover. by right.
Qed.
End Theorems.

(** ** An instance *)

Section Instances.

(** Everything else with one colon and without brackets is a host name. *)
Definition is_name (s : string) : bool :=
  forallb (λ c, bool_decide (name_char c)) (String.list_ascii_of_string s).
Definition example_addresses : LdkAddresses := {|
  ldk_from_str s :=
    match parse_socket_addr s, split_once ":" s with
    | Some (a, _), _ => Some (from_socket_addr a)
    | None, Some (host, port) =>
        if is_name host && is_name port then Hostname host <$> parse_unsigned 16 port else None
    | None, None => None
    end;
  hostname_ok h := bool_decide (String.length h ≤ 255)%nat;
  hostname_debug h := "Hostname(" +:+ h +:+ ")";
|}.
#[local] Existing Instance example_addresses.

Lemma is_name_over s : is_name s = true → over name_char s.
Proof.
  unfold is_name, over. rewrite forallb_forall, Forall_forall. intros Hs c Hc.
  eapply bool_decide_eq_true, Hs. by apply list_elem_of_In.
Qed.

Lemma example_address_laws : LdkAddressLaws.
Proof.
  split; simpl.
  - by intros s a scope ->.
  - intros s a Hs Hp. rewrite Hp in Hs. destruct (split_once ":" s) as [[host port]|] eqn:Ho; [|done].
    destruct (is_name host && is_name port) eqn:Hn; [|done].
    apply andb_true_iff in Hn as [Hh%is_name_over Hport%is_name_over].
    exists host, port. split; [|done]. by apply split_once_Some.
  - intros h. by eexists.
Qed.
#[local] Existing Instance example_address_laws.

Lemma address_text_read_witness :
  from_str (to_string (TcpIpV6 [32; 1; 13; 184; 0; 0; 0; 0; 0; 0; 0; 0; 0; 0; 0; 1] 1212)) =
    Ok (TcpIpV6 [32; 1; 13; 184; 0; 0; 0; 0; 0; 0; 0; 0; 0; 0; 0; 1] 1212) ∧
  from_str (to_string (Hostname "kld.example" 9735)) =
    Err "Hostname(kld.example):9735 is not a valid socket address".
Proof.
  split.
  - refine (proj2 (address_text_read
      (TcpIpV6 [32; 1; 13; 184; 0; 0; 0; 0; 0; 0; 0; 0; 0; 0; 0; 1] 1212) _)).
    split; [|split; lia]. split; [done|]. repeat (apply Forall_cons_2; [split; lia|]). by apply Forall_nil_2.
  - refine (proj2 (address_text_read (Hostname "kld.example" 9735) _)).
    split; [reflexivity|split; lia].
Defined.
End Instances.
