(* ===== verification/Logger.v ===== *)
(** * Log lines (src/kld/src/logger.rs)

    [KldLogger] writes a record as a line of [key=value] fields, in several prints. The state is
    the logger that the process has, the level of the log crate, and the texts printed so far. *)

From Stdlib Require Import Ascii.
From S2P Require Import Prelude Text RustStd Addresses.

#[local] Open Scope string_scope.
#[local] Open Scope Z_scope.

(** The levels of the log crate, in their order, and the filters: a level, or nothing. *)
Inductive Level := LError | LWarn | LInfo | LDebug | LTrace.
Definition level_rank (l : Level) : nat :=
  match l with LError => 1 | LWarn => 2 | LInfo => 3 | LDebug => 4 | LTrace => 5 end.
Abbreviation LevelFilter := (option Level).
Definition filter_rank (f : LevelFilter) : nat := from_option level_rank 0%nat f.
(** [record.level().to_string().to_lowercase()]. *)
Definition level_name (l : Level) : string :=
  to_ascii_lowercase
    match l with LError => "ERROR" | LWarn => "WARN" | LInfo => "INFO" | LDebug => "DEBUG" | LTrace => "TRACE" end.

(** A record: its text, whether it is a literal without arguments ([as_str]), where it is from. *)
Record LogRecord := mk_record {
  r_level : Level; r_args : string; r_literal : bool; r_target : string; r_line : option Z;
}.

Record logging := mk_logging {
  logger : option string;       (* the node id of the global logger *)
  max_level : LevelFilter;
  printed : list string;
}.
(** Before [init] nothing is logged. *)
Definition silent : logging := mk_logging None None [].

(** [init]: the first one sets the logger and the level. *)
Definition init (node_id : string) (level : LevelFilter) (s : logging) : logging :=
  match logger s with
  | None => mk_logging (Some node_id) level (printed s)
  | Some _ => s
  end.
Definition global (s : logging) : result string string :=
  match logger s with Some id => Ok id | None => Panic "logger is not initialized" end.

Definition enabled (s : logging) (l : Level) : bool := bool_decide (level_rank l ≤ filter_rank (max_level s))%nat.

Definition refused_message : string :=
  "A Channel Monitor sync is still in progress, refusing to provide monitor events!".

(** The prints of a record, by the process [pid]. *)
Definition prints (pid : Z) (node_id : string) (r : LogRecord) : list string :=
  ["level=" +:+ level_name (r_level r);
   " pid=" +:+ print_nat pid;
   " message=" +:+ String "034" (r_args r +:+ String "034" "");
   " target=" +:+ String "034" (r_target r +:+ String "034" "")] ++
  option_list ((λ l, " line=" +:+ String "034" (print_nat l +:+ String "034" "")) <$> r_line r) ++
  [" node_id=" +:+ node_id; String "010" ""].

(** [Log::log] of the global logger, when no other thread prints. *)
Definition log (pid : Z) (r : LogRecord) (s : logging) : logging :=
  match logger s with
  | Some node_id =>
      if enabled s (r_level r) then
        if r_literal r && bool_decide (r_args r = refused_message) then s
        else mk_logging (logger s) (max_level s) (printed s ++ prints pid node_id r)
      else s
  | None => s
  end.

(** LDK's records: gossip is its lowest level. *)
Inductive LdkLevel := Gossip | Trace | Debug | Info | Warn | Error.
Definition level_of (l : LdkLevel) : Level :=
  match l with
  | Gossip => LTrace | Trace => LTrace | Debug => LDebug | Info => LInfo | Warn => LWarn | Error => LError
  end.
Record LdkRecord := mk_ldk_record {
  lr_level : LdkLevel; lr_args : string; lr_literal : bool; lr_module_path : string; lr_line : Z;
}.
(** [Logger::log] of LDK: the line is not passed on. *)
Definition ldk_log (pid : Z) (r : LdkRecord) : logging → logging :=
  log pid (mk_record (level_of (lr_level r)) (lr_args r) (lr_literal r) (lr_module_path r) None).

(** The text of a record. *)
Definition text (l : list string) : string := foldr String.append "" l.

(** ** Fields *)

Definition no_quote (s : string) : Prop := over (λ c, c ≠ "034"%char) s.
Definition no_newline (s : string) : Prop := over (λ c, c ≠ "010"%char) s.

Lemma cut_at c u v u' v' :
  over (λ a, a ≠ c) u → over (λ a, a ≠ c) u' → u +:+ String c v = u' +:+ String c v' → u = u' ∧ v = v'.
Proof.
  intros Hu Hu' Heq. pose proof (split_once_over c u v Hu) as H.
  rewrite Heq, split_once_over in H by done. by injection H.
Qed.

Lemma append_cancel_r u v w : u +:+ w = v +:+ w → u = v.
Proof.
  intros Heq. apply (f_equal string_rev) in Heq. rewrite !string_rev_app in Heq.
  apply (inj (String.append _)) in Heq. apply (f_equal string_rev) in Heq.
  by rewrite !string_rev_rev in Heq.
Qed.
Lemma print_nat_over c z : 0 ≤ z → digit c = None → over (λ a, a ≠ c) (print_nat z).
Proof.
  intros Hz Hc. pose proof (print_digits z Hz) as Hd. unfold over.
  induction (print_nat z) as [|a s IH]; [by apply Forall_nil_2|]. destruct Hd as [[d Hd] Hs].
  apply Forall_cons_2; [|by apply IH]. intros ->. congruence.
Qed.
Lemma level_over c l : c = " "%char ∨ c = "034"%char → over (λ a, a ≠ c) (level_name l).
Proof.
  intros Hc. apply Forall_forall. intros a Ha.
  destruct l; vm_compute in Ha; repeat (apply elem_of_cons in Ha as [->|Ha]; [by destruct Hc as [-> | ->]|]);
    by apply elem_of_nil in Ha.
Qed.
Lemma level_name_inj l l' : level_name l = level_name l' → l = l'.
Proof. by destruct l, l'. Qed.

(** The fields before the message. *)
Definition head (pid : Z) (l : Level) : string :=
  "level=" +:+ level_name l +:+ " pid=" +:+ print_nat pid +:+ " message=".
Lemma head_over pid l : 0 ≤ pid → no_quote (head pid l).
Proof.
  intros Hp. unfold head, no_quote. rewrite !over_app. split_and!.
  - apply (bool_decide_unpack _). vm_compute. exact I.
  - apply level_over. by right.
  - apply (bool_decide_unpack _). vm_compute. exact I.
  - by apply print_nat_over.
  - apply (bool_decide_unpack _). vm_compute. exact I.
Qed.
Lemma head_inj pid l pid' l' :
  0 ≤ pid → 0 ≤ pid' → head pid l = head pid' l' → pid = pid' ∧ l = l'.
Proof.
  intros Hp Hp' Heq. unfold head in Heq.
  apply (inj (String.append "level=")) in Heq.
  apply (cut_at " " _ ("pid=" +:+ print_nat pid +:+ " message=") _ ("pid=" +:+ print_nat pid' +:+ " message="))
    in Heq as [Hl Heq]; [|apply level_over; by left..].
  apply (inj (String.append "pid=")) in Heq.
  apply (cut_at " " _ "message=" _ "message=") in Heq as [Hn _]; [|by apply print_nat_over..].
  split; [by apply print_inj|by apply level_name_inj].
Qed.

Definition node_field (node_id : string) : string := " node_id=" +:+ node_id +:+ String "010" "".
Definition line_field (line : option Z) (rest : string) : string :=
  match line with
  | Some n => " line=" +:+ String "034" (print_nat n +:+ String "034" rest)
  | None => rest
  end.
Lemma text_prints pid node_id r :
  text (prints pid node_id r) =
    head pid (r_level r) +:+ String "034" (r_args r +:+ String "034" (" target=" +:+
      String "034" (r_target r +:+ String "034" (line_field (r_line r) (node_field node_id))))).
Proof.
  unfold prints, text, head, line_field, node_field.
  destruct (r_line r); simpl;
    repeat (rewrite ?append_nil_r, ?append_nil, ?append_cons, ?append_assoc); done.
Qed.

Lemma line_field_inj line line' id id' :
  (∀ n, line = Some n → 0 ≤ n) → (∀ n, line' = Some n → 0 ≤ n) → 
  line_field line (node_field id) = line_field line' (node_field id') → line = line' ∧ id = id'.
Proof.
  assert (∀ i j, node_field i = node_field j → i = j) as Hnode.
  { intros i j Hij. apply (inj (String.append " node_id=")) in Hij.
    by apply append_cancel_r in Hij. }
  intros Hn Hn'. destruct line as [n|], line' as [n'|]; simpl; intros Heq.
  - apply (inj (String.append " line=")) in Heq. injection Heq as Heq.
    apply (cut_at "034") in Heq as [Hnn Hid]; [|by apply print_nat_over; auto..].
    split; [f_equal; apply print_inj; auto|by apply Hnode].
  - done.
  - done.
  - split; [done|by apply Hnode].
Qed.

(** A line without quotes in its message and its target determines the record, the process and
    the node. *)
Theorem line_determines_record p p' id id' r r' :
  0 ≤ p → 0 ≤ p' → (∀ n, r_line r = Some n → 0 ≤ n) → (∀ n, r_line r' = Some n → 0 ≤ n) →
  no_quote (r_args r) → no_quote (r_args r') → no_quote (r_target r) → no_quote (r_target r') →
  text (prints p id r) = text (prints p' id' r') →
  p = p' ∧ id = id' ∧ r_level r = r_level r' ∧ r_args r = r_args r' ∧ r_target r = r_target r' ∧
  r_line r = r_line r'.
Proof.
  intros Hp Hp' Hl Hl' Ha Ha' Ht Ht'. rewrite !text_prints. intros Heq.
  apply cut_at in Heq as [Hh Heq]; [|by apply head_over..].
  apply cut_at in Heq as [Hargs Heq]; [|done..].
  apply (inj (String.append " target=")) in Heq. injection Heq as Heq.
  apply cut_at in Heq as [Htarget Heq]; [|done..].
  apply line_field_inj in Heq as [Hline Hid]; [|done..].
  apply head_inj in Hh as [Hpid Hlevel]; [|done..]. done.
Qed.

(** What is logged: the line of the record, unless its level is off or it is the message of LDK
    that is never printed. The first [init] decides on the node and the level. *)
Theorem log_prints pid r s node_id level :
  logger s = Some node_id → max_level s = level →
  text (printed (log pid r s)) =
    text (printed s) +:+
      (if bool_decide (level_rank (r_level r) ≤ filter_rank level)%nat &&
          negb (r_literal r && bool_decide (r_args r = refused_message))
       then text (prints pid node_id r) else "").
Proof.
  intros Hl <-. unfold log, enabled. rewrite Hl.
  assert (∀ l k, text (l ++ k) = text l +:+ text k) as Happ.
  { intros l k. unfold text. induction l as [|a l IH]; simpl; [done|]. by rewrite IH, append_assoc. }
  destruct (bool_decide (_ ≤ _)%nat); simpl; [|by rewrite append_nil_r].
  destruct (r_literal r && _); simpl; [by rewrite append_nil_r|]. apply Happ.
Qed.
Lemma init_twice n1 l1 n2 l2 : init n2 l2 (init n1 l1 silent) = init n1 l1 silent.
Proof. done. Qed.

(** LDK's records carry their level, and no line. *)
Lemma ldk_record_line pid node_id r :
  text (prints pid node_id (mk_record (level_of (lr_level r)) (lr_args r) (lr_literal r) (lr_module_path r) None)) =
    head pid (level_of (lr_level r)) +:+ String "034" (lr_args r +:+ String "034" (" target=" +:+
      String "034" (lr_module_path r +:+ String "034" (node_field node_id)))).
Proof. apply text_prints. Qed.

(** ** What a line can be made to say *)

(** A quote in a message is not escaped: one record reads as two, the second an error. *)
Example forged_line :
  let quote := String "034" "" in
  let newline := String "010" "" in
  text (prints 7 "one" (mk_record LInfo
    ("alias of a peer" +:+ quote +:+ " target=" +:+ quote +:+ "kld" +:+ quote +:+ " node_id=one" +:+ newline +:+
     "level=error pid=7 message=" +:+ quote +:+ "funds lost") false "kld" None)) =
  text (prints 7 "one" (mk_record LInfo "alias of a peer" true "kld" None)) +:+
  text (prints 7 "one" (mk_record LError "funds lost" true "kld" None)).
Proof. vm_compute. reflexivity. Qed.

(** Two threads print at the same time: each print is whole, the lines are not. *)
Inductive merge {A} : list A → list A → list A → Prop :=
| merge_nil : merge [] [] []
| merge_left a l k m : merge l k m → merge (a :: l) k (a :: m)
| merge_right a l k m : merge l k m → merge l (a :: k) (a :: m).
Example mixed_lines :
  ∃ m, merge (prints 7 "one" (mk_record LInfo "Broadcast" true "kld" None))
             (prints 7 "one" (mk_record LError "Failed" true "ldk" None)) m ∧
    text m = ("level=infolevel=error pid=7 message=" +:+ String "034" "Failed" +:+ String "034"
      (" target=" +:+ String "034" "ldk" +:+ String "034" " node_id=one" +:+ String "010"
      (" pid=7 message=" +:+ String "034" "Broadcast" +:+ String "034" (" target=" +:+ String "034" "kld" +:+
       String "034" " node_id=one" +:+ String "010" "")))).
Proof.
  eexists. split.
  - apply merge_left. do 6 apply merge_right. do 5 apply merge_left. apply merge_nil.
  - vm_compute. reflexivity.
Qed.
