(* ===== verification/Patterns.v ===== *)
(** * Regular expressions

    The patterns of the deployment manager are anchored at both ends and use classes of ASCII
    characters, sequences and bounded repetition. A pattern is its syntax tree, its meaning the
    set of texts it matches; the matcher of the [regex] crate is a class whose law is that
    meaning. [backtrack] is an instance. *)

From S2P Require Import Prelude.
From Stdlib Require Import Ascii.

Abbreviation word := (list ascii).

Inductive pattern :=
| CharClass (ranges : list (ascii * ascii))
| Seq (p q : pattern)
| Repeat (p : pattern) (lo hi : nat).

Definition in_range (c : ascii) (r : ascii * ascii) : bool :=
  bool_decide (nat_of_ascii r.1 ≤ nat_of_ascii c ≤ nat_of_ascii r.2)%nat.
Definition in_class (ranges : list (ascii * ascii)) (c : ascii) : bool :=
  existsb (in_range c) ranges.

Fixpoint lang (p : pattern) (w : word) : Prop :=
  match p with
  | CharClass ranges => ∃ c, w = [c] ∧ in_class ranges c = true
  | Seq p q => ∃ w1 w2, w = w1 ++ w2 ∧ lang p w1 ∧ lang q w2
  | Repeat p lo hi => ∃ ws, w = mjoin ws ∧ Forall (lang p) ws ∧ (lo ≤ length ws ≤ hi)%nat
  end.

(** [Regex::new("^..$").unwrap().is_match(s)]. *)
Class Regexes := { is_match : pattern → string → bool }.
Class RegexLaws `{Regexes} := {
  is_match_lang : ∀ p s, is_match p s = true ↔ lang p (String.list_ascii_of_string s);
}.

(** ** A matcher

    [rests p w]: what can be left of [w] after a beginning that [p] matches. *)

Fixpoint iterate {A} (n : nat) (f : A → list A) (a : A) : list A :=
  match n with O => [a] | S n => f a ≫= iterate n f end.
Fixpoint rests (p : pattern) (w : word) : list word :=
  match p with
  | CharClass ranges =>
      match w with c :: w => if in_class ranges c then [w] else [] | [] => [] end
  | Seq p q => rests p w ≫= rests q
  | Repeat p lo hi => seq lo (S hi - lo) ≫= λ n, iterate n (rests p) w
  end.
Definition backtrack : Regexes :=
  {| is_match p s := bool_decide ([] ∈ rests p (String.list_ascii_of_string s)) |}.

Section Matcher.

Lemma iterate_spec (f : word → list word) (P : word → Prop) n w r :
  (∀ v r, r ∈ f v ↔ ∃ u, v = u ++ r ∧ P u) →
  r ∈ iterate n f w ↔ ∃ ws, w = mjoin ws ++ r ∧ Forall P ws ∧ length ws = n.
Proof.
  intros Hf. revert w. induction n as [|n IH]; intros w; simpl.
  - rewrite list_elem_of_singleton. split; [intros ->; by exists []|].
    by intros ([] & -> & _ & [=]).
  - rewrite list_elem_of_bind. split.
    + intros (v & (ws & -> & Hws & <-)%IH & (u & -> & Hu)%Hf).
      exists (u :: ws). simpl. by rewrite <- (assoc_L (++)), Forall_cons.
    + intros ([|u ws] & -> & Hws & [= <-]). apply Forall_cons in Hws as [Hu Hws].
      exists (mjoin ws ++ r). split; [apply IH; by exists ws|apply Hf]. exists u. simpl.
      by rewrite (assoc_L (++)).
Qed.

Lemma rests_spec p w r : r ∈ rests p w ↔ ∃ u, w = u ++ r ∧ lang p u.
Proof.
  revert w r. induction p as [ranges|p IHp q IHq|p IH lo hi]; intros w r; simpl.
  - destruct w as [|c w]; [split; [by intros ?%elem_of_nil|by intros (u & [-> ->]%symmetry%app_nil & ? & ? & ?)]|].
    destruct (in_class ranges c) eqn:Hc.
    + rewrite list_elem_of_singleton. split; [intros ->; exists [c]; split; [done|by eexists]|].
      by intros (u & Hw & c' & -> & _); injection Hw.
    + split; [by intros ?%elem_of_nil|]. intros (u & Hw & c' & -> & Hc'). injection Hw as -> ->.
      congruence.
  - rewrite list_elem_of_bind. setoid_rewrite IHp. setoid_rewrite IHq. split.
    + intros (v & (w2 & -> & H2) & w1 & -> & H1). exists (w1 ++ w2). rewrite <- (assoc_L (++)). eauto 7.
    + intros (u & -> & w1 & w2 & -> & H1 & H2). exists (w2 ++ r). rewrite <- (assoc_L (++)). eauto 6.
  - rewrite list_elem_of_bind. setoid_rewrite elem_of_seq.
    setoid_rewrite (iterate_spec _ _ _ _ _ IH). split.
    + intros (n & (ws & -> & Hws & <-) & Hn). eexists. split; [done|]. exists ws.
      split_and!; [done..|lia|lia].
    + intros (u & -> & ws & -> & Hws & Hn). exists (length ws). split; [by eauto|lia].
Qed.

Lemma backtrack_laws : @RegexLaws backtrack.
Proof.
  split. intros p s. unfold is_match, backtrack. rewrite bool_decide_eq_true, rests_spec.
  split; [intros (u & -> & Hu); by rewrite app_nil_r|eexists]. by rewrite app_nil_r.
Qed.

(** Repetitions of one class. *)
Lemma lang_repeat_class ranges lo hi w :
  lang (Repeat (CharClass ranges) lo hi) w ↔
  Forall (λ c, in_class ranges c = true) w ∧ (lo ≤ length w ≤ hi)%nat.
Proof.
  simpl. split.
  - intros (ws & -> & Hws & Hn). assert (length (mjoin ws) = length ws ∧
      Forall (λ c, in_class ranges c = true) (mjoin ws)) as [Hl Hf]; [|by rewrite Hl].
    clear Hn. induction Hws as [|? ws (c & -> & Hc) _ [IHl IHf]]; [done|]. simpl. rewrite IHl.
    by auto.
  - intros [Hf Hn]. exists ((λ c, [c]) <$> w). rewrite length_fmap. split_and!; [|..|lia|lia].
    + clear. induction w as [|c w IH]; [done|]. cbn. f_equal. apply IH.
    + clear Hn. induction Hf; constructor; eauto.
Qed.

Lemma lang_class ranges w :
  lang (CharClass ranges) w ↔ ∃ c, w = [c] ∧ in_class ranges c = true.
Proof. done. Qed.

Lemma lang_seq p q w : lang (Seq p q) w ↔ ∃ w1 w2, w = w1 ++ w2 ∧ lang p w1 ∧ lang q w2.
Proof. done. Qed.

(** One repetition less. *)
Lemma lang_repeat_S p n w :
  lang (Repeat p (S n) (S n)) w ↔ ∃ w1 w2, w = w1 ++ w2 ∧ lang p w1 ∧ lang (Repeat p n n) w2.
Proof.
  split.
  - intros ([|u ws] & -> & Hws & Hn); simpl in Hn; [lia|]. apply Forall_cons in Hws as [Hu Hws].
    exists u, (mjoin ws). split_and!; [done..|]. exists ws. split_and!; [done..|lia|lia].
  - intros (w1 & w2 & -> & H1 & ws & -> & Hws & Hn). exists (w1 :: ws). simpl.
    split_and!; [done|by constructor|lia|lia].
Qed.

Lemma lang_repeat_0 p w : lang (Repeat p 0 0) w ↔ w = [].
Proof.
  split; [|intros ->; exists []; by split_and!]. intros ([|? ?] & -> & _ & Hn); simpl in Hn; [done|lia].
Qed.
End Matcher.
