(* ===== verification/Files.v ===== *)
(** * Files and programs

    The file system as a map from paths to contents, the functions of [std::fs] on it, and the
    programs that the deployment manager runs ([openssl], [cockroach], [ssh-keygen]). Which
    operations the system permits and what the programs do is the class [Os]. Directories are
    not tracked: creating one either fails or has no effect that is seen. *)

From Stdlib Require Import Ascii.
From stdpp Require Import gmap.
From S2P Require Import Prelude Text RustStd.

#[local] Open Scope string_scope.
#[local] Open Scope Z_scope.

Abbreviation FS := (gmap string string).

(** The result of [Command::status]. *)
Inductive Status := NotStarted | Exited (code : Z) | Signalled.
#[global] Instance Status_eq_dec : EqDecision Status.
Proof. solve_decision. Defined.

Class Os := {
  (** Looking a path up, reading it and writing it are not refused (permissions, space, a
      missing directory). *)
  stat_ok : FS → string → bool;
  read_ok : FS → string → bool;
  write_ok : FS → string → bool;
  run : string → list string → FS → Status * FS;
}.

Inductive failure :=
| IoError (path : string)
| NotFound (path : string)
| CommandFailed (command : string) (args : list string) (status : Status)
| LibraryError (what : string)
| WithContext (what : string) (cause : failure).

Abbreviation filem := (cmd FS failure).

(** [.context(..)] / [.with_context(..)]. *)
Definition context {A} (what : string) (m : filem A) : filem A := cmd_map_err (WithContext what) m.

(** The separator of paths is written out where a path is joined from parts. *)
Section Operations.
Context {OS : Os}.

Definition fs_exists (p : string) : filem bool := λ s,
  (Ok (bool_decide (is_Some (s !! p)) && stat_ok s p), s).
Definition fs_read (p : string) : filem string := λ s,
  if read_ok s p then (ok_or (NotFound p) (s !! p), s) else (Err (IoError p), s).
(** A file that is not UTF-8 is an error. *)
Definition fs_read_to_string (p : string) : filem string :=
  let* content := fs_read p in
  cmd_lift (ok_or (LibraryError "stream did not contain valid UTF-8") (from_utf8 content)).
Definition fs_write (p content : string) : filem () := λ s,
  if write_ok s p then (Ok (), <[p := content]> s) else (Err (IoError p), s).
Definition fs_rename (p q : string) : filem () := λ s,
  if write_ok s p && write_ok s q then
    match s !! p with
    | Some content => (Ok (), <[q := content]> (delete p s))
    | None => (Err (NotFound p), s)
    end
  else (Err (IoError p), s).
Definition create_dir_all (p : string) : filem () := λ s,
  if write_ok s p then (Ok (), s) else (Err (IoError p), s).

(** src/mgr/src/command.rs: everything but the exit code 0 is an error. *)
Definition status_to_pretty_err (status : Status) (command : string) (args : list string) :
    result failure () :=
  match status with
  | Exited 0 => Ok ()
  | _ => Err (CommandFailed command args status)
  end.
Definition run_status (command : string) (args : list string) : filem Status := λ s,
  let '(st, s') := run command args s in (Ok st, s').
Definition run_checked (command : string) (args : list string) : filem () :=
  let* st := run_status command args in cmd_lift (status_to_pretty_err st command args).
(** [Command::output()?]: only a program that does not start is an error. *)
Definition run_output (command : string) (args : list string) : filem Status :=
  let* st := run_status command args in
  if bool_decide (st = NotStarted) then cmd_err (CommandFailed command args st) else cmd_ret st.
End Operations.

(** ** Files that stay

    What happens to the files of a directory tree, up to the contents: [grows T s s'] when every
    file of [s] outside the temporary paths [T] is there in [s']. *)

Definition grows (temp : string → bool) (s s' : FS) : Prop :=
  ∀ p, temp p = false → is_Some (s !! p) → is_Some (s' !! p).
#[global] Instance grows_preorder temp : PreOrder (grows temp).
Proof. split; [by intros s p|]. intros s1 s2 s3 H12 H23 p Hp Hs. auto. Qed.

(** A command that, when it succeeds, keeps the files. *)
Definition keeps_files {E A} (temp : string → bool) (m : cmd FS E A) : Prop :=
  ∀ s a s', m s = (Ok a, s') → grows temp s s'.
(** A command that, when it succeeds, leaves a file. *)
Definition leaves {E A} (m : cmd FS E A) (p : string) : Prop :=
  ∀ s a s', m s = (Ok a, s') → is_Some (s' !! p).

Lemma context_inv {A} what (m : filem A) s a s' :
  context what m s = (Ok a, s') → m s = (Ok a, s').
Proof. unfold context, cmd_map_err. destruct (m s) as [[| |] ?]; simpl; congruence. Qed.

Section Keeps.
Context {OS : Os} (temp : string → bool).
Implicit Types p q : string.

Lemma leaves_ret {E A} (a : A) : keeps_files temp (cmd_ret (S := FS) (E := E) a).
Proof. by intros s b s' [= <- <-]. Qed.
Lemma leaves_err {E A} (e : E) : keeps_files temp (cmd_err (S := FS) (A := A) e).
Proof. by intros s b s'. Qed.
Lemma leaves_panic {E A} w : keeps_files temp (cmd_panic (S := FS) (E := E) (A := A) w).
Proof. by intros s b s'. Qed.
Lemma leaves_lift {E A} (r : result E A) : keeps_files temp (cmd_lift (S := FS) r).
Proof. by intros s b s' [= _ <-]. Qed.
Lemma leaves_bind {E A B} (m : cmd FS E A) (f : A → cmd FS E B) :
  keeps_files temp m → (∀ a, keeps_files temp (f a)) → keeps_files temp (cmd_bind m f).
Proof. intros Hm Hf s b s' (a & s1 & H1 & H2)%cmd_bind_inv. etrans; [by eapply Hm|by eapply Hf]. Qed.
Lemma leaves_map_err {E F A} (g : E → F) (m : cmd FS E A) :
  keeps_files temp m → keeps_files temp (cmd_map_err g m).
Proof.
  intros Hm s a s'. unfold cmd_map_err. destruct (m s) as [[b| |] s1] eqn:H1; simpl; [|done..].
  intros [= <- <-]. by eapply Hm.
Qed.
Lemma keeps_context {A} w (m : filem A) : keeps_files temp m → keeps_files temp (context w m).
Proof. apply leaves_map_err. Qed.
Lemma keeps_if {E A} (c : bool) (m1 m2 : cmd FS E A) :
  keeps_files temp m1 → keeps_files temp m2 → keeps_files temp (if c then m1 else m2).
Proof. by destruct c. Qed.
Lemma keeps_match_option {E A B} (o : option B) (f : B → cmd FS E A) (m : cmd FS E A) :
  (∀ b, keeps_files temp (f b)) → keeps_files temp m →
  keeps_files temp (match o with Some b => f b | None => m end).
Proof. by destruct o. Qed.
Lemma leaves_forM {E A} (f : A → cmd FS E ()) l :
  (∀ a, keeps_files temp (f a)) → keeps_files temp (cmd_forM f l).
Proof. intros Hf. induction l; simpl; [apply leaves_ret|]. by apply leaves_bind. Qed.

(** A step of a loop, and what happens to the files after it. *)
Lemma forM_step {E A} (f : A → cmd FS E ()) l a s u s' :
  (∀ b, keeps_files temp (f b)) → cmd_forM f l s = (Ok u, s') → a ∈ l →
  ∃ s1 u1 s2, f a s1 = (Ok u1, s2) ∧ grows temp s2 s'.
Proof.
  intros Hf. revert s. induction l as [|b l IH]; intros s; simpl; [by intros _ ?%elem_of_nil|].
  intros (u1 & s1 & H1 & H2)%cmd_bind_inv [->|Ha]%elem_of_cons; [|by eapply IH].
  exists s, u1, s1. split; [done|]. by eapply (leaves_forM f l).
Qed.

Lemma keeps_exists p : keeps_files temp (fs_exists p).
Proof. by intros s b s' [= _ <-]. Qed.
Lemma keeps_read p : keeps_files temp (fs_read p).
Proof. intros s b s'. unfold fs_read. destruct (read_ok s p); intros [= ? <-]; done. Qed.
Lemma keeps_create_dir p : keeps_files temp (create_dir_all p).
Proof. intros s b s'. unfold create_dir_all. destruct (write_ok s p); [|done]. by intros [= _ <-]. Qed.
Lemma keeps_write p c : keeps_files temp (fs_write p c).
Proof.
  intros s b s'. unfold fs_write. destruct (write_ok s p); [|done]. intros [= _ <-] q _ Hq.
  by apply lookup_insert_is_Some; destruct (decide (p = q)); auto.
Qed.
Lemma keeps_rename p q : temp p = true → keeps_files temp (fs_rename p q).
Proof.
  intros Hp s b s'. unfold fs_rename. destruct (_ && _); [|done].
  destruct (s !! p); [|done]. intros [= _ <-] r Hr Hs.
  rewrite lookup_insert_is_Some'. right. rewrite lookup_delete_ne; congruence.
Qed.
End Keeps.

(** ** A small instance to compute with *)

(** Everything is permitted and no program does anything. *)
Definition example_os : Os :=
  {| stat_ok _ _ := true; read_ok _ _ := true; write_ok _ _ := true; run _ _ s := (Exited 0, s) |}.
