(* ===== verification/Config.v ===== *)
(** * The configuration of the deployment manager

    src/mgr/src/config.rs: the cluster file [kld.toml] as it is read ([ConfigFile]), the checks
    that turn it into the configuration the other commands work with ([Host], [Config]), in the
    order of the code and with the error each reports. TOML, regular expressions, keys, hex and
    base64 are the class [Manager], like the file system, the process environment and the
    monitoring server. *)

From Stdlib Require Import Ascii.
From stdpp Require Import gmap.
From S2P Require Import Prelude Text RustStd Patterns.

#[local] Open Scope string_scope.
#[local] Open Scope Z_scope.

(** ** Data *)

Class MgrTypes := {
  Url : Type;
  url_to_string : Url → string;
  toml_value : Type;
}.

Inductive LogLevel := Error | Warn | Info | Debug | Trace.

Section Data.
Context {MT : MgrTypes}.

Record CockroachPeer := mk_peer {
  cp_name : string;
  cp_ipv4_address : option IpAddr;
  cp_ipv6_address : option IpAddr;
}.

Record TelegrafConfig := mk_telegraf {
  tg_url : option Url;
  tg_username : string;
  tg_password : string;
}.
Record KmonitorConfig := mk_kmonitor {
  telegraf : option TelegrafConfig;
  promtail : option string;
}.

Record HostDefaultConfig := mk_host_default {
  hd_ipv4_gateway : option IpAddr;
  hd_ipv4_cidr : option Z;
  hd_ipv6_gateway : option IpAddr;
  hd_ipv6_cidr : option Z;
  hd_public_ssh_keys : list string;
  hd_install_ssh_user : option string;
  hd_extra_nixos_modules : list string;
  hd_disks : option (list string);
  hd_kuutamo_monitoring_token_file : option string;
  hd_self_monitoring_url : option Url;
  hd_self_monitoring_username : option string;
  hd_self_monitoring_password : option string;
  hd_promtail_client : option string;
  hd_kld_node_alias_color : option string;
  hd_probe_interval : option Z;
  hd_probe_amt_msat : option Z;
  hd_probe_targets : option (list string);
  hd_shutdown_graceful_sec : option Z;
}.

Record HostConfig := mk_host_config {
  hc_ipv4_address : option IpAddr;
  hc_ipv4_gateway : option IpAddr;
  hc_ipv4_cidr : option Z;
  hc_nixos_module : string;
  hc_mac_address : option string;
  hc_ipv6_address : option string;
  hc_ipv6_gateway : option IpAddr;
  hc_ipv6_cidr : option Z;
  hc_public_ssh_keys : list string;
  hc_install_ssh_user : option string;
  hc_hostname : option string;
  hc_disks : option (list string);
  hc_bitcoind_disks : option (list string);
  hc_kld_node_alias : option string;
  hc_kld_node_alias_color : option string;
  hc_kld_log_level : option LogLevel;
  hc_kuutamo_monitoring_token_file : option string;
  hc_self_monitoring_url : option Url;
  hc_self_monitoring_username : option string;
  hc_self_monitoring_password : option string;
  hc_promtail_client : option string;
  hc_kld_rest_api_port : option Z;
  hc_kld_api_ip_access_list : list IpAddr;
  hc_network_interface : option string;
  hc_upgrade_schedule : option string;
  hc_probe_interval : option Z;
  hc_probe_amt_msat : option Z;
  hc_probe_targets : list string;
  hc_shutdown_graceful_sec : option Z;
  (** Every key that is none of the above. *)
  hc_others : gmap string toml_value;
}.

Record Host := mk_host {
  h_name : string;
  h_nixos_module : string;
  h_extra_nixos_modules : list string;
  h_mac_address : option string;
  h_ipv4_address : option IpAddr;
  h_ipv4_cidr : option Z;
  h_ipv4_gateway : option IpAddr;
  h_ipv6_address : option IpAddr;
  h_ipv6_cidr : option Z;
  h_ipv6_gateway : option IpAddr;
  h_install_ssh_user : string;
  h_hostname : string;
  h_public_ssh_keys : list string;
  h_disks : list string;
  h_bitcoind_disks : list string;
  h_cockroach_peers : list CockroachPeer;
  h_kld_node_alias : option string;
  h_kld_node_alias_color : option string;
  h_kld_log_level : option LogLevel;
  h_kmonitor_config : option KmonitorConfig;
  h_rest_api_port : option Z;
  h_api_ip_access_list : list IpAddr;
  h_telegraf_has_monitoring : bool;
  h_promtail_has_client : bool;
  h_monitor_config_hash : string;
  h_network_interface : option string;
  h_kld_preset_mnemonic : option bool;
  h_upgrade_schedule : option string;
  h_probe_interval : option Z;
  h_probe_amt_msat : option Z;
  h_probe_targets : list string;
  h_shutdown_graceful_sec : option Z;
}.

(** [host.cockroach_peers = ..]. *)
Definition set_cockroach_peers (peers : list CockroachPeer) (h : Host) : Host :=
  mk_host (h_name h) (h_nixos_module h) (h_extra_nixos_modules h) (h_mac_address h)
    (h_ipv4_address h) (h_ipv4_cidr h) (h_ipv4_gateway h) (h_ipv6_address h) (h_ipv6_cidr h)
    (h_ipv6_gateway h) (h_install_ssh_user h) (h_hostname h) (h_public_ssh_keys h) (h_disks h)
    (h_bitcoind_disks h) peers (h_kld_node_alias h) (h_kld_node_alias_color h)
    (h_kld_log_level h) (h_kmonitor_config h) (h_rest_api_port h) (h_api_ip_access_list h)
    (h_telegraf_has_monitoring h) (h_promtail_has_client h) (h_monitor_config_hash h)
    (h_network_interface h) (h_kld_preset_mnemonic h) (h_upgrade_schedule h)
    (h_probe_interval h) (h_probe_amt_msat h) (h_probe_targets h) (h_shutdown_graceful_sec h).

Record Global := mk_global {
  deployment_flake : string;
  access_tokens : string;
  knd_flake : string;
  secret_directory : string;
}.
(** What serde fills in for an absent [knd_flake], [secret_directory]. *)
Definition default_knd_flake : string := "github:kuutamolabs/lightning-knd".
Definition default_secret_directory : string := "secrets".

Record ConfigFile := mk_config_file {
  cf_global : Global;
  cf_host_defaults : HostDefaultConfig;
  cf_hosts : gmap string HostConfig;
}.

Record Config := mk_config {
  hosts : gmap string Host;
  global : Global;
}.
End Data.

(** The ways to fail, a constructor for each [bail!], [context] or [?]. *)
Inductive ConfigError :=
| TomlError (e : string)
| NotAllowedFields (fields : string)
| NameLength (name : string)
| NameCharacters (name : string)
| MacAddress (mac : string)
| NotIpv4 (name : string) (address : IpAddr)
| Ipv4Cidr (name : string) (cidr : Z)
| AddrParseError
| AddressIsNotInvalid
| Ipv6AddressNotValid (name : string) (cause : ConfigError)
| NotIpv6 (name : string) (address : IpAddr)
| Ipv6Cidr (name : string) (cidr : Z)
| NoIpv6Cidr (name : string)
| NoIpv6Gateway (name : string)
| NoAddress (name : string)
| NoGateway (name : string)
| NoSshKeys (name : string)
| NoDisks (name : string)
| IncompleteMonitoring (name : string)
| AliasTooLong
| AliasColor
| ProbeTarget (target : string)
| KldNodes (found : nat)
| CockroachNodes (found : nat)
| FlakeNotAccessible (flake : string)
| CannotReadFile
| NoWorkingDirectory (path : string).

(** ** What the manager calls *)

Class Manager `{MT : MgrTypes} := {
  mgr_regex :: Regexes;
  (** [toml::from_str] with the serde attributes of [ConfigFile]. *)
  toml_from_str : string → result ConfigError ConfigFile;
  (** [<[u8; 3]>::from_hex(..).is_ok()]. *)
  hex_colour : string → bool;
  (** [PublicKey::from_str(..).is_ok()]. *)
  is_public_key : string → bool;
  (** [STANDARD_NO_PAD.decode(..).ok()]. *)
  base64_decode : string → option string;
  (** [DefaultHasher]: its algorithm is not specified. *)
  default_hash : option KmonitorConfig → Z;
  (** [fs::read_to_string(..).ok()], [Path::parent]. *)
  read_to_string : string → option string;
  parent : string → option string;
  (** [std::env::var(..).ok()]. *)
  env_var : string → option string;
  (** The status of the request to the monitoring server with these credentials, if it could
      be sent. *)
  monitoring_status : string → string → option Z;
  (** [nix flake show --refresh --access-tokens t flake]: whether it succeeded, if it ran. *)
  nix_flake_show : string → string → option bool;
}.

(** ** Operations *)

Section Operations.
Context {HO : HashOrder} {MT : MgrTypes} {MG : Manager}.

(** [AsIpAddr::normalize]: the part before the first slash is the address, the part after it
    the mask. *)
Definition normalize (s : string) : result ConfigError (IpAddr * option Z) :=
  match split_once "/" s with
  | Some (addr_str, subnet) =>
      let mask := parse_unsigned 8 subnet in
      if bool_decide (is_Some mask) then
        match parse_ip addr_str with
        | Some addr => Ok (addr, mask)
        | None => Err AddressIsNotInvalid
        end
      else Err AddressIsNotInvalid
  | None => let? addr := ok_or AddrParseError (parse_ip s) in Ok (addr, None)
  end.

Definition when_then {A} (c : bool) (e : A) : result A () := if c then Err e else Ok ().

(** [^[a-z0-9][a-z0-9\-]{0,62}$]. *)
Definition hostname_regex : pattern :=
  let alnum := [("a", "z"); ("0", "9")]%char in
  Seq (CharClass alnum) (Repeat (CharClass (alnum ++ [("-", "-")%char])%list) 0 62).
(** [^([0-9A-Fa-f]{2}[:-]){5}([0-9A-Fa-f]{2})$]. *)
Definition mac_address_regex : pattern :=
  let hex2 := Repeat (CharClass [("0", "9"); ("A", "F"); ("a", "f")]%char) 2 2 in
  Seq (Repeat (Seq hex2 (CharClass [(":", ":"); ("-", "-")]%char)) 5 5) hex2.

Definition validate_name (name : string) : result ConfigError () :=
  if bool_decide (String.length name = 0 ∨ 63 < String.length name)%nat
  then Err (NameLength name)
  else when_then (negb (is_match hostname_regex name)) (NameCharacters name).

Definition validate_mac_address (mac : option string) : result ConfigError (option string) :=
  match mac with
  | Some a => if is_match mac_address_regex a then Ok (Some a) else Err (MacAddress a)
  | None => Ok None
  end.

Definition validate_ipv4_address (name : string) (address : option IpAddr) :
    result ConfigError (option IpAddr) :=
  match address with
  | Some a => if is_ipv4 a then Ok (Some a) else Err (NotIpv4 name a)
  | None => Ok None
  end.

Definition validate_ipv4_cidr (name : string) (cidr : option Z) : result ConfigError (option Z) :=
  match cidr with
  | Some c => if bool_decide (0 ≤ c < 33) then Ok (Some c) else Err (Ipv4Cidr name c)
  | None => Ok None
  end.

Definition validate_ipv6_address (name : string) (address : option string)
    (ipv6_cidr : option Z) (ipv6_gateway : option IpAddr) :
    result ConfigError (option IpAddr * option Z) :=
  match address with
  | Some text =>
      let? (a, mask) := map_err (Ipv6AddressNotValid name) (normalize text) in
      let? _ := when_then (negb (is_ipv6 a)) (NotIpv6 name a) in
      let? _ := match ipv6_cidr with
                | Some c => when_then (negb (bool_decide (0 ≤ c < 129))) (Ipv6Cidr name c)
                | None => when_then (bool_decide (mask = None)) (NoIpv6Cidr name)
                end in
      let? _ := when_then (bool_decide (ipv6_gateway = None)) (NoIpv6Gateway name) in
      Ok (Some a, mask)
  | None => Ok (None, None)
  end.

Definition decode_token (s : string) : option (string * string) :=
  l ← base64_decode (trim_matches ["="; of_codes [10%nat]] s);
  decode_str ← from_utf8 l;
  '(u, p) ← split_once ":" decode_str;
  Some (trim u, trim p).

(** [StatusCode::UNAUTHORIZED] is 401. *)
Definition try_verify_kuutamo_monitoring_config (user_id password : string) :
    option TelegrafConfig :=
  let username := "kld-" +:+ user_id in
  match monitoring_status username password with
  | Some 401 => None
  | _ => Some (mk_telegraf None username password)
  end.

Definition opt_or {A} (a b : option A) : option A := match a with Some _ => a | None => b end.

Definition select_telegraf (name : string) (host : HostConfig) (dflt : HostDefaultConfig) :
    result ConfigError (option TelegrafConfig) :=
  let token_file := default "kuutamo-monitoring.token"
    (opt_or (hc_kuutamo_monitoring_token_file host) (hd_kuutamo_monitoring_token_file dflt)) in
  match opt_or (hc_self_monitoring_url host) (hd_self_monitoring_url dflt),
        opt_or (hc_self_monitoring_username host) (hd_self_monitoring_username dflt),
        opt_or (hc_self_monitoring_password host) (hd_self_monitoring_password dflt),
        (trim <$> read_to_string token_file) ≫= decode_token with
  | Some url, Some username, Some password, _ => Ok (Some (mk_telegraf (Some url) username password))
  | Some url, _, _, Some (user_id, password) => Ok (Some (mk_telegraf (Some url) user_id password))
  | None, _, _, Some (user_id, password) => Ok (try_verify_kuutamo_monitoring_config user_id password)
  | None, Some _, _, None | None, _, Some _, None => Err (IncompleteMonitoring name)
  | _, _, _, _ => Ok None
  end.

Definition select_kmonitor (telegraf_config : option TelegrafConfig) (host : HostConfig)
    (dflt : HostDefaultConfig) : option KmonitorConfig :=
  if bool_decide (is_Some telegraf_config) || bool_decide (is_Some (hc_promtail_client host)) ||
     bool_decide (is_Some (hd_promtail_client dflt))
  then Some (mk_kmonitor telegraf_config (opt_or (hc_promtail_client host) (hd_promtail_client dflt)))
  else None.

Definition is_kld (host : HostConfig) : bool := starts_with "kld" (hc_nixos_module host).

Definition select_probe_targets (host : HostConfig) (dflt : HostDefaultConfig) :
    result ConfigError (list string) :=
  let targets := if is_kld host then (default [] (hd_probe_targets dflt) ++ hc_probe_targets host)%list
                 else [] in
  match list_find (λ t, is_public_key t = false) targets with
  | Some (_, target) => Err (ProbeTarget target)
  | None => Ok targets
  end.

Definition validate_host (name : string) (host : HostConfig) (dflt : HostDefaultConfig)
    (preset_mnemonic : bool) : result ConfigError Host :=
  let? _ := when_then (bool_decide (hc_others host ≠ ∅))
              (NotAllowedFields (join ", " (btree_iter (hc_others host)).*1)) in
  let? _ := validate_name name in
  let? mac_address := validate_mac_address (hc_mac_address host) in
  let? ipv4_address := validate_ipv4_address name (hc_ipv4_address host) in
  let? ipv4_cidr := validate_ipv4_cidr name (opt_or (hc_ipv4_cidr host) (hd_ipv4_cidr dflt)) in
  let ipv4_gateway := opt_or (hc_ipv4_gateway host) (hd_ipv4_gateway dflt) in
  let ipv6_cidr := opt_or (hc_ipv6_cidr host) (hd_ipv6_cidr dflt) in
  let ipv6_gateway := opt_or (hc_ipv6_gateway host) (hd_ipv6_gateway dflt) in
  let? (ipv6_address, mask) :=
    validate_ipv6_address name (hc_ipv6_address host) ipv6_cidr ipv6_gateway in
  let? address := ok_or (NoAddress name) (opt_or ipv4_address ipv6_address) in
  let? _ := when_then (bool_decide (ipv4_gateway = None ∧ ipv6_gateway = None)) (NoGateway name) in
  let hostname := default (print_ip address) (hc_hostname host) in
  let install_ssh_user := default "root" (opt_or (hc_install_ssh_user host) (hd_install_ssh_user dflt)) in
  let public_ssh_keys := (hc_public_ssh_keys host ++ hd_public_ssh_keys dflt)%list in
  let? _ := when_then (bool_decide (public_ssh_keys = [])) (NoSshKeys name) in
  let disks := default ["/dev/nvme0n1"; "/dev/nvme1n1"] (opt_or (hc_disks host) (hd_disks dflt)) in
  let? _ := when_then (bool_decide (disks = [])) (NoDisks name) in
  let bitcoind_disks := default [] (hc_bitcoind_disks host) in
  let? telegraf_config := select_telegraf name host dflt in
  let kmonitor_config := select_kmonitor telegraf_config host dflt in
  let? _ := match hc_kld_node_alias host with
            | Some alias => when_then (bool_decide (32 < String.length alias)%nat) AliasTooLong
            | None => Ok ()
            end in
  let kld_node_alias_color := opt_or (hc_kld_node_alias_color host) (hd_kld_node_alias_color dflt) in
  let? _ := match kld_node_alias_color with
            | Some code => when_then (negb (hex_colour code)) AliasColor
            | None => Ok ()
            end in
  let? probe_targets := select_probe_targets host dflt in
  Ok {| h_name := name; h_nixos_module := hc_nixos_module host;
        h_extra_nixos_modules := hd_extra_nixos_modules dflt; h_mac_address := mac_address;
        h_ipv4_address := ipv4_address; h_ipv4_cidr := ipv4_cidr; h_ipv4_gateway := ipv4_gateway;
        h_ipv6_address := ipv6_address; h_ipv6_cidr := opt_or mask ipv6_cidr;
        h_ipv6_gateway := ipv6_gateway; h_install_ssh_user := install_ssh_user;
        h_hostname := hostname; h_public_ssh_keys := public_ssh_keys; h_disks := disks;
        h_bitcoind_disks := bitcoind_disks; h_cockroach_peers := [];
        h_kld_node_alias := hc_kld_node_alias host; h_kld_node_alias_color := kld_node_alias_color;
        h_kld_log_level := hc_kld_log_level host; h_kmonitor_config := kmonitor_config;
        h_rest_api_port := hc_kld_rest_api_port host;
        h_api_ip_access_list := hc_kld_api_ip_access_list host;
        h_telegraf_has_monitoring := bool_decide (is_Some (kmonitor_config ≫= telegraf));
        h_promtail_has_client := bool_decide (is_Some (kmonitor_config ≫= promtail));
        h_monitor_config_hash := print_nat (default_hash kmonitor_config);
        h_network_interface := hc_network_interface host;
        h_kld_preset_mnemonic := Some preset_mnemonic;
        h_upgrade_schedule := hc_upgrade_schedule host;
        h_probe_interval := if is_kld host
          then opt_or (hc_probe_interval host) (hd_probe_interval dflt) else None;
        h_probe_amt_msat := if is_kld host
          then opt_or (hc_probe_amt_msat host) (hd_probe_amt_msat dflt) else None;
        h_probe_targets := probe_targets;
        h_shutdown_graceful_sec := opt_or (hc_shutdown_graceful_sec host) (hd_shutdown_graceful_sec dflt) |}.

(** The current build of the flake is only looked at when the command could be run; its failure
    counts unless [FLAKE_CHECK] is set. *)
Definition validate_global (g : Global) (working_directory : string)
    (check_deployment_repo : bool) : result ConfigError Global :=
  let g := if is_relative (secret_directory g)
           then mk_global (deployment_flake g) (access_tokens g) (knd_flake g)
                  (path_join working_directory (secret_directory g))
           else g in
  match nix_flake_show (access_tokens g) (deployment_flake g) with
  | Some success =>
      if negb success && bool_decide (env_var "FLAKE_CHECK" = None) && check_deployment_repo
      then Err (FlakeNotAccessible (deployment_flake g)) else Ok g
  | None => Ok g
  end.

(** [.collect::<BTreeMap<_, _>>()]: a later pair replaces an earlier one with its key. *)
Definition btree_collect {V} (l : list (string * V)) : gmap string V :=
  foldl (λ m p, <[p.1 := p.2]> m) ∅ l.

Definition peer_of (p : string * Host) : CockroachPeer :=
  mk_peer p.1 (h_ipv4_address p.2) (h_ipv6_address p.2).
Definition count_module (module : string) (m : gmap string Host) : nat :=
  length (filter (λ p, h_nixos_module p.2 = module) (btree_iter m)).

(** The iterator over the hosts of the file. *)
Definition validate_hosts (config : ConfigFile) (preset_mnemonic : bool) :
    result ConfigError (gmap string Host) :=
  let? pairs := result_mapM (λ '(name, host),
                  let? h := validate_host name host (cf_host_defaults config) preset_mnemonic in
                  Ok (name, h)) (hash_iter (cf_hosts config)) in
  Ok (btree_collect pairs).

Definition parse_config (content working_directory : string)
    (preset_mnemonic check_deployment_repo : bool) : result ConfigError Config :=
  let? config := toml_from_str content in
  let? hosts := validate_hosts config preset_mnemonic in
  let cockroach_peers := peer_of <$> btree_iter hosts in
  let hosts := set_cockroach_peers cockroach_peers <$> hosts in
  let kld_nodes := count_module "kld-node" hosts in
  let? _ := when_then (bool_decide (kld_nodes ≠ 1)%nat) (KldNodes kld_nodes) in
  let cockroach_nodes := count_module "cockroachdb-node" hosts in
  let? _ := when_then (bool_decide (cockroach_nodes ≠ 0 ∧ cockroach_nodes < 2)%nat)
              (CockroachNodes cockroach_nodes) in
  let? global := validate_global (cf_global config) working_directory check_deployment_repo in
  Ok (mk_config hosts global).

Definition load_configuration (path : string) (preset_mnemonic check_deployment_repo : bool) :
    result ConfigError Config :=
  let? content := ok_or CannotReadFile (read_to_string path) in
  let? working_directory := ok_or (NoWorkingDirectory path) (parent path) in
  parse_config content working_directory preset_mnemonic check_deployment_repo.

Definition deploy_ssh_target (h : Host) : string := "root@" +:+ h_hostname h.
Definition flake_uri (h : Host) (flake_path : string) : string :=
  flake_path +:+ "#" +:+ h_name h.
End Operations.

(** ** Lemmas *)

Section Lemmas.
Context {HO : HashOrder} {HOL : HashOrderLaws} {MT : MgrTypes} {MG : Manager} {RL : RegexLaws}.

Lemma result_bind_ok {E A B} (r : result E A) (f : A → result E B) b :
  result_bind r f = Ok b ↔ ∃ a, r = Ok a ∧ f a = Ok b.
Proof. destruct r; simpl; naive_solver. Qed.

Lemma when_then_ok {E} c (e : E) u : when_then c e = Ok u ↔ c = false.
Proof. destruct c, u; simpl; naive_solver. Qed.

Lemma ok_or_ok {E A} (e : E) (o : option A) a : ok_or e o = Ok a ↔ o = Some a.
Proof. destruct o; simpl; naive_solver. Qed.

(** The two patterns, character by character. *)
Definition lower_alnum (c : ascii) : bool := in_class [("a", "z"); ("0", "9")]%char c.
Definition hex_char (c : ascii) : bool := in_class [("0", "9"); ("A", "F"); ("a", "f")]%char c.

(** A label of a host name, as the resolver takes it. *)
Definition host_label (name : string) : bool :=
  match String.list_ascii_of_string name with
  | [] => false
  | c :: cs => lower_alnum c && forallb (λ c, lower_alnum c || Ascii.eqb c "-") cs &&
               bool_decide (length cs ≤ 62)%nat
  end.

(** [n] groups of two digits and a separator, and two digits. *)
Fixpoint mac_groups (n : nat) (w : list ascii) : bool :=
  match n, w with
  | O, [a; b] => hex_char a && hex_char b
  | S n, a :: b :: c :: w =>
      hex_char a && hex_char b && (Ascii.eqb c ":" || Ascii.eqb c "-") && mac_groups n w
  | _, _ => false
  end.
Definition mac_text (s : string) : bool := mac_groups 5 (String.list_ascii_of_string s).

Lemma in_class_app r1 r2 c : in_class (r1 ++ r2) c = in_class r1 c || in_class r2 c.
Proof. apply existsb_app. Qed.

Lemma in_class_single c1 c : in_class [(c1, c1)] c = Ascii.eqb c c1.
Proof.
  unfold in_class, in_range. simpl. rewrite orb_false_r.
  destruct (Ascii.eqb_spec c c1) as [->|Hne]; case_bool_decide as Hb; try done; [lia|].
  destruct Hne. rewrite <- (ascii_nat_embedding c), <- (ascii_nat_embedding c1). f_equal. lia.
Qed.

Lemma length_list_ascii s : length (String.list_ascii_of_string s) = String.length s.
Proof. induction s as [|c s IH]; simpl; [done|]. by rewrite IH. Qed.

Lemma hostname_regex_label name : is_match hostname_regex name = host_label name.
Proof.
  apply eq_true_iff_eq. rewrite is_match_lang. unfold hostname_regex, host_label.
  generalize (String.list_ascii_of_string name). intros w. cbn [lang]. split.
  - intros (w1 & w2 & -> & (c & -> & Hc) & Hr).
    apply lang_repeat_class in Hr as [Hf Hn]. simpl.
    rewrite !andb_true_iff, bool_decide_eq_true, forallb_forall. split_and!; [done| |lia].
    intros a Ha%list_elem_of_In. rewrite Forall_forall in Hf. specialize (Hf a Ha).
    by rewrite in_class_app, in_class_single in Hf.
  - destruct w as [|c cs]; [done|].
    rewrite !andb_true_iff, bool_decide_eq_true, forallb_forall. intros [[Hc Hf] Hn].
    exists [c], cs. split; [done|]. split; [by exists c|]. apply lang_repeat_class.
    split; [|lia]. apply Forall_forall. intros a Ha%list_elem_of_In.
    rewrite in_class_app, in_class_single. by apply Hf.
Qed.

Lemma lang_hex2 w :
  lang (Repeat (CharClass [("0", "9"); ("A", "F"); ("a", "f")]%char) 2 2) w ↔
  ∃ a b, w = [a; b] ∧ hex_char a = true ∧ hex_char b = true.
Proof.
  rewrite lang_repeat_class. split.
  - intros [Hf Hn]. destruct w as [|a [|b [|]]]; simpl in Hn; try lia.
    apply Forall_cons in Hf as [Ha Hf]. apply Forall_cons in Hf as [Hb _]. eauto.
  - intros (a & b & -> & Ha & Hb). simpl. split; [by repeat constructor|lia].
Qed.

Lemma lang_mac_groups n w :
  lang (Seq (Repeat (Seq (Repeat (CharClass [("0", "9"); ("A", "F"); ("a", "f")]%char) 2 2)
                         (CharClass [(":", ":"); ("-", "-")]%char)) n n)
            (Repeat (CharClass [("0", "9"); ("A", "F"); ("a", "f")]%char) 2 2)) w ↔
  mac_groups n w = true.
Proof.
  revert w. induction n as [|n IH]; intros w.
  - rewrite lang_seq. setoid_rewrite lang_repeat_0. setoid_rewrite lang_hex2. split.
    + intros (w1 & w2 & -> & -> & a & b & -> & Ha & Hb). simpl. by rewrite Ha, Hb.
    + destruct w as [|a [|b [|]]]; try done. simpl. intros [Ha Hb]%andb_true_iff.
      exists [], [a; b]. eauto 7.
  - rewrite lang_seq. setoid_rewrite (lang_repeat_S (Seq _ _)). split.
    + intros (w1 & w2 & -> & (u & v & -> & (x & y & -> & Hx & Hy) & Hv) & Hw2).
      apply lang_hex2 in Hx as (a & b & -> & Ha & Hb). destruct Hy as (c & -> & Hc).
      assert (mac_groups n (v ++ w2) = true) as Hr by (apply IH, lang_seq; by exists v, w2).
      cbn [mac_groups app]. rewrite Ha, Hb, Hr, !andb_true_r. simpl.
      rewrite <- !in_class_single. unfold in_class in *. simpl in *. by rewrite !orb_false_r in *.
    + destruct w as [|a [|b [|c w]]]; try done. cbn [mac_groups].
      rewrite !andb_true_iff. intros [[[Ha Hb] Hc] (v & w2 & -> & Hv & Hw2)%IH].
      exists ([a; b; c] ++ v)%list, w2. split; [done|]. split; [|done]. exists [a; b; c], v.
      split; [done|]. split; [|done]. exists [a; b], [c]. split; [done|].
      split; [apply lang_hex2; eauto|]. exists c. split; [done|].
      rewrite <- !in_class_single in Hc. unfold in_class in *. simpl in *. by rewrite !orb_false_r in *.
Qed.

Lemma mac_regex_text s : is_match mac_address_regex s = mac_text s.
Proof. apply eq_true_iff_eq. rewrite is_match_lang. apply lang_mac_groups. Qed.
End Lemmas.

(** ** A well-formed configuration *)

Section WellFormed.
Context {HO : HashOrder} {MT : MgrTypes} {MG : Manager}.

(** What the commands of the manager and the modules of the deployment rely on. *)
Record host_wf (h : Host) : Prop := {
  wf_name : host_label (h_name h) = true;
  wf_mac : ∀ mac, h_mac_address h = Some mac → mac_text mac = true;
  wf_ipv4 : ∀ a, h_ipv4_address h = Some a → is_ipv4 a = true;
  wf_ipv4_cidr : ∀ c, h_ipv4_cidr h = Some c → 0 ≤ c ≤ 32;
  wf_ipv6 : ∀ a, h_ipv6_address h = Some a →
    is_ipv6 a = true ∧ ip_ok a ∧ is_Some (h_ipv6_cidr h) ∧ is_Some (h_ipv6_gateway h);
  wf_address : is_Some (h_ipv4_address h) ∨ is_Some (h_ipv6_address h);
  wf_gateway : is_Some (h_ipv4_gateway h) ∨ is_Some (h_ipv6_gateway h);
  wf_ssh_keys : h_public_ssh_keys h ≠ [];
  wf_disks : h_disks h ≠ [];
  wf_monitoring : ∀ k, h_kmonitor_config h = Some k →
    h_telegraf_has_monitoring h || h_promtail_has_client h = true;
  wf_monitoring_none : h_kmonitor_config h = None →
    h_telegraf_has_monitoring h = false ∧ h_promtail_has_client h = false;
  wf_alias : ∀ alias, h_kld_node_alias h = Some alias → (String.length alias ≤ 32)%nat;
  wf_colour : ∀ code, h_kld_node_alias_color h = Some code → hex_colour code = true;
  wf_targets : ∀ t, t ∈ h_probe_targets h → is_public_key t = true;
  wf_probe : starts_with "kld" (h_nixos_module h) = false →
    h_probe_targets h = [] ∧ h_probe_interval h = None ∧ h_probe_amt_msat h = None;
}.

Record config_wf (c : Config) : Prop := {
  wf_hosts : ∀ name h, hosts c !! name = Some h → h_name h = name ∧ host_wf h;
  (** Every host is given all the hosts of the cluster, in the order of their names. *)
  wf_peers : ∀ name h, hosts c !! name = Some h →
    h_cockroach_peers h = peer_of <$> btree_iter (hosts c);
  wf_kld : count_module "kld-node" (hosts c) = 1%nat;
  wf_cockroach : count_module "cockroachdb-node" (hosts c) ≠ 1%nat;
}.
End WellFormed.

(** Takes a successful run apart. *)
Ltac ok_steps :=
  repeat match goal with
  | H : result_bind _ _ = Ok _ |- _ => apply result_bind_ok in H as (? & ? & H)
  | H : when_then _ _ = Ok _ |- _ => apply when_then_ok in H
  | H : ok_or _ _ = Ok _ |- _ => apply ok_or_ok in H
  | H : bool_decide _ = false |- _ => apply bool_decide_eq_false in H
  | H : negb _ = false |- _ => apply negb_false_iff in H
  | p : (_ * _)%type |- _ => destruct p
  end.

Section Theorems.
Context {HO : HashOrder} {HOL : HashOrderLaws} {MT : MgrTypes} {MG : Manager} {RL : RegexLaws}.

Lemma opt_or_None {A} (a b : option A) : opt_or a b = None ↔ a = None ∧ b = None.
Proof. destruct a; simpl; naive_solver. Qed.

Lemma validate_name_ok name : validate_name name = Ok () ↔ host_label name = true.
Proof.
  unfold validate_name. rewrite hostname_regex_label. case_bool_decide as Hl.
  - split; [done|]. unfold host_label. rewrite <- length_list_ascii in Hl.
    destruct (String.list_ascii_of_string name) as [|c cs]; simpl in Hl; [done|].
    rewrite !andb_true_iff, bool_decide_eq_true. lia.
  - rewrite when_then_ok. by destruct (host_label name).
Qed.

(** An optional field that is checked and kept. *)
Lemma check_option {A} (b : A → bool) (e : A → ConfigError) (o o' : option A) :
  match o with Some a => if b a then Ok (Some a) else Err (e a) | None => Ok None end = Ok o' ↔
  o' = o ∧ ∀ a, o = Some a → b a = true.
Proof.
  destruct o as [a|]; [destruct (b a) eqn:Hb|]; split; try by intros [= <-].
  - intros [= <-]. split; [done|]. by intros ? [= <-].
  - by intros [-> _].
  - intros [_ H]. specialize (H a eq_refl). congruence.
  - by intros [-> _].
Qed.

Lemma validate_mac_address_ok m m' :
  validate_mac_address m = Ok m' ↔ m' = m ∧ ∀ mac, m = Some mac → mac_text mac = true.
Proof. setoid_rewrite <- mac_regex_text. apply check_option. Qed.

Lemma validate_ipv4_address_ok name a a' :
  validate_ipv4_address name a = Ok a' ↔ a' = a ∧ ∀ x, a = Some x → is_ipv4 x = true.
Proof. apply check_option. Qed.

Lemma validate_ipv4_cidr_ok name c c' :
  validate_ipv4_cidr name c = Ok c' ↔ c' = c ∧ ∀ x, c = Some x → 0 ≤ x ≤ 32.
Proof.
  unfold validate_ipv4_cidr. rewrite (check_option (λ c, bool_decide (0 ≤ c < 33))).
  setoid_rewrite bool_decide_eq_true. naive_solver lia.
Qed.

Lemma normalize_ok s a mask :
  normalize s = Ok (a, mask) → ip_ok a ∧ ∀ m, mask = Some m → u8 m.
Proof.
  unfold normalize. destruct (split_once "/" s) as [[u v]|].
  - case_bool_decide as Hm; [|done]. destruct (parse_ip u) eqn:Hu; [|done]. intros [= -> <-].
    split; [by eapply parse_ip_spec|]. by apply parse_unsigned_range.
  - intros H. ok_steps. simplify_eq. split; [by eapply parse_ip_spec|done].
Qed.

Lemma validate_ipv6_address_ok name text cidr gw a mask :
  validate_ipv6_address name text cidr gw = Ok (a, mask) →
  ∀ x, a = Some x → is_ipv6 x = true ∧ ip_ok x ∧ is_Some (opt_or mask cidr) ∧ is_Some gw.
Proof.
  unfold validate_ipv6_address. destruct text as [text|]; [|naive_solver]. intros H. ok_steps.
  simplify_eq. intros y [= <-].
  match goal with H : map_err _ (normalize _) = _ |- _ => rename H into Hn end.
  destruct (normalize text) as [[? ?]| |] eqn:Ht; simplify_eq/=.
  apply normalize_ok in Ht as [Hip _]. split_and!; [done..| |].
  - destruct mask; [by eexists|]. destruct cidr; simpl; [by eexists|]. ok_steps. done.
  - by apply not_eq_None_Some.
Qed.

Lemma select_probe_targets_ok host dflt l :
  select_probe_targets host dflt = Ok l →
  (∀ t, t ∈ l → is_public_key t = true) ∧ (is_kld host = false → l = []).
Proof.
  unfold select_probe_targets. destruct (list_find _ _) as [[]|] eqn:Hf; [done|]. intros [= <-].
  rewrite list_find_None, Forall_forall in Hf. split.
  - intros t Ht. specialize (Hf t Ht). by destruct (is_public_key t).
  - by intros ->.
Qed.

Lemma select_kmonitor_flags t host dflt :
  (∀ k, select_kmonitor t host dflt = Some k →
     bool_decide (is_Some (telegraf k)) || bool_decide (is_Some (promtail k)) = true).
Proof.
  unfold select_kmonitor. intros k. destruct (_ || _) eqn:Hb; [|done]. intros [= <-]. simpl.
  rewrite !orb_true_iff, !bool_decide_eq_true in Hb. rewrite orb_true_iff, !bool_decide_eq_true.
  destruct Hb as [[?|[? Hp]]|[? Hp]]; [by left|..]; right; unfold opt_or; rewrite Hp; [done|].
  by destruct (hc_promtail_client host).
Qed.

(** The checked steps of a successful [validate_host], as facts. *)
Ltac host_facts :=
  repeat match goal with
  | H : validate_name _ = Ok ?u |- _ => destruct u; apply validate_name_ok in H
  | H : validate_mac_address _ = Ok _ |- _ => apply validate_mac_address_ok in H as [-> H]
  | H : validate_ipv4_address _ _ = Ok _ |- _ => apply validate_ipv4_address_ok in H as [-> H]
  | H : validate_ipv4_cidr _ _ = Ok _ |- _ => apply validate_ipv4_cidr_ok in H as [-> H]
  | H : validate_ipv6_address _ _ _ _ = Ok _ |- _ =>
      pose proof (validate_ipv6_address_ok _ _ _ _ _ _ H); clear H
  | H : select_probe_targets _ _ = Ok _ |- _ => apply select_probe_targets_ok in H as [? ?]
  end.

Lemma validate_host_wf name host dflt preset h :
  validate_host name host dflt preset = Ok h → h_name h = name ∧ host_wf h.
Proof.
  unfold validate_host. intros H. ok_steps. host_facts. injection H as <-.
  split; [done|]. constructor; simpl; try done.
  - destruct (hc_ipv4_address host); [left; by eexists|right; by eexists].
  - destruct (opt_or (hc_ipv4_gateway host) _); [left; by eexists|].
    destruct (opt_or (hc_ipv6_gateway host) _); [right; by eexists|]. tauto.
  - intros k Hk. rewrite Hk. by eapply select_kmonitor_flags.
  - by intros ->.
  - intros alias Ha. rewrite Ha in *. ok_steps. lia.
  - intros code Hc. rewrite Hc in *. by ok_steps.
  - fold (is_kld host). intros Hk. rewrite Hk. auto.
Qed.

(** The host name is the one of the file, or else the text of the address. *)
Lemma validate_host_hostname name host dflt preset h :
  validate_host name host dflt preset = Ok h →
  ∃ address, opt_or (h_ipv4_address h) (h_ipv6_address h) = Some address ∧
    h_hostname h = default (print_ip address) (hc_hostname host).
Proof.
  unfold validate_host. intros H. ok_steps. host_facts. injection H as <-. simpl. by eexists.
Qed.

Lemma btree_collect_app {V} (l : list (string * V)) p :
  btree_collect (l ++ [p]) = <[p.1 := p.2]> (btree_collect l).
Proof. unfold btree_collect. by rewrite foldl_app. Qed.

Lemma btree_collect_lookup {V} (l : list (string * V)) k v :
  btree_collect l !! k = Some v → (k, v) ∈ l.
Proof.
  induction l as [|[k' v'] l IH] using rev_ind; [done|].
  rewrite btree_collect_app. simpl. rewrite elem_of_app, list_elem_of_singleton.
  intros [[-> ->]|[? ?]]%lookup_insert_Some; [by right|left; auto].
Qed.

Lemma btree_collect_is_Some {V} (l : list (string * V)) k :
  is_Some (btree_collect l !! k) ↔ k ∈ l.*1.
Proof.
  induction l as [|[k' v'] l IH] using rev_ind.
  - split; [by intros []|by intros ?%elem_of_nil].
  - rewrite btree_collect_app, lookup_insert_is_Some', IH, fmap_app, elem_of_app. simpl.
    rewrite list_elem_of_singleton. intuition congruence.
Qed.

(** What [validate_hosts] gives, without the order in which the hosts come. *)
Definition hosts_of_file (cf : ConfigFile) (preset : bool) (m : gmap string Host) : Prop :=
  ∀ name, match cf_hosts cf !! name with
          | Some host => ∃ h, validate_host name host (cf_host_defaults cf) preset = Ok h ∧
                              m !! name = Some h
          | None => m !! name = None
          end.

Lemma hosts_of_file_unique cf preset m1 m2 :
  hosts_of_file cf preset m1 → hosts_of_file cf preset m2 → m1 = m2.
Proof.
  intros H1 H2. apply map_eq. intros name. specialize (H1 name). specialize (H2 name).
  destruct (cf_hosts cf !! name); [|congruence].
  destruct H1 as (h1 & Hv1 & ->), H2 as (h2 & Hv2 & ->). congruence.
Qed.

Lemma validate_hosts_ok cf preset m : validate_hosts cf preset = Ok m → hosts_of_file cf preset m.
Proof.
  intros H. apply result_bind_ok in H as (pairs & Hp & [= <-]).
  assert (pairs.*1 = (hash_iter (cf_hosts cf)).*1) as Hkeys.
  { symmetry. apply list_eq_Forall2, Forall2_fmap. apply result_mapM_Forall2 in Hp.
    eapply Forall2_impl; [done|]. intros [n host] b Hb. ok_steps. by injection Hb as <-. }
  assert (∀ name, is_Some (btree_collect pairs !! name) ↔ is_Some (cf_hosts cf !! name)) as Hdom.
  { intros name. rewrite btree_collect_is_Some, Hkeys, list_elem_of_fmap. split.
    - intros ([n host] & -> & Hin). apply elem_of_hash_iter in Hin. by eexists.
    - intros [host Hh]. exists (name, host). split; [done|]. by apply elem_of_hash_iter. }
  intros name. destruct (cf_hosts cf !! name) as [host|] eqn:Hn.
  - destruct (proj2 (Hdom name)) as [h Hh]; [rewrite Hn; by eexists|]. exists h. split; [|done].
    apply btree_collect_lookup in Hh.
    destruct (result_mapM_elem _ _ _ _ Hp Hh) as ([n host'] & Hin & Hv). ok_steps.
    injection Hv as -> ->. apply elem_of_hash_iter in Hin. congruence.
  - apply eq_None_not_Some. intros Hs%Hdom. rewrite Hn in Hs. by destruct Hs.
Qed.

Lemma validate_hosts_spec cf preset m :
  validate_hosts cf preset = Ok m ↔ hosts_of_file cf preset m.
Proof.
  split; [apply validate_hosts_ok|]. intros Hm.
  assert (∃ m', validate_hosts cf preset = Ok m') as [m' Hm'].
  { unfold validate_hosts. edestruct (result_mapM_forall (λ '(name, host),
      let? h := validate_host name host (cf_host_defaults cf) preset in Ok (name, h))
      (λ _, True) (hash_iter (cf_hosts cf))) as (pairs & -> & _); [|by eexists].
    intros [name host] Hin%elem_of_hash_iter. specialize (Hm name). rewrite Hin in Hm.
    destruct Hm as (h & -> & _). by exists (name, h). }
  by rewrite (hosts_of_file_unique cf preset m m'); [..|apply validate_hosts_ok].
Qed.

Lemma count_module_fmap module f (m : gmap string Host) :
  (∀ h, h_nixos_module (f h) = h_nixos_module h) →
  count_module module (f <$> m) = count_module module m.
Proof.
  intros Hf. unfold count_module. rewrite btree_iter_fmap.
  induction (btree_iter m) as [|[k h] l IH]; [done|]. rewrite fmap_cons, !filter_cons. simpl.
  rewrite Hf. case_decide; simpl; by rewrite IH.
Qed.
End Theorems.

Section Properties.
Context {HO : HashOrder} {HOL : HashOrderLaws} {MT : MgrTypes} {MG : Manager} {RL : RegexLaws}.

(** A host of the configuration comes from the file, and is given its peers. *)
Lemma parse_config_from_file content wd preset chk c name h :
  parse_config content wd preset chk = Ok c → hosts c !! name = Some h →
  ∃ cf host h0 peers, toml_from_str content = Ok cf ∧ cf_hosts cf !! name = Some host ∧
    validate_host name host (cf_host_defaults cf) preset = Ok h0 ∧
    h = set_cockroach_peers peers h0.
Proof.
  unfold parse_config. intros H. apply result_bind_ok in H as (cf & Hcf & H).
  apply result_bind_ok in H as (m & Hm & H). ok_steps. injection H as <-. simpl.
  apply validate_hosts_ok in Hm. rewrite lookup_fmap. intros (h0 & Hh & ->)%fmap_Some.
  specialize (Hm name). rewrite Hh in Hm. destruct (cf_hosts cf !! name) as [host|] eqn:Hn; [|done].
  destruct Hm as (? & Hv & [= <-]). by eexists cf, host, _, _.
Qed.

Lemma parse_config_hosts content wd preset chk c name h :
  parse_config content wd preset chk = Ok c → hosts c !! name = Some h →
  h_name h = name ∧ host_wf h.
Proof.
  intros Hc Hh. destruct (parse_config_from_file _ _ _ _ _ _ _ Hc Hh) as (cf & host & h0 & peers & _ & _ & Hv & ->).
  apply validate_host_wf in Hv as [Hn Hwf]. split; [done|]. by destruct Hwf; constructor.
Qed.

(** [C9] Every configuration the manager goes on with is well formed: every host of the file is
    there under its own name, each has passed all checks ([host_wf]: name, addresses, prefix
    length and gateway of an IPv6 address, keys, disks, alias, colour, probe targets), each knows
    the addresses of all hosts in the order of their names, there is exactly one [kld-node] and
    not exactly one [cockroachdb-node]. *)
Theorem parsed_config_well_formed content wd preset chk c :
  parse_config content wd preset chk = Ok c →
  config_wf c ∧ ∃ cf, toml_from_str content = Ok cf ∧ dom (hosts c) = dom (cf_hosts cf).
Proof.
  intros Hc. pose proof Hc as H. unfold parse_config in H. apply result_bind_ok in H as (cf & Hcf & H).
  apply result_bind_ok in H as (m & Hm & H). ok_steps. injection H as <-.
  apply validate_hosts_ok in Hm. split; [constructor|].
  - intros name h. by eapply parse_config_hosts.
  - intros name h. simpl. rewrite lookup_fmap. intros (h0 & Hh & ->)%fmap_Some. simpl.
    by rewrite btree_iter_fmap, <- list_fmap_compose.
  - simpl. lia.
  - simpl. lia.
  - exists cf. split; [done|]. simpl. rewrite dom_fmap_L. apply set_eq. intros name.
    rewrite !elem_of_dom. specialize (Hm name). destruct (cf_hosts cf !! name).
    + destruct Hm as (h' & _ & ->). by split; eexists.
    + rewrite Hm. done.
Qed.

(** [C33] The checks by regular expression and by length are equivalent to a check of the
    characters: a name is accepted exactly when it is a host name label (a lower-case letter or
    digit, then at most 62 letters, digits or hyphens), and is reported as too long or empty
    rather than as malformed exactly by its length; a mac address exactly when it is six pairs of
    hexadecimal digits separated by colons or hyphens. *)
Theorem name_patterns_equivalent name mac :
  validate_name name =
    (if host_label name then Ok ()
     else if bool_decide (1 ≤ String.length name ≤ 63)%nat then Err (NameCharacters name)
     else Err (NameLength name)) ∧
  validate_mac_address (Some mac) =
    (if mac_text mac then Ok (Some mac) else Err (MacAddress mac)).
Proof.
  split; [|by simpl; rewrite mac_regex_text].
  pose proof (validate_name_ok name) as Hok. destruct (host_label name).
  { by apply Hok. }
  unfold validate_name in *. repeat case_bool_decide; try lia; [done|].
  destruct (negb _); [done|]. by discriminate (proj1 Hok).
Qed.

(** An address written with its subnet gives the address and the prefix length that were
    written: for every text [t] that is an address, [t/n] is normalised to that address and [n],
    and the host that results has them, whatever prefix length the file gives elsewhere. *)
Theorem subnet_gives_the_prefix text n a :
  parse_ip text = Some a → u8 n →
  normalize (text +:+ "/" +:+ print_nat n) = Ok (a, Some n) ∧
  ∀ name host dflt preset h, hc_ipv6_address host = Some (text +:+ "/" +:+ print_nat n) →
    validate_host name host dflt preset = Ok h →
    h_ipv6_address h = Some a ∧ h_ipv6_cidr h = Some n.
Proof.
  intros Ha Hn. assert (normalize (text +:+ "/" +:+ print_nat n) = Ok (a, Some n)) as Hnorm.
  { unfold normalize. change ("/" +:+ print_nat n) with (String "/" (print_nat n)).
    rewrite split_once_over, parse_print by
      (first [done | eapply over_impl; [apply address_char_no_slash|by eapply parse_ip_spec]]).
    by rewrite Ha. }
  split; [done|]. intros name host dflt preset h Htext Hh. unfold validate_host in Hh. ok_steps.
  injection Hh as <-. simpl. rewrite Htext in *.
  match goal with Hv : validate_ipv6_address _ _ _ _ = Ok _ |- _ =>
    unfold validate_ipv6_address in Hv; rewrite Hnorm in Hv end.
  ok_steps. by simplify_eq/=.
Qed.
End Properties.

(** The order in which the hosts of the file are visited (a [HashMap] has none) does not
    matter for a configuration that is accepted. *)
Theorem parse_config_order_independent (HO1 HO2 : HashOrder) `{MG : Manager} content wd preset chk c :
  @HashOrderLaws HO1 → @HashOrderLaws HO2 →
  parse_config (HO := HO1) content wd preset chk = Ok c →
  parse_config (HO := HO2) content wd preset chk = Ok c.
Proof.
  intros HL1 HL2. unfold parse_config. intros H.
  apply result_bind_ok in H as (cf & -> & H). apply result_bind_ok in H as (m & Hm & H). simpl.
  apply (validate_hosts_spec (HO := HO1)), (validate_hosts_spec (HO := HO2)) in Hm. by rewrite Hm.
Qed.

(** ** Concrete inputs *)

Section Instances.

Definition example_mgr_types : MgrTypes :=
  {| Url := string; url_to_string := λ u, u; toml_value := string |}.
#[local] Existing Instance example_mgr_types.

Definition example_defaults : HostDefaultConfig :=
  {| hd_ipv4_gateway := Some (V4 199 127 64 1); hd_ipv4_cidr := Some 24;
     hd_ipv6_gateway := parse_ip "2605:9880:400::1"; hd_ipv6_cidr := Some 48;
     hd_public_ssh_keys := ["ssh-ed25519 AAAA"]; hd_install_ssh_user := None;
     hd_extra_nixos_modules := []; hd_disks := None; hd_kuutamo_monitoring_token_file := None;
     hd_self_monitoring_url := None; hd_self_monitoring_username := None;
     hd_self_monitoring_password := None; hd_promtail_client := None;
     hd_kld_node_alias_color := Some "6e2cf7"; hd_probe_interval := None;
     hd_probe_amt_msat := None; hd_probe_targets := None; hd_shutdown_graceful_sec := None |}.

Definition example_host (module : string) (ipv4 : IpAddr) (ipv6 : string) : HostConfig :=
  {| hc_ipv4_address := Some ipv4; hc_ipv4_gateway := None; hc_ipv4_cidr := None;
     hc_nixos_module := module; hc_mac_address := Some "00:0A:02:0B:03:0c";
     hc_ipv6_address := Some ipv6; hc_ipv6_gateway := None; hc_ipv6_cidr := None;
     hc_public_ssh_keys := []; hc_install_ssh_user := None; hc_hostname := None;
     hc_disks := None; hc_bitcoind_disks := None; hc_kld_node_alias := Some "kuutamo";
     hc_kld_node_alias_color := None; hc_kld_log_level := Some Info;
     hc_kuutamo_monitoring_token_file := None; hc_self_monitoring_url := None;
     hc_self_monitoring_username := None; hc_self_monitoring_password := None;
     hc_promtail_client := None; hc_kld_rest_api_port := None; hc_kld_api_ip_access_list := [];
     hc_network_interface := None; hc_upgrade_schedule := None; hc_probe_interval := None;
     hc_probe_amt_msat := None; hc_probe_targets := []; hc_shutdown_graceful_sec := None;
     hc_others := ∅ |}.

Definition example_file : ConfigFile :=
  {| cf_global := mk_global "github:kuutamolabs/test-env-one" "github.com=ghp" default_knd_flake
                    default_secret_directory;
     cf_host_defaults := example_defaults;
     cf_hosts := {[ "kld-00" := example_host "kld-node" (V4 199 127 64 2) "2605:9880:400::2";
                    "db-00" := example_host "cockroachdb-node" (V4 199 127 64 3) "2605:9880:400::3";
                    "db-01" := example_host "cockroachdb-node" (V4 199 127 64 4) "2605:9880:400::4/200" ]} |}.

Definition example_manager : Manager :=
  {| mgr_regex := backtrack;
     toml_from_str s := if bool_decide (s = "kld.toml") then Ok example_file else Err (TomlError s);
     hex_colour s := bool_decide (String.length s = 6%nat);
     is_public_key s :=
       starts_with "02" s && forallb (λ c, bool_decide (is_Some (to_digit 16 c))) (String.list_ascii_of_string s);
     base64_decode s := Some s;
     default_hash k := match k with Some _ => 1 | None => 0 end;
     read_to_string s := None; parent s := Some "/"; env_var s := None;
     monitoring_status u p := None; nix_flake_show t f := Some true |}.
#[local] Existing Instance example_manager.
#[local] Existing Instance list_order.

Definition example_config : Config :=
  match parse_config "kld.toml" "/" false true with
  | Ok c => c
  | _ => mk_config ∅ (mk_global "" "" "" "")
  end.

Example example_config_ok : parse_config "kld.toml" "/" false true = Ok example_config.
Proof. vm_compute. reflexivity. Qed.

Example example_config_hosts :
  (λ p, (p.1, h_hostname p.2, h_ipv6_cidr p.2, length (h_cockroach_peers p.2))) <$>
    btree_iter (hosts example_config) =
  [("db-00", "199.127.64.3", Some 48, 3%nat); ("db-01", "199.127.64.4", Some 200, 3%nat);
   ("kld-00", "199.127.64.2", Some 48, 3%nat)].
Proof. vm_compute. reflexivity. Qed.

Lemma parsed_config_well_formed_witness : config_wf example_config.
Proof.
  exact (proj1 (parsed_config_well_formed (HOL := list_order_laws) (RL := backtrack_laws)
    "kld.toml" "/" false true example_config example_config_ok)).
Defined.

Lemma name_patterns_equivalent_witness : validate_name "kld-00" = Ok ().
Proof.
  exact (proj1 (name_patterns_equivalent (RL := backtrack_laws) "kld-00" "")).
Defined.

Lemma subnet_gives_the_prefix_witness :
  normalize "2607:5300:203:5cdf::/64" = Ok (V6 [9735; 21248; 515; 23775; 0; 0; 0; 0], Some 64).
Proof.
  refine (proj1 (subnet_gives_the_prefix "2607:5300:203:5cdf::" 64
    (V6 [9735; 21248; 515; 23775; 0; 0; 0; 0]) eq_refl _)).
  unfold in_unsigned. lia.
Defined.

(** A prefix length above 128 is accepted in this form: only the length given elsewhere is
    checked. *)
Example subnet_out_of_range : normalize "::/200" = Ok (V6 (replicate 8 0), Some 200).
Proof. vm_compute. reflexivity. Qed.

Lemma parse_config_order_independent_witness :
  parse_config (HO := {| hash_order _ l := reverse l |}) "kld.toml" "/" false true = Ok example_config.
Proof.
  refine (parse_config_order_independent list_order _ "kld.toml" "/" false true example_config
    list_order_laws _ example_config_ok).
  split. intros A l. apply reverse_Permutation.
Defined.

Example decode_token_example :
  decode_token ("kuutamo : secret=" +:+ of_codes [10%nat]) = Some ("kuutamo", "secret").
Proof. vm_compute. reflexivity. Qed.
End Instances.
