(* ===== verification/Sql.v ===== *)
(** * The SQL layer: tables, statements, the connection

    Every component that persists data sends SQL text through one [tokio_postgres] client
    (src/kld/src/database/mod.rs, [DurableConnection]). This file gives the meaning of the
    statement forms that occur in that SQL text on tables as lists of rows, the connection with
    the statements that can fail, and the lemmas that let a table with a primary key be read as
    a finite map. The driver's own conventions (the order in which a [SELECT] returns rows,
    what [query_opt] and [query_one] do) are the class [Driver]. *)

From S2P Require Import Prelude.

(** ** Statement forms on a table *)

(** The error of a statement: the connection or the server failed it ([Fault]), it violates a
    constraint of the table, or the driver refused the number of rows. *)
Inductive sql_error :=
| Fault (msg : string)
| Constraint (table : string)
| RowCount (n : nat).

Section Statements.
Context {R : Type}.
Implicit Types (l : list R) (p : R → bool).

(** [SELECT ... WHERE p]. *)
Definition where_ p l : list R := List.filter p l.

(** [INSERT] into a table without a primary key. *)
Definition insert_row (r : R) l : list R := l ++ [r].

(** [INSERT] into a table with a primary key: [same] recognises the rows with the new row's
    key. *)
Definition insert_pk (table : string) (same : R → bool) (r : R) l : result sql_error (list R) :=
  if existsb same l then Err (Constraint table) else Ok (l ++ [r]).

(** [UPDATE ... SET f WHERE p]. *)
Definition update_where p (f : R → R) l : list R := map (λ r, if p r then f r else r) l.

(** [DELETE ... WHERE p]. *)
Definition delete_where p l : list R := List.filter (λ r, negb (p r)) l.

(** [UPSERT] on the primary key: the rows with the key take the listed columns ([upd]), and
    when there is none the row [r] is inserted. With every column listed, [upd] is the
    constant [r]. *)
Definition upsert_with (same : R → bool) (upd : R → R) (r : R) l : list R :=
  if existsb same l then update_where same upd l else l ++ [r].
Definition upsert (same : R → bool) (r : R) l : list R := upsert_with same (λ _, r) r l.
End Statements.

(** ** Tables with a primary key as finite maps *)

Section Keyed.
Context {R K : Type} `{EqDecision K}.
Variable key : R → K.
Implicit Types (l : list R) (k : K).

Definition has_key k (r : R) : bool := bool_decide (key r = k).

(** The primary-key constraint of the table. *)
Definition pk l : Prop := NoDup (key <$> l).

(** The row with key [k]. *)
Definition pk_find k l : option R := head (where_ (has_key k) l).

Lemma where_nil_existsb k l : existsb (has_key k) l = false ↔ where_ (has_key k) l = [].
Proof.
  induction l as [|r l IH]; simpl; [done|].
  destruct (has_key k r); simpl; [done|]. done.
Qed.

Lemma pk_nil : pk [].
Proof. constructor. Qed.

Lemma existsb_has_key k l : existsb (has_key k) l = true ↔ k ∈ key <$> l.
Proof.
  rewrite existsb_exists, list_elem_of_fmap. unfold has_key. split.
  - intros (r & Hr & Hk). apply bool_decide_eq_true in Hk. exists r.
    split; [done|]. by apply list_elem_of_In.
  - intros (r & -> & Hr). exists r. split; [by apply list_elem_of_In|].
    by apply bool_decide_eq_true_2.
Qed.

Lemma pk_select k l : pk l → where_ (has_key k) l = option_list (pk_find k l).
Proof.
  unfold pk, pk_find. induction l as [|r l IH]; simpl; [done|].
  intros [Hn Hnd]%NoDup_cons.
  destruct (has_key k r) eqn:Hk; [|by apply IH]. simpl. f_equal.
  apply where_nil_existsb. apply not_true_iff_false. rewrite existsb_has_key.
  unfold has_key in Hk. apply bool_decide_eq_true in Hk. by subst.
Qed.

Lemma pk_find_key k l r : pk_find k l = Some r → key r = k ∧ r ∈ l.
Proof.
  unfold pk_find. intros H. destruct (where_ (has_key k) l) as [|r' l'] eqn:Hw; [done|].
  simplify_eq/=. assert (In r (where_ (has_key k) l)) as Hin by (rewrite Hw; by left).
  unfold where_ in Hin. apply filter_In in Hin as [Hin Hk].
  apply bool_decide_eq_true in Hk. split; [done|]. by apply list_elem_of_In.
Qed.

Lemma pk_find_None k l : pk_find k l = None ↔ existsb (has_key k) l = false.
Proof. rewrite where_nil_existsb. unfold pk_find. by destruct (where_ _ l). Qed.

Lemma pk_find_in r l : pk l → r ∈ l → pk_find (key r) l = Some r.
Proof.
  intros Hpk Hr. assert (In r (where_ (has_key (key r)) l)) as Hin.
  { unfold where_. apply filter_In. split; [by apply list_elem_of_In|].
    by apply bool_decide_eq_true_2. }
  rewrite (pk_select _ _ Hpk) in Hin. destruct (pk_find (key r) l); simpl in Hin; [|done].
  by destruct Hin as [->|[]].
Qed.

Lemma where_app p (l1 l2 : list R) : where_ p (l1 ++ l2) = where_ p l1 ++ where_ p l2.
Proof. apply List.filter_app. Qed.

Lemma pk_snoc r l : pk l → existsb (has_key (key r)) l = false → pk (l ++ [r]).
Proof.
  unfold pk. intros Hl Hr. rewrite fmap_app. apply NoDup_app. split; [done|].
  split; [|by apply NoDup_singleton].
  intros k Hk ->%list_elem_of_singleton. apply existsb_has_key in Hk. congruence.
Qed.

Lemma pk_find_snoc k r l :
  pk_find k (l ++ [r]) =
    match pk_find k l with Some x => Some x | None => if has_key k r then Some r else None end.
Proof.
  unfold pk_find. rewrite where_app. destruct (where_ (has_key k) l); simpl; [|done].
  by destruct (has_key k r).
Qed.

(** [UPDATE] that keeps the key of every row it touches. *)
Lemma update_where_key p f l :
  (∀ r, p r = true → key (f r) = key r) → key <$> update_where p f l = key <$> l.
Proof.
  intros Hf. unfold update_where. induction l as [|r l IH]; simpl; [done|]. f_equal; [|done].
  destruct (p r) eqn:Hp; [by apply Hf|done].
Qed.

Lemma pk_update p f l : (∀ r, p r = true → key (f r) = key r) → pk l → pk (update_where p f l).
Proof. intros Hf Hl. unfold pk. by rewrite update_where_key. Qed.

Lemma existsb_update_where k p f l :
  (∀ r, p r = true → key (f r) = key r) →
  existsb (has_key k) (update_where p f l) = existsb (has_key k) l.
Proof.
  intros Hf. apply Bool.eq_iff_eq_true. by rewrite !existsb_has_key, update_where_key.
Qed.

Lemma pk_find_update_where k p f l :
  (∀ r, p r = true → key (f r) = key r) →
  pk_find k (update_where p f l) = (λ r, if p r then f r else r) <$> pk_find k l.
Proof.
  intros Hf. unfold pk_find. induction l as [|r l IH]; simpl; [done|].
  assert (has_key k (if p r then f r else r) = has_key k r) as ->.
  { destruct (p r) eqn:Hp; [|done]. unfold has_key. by rewrite Hf. }
  by destruct (has_key k r).
Qed.

(** The key of the row an upsert writes is the key it looks for. *)
Lemma pk_upsert_with upd r l :
  (∀ x, key x = key r → key (upd x) = key r) →
  pk l → pk (upsert_with (has_key (key r)) upd r l).
Proof.
  intros Hu Hl. unfold upsert_with. destruct (existsb _ l) eqn:He; [|by apply pk_snoc].
  apply pk_update; [|done]. unfold has_key. intros x Hx%bool_decide_eq_true.
  by rewrite Hu, Hx.
Qed.

Lemma pk_find_upsert_with_eq upd r l :
  (∀ x, key x = key r → key (upd x) = key r) →
  pk_find (key r) (upsert_with (has_key (key r)) upd r l) =
    Some (match pk_find (key r) l with Some x => upd x | None => r end).
Proof.
  intros Hu. unfold upsert_with. destruct (existsb _ l) eqn:He.
  - rewrite pk_find_update_where.
    2:{ unfold has_key. intros x Hx%bool_decide_eq_true. by rewrite Hu, Hx. }
    destruct (pk_find (key r) l) as [x|] eqn:Hf.
    + simpl. apply pk_find_key in Hf as [Hk _]. unfold has_key.
      by rewrite bool_decide_eq_true_2.
    + apply pk_find_None in Hf. congruence.
  - rewrite pk_find_snoc. apply pk_find_None in He. rewrite He. unfold has_key.
    by rewrite bool_decide_eq_true_2.
Qed.

Lemma pk_find_upsert_with_ne k upd r l :
  (∀ x, key x = key r → key (upd x) = key r) → k ≠ key r →
  pk_find k (upsert_with (has_key (key r)) upd r l) = pk_find k l.
Proof.
  intros Hu Hne. unfold upsert_with. destruct (existsb _ l) eqn:He.
  - rewrite pk_find_update_where.
    2:{ unfold has_key. intros x Hx%bool_decide_eq_true. by rewrite Hu, Hx. }
    destruct (pk_find k l) as [x|] eqn:Hf; [|done]. simpl.
    apply pk_find_key in Hf as [Hk _]. unfold has_key.
    rewrite bool_decide_eq_false_2; [done|]. congruence.
  - rewrite pk_find_snoc. destruct (pk_find k l); [done|]. unfold has_key.
    rewrite bool_decide_eq_false_2; [done|]. congruence.
Qed.

Lemma pk_upsert r l : pk l → pk (upsert (has_key (key r)) r l).
Proof. by apply pk_upsert_with. Qed.

Lemma pk_find_upsert k r l :
  pk_find k (upsert (has_key (key r)) r l) =
    if decide (k = key r) then Some r else pk_find k l.
Proof.
  unfold upsert. case_decide as Hk.
  - subst. rewrite pk_find_upsert_with_eq by done. by destruct (pk_find (key r) l).
  - by apply pk_find_upsert_with_ne.
Qed.

Lemma pk_delete p l : pk l → pk (delete_where p l).
Proof.
  unfold pk, delete_where. induction l as [|r l IH]; simpl; [done|].
  intros [Hn Hnd]%NoDup_cons. destruct (p r); simpl; [by apply IH|].
  apply NoDup_cons. split; [|by apply IH]. contradict Hn.
  apply list_elem_of_fmap in Hn as (x & -> & Hx). apply list_elem_of_fmap. exists x.
  split; [done|]. apply list_elem_of_In in Hx. apply filter_In in Hx as [Hx _].
  by apply list_elem_of_In.
Qed.

Lemma pk_find_delete k k' l :
  pk_find k (delete_where (has_key k') l) = if decide (k = k') then None else pk_find k l.
Proof.
  unfold pk_find, delete_where. induction l as [|r l IH]; simpl; [by case_decide|].
  assert (∀ k, has_key k r = bool_decide (key r = k)) as Hh by done.
  destruct (has_key k' r) eqn:Hr'; simpl; rewrite Hh in Hr'.
  - rewrite IH. apply bool_decide_eq_true in Hr'. case_decide; [done|].
    destruct (has_key k r) eqn:Hr; [|done]. rewrite Hh in Hr.
    apply bool_decide_eq_true in Hr. congruence.
  - apply bool_decide_eq_false in Hr'. destruct (has_key k r) eqn:Hr; [|done].
    rewrite Hh in Hr. apply bool_decide_eq_true in Hr.
    rewrite decide_False by congruence. done.
Qed.

Lemma pk_find_None_delete k l : pk_find k l = None → delete_where (has_key k) l = l.
Proof.
  rewrite pk_find_None. unfold delete_where. induction l as [|r l IH]; simpl; [done|].
  destruct (has_key k r); simpl; [done|]. intros ?. by rewrite IH.
Qed.

(** An update that looks for a key no row has does nothing. *)
Lemma update_where_none k f l : pk_find k l = None → update_where (has_key k) f l = l.
Proof.
  rewrite pk_find_None. unfold update_where. induction l as [|r l IH]; simpl; [done|].
  destruct (has_key k r); simpl; [done|]. intros ?. by rewrite IH.
Qed.

Lemma pk_insert table r l l' :
  insert_pk table (has_key (key r)) r l = Ok l' →
  existsb (has_key (key r)) l = false ∧ l' = l ++ [r].
Proof. unfold insert_pk. destruct (existsb _ l) eqn:He; [done|]. by intros [= <-]. Qed.
End Keyed.

Lemma where_elem {R} (p : R → bool) l r : r ∈ where_ p l ↔ r ∈ l ∧ p r = true.
Proof. unfold where_. by rewrite list_elem_of_In, filter_In, <- list_elem_of_In. Qed.

Lemma where_true {R} (l : list R) : where_ (λ _, true) l = l.
Proof. unfold where_. induction l as [|r l IH]; simpl; [done|]. by rewrite IH. Qed.

Lemma where_NoDup {R K} (key : R → K) p l : NoDup (key <$> l) → NoDup (key <$> where_ p l).
Proof.
  unfold where_. induction l as [|r l IH]; simpl; [done|]. intros [Hn Hnd]%NoDup_cons.
  destruct (p r); simpl; [|by apply IH]. apply NoDup_cons. split; [|by apply IH].
  intros (r' & He & [Hr' _]%where_elem)%list_elem_of_fmap. apply Hn. rewrite He.
  by apply list_elem_of_fmap_2.
Qed.

Lemma has_key_eq {R K} `{EqDecision K} (key : R → K) k r : key r = k → has_key key k r = true.
Proof. intros. by apply bool_decide_eq_true_2. Qed.

Lemma has_key_ne {R K} `{EqDecision K} (key : R → K) k r : key r ≠ k → has_key key k r = false.
Proof. intros. by apply bool_decide_eq_false_2. Qed.

Lemma pk_snoc_new {R K} `{EqDecision K} (key : R → K) r l :
  pk key l → pk_find key (key r) l = None → pk key (l ++ [r]).
Proof. intros ? ?%pk_find_None. by apply pk_snoc. Qed.

(** With two unique columns, deleting a row by one of them is deleting it by the other. *)
Lemma delete_other_key {R K1 K2} `{EqDecision K1, EqDecision K2} (key1 : R → K1) (key2 : R → K2)
    k r (l : list R) :
  pk key1 l → pk key2 l → pk_find key1 k l = Some r →
  delete_where (has_key key1 k) l = delete_where (has_key key2 (key2 r)) l.
Proof.
  intros H1 H2 Hr. pose proof (pk_find_key _ _ _ _ Hr) as [Hk Hin]. subst k.
  unfold delete_where. apply filter_ext_in. intros x Hx%list_elem_of_In. f_equal.
  unfold has_key. apply bool_decide_ext. split; intros Hxr.
  - apply (pk_find_in key1) in Hx; [|done]. rewrite Hxr in Hx. congruence.
  - apply (pk_find_in key2) in Hx; [|done]. rewrite Hxr in Hx.
    apply (pk_find_in key2) in Hin; [|done]. congruence.
Qed.

#[export] Hint Resolve pk_nil pk_upsert pk_delete pk_snoc : kld.

(** ** The driver *)

(** What the components rely on of [tokio_postgres] and the server: [Client::query] returns the
    rows of a [SELECT] without [ORDER BY] in an order the server chooses; [query_opt] gives no
    row, the row, or an error when there are several; [query_one] fails unless there is exactly
    one. *)
Class Driver := {
  scan : ∀ {R : Type}, list R → list R;
  query_opt : ∀ {R : Type}, list R → result sql_error (option R);
  query_one : ∀ {R : Type}, list R → result sql_error R;
}.
Class DriverLaws `{Driver} := {
  scan_perm : ∀ {R : Type} (l : list R), scan l ≡ₚ l;
  query_opt_nil : ∀ {R : Type}, query_opt (@nil R) = Ok None;
  query_opt_one : ∀ {R : Type} (r : R), query_opt [r] = Ok (Some r);
  query_opt_many : ∀ {R : Type} (l : list R), (2 ≤ length l)%nat → ∃ e, query_opt l = Err e;
  query_one_nil : ∀ {R : Type}, ∃ e, query_one (@nil R) = Err e;
  query_one_one : ∀ {R : Type} (r : R), query_one [r] = Ok r;
  query_one_many : ∀ {R : Type} (l : list R), (2 ≤ length l)%nat → ∃ e, query_one l = Err e;
}.

(** A driver in front of a server that returns rows in the order they were inserted: the
    instance the examples and witnesses compute with. *)
Definition insertion_order : Driver := {|
  scan R l := l;
  query_opt R l :=
    match l with [] => Ok None | [r] => Ok (Some r) | _ => Err (RowCount (length l)) end;
  query_one R l := match l with [r] => Ok r | _ => Err (RowCount (length l)) end;
|}.
Lemma insertion_order_laws : @DriverLaws insertion_order.
Proof.
  split; simpl; intros; eauto.
  all: destruct l as [|? [|? ?]]; simpl in *; [lia|lia|eauto].
Defined.

Section Scan.
Context `{DriverLaws} {R : Type}.
Implicit Types l : list R.

Lemma scan_elem (r : R) l : r ∈ scan l ↔ r ∈ l.
Proof. by rewrite (scan_perm l). Qed.

Lemma scan_nil : scan (@nil R) = [].
Proof. apply Permutation_nil_r, (scan_perm []). Qed.

Lemma scan_length l : length (scan l) = length l.
Proof. by rewrite (scan_perm l). Qed.

Lemma scan_singleton (r : R) : scan [r] = [r].
Proof. apply Permutation_singleton_r, (scan_perm [r]). Qed.

(** A query by primary key does not depend on the order. *)
Lemma scan_option_list (o : option R) : scan (option_list o) = option_list o.
Proof. destruct o; [apply scan_singleton|apply scan_nil]. Qed.

Lemma scan_where_pk {K} `{EqDecision K} (key : R → K) k l :
  pk key l → scan (where_ (has_key key k) l) = option_list (pk_find key k l).
Proof. intros Hl. by rewrite pk_select, scan_option_list. Qed.

Lemma query_opt_pk {K} `{EqDecision K} (key : R → K) k l :
  pk key l → query_opt (scan (where_ (has_key key k) l)) = Ok (pk_find key k l).
Proof.
  intros Hl. rewrite scan_where_pk by done.
  destruct (pk_find key k l); [apply query_opt_one|apply query_opt_nil].
Qed.

Lemma query_opt_scan_many l : (2 ≤ length l)%nat → ∃ e, query_opt (scan l) = Err e.
Proof. intros Hl. apply query_opt_many. by rewrite scan_length. Qed.
End Scan.

(** ** The connection *)

(** The session of the client: the tables as the session sees them, the outcomes that the
    connection has in store for the next statements ([Some e]: the server refuses the statement
    with [e]; past the end of the list every statement runs), while a transaction is open the
    tables as of its [BEGIN], and whether a statement of that transaction has failed: the server
    then refuses every statement until the transaction ends. *)
Record conn (T : Type) := mk_conn {
  tables : T;
  faults : list (option string);
  snapshot : option T;
  aborted : bool;
}.
Arguments mk_conn {T} tables faults snapshot aborted.
Arguments tables {T} c.
Arguments faults {T} c.
Arguments snapshot {T} c.
Arguments aborted {T} c.

Section Connection.
Context {T : Type}.
Implicit Types c : conn T.

Definition set_tables (t : T) c : conn T := mk_conn t (faults c) (snapshot c) (aborted c).
Definition pop_fault c : conn T := mk_conn (tables c) (tail (faults c)) (snapshot c) (aborted c).
Definition in_transaction c : bool := match snapshot c with Some _ => true | None => false end.
(** A statement failed. *)
Definition failed_in c : conn T := mk_conn (tables c) (faults c) (snapshot c) (in_transaction c).

Definition transaction_aborted : string :=
  "current transaction is aborted, commands ignored until end of transaction block".

(** One statement: the server refuses it, as the connection decides or because the transaction
    is aborted, or [s] runs. A failed statement changes no table. *)
Definition statement {A} (s : T → result sql_error (A * T)) : cmd (conn T) sql_error A := λ c,
  match faults c with
  | Some e :: _ => (Err (Fault e), failed_in (pop_fault c))
  | _ =>
      if aborted c then (Err (Fault transaction_aborted), failed_in (pop_fault c))
      else match s (tables c) with
           | Ok (a, t) => (Ok a, set_tables t (pop_fault c))
           | Err e => (Err e, failed_in (pop_fault c))
           | Panic w => (Panic w, pop_fault c)
           end
  end.

(** [Client::execute]. *)
Definition execute (s : T → result sql_error T) : cmd (conn T) sql_error () :=
  statement (λ t, result_map (λ t', ((), t')) (s t)).

(** [Client::query]. *)
Definition query `{Driver} {R} (s : T → list R) : cmd (conn T) sql_error (list R) :=
  statement (λ t, Ok (scan (s t), t)).

(** [batch_execute("BEGIN")] and [batch_execute("COMMIT")]. The server refuses a [BEGIN]
    inside a transaction, which aborts it. A [COMMIT] of an aborted transaction rolls it back,
    and is not an error. *)
Definition begin_txn : cmd (conn T) sql_error () := λ c,
  match statement (λ t, Ok ((), t)) c with
  | (Ok _, c') =>
      match snapshot c' with
      | Some _ => (Err (Fault "there is already a transaction in progress"), failed_in c')
      | None => (Ok (), mk_conn (tables c') (faults c') (Some (tables c')) false)
      end
  | r => r
  end.
Definition commit_txn : cmd (conn T) sql_error () := λ c,
  match faults c with
  | Some e :: _ => (Err (Fault e), failed_in (pop_fault c))
  | _ => (Ok (), mk_conn (if aborted c then default (tables c) (snapshot c) else tables c)
                   (tail (faults c)) None false)
  end.

(** The session ends (the process stops or the connection drops): what an open transaction
    wrote is gone. *)
Definition disconnect c : conn T :=
  mk_conn (default (tables c) (snapshot c)) (faults c) None false.

(** Every statement reaches the tables. *)
Definition online c : Prop := faults c = [] ∧ aborted c = false.

Lemma pop_fault_online c : online c → pop_fault c = c.
Proof. destruct c as [t fs sn b]. by intros [[= ->] _]. Qed.

Lemma statement_online {A} (s : T → result sql_error (A * T)) c a t :
  online c → s (tables c) = Ok (a, t) → statement s c = (Ok a, set_tables t c).
Proof.
  intros Hc Hs. pose proof Hc as [Hf Ha]. unfold statement.
  by rewrite Hf, Ha, Hs, pop_fault_online.
Qed.

Lemma execute_online (s : T → result sql_error T) c t :
  online c → s (tables c) = Ok t → execute s c = (Ok (), set_tables t c).
Proof. intros Hc Hs. apply statement_online; [done|]. by rewrite Hs. Qed.

Lemma execute_online_err (s : T → result sql_error T) c e :
  online c → s (tables c) = Err e → execute s c = (Err e, failed_in c).
Proof.
  intros Hc Hs. pose proof Hc as [Hf Ha]. unfold execute, statement, result_map.
  by rewrite Hf, Ha, Hs, pop_fault_online.
Qed.

Lemma query_online `{Driver} {R} (s : T → list R) c :
  online c → query s c = (Ok (scan (s (tables c))), c).
Proof.
  intros Hc. unfold query. erewrite statement_online by done.
  by destruct c.
Qed.

(** Whatever happens to a statement, its effect is all or nothing. *)
Lemma execute_atomic (s : T → result sql_error T) c r c' :
  execute s c = (r, c') →
  (r = Ok () ∧ s (tables c) = Ok (tables c')) ∨ (r ≠ Ok () ∧ tables c' = tables c).
Proof.
  unfold execute, statement, result_map. intros H.
  destruct (faults c) as [|[e|] fs]; [|right; by injection H as <- <-|];
    (destruct (aborted c); [right; by injection H as <- <-|]);
    (destruct (s (tables c)) eqn:Hs; simpl in H; injection H as <- <-;
     [by left|by right|by right]).
Qed.

Lemma statement_snapshot {A} (s : T → result sql_error (A * T)) c :
  snapshot (snd (statement s c)) = snapshot c.
Proof.
  unfold statement. destruct (faults c) as [|[e|] fs]; try done;
    (destruct (aborted c); [done|]); by destruct (s (tables c)) as [[]| |].
Qed.

Lemma query_keeps_tables `{Driver} {R} (s : T → list R) c r c' :
  query s c = (r, c') → tables c' = tables c.
Proof.
  unfold query, statement. intros Hq.
  destruct (faults c) as [|[e|] fs]; try (by injection Hq as <- <-);
    destruct (aborted c); by injection Hq as <- <-.
Qed.

(** In an aborted transaction every statement fails. *)
Lemma statement_aborted {A} (s : T → result sql_error (A * T)) c :
  aborted c = true → ∃ e, fst (statement s c) = Err (Fault e).
Proof. intros Ha. unfold statement. rewrite Ha. destruct (faults c) as [|[]]; by eexists. Qed.
End Connection.

#[export] Hint Resolve execute_online query_online : kld.

(** *** Aborted transactions

    A command of statements does nothing in an aborted transaction, and leaves it aborted. *)
Section Aborted.
Context {T : Type}.
Implicit Types c : conn T.

Definition dead c : Prop := aborted c = true ∧ in_transaction c = true.
Definition stays_dead {E A} (m : cmd (conn T) E A) : Prop :=
  ∀ c, dead c → dead (snd (m c)) ∧ tables (snd (m c)) = tables c.

Lemma dead_ret {E A} (a : A) : stays_dead (E:=E) (cmd_ret a).
Proof. done. Qed.
Lemma dead_err {E A} (e : E) : stays_dead (A:=A) (cmd_err e).
Proof. done. Qed.
Lemma dead_lift {E A} (r : result E A) : stays_dead (cmd_lift r).
Proof. done. Qed.
Lemma dead_bind {E A B} (m : cmd (conn T) E A) (f : A → cmd (conn T) E B) :
  stays_dead m → (∀ a, stays_dead (f a)) → stays_dead (cmd_bind m f).
Proof.
  intros Hm Hf c Hc. unfold cmd_bind. specialize (Hm c Hc). destruct (m c) as [[a|e|w] c']; try done.
  simpl in *. destruct Hm as [Hd <-]. by apply Hf.
Qed.
Lemma dead_map_err {E F A} (g : E → F) (m : cmd (conn T) E A) :
  stays_dead m → stays_dead (cmd_map_err g m).
Proof. intros Hm c Hc. specialize (Hm c Hc). unfold cmd_map_err. by destruct (m c). Qed.
Lemma dead_map {E A B} (g : A → B) (m : cmd (conn T) E A) : stays_dead m → stays_dead (cmd_map g m).
Proof. intros Hm. apply dead_bind; [done|]. intros a. apply dead_ret. Qed.
Lemma dead_statement {A} (s : T → result sql_error (A * T)) : stays_dead (statement s).
Proof.
  intros c [Ha Hi]. unfold statement. rewrite Ha.
  by destruct (faults c) as [|[e|] fs].
Qed.

(** A statement that fails inside a transaction aborts it. *)
Lemma statement_aborts {A} (s : T → result sql_error (A * T)) c e c' :
  in_transaction c = true → statement s c = (Err e, c') → dead c'.
Proof.
  unfold statement. intros Hi. destruct (faults c) as [|[e'|] fs];
    [|by intros [= _ <-]|]; (destruct (aborted c); [by intros [= _ <-]|]);
    destruct (s (tables c)) as [[]| |]; by intros [= _ <-].
Qed.
End Aborted.
Create HintDb dead.
#[export] Hint Resolve dead_ret dead_err dead_lift dead_bind dead_map_err dead_map dead_statement : dead.

(** ** A part of the tables

    A component works on its own tables. [zoom] runs it on a connection whose tables contain
    them; the component neither begins nor ends a transaction. *)
Class Lens (T W : Type) := {
  view : T → W;
  put : W → T → T;
}.
Class LensLaws T W `{Lens T W} := {
  view_put : ∀ w t, view (put w t) = w;
  put_view : ∀ t, put (view t) t = t;
  put_put : ∀ w w' t, put w (put w' t) = put w t;
}.

Definition zoom {T W E A} `{Lens T W} (m : cmd (conn W) E A) : cmd (conn T) E A := λ c,
  let '(r, c') := m (mk_conn (view (tables c)) (faults c) (view <$> snapshot c) (aborted c)) in
  (r, mk_conn (put (tables c') (tables c)) (faults c') (snapshot c) (aborted c')).

Lemma dead_zoom {T W E A} `{Lens T W} (m : cmd (conn W) E A) :
  stays_dead m → (∀ t, put (view t) t = t) → stays_dead (zoom m).
Proof.
  intros Hm Hp c [Ha Hi]. unfold zoom.
  destruct (Hm (mk_conn (view (tables c)) (faults c) (view <$> snapshot c) (aborted c))) as [[Ha' _] Ht].
  { split; [done|]. unfold in_transaction in *. simpl. by destruct (snapshot c). }
  destruct (m _) as [r c']. simpl in *. rewrite Ht, Hp. done.
Qed.

#[export] Instance lens_fst {A B} : Lens (A * B) A :=
  {| view := fst; put a p := (a, snd p) |}.
#[export] Instance lens_snd {A B} : Lens (A * B) B :=
  {| view := snd; put b p := (fst p, b) |}.
#[export] Instance lens_fst_laws {A B} : LensLaws (A * B) A.
Proof. split; [done|by intros []|done]. Qed.
#[export] Instance lens_snd_laws {A B} : LensLaws (A * B) B.
Proof. split; [done|by intros []|done]. Qed.
