(* ===== verification/Fees.v ===== *)
(** * Fee rates and the Bitcoin node (src/kld/src/bitcoind, api/payloads.rs, ldk/channel_utils.rs)

    The fee rates of the API with their text form, the fee estimates that [BitcoindClient] keeps
    for LDK and the wallet ([Priorities]), the test that bitcoind is synchronised, the
    decomposition of short channel ids and the look-up of a funding output that gossip
    announced. Answers of bitcoind are arguments. *)

From S2P Require Import Prelude Text.
From Stdlib Require Import Ascii.

(** ** Fee rates (api/payloads.rs) *)

Inductive FeeRate := Urgent | Normal | Slow | PerKw (sats : Z) | PerKb (sats : Z).
#[global] Instance FeeRate_eq_dec : EqDecision FeeRate.
Proof. solve_decision. Defined.

(** [#[default]]. *)
Definition fee_rate_default : FeeRate := Normal.

Definition fee_rate_serialize (f : FeeRate) : string :=
  match f with
  | Urgent => "urgent"
  | Normal => "normal"
  | Slow => "slow"
  | PerKw x => print_nat x +:+ "perkw"
  | PerKb x => print_nat x +:+ "perkb"
  end.

Definition fee_rate_from_str (s : string) : result string FeeRate :=
  if bool_decide (s = "urgent"%string) then Ok Urgent
  else if bool_decide (s = "normal"%string) then Ok Normal
  else if bool_decide (s = "slow"%string) then Ok Slow
  else if ends_with "perkw" s then
    result_map PerKw (ok_or "expected u32 for perkw"%string
                        (parse_unsigned 32 (trim_end_matches "perkw" s)))
  else if ends_with "perkb" s then
    result_map PerKb (ok_or "expected u32 for perkb"%string
                        (parse_unsigned 32 (trim_end_matches "perkb" s)))
  else Err "unknown fee rate. Expecting one of urgent/normal/slow/<sats>perkw/<sats>perkb"%string.

(** [Deserialize]: a string is read with [FromStr], whose error becomes the error of serde; any
    other value is refused with what was expected. *)
Inductive json_value := JsonString (s : string) | OtherJson (what : string).
Definition fee_rate_expecting : string := "urgent/normal/slow/<sats>perkw/<sats>perkb".
Definition fee_rate_deserialize (v : json_value) : result string FeeRate :=
  match v with
  | JsonString s => fee_rate_from_str s
  | OtherJson what => Err ("invalid type: " +:+ what +:+ ", expected " +:+ fee_rate_expecting)
  end.

Definition fee_rate_ok (f : FeeRate) : Prop :=
  match f with PerKw x | PerKb x => u32 x | _ => True end.

(** ** Fee estimates (bitcoind_client.rs) *)

(** [crate::ldk::MIN_FEERATE]. *)
Definition MIN_FEERATE : Z := 2000.

Inductive ConfirmationTarget :=
| OnChainSweep | MinAllowedAnchorChannelRemoteFee | MinAllowedNonAnchorChannelRemoteFee
| AnchorChannelFee | NonAnchorChannelFee | ChannelCloseMinimum.

Record PriorityClass := mk_class { fee_rate : Z; default_fee_rate : Z; n_blocks : Z }.
Record Priorities := mk_priorities {
  background : PriorityClass; normal : PriorityClass; high : PriorityClass;
}.

Definition priorities_new : Priorities :=
  mk_priorities (mk_class MIN_FEERATE MIN_FEERATE 72) (mk_class 5000 5000 18)
    (mk_class 10000 10000 6).

(** The class of a target; no target has a multiplier. *)
Definition priority_of (p : Priorities) (t : ConfirmationTarget) : PriorityClass * option Z :=
  match t with
  | OnChainSweep => (high p, None)
  | NonAnchorChannelFee => (normal p, None)
  | ChannelCloseMinimum | AnchorChannelFee | MinAllowedAnchorChannelRemoteFee
  | MinAllowedNonAnchorChannelRemoteFee => (background p, None)
  end.

(** [Priorities::get], which is also [get_est_sat_per_1000_weight] and [fee_for]. A multiplier
    would be applied in floating point; there is none. *)
Definition priorities_get (p : Priorities) (t : ConfirmationTarget) : Z :=
  fee_rate (fst (priority_of p t)).
Definition get_est_sat_per_1000_weight := priorities_get.

Definition store (fee : Z) (c : PriorityClass) : PriorityClass :=
  mk_class fee (default_fee_rate c) (n_blocks c).

Definition fee_rates_kw (p : Priorities) : Z * Z * Z :=
  (get_est_sat_per_1000_weight p OnChainSweep, get_est_sat_per_1000_weight p NonAnchorChannelFee,
   get_est_sat_per_1000_weight p ChannelCloseMinimum).

(** The answer of [estimatesmartfee] for one class: the fee in satoshis per kilobyte, when
    bitcoind has an estimate, or an error. *)
Definition estimate_of (answer : result string (option Z)) (c : PriorityClass) : PriorityClass :=
  match answer with
  | Ok fee =>
      let sats := default (default_fee_rate c) fee in
      store (Z.max (as_u32 (sats / 4)) MIN_FEERATE) c
  | _ => c
  end.

(** [estimate_fee] asks for the classes one after the other. *)
Definition estimate_fee (rpc : Z → result string (option Z)) (p : Priorities) : Priorities :=
  mk_priorities (estimate_of (rpc (n_blocks (background p))) (background p))
    (estimate_of (rpc (n_blocks (normal p))) (normal p))
    (estimate_of (rpc (n_blocks (high p))) (high p)).

Definition set_lowest_fee_estimates (p : Priorities) : Priorities :=
  mk_priorities (store 253 (background p)) (store 253 (normal p)) (store 253 (high p)).

(** ** The wallet's fee rate (wallet/bdk_wallet.rs) *)

Class BdkFeeRate := {
  BdkRate : Type;
  (** [from_sat_per_kwu(x as f32)] and [from_sat_per_kvb(x as f32)]. *)
  from_sat_per_kwu : Z → BdkRate;
  from_sat_per_kvb : Z → BdkRate;
}.

Definition to_bdk_fee_rate `{BdkFeeRate} (p : Priorities) (f : FeeRate) : BdkRate :=
  match f with
  | Urgent => from_sat_per_kwu (get_est_sat_per_1000_weight p OnChainSweep)
  | Normal => from_sat_per_kwu (get_est_sat_per_1000_weight p NonAnchorChannelFee)
  | Slow => from_sat_per_kwu (get_est_sat_per_1000_weight p ChannelCloseMinimum)
  | PerKw s => from_sat_per_kwu s
  | PerKb s => from_sat_per_kvb s
  end.

(** ** Synchronisation with the network *)

Record BlockchainInfo := mk_info {
  blocks : Z; headers : Z; median_time : Z;
  (** [info.verification_progress > 0.99]. *)
  verified : bool;
}.

(** [SystemTime::now()] in seconds is [now]. *)
Definition is_synchronised (now : Z) (info : result string BlockchainInfo) : bool :=
  let one_week_ago := now - 60 * 60 * 24 * 7 in
  match info with
  | Ok info =>
      bool_decide (blocks info = headers info) && bool_decide (median_time info > one_week_ago) &&
      verified info
  | _ => false
  end.

Inductive Network := Bitcoin | Signet | Testnet | Regtest.

(** The check of [BitcoindClient::new]. *)
Definition chain_matches (chain : string) (network : Network) : bool :=
  match network with
  | Bitcoin => bool_decide (chain = "main"%string)
  | Signet => bool_decide (chain = "signet"%string)
  | Testnet => bool_decide (chain = "test"%string)
  | Regtest => bool_decide (chain = "regtest"%string)
  end.

(** The failures of a broadcast that are not reported. *)
Fixpoint contains (p s : string) : bool :=
  starts_with p s || match s with EmptyString => false | String _ s => contains p s end.
Definition broadcast_reported (err : string) : bool :=
  negb (contains "Transaction already in block chain" err) &&
  negb (contains "Inputs missing or spent" err) &&
  negb (contains "bad-txns-inputs-missingorspent" err) &&
  negb (contains "txn-mempool-conflict" err) &&
  negb (contains "non-BIP68-final" err) &&
  negb (contains "insufficient fee, rejecting replacement " err).

(** ** Short channel ids (ldk/channel_utils.rs) *)

Definition MAX_SCID_TX_INDEX : Z := 0x00ffffff.
Definition MAX_SCID_VOUT_INDEX : Z := 0xffff.
Definition block_from_scid (scid : Z) : Z := as_u32 (Z.shiftr scid 40).
Definition tx_index_from_scid (scid : Z) : Z :=
  as_u32 (Z.land (Z.shiftr scid 16) MAX_SCID_TX_INDEX).
Definition vout_from_scid (scid : Z) : Z := as_u16 (Z.land scid MAX_SCID_VOUT_INDEX).

(** ** The output behind an announced channel (bitcoind/utxo_lookup.rs) *)

Inductive UtxoLookupError := UnknownChain | UnknownTx.

Section Lookup.
Context {Chain Hash Out : Type} `{EqDecision Chain}.

(** A block as bitcoind returns it: the outputs of its transactions, or only a header. *)
Inductive BlockData := FullBlock (txdata : list (list Out)) | HeaderOnly.

(** [get_utxo]: an error at once for another chain, otherwise what the spawned task resolves
    the future with. *)
Definition get_utxo (genesis : Chain) (get_block_hash : Z → result string Hash)
    (get_block : Hash → result string BlockData) (genesis_hash : Chain) (scid : Z) :
    result UtxoLookupError Out :=
  if bool_decide (genesis_hash ≠ genesis) then Err UnknownChain
  else
    let height := block_from_scid scid in
    let index := tx_index_from_scid scid in
    let vout := vout_from_scid scid in
    match get_block_hash height with
    | Ok block_hash =>
        match get_block block_hash with
        | Ok (FullBlock txdata) =>
            match txdata !! Z.to_nat index with
            | Some outputs =>
                match outputs !! Z.to_nat vout with
                | Some utxo => Ok utxo
                | None => Err UnknownTx
                end
            | None => Err UnknownTx
            end
        | _ => Err UnknownTx
        end
    | _ => Err UnknownTx
    end.
End Lookup.

(** ** Theorems *)

Lemma not_digits_perkw : ¬ all_digits "perkw".
Proof. intros [[d Hd] _]. discriminate. Qed.
Lemma not_digits_perkb : ¬ all_digits "perkb".
Proof. intros [[d Hd] _]. discriminate. Qed.

Lemma number_suffix_not_word z p w :
  0 ≤ z → (∀ r, w = r +:+ p → ¬ all_digits r ∨ r = ""%string) → print_nat z +:+ p ≠ w.
Proof.
  intros Hz Hw Heq. destruct (Hw _ (eq_sym Heq)) as [Hn|Hn];
    [by apply Hn, print_digits|by eapply print_nonempty].
Qed.

Lemma no_word_suffix w p r : strip_suffix p w = None → w = r +:+ p → False.
Proof. intros Hn ->. by rewrite strip_suffix_app in Hn. Qed.

(** The text form of a fee rate is read back as the same fee rate. *)
Theorem fee_rate_roundtrip f : fee_rate_ok f → fee_rate_from_str (fee_rate_serialize f) = Ok f.
Proof.
  assert (∀ z p, (p = "perkw"%string ∨ p = "perkb"%string) →
    print_nat z +:+ p ≠ "urgent"%string ∧ print_nat z +:+ p ≠ "normal"%string ∧
    print_nat z +:+ p ≠ "slow"%string) as Hword.
  { intros z p Hp. split_and!; intros Heq; symmetry in Heq;
      destruct Hp as [-> | ->]; revert Heq; apply no_word_suffix; reflexivity. }
  assert (∀ z, strip_suffix "perkw" (print_nat z +:+ "perkb") = None) as Hkb.
  { intros z. unfold strip_suffix. by rewrite string_rev_app. }
  destruct f as [| | |x|x]; try reflexivity; intros Hx;
    pose proof (print_digits x ltac:(apply Hx)) as Hd; unfold fee_rate_from_str, fee_rate_serialize.
  - destruct (Hword x "perkw"%string (or_introl eq_refl)) as (H1 & H2 & H3).
    rewrite !bool_decide_eq_false_2 by done. rewrite ends_with_app.
    rewrite (trim_end_digits _ _ Hd not_digits_perkw). by rewrite parse_print.
  - destruct (Hword x "perkb"%string (or_intror eq_refl)) as (H1 & H2 & H3).
    rewrite !bool_decide_eq_false_2 by done. unfold ends_with at 1. rewrite Hkb, ends_with_app.
    rewrite (trim_end_digits _ _ Hd not_digits_perkb). by rewrite parse_print.
Qed.

(** In JSON a fee rate is the string of its text, and nothing else is read as one. *)
Corollary fee_rate_json v f :
  (fee_rate_ok f → v = JsonString (fee_rate_serialize f) → fee_rate_deserialize v = Ok f) ∧
  (fee_rate_deserialize v = Ok f → ∃ s, v = JsonString s ∧ fee_rate_from_str s = Ok f).
Proof.
  split; [intros Hf ->; by apply fee_rate_roundtrip|]. destruct v as [s|what]; [|done]. by exists s.
Qed.

Lemma fee_rate_roundtrip_witness : fee_rate_from_str "4294967295perkb" = Ok (PerKb 4294967295).
Proof. apply (fee_rate_roundtrip (PerKb 4294967295)). split; simpl; lia. Defined.

(** Estimates are fee rates LDK accepts. *)
Definition acceptable (p : Priorities) : Prop :=
  ∀ t, MIN_FEERATE ≤ get_est_sat_per_1000_weight p t < 2 ^ 32.

Lemma estimate_of_acceptable answer c :
  MIN_FEERATE ≤ fee_rate c < 2 ^ 32 → MIN_FEERATE ≤ fee_rate (estimate_of answer c) < 2 ^ 32.
Proof.
  intros Hc. destruct answer as [fee| |]; simpl; [|done..].
  pose proof (Z.mod_pos_bound (default (default_fee_rate c) fee / 4) (2 ^ 32) ltac:(lia)).
  unfold wrap_unsigned, MIN_FEERATE in *. lia.
Qed.

(** [C28] From the start, and whatever bitcoind answers to any number of estimation rounds,
    every fee estimate handed to LDK and the wallet is at least [MIN_FEERATE] and fits 32 bits;
    [set_lowest_fee_estimates] breaks this for every target. *)
Theorem estimates_stay_acceptable rounds t :
  MIN_FEERATE ≤ get_est_sat_per_1000_weight
                  (fold_left (λ p rpc, estimate_fee rpc p) rounds priorities_new) t < 2 ^ 32 ∧
  get_est_sat_per_1000_weight (set_lowest_fee_estimates
                  (fold_left (λ p rpc, estimate_fee rpc p) rounds priorities_new)) t < MIN_FEERATE.
Proof.
  split; [|unfold MIN_FEERATE; by destruct t].
  assert (∀ p, (MIN_FEERATE ≤ fee_rate (background p) < 2 ^ 32 ∧
      MIN_FEERATE ≤ fee_rate (normal p) < 2 ^ 32 ∧ MIN_FEERATE ≤ fee_rate (high p) < 2 ^ 32) →
    MIN_FEERATE ≤ get_est_sat_per_1000_weight
                    (fold_left (λ p rpc, estimate_fee rpc p) rounds p) t < 2 ^ 32) as Hall.
  { induction rounds as [|rpc rounds IH]; intros p (Hb & Hn & Hh); simpl; [by destruct t|].
    apply IH. split_and!; by apply estimate_of_acceptable. }
  apply Hall. unfold priorities_new, MIN_FEERATE. simpl. lia.
Qed.

(** A short channel id is exactly its block height, transaction index and output index:
    the three parts have 24, 24 and 16 bits and recompose to the id. *)
Theorem scid_decomposition scid :
  u64 scid →
  0 ≤ block_from_scid scid < 2 ^ 24 ∧ 0 ≤ tx_index_from_scid scid < 2 ^ 24 ∧
  0 ≤ vout_from_scid scid < 2 ^ 16 ∧
  scid = block_from_scid scid * 2 ^ 40 + tx_index_from_scid scid * 2 ^ 16 + vout_from_scid scid.
Proof.
  intros [Hlo Hhi]. unfold block_from_scid, tx_index_from_scid, vout_from_scid,
    MAX_SCID_TX_INDEX, MAX_SCID_VOUT_INDEX, wrap_unsigned.
  change 0x00ffffff with (Z.ones 24). change 0xffff with (Z.ones 16).
  rewrite !Z.land_ones, !Z.shiftr_div_pow2 by lia.
  assert (0 ≤ scid / 2 ^ 40 < 2 ^ 24) as Hb
    by (split; [apply Z.div_pos; lia|apply Z.div_lt_upper_bound; lia]).
  pose proof (Z.mod_pos_bound (scid / 2 ^ 16) (2 ^ 24) ltac:(lia)) as Ht.
  pose proof (Z.mod_pos_bound scid (2 ^ 16) ltac:(lia)) as Hv.
  rewrite (Z.mod_small (scid / 2 ^ 40) (2 ^ 32)), (Z.mod_small (_ mod 2 ^ 24) (2 ^ 32)),
    (Z.mod_small (_ mod 2 ^ 16) (2 ^ 16)) by lia.
  split_and!; try lia.
  pose proof (Z.div_mod scid (2 ^ 16) ltac:(lia)). pose proof (Z.div_mod (scid / 2 ^ 16) (2 ^ 24) ltac:(lia)).
  rewrite Z.div_div in * by lia. change (2 ^ 16 * 2 ^ 24) with (2 ^ 40) in *. lia.
Qed.

Lemma scid_decomposition_witness :
  block_from_scid 590295810358771713 = 536870 ∧
  590295810358771713 = 536870 * 2 ^ 40 + tx_index_from_scid 590295810358771713 * 2 ^ 16 +
                         vout_from_scid 590295810358771713.
Proof.
  split; [reflexivity|]. apply (scid_decomposition 590295810358771713). split; lia.
Defined.
