(* ===== verification/Settings.v ===== *)
(** * The settings of the node (src/kld/src/settings)

    [Settings] is a record whose fields are arguments of the command line: each has a long name, a
    variable of the environment, and a default or (for the lists) a delimiter. What clap does with
    the table of arguments is the class [Clap]; the table, the types of the fields and how their
    texts are read are the source's. [bitcoin_network.rs] has a type of networks of its own, which
    the settings do not use. *)

From Stdlib Require Import Ascii.
From S2P Require Import Prelude Text RustStd Addresses Fees NetAddress.

#[local] Open Scope string_scope.
#[local] Open Scope Z_scope.

(** ** The arguments *)

Record arg := mk_arg {
  long : string;
  env_name : string;
  default_value : option string;
  value_delimiter : option ascii;
}.
#[local] Abbreviation arg1 l e d := (mk_arg l e (Some d) None).
#[local] Abbreviation args_list l e := (mk_arg l e None (Some ","%char)).

Definition arg_bitcoind_rpc_host := arg1 "bitcoind-rpc-host" "KLD_BITCOIN_RPC_HOST" "localhost".
Definition arg_bitcoind_rpc_port := arg1 "bitcoind-rpc-port" "KLD_BITCOIN_RPC_PORT" "8333".
Definition arg_bitcoin_network := arg1 "bitcoin-network" "KLD_BITCOIN_NETWORK" "regtest".
Definition arg_bitcoin_cookie_path :=
  arg1 "bitcoin-cookie-path" "KLD_BITCOIN_COOKIE_PATH" "/var/lib/bitcoind-testnet/.cookie".
Definition arg_data_dir := arg1 "data-dir" "KLD_DATA_DIR" "/var/lib/kld".
Definition arg_certs_dir := arg1 "certs-dir" "KLD_CERTS_DIR" "/var/lib/kld/certs".
Definition arg_mnemonic_path := arg1 "mnemonic-path" "KLD_MNEMONIC_PATH" "/var/lib/kld/mnemonic".
Definition arg_node_id := arg1 "node-id" "KLD_NODE_ID" "one".
Definition arg_wallet_name := arg1 "wallet-name" "KLD_WALLET_NAME" "kld-wallet".
Definition arg_log_level := arg1 "log-level" "KLD_LOG_LEVEL" "info".
Definition arg_env := arg1 "env" "KLD_ENV" "test".
Definition arg_peer_port := arg1 "peer-port" "KLD_PEER_PORT" "9234".
Definition arg_node_alias := arg1 "node-alias" "KLD_NODE_ALIAS" "".
Definition arg_node_alias_color := arg1 "node-alias-color" "KLD_NODE_ALIAS_COLOR" "6e2cf7".
Definition arg_public_addresses := args_list "public-addresses" "KLD_PUBLIC_ADDRESSES".
Definition arg_exporter_address := arg1 "exporter-address" "KLD_EXPORTER_ADDRESS" "127.0.0.1:2233".
Definition arg_rest_api_address := arg1 "rest-api-address" "KLD_REST_API_ADDRESS" "127.0.0.1:2244".
Definition arg_electrs_url := arg1 "electrs-url" "KLD_ELECTRS_URL" "127.0.0.1:60001".
Definition arg_database_host := arg1 "database-host" "KLD_DATABASE_HOST" "127.0.0.1".
Definition arg_database_port := arg1 "database-port" "KLD_DATABASE_PORT" "10000".
Definition arg_database_user := arg1 "database-user" "KLD_DATABASE_USER" "root".
Definition arg_database_name := arg1 "database-name" "KLD_DATABASE_NAME" "defaultdb".
Definition arg_database_ca_cert_path := arg1 "database-ca-cert-path" "KLD_DATABASE_CA_CERT_PATH" "".
Definition arg_database_client_cert_path :=
  arg1 "database-client-cert-path" "KLD_DATABASE_CLIENT_CERT_PATH" "".
Definition arg_database_client_key_path :=
  arg1 "database-client-key-path" "KLD_DATABASE_CLIENT_KEY_PATH" "".
Definition arg_probe_interval := arg1 "probe-interval" "KLD_PROBE_INTERVAL" "0".
Definition arg_probe_amt_msat := arg1 "probe-amt-msat" "KLD_PROBE_AMT_MSAT" "0".
Definition arg_probe_targets := args_list "probe-targets" "KLD_PROBE_TARGETS".
Definition arg_shutdown_graceful_sec := arg1 "shutdown-graceful-sec" "KLD_SHUTDOWN_GRACEFUL_SEC" "5".

(** The fields in the order of the struct. *)
Definition args : list arg :=
  [arg_bitcoind_rpc_host; arg_bitcoind_rpc_port; arg_bitcoin_network; arg_bitcoin_cookie_path;
   arg_data_dir; arg_certs_dir; arg_mnemonic_path; arg_node_id; arg_wallet_name; arg_log_level;
   arg_env; arg_peer_port; arg_node_alias; arg_node_alias_color; arg_public_addresses;
   arg_exporter_address; arg_rest_api_address; arg_electrs_url; arg_database_host;
   arg_database_port; arg_database_user; arg_database_name; arg_database_ca_cert_path;
   arg_database_client_cert_path; arg_database_client_key_path; arg_probe_interval;
   arg_probe_amt_msat; arg_probe_targets; arg_shutdown_graceful_sec].

Definition environment : Type := string → option string.
Definition matches : Type := string → list string.

(** clap, and the parsers of the [bitcoin] crate. *)
Class Clap := {
  (** The values of each long name, from the command line (without the name of the program) and
      the environment, or the message the process ends with. *)
  get_matches : list arg → list string → environment → result string matches;
  SettingsKey : Type;
  public_key_from_str : string → option SettingsKey;
  network_from_str : string → option Network;
}.

Inductive settings_error :=
| BadArguments (message : string)
| InvalidValue (arg value : string)
| MissingArgument (arg : string).

Section Operations.
Context {LA : LdkAddresses} {CL : Clap}.

Record Settings := mk_settings {
  bitcoind_rpc_host : string;
  bitcoind_rpc_port : Z;
  bitcoin_network : Network;
  bitcoin_cookie_path : string;
  data_dir : string;
  certs_dir : string;
  mnemonic_path : string;
  node_id : string;
  wallet_name : string;
  log_level : string;
  env : string;
  peer_port : Z;
  node_alias : string;
  node_alias_color : string;
  public_addresses : list SocketAddress;
  exporter_address : string;
  rest_api_address : string;
  electrs_url : string;
  database_host : string;
  database_port : Z;
  database_user : string;
  database_name : string;
  database_ca_cert_path : string;
  database_client_cert_path : string;
  database_client_key_path : string;
  probe_interval : Z;
  probe_amt_msat : Z;
  probe_targets : list SettingsKey;
  shutdown_graceful_sec : Z;
}.

(** The field of an argument with one value, and of one with any number of values. *)
Definition parse_value {A} (a : arg) (parse : string → option A) (text : string) :
    result settings_error A :=
  ok_or (InvalidValue (long a) text) (parse text).
Definition one {A} (a : arg) (parse : string → option A) (m : matches) : result settings_error A :=
  match m (long a) with
  | text :: _ => parse_value a parse text
  | [] => Err (MissingArgument (long a))
  end.
Definition many {A} (a : arg) (parse : string → option A) (m : matches) :
    result settings_error (list A) :=
  result_mapM (parse_value a parse) (m (long a)).

Definition address_from_str (s : string) : option SocketAddress :=
  match from_str s with Ok a => Some a | _ => None end.

Definition from_matches (m : matches) : result settings_error Settings :=
  let? bitcoind_rpc_host := one arg_bitcoind_rpc_host Some m in
  let? bitcoind_rpc_port := one arg_bitcoind_rpc_port (parse_unsigned 16) m in
  let? bitcoin_network := one arg_bitcoin_network network_from_str m in
  let? bitcoin_cookie_path := one arg_bitcoin_cookie_path Some m in
  let? data_dir := one arg_data_dir Some m in
  let? certs_dir := one arg_certs_dir Some m in
  let? mnemonic_path := one arg_mnemonic_path Some m in
  let? node_id := one arg_node_id Some m in
  let? wallet_name := one arg_wallet_name Some m in
  let? log_level := one arg_log_level Some m in
  let? env := one arg_env Some m in
  let? peer_port := one arg_peer_port (parse_unsigned 16) m in
  let? node_alias := one arg_node_alias Some m in
  let? node_alias_color := one arg_node_alias_color Some m in
  let? public_addresses := many arg_public_addresses address_from_str m in
  let? exporter_address := one arg_exporter_address Some m in
  let? rest_api_address := one arg_rest_api_address Some m in
  let? electrs_url := one arg_electrs_url Some m in
  let? database_host := one arg_database_host Some m in
  let? database_port := one arg_database_port (parse_unsigned 16) m in
  let? database_user := one arg_database_user Some m in
  let? database_name := one arg_database_name Some m in
  let? database_ca_cert_path := one arg_database_ca_cert_path Some m in
  let? database_client_cert_path := one arg_database_client_cert_path Some m in
  let? database_client_key_path := one arg_database_client_key_path Some m in
  let? probe_interval := one arg_probe_interval (parse_unsigned 64) m in
  let? probe_amt_msat := one arg_probe_amt_msat (parse_unsigned 64) m in
  let? probe_targets := many arg_probe_targets public_key_from_str m in
  let? shutdown_graceful_sec := one arg_shutdown_graceful_sec (parse_unsigned 64) m in
  Ok (mk_settings bitcoind_rpc_host bitcoind_rpc_port bitcoin_network bitcoin_cookie_path data_dir
        certs_dir mnemonic_path node_id wallet_name log_level env peer_port node_alias
        node_alias_color public_addresses exporter_address rest_api_address electrs_url
        database_host database_port database_user database_name database_ca_cert_path
        database_client_cert_path database_client_key_path probe_interval probe_amt_msat
        probe_targets shutdown_graceful_sec).

(** [Settings::parse_from]; an error ends the process with its message. *)
Definition parse_from (argv : list string) (e : environment) : result settings_error Settings :=
  let? m := map_err BadArguments (get_matches args argv e) in from_matches m.
Definition load : list string → environment → result settings_error Settings := parse_from.
(** [Default]: no command line, but still the environment. *)
Definition default_settings (e : environment) : result settings_error Settings := parse_from [] e.
End Operations.

(** ** The networks of bitcoin_network.rs *)

Inductive OwnNetwork := OwnMain | OwnTestnet | OwnSignet | OwnRegtest.
#[global] Instance OwnNetwork_eq_dec : EqDecision OwnNetwork.
Proof. solve_decision. Defined.
Definition own_to_string (n : OwnNetwork) : string :=
  match n with
  | OwnMain => "main" | OwnTestnet => "testnet" | OwnSignet => "signet" | OwnRegtest => "regtest"
  end.
Definition own_to_bitcoin (n : OwnNetwork) : Network :=
  match n with
  | OwnMain => Bitcoin | OwnTestnet => Testnet | OwnSignet => Signet | OwnRegtest => Regtest
  end.
Definition own_from_str (input : string) : result string OwnNetwork :=
  if bool_decide (input = "main") then Ok OwnMain
  else if bool_decide (input = "testnet") then Ok OwnTestnet
  else if bool_decide (input = "signet") then Ok OwnSignet
  else if bool_decide (input = "regtest") then Ok OwnRegtest
  else Err "not a valid value, must be one of: main, testnet, signet or regtest".

Lemma own_network_round_trip s n : own_from_str s = Ok n ↔ s = own_to_string n.
Proof.
  unfold own_from_str. split.
  - repeat case_bool_decide; by intros [= <-].
  - intros ->. by destruct n.
Qed.

(** ** What the environment gives *)

(** The values of an argument that is not on the command line. *)
Definition env_values (a : arg) (e : environment) : list string :=
  match e (env_name a), value_delimiter a with
  | Some text, Some sep => split_char sep text
  | Some text, None => [text]
  | None, _ => match default_value a with Some text => [text] | None => [] end
  end.

(** Without a command line clap takes every value from the environment, or else the default. Of a
    list, whose variable is split at its delimiter, nothing is said when the variable is empty.
    The networks are spelled as the [bitcoin] crate prints them. A public key is hexadecimal. *)
Class ClapLaws `{Clap} := {
  matches_environment l e :
    NoDup (long <$> l) → (∀ a, a ∈ l → is_Some (value_delimiter a) → e (env_name a) ≠ Some "") →
    ∃ m, get_matches l [] e = Ok m ∧ ∀ a, a ∈ l → m (long a) = env_values a e;
  networks_read : network_from_str "bitcoin" = Some Bitcoin ∧
    network_from_str "testnet" = Some Testnet ∧ network_from_str "signet" = Some Signet ∧
    network_from_str "regtest" = Some Regtest ∧ network_from_str "main" = None;
  public_key_text s k : public_key_from_str s = Some k → s ≠ "" ∧ over (digit_of 16) s;
}.

Section Theorems.
Context {LA : LdkAddresses} {CL : Clap} {CW : ClapLaws}.

Lemma args_unique : NoDup (long <$> args).
Proof. apply (bool_decide_unpack _). by vm_compute. Qed.

(** One field of the settings from the environment. *)
Lemma one_read {A} (a : arg) (parse : string → option A) (m : matches) e d v :
  m (long a) = env_values a e → value_delimiter a = None → default_value a = Some d →
  parse (default d (e (env_name a))) = Some v → one a parse m = Ok v.
Proof.
  unfold one, parse_value, env_values. intros -> -> -> Hv.
  by destruct (e (env_name a)); simpl in *; rewrite Hv.
Qed.
Lemma many_read {A} (a : arg) (parse : string → option A) (m : matches) e l :
  m (long a) = env_values a e → Forall2 (λ t v, parse t = Some v) (env_values a e) l →
  many a parse m = Ok l.
Proof.
  unfold many, parse_value. intros -> Hl. apply result_mapM_Forall2.
  eapply Forall2_impl; [exact Hl|]. by intros t v ->.
Qed.
(** The first value of a list that is none is what the error names. *)
Lemma many_refused {A} (a : arg) (parse : string → option A) (m : matches) t l :
  m (long a) = t :: l → parse t = None → many a parse m = Err (InvalidValue (long a) t).
Proof. unfold many, parse_value. intros -> Ht. simpl. by rewrite Ht. Qed.

(** A list of texts without the delimiter, joined, is split into the texts. *)
Lemma joined_values a e sep l :
  value_delimiter a = Some sep → default_value a = None → Forall (over (λ c, c ≠ sep)) l →
  e (env_name a) = (if bool_decide (l = []) then None else Some (join (String sep "") l)) →
  env_values a e = l.
Proof.
  intros Hsep Hdef Hl He. unfold env_values. rewrite He, Hsep, Hdef.
  case_bool_decide; [by subst|]. by apply split_char_join.
Qed.
End Theorems.

(** ** An instance *)

Section Instances.
#[local] Existing Instance example_addresses.

(** The keys are the texts of hexadecimal digits. *)
Definition example_clap : Clap := {|
  get_matches l _ e :=
    Ok (λ name, match list_find (λ a, long a = name) l with
                | Some (_, a) => env_values a e
                | None => [] end);
  SettingsKey := string;
  public_key_from_str s :=
    if bool_decide (s = "") then None
    else if forallb (λ c, bool_decide (digit_of 16 c)) (String.list_ascii_of_string s) then Some s else None;
  network_from_str s :=
    if bool_decide (s = "bitcoin") then Some Bitcoin
    else if bool_decide (s = "testnet") then Some Testnet
    else if bool_decide (s = "signet") then Some Signet
    else if bool_decide (s = "regtest") then Some Regtest else None;
|}.

Lemma example_clap_laws : ClapLaws (H := example_clap).
Proof.
  split.
  - intros l e Hl _. eexists. split; [reflexivity|]. intros a Ha. cbv beta.
    destruct (list_find (λ b, long b = long a) l) as [[i b]|] eqn:Hf.
    + apply list_find_Some in Hf as (Hb & Heq & _). f_equal.
      apply list_elem_of_lookup in Ha as [j Hj].
      assert (i = j) as ->; [|congruence].
      eapply (NoDup_lookup (long <$> l)); [done| |]; rewrite list_lookup_fmap.
      * by rewrite Hb. * simpl. by rewrite Hj, Heq.
    + apply list_find_None in Hf. rewrite Forall_forall in Hf. by destruct (Hf a Ha).
  - by repeat split.
  - intros s k. simpl. case_bool_decide; [done|]. destruct (forallb _ _) eqn:Hs; [|done].
    intros _. split; [done|]. apply Forall_forall. intros c Hc. rewrite forallb_forall in Hs.
    eapply bool_decide_eq_true, Hs. by apply list_elem_of_In.
Qed.

#[local] Existing Instance example_clap.

(** The node reads "bitcoin" where the unused type reads "main". *)
Example own_names_differ :
  (∃ n, own_from_str "main" = Ok n ∧ own_to_bitcoin n = Bitcoin) ∧
  match load [] (λ v, if bool_decide (v = "KLD_BITCOIN_NETWORK") then Some "main" else None) with
  | Err (InvalidValue name text) => Some (name, text)
  | _ => None
  end = Some ("bitcoin-network", "main").
Proof. split; [by eexists|]. vm_compute. reflexivity. Qed.

(** Two public addresses, as the test of the module has them. *)
Example public_addresses_example :
  match load [] (λ v, if bool_decide (v = "KLD_PUBLIC_ADDRESSES")
                      then Some "127.0.0.1:2312,[2001:db8::1]:1212" else None) with
  | Ok s => (public_addresses s, data_dir s, probe_interval s, length (probe_targets s))
  | _ => ([], "", 0, 0%nat)
  end =
    ([TcpIpV4 [127; 0; 0; 1] 2312;
      TcpIpV6 [32; 1; 13; 184; 0; 0; 0; 0; 0; 0; 0; 0; 0; 0; 0; 1] 1212], "/var/lib/kld", 0, 0%nat).
Proof. vm_compute. reflexivity. Qed.
End Instances.
