(* ===== verification/Bitcoind.v ===== *)
(** * The client of bitcoind (src/kld/src/bitcoind/bitcoind_client.rs)

    [BitcoindClient] sends JSON-RPC requests to bitcoind, keeps the fee estimates and broadcasts
    transactions in tasks of their own. What bitcoind answers is the class [Rpc]; its memory
    pool, as far as a package of transactions sees it, is [MempoolLaws]. The estimates and the
    tests on an answer are in Fees; here are the requests and the tasks. *)

From S2P Require Import Prelude Text RustStd Files Fees.

#[local] Open Scope string_scope.
#[local] Open Scope Z_scope.

(** The parameters of a request. *)
Inductive json := JString (s : string) | JNumber (z : Z).

(** bitcoind and the crates between: [call_method] gives the text of the answer; the parsers are
    serde's. *)
Class Rpc := {
  Server : Type;
  Tx : Type;
  Hash : Type;
  Header : Type;
  Block : Type;
  MempoolInfo : Type;
  base64 : string → string;
  (** [RpcClient::new(&credentials, endpoint)]. *)
  rpc_client_new : string → string → Z → result string ();
  call_method : string → list json → Server → result string string * Server;
  (** [BlockSource] of [RpcClient]. *)
  rpc_get_header : Hash → option Z → Server → result string Header * Server;
  rpc_get_block : Hash → Server → result string Block * Server;
  rpc_get_best_block : Server → result string (Hash * option Z) * Server;
  serialize_hex : Tx → string;
  parse_txid : string → result string string;
  parse_hash : string → result string Hash;
  parse_hashes : string → result string (list Hash);
  (** [chain] and what [is_synchronised] reads. *)
  parse_blockchain_info : string → result string (string * BlockchainInfo);
  parse_mempool_info : string → result string MempoolInfo;
  (** The fee in satoshis, when there is one. *)
  parse_estimate : string → result string (option Z);
  network_name : Network → string;
}.

Section Client.
Context {RP : Rpc}.

(** bitcoind, the estimates, the tasks that are spawned and have not run, and the lines that
    they reported as errors. *)
Record client := mk_client {
  server : Server;
  priorities : Priorities;
  spawned : list string;
  reported : list string;
}.
Definition set_server (s : Server) (c : client) : client :=
  mk_client s (priorities c) (spawned c) (reported c).
Definition set_priorities (p : Priorities) (c : client) : client :=
  mk_client (server c) p (spawned c) (reported c).
Definition set_spawned (l : list string) (c : client) : client :=
  mk_client (server c) (priorities c) l (reported c).
Definition report (line : string) (c : client) : client :=
  mk_client (server c) (priorities c) (spawned c) (reported c ++ [line]).
Abbreviation clientm := (cmd client string).

Definition ask {A} (f : Server → result string A * Server) : clientm A := λ c,
  let '(r, s) := f (server c) in (r, set_server s c).
(** [call_method::<JsonString>(..).await?.deserialize()]. *)
Definition call {A} (parse : string → result string A) (method : string) (params : list json) :
    clientm A :=
  let* answer := ask (call_method method params) in cmd_lift (parse answer).

(** ** Requests *)

Definition send_transaction_with_client (tx_serialized : string) : clientm string :=
  call parse_txid "sendrawtransaction" [JString tx_serialized].
Definition send_transaction (tx : Tx) : clientm string :=
  send_transaction_with_client (serialize_hex tx).
Definition generate_to_address (n_blocks : Z) (address : string) : clientm (list Hash) :=
  call parse_hashes "generatetoaddress" [JNumber n_blocks; JString address].
Definition get_block_hash (height : Z) : clientm Hash :=
  call parse_hash "getblockhash" [JNumber height].
Definition get_blockchain_info : clientm (string * BlockchainInfo) :=
  call parse_blockchain_info "getblockchaininfo" [].
Definition get_mempool_info : clientm MempoolInfo := call parse_mempool_info "getmempoolinfo" [].
(** [block_height] of [BitcoindInterface] and of [BitcoindMetrics]. *)
Definition block_height : clientm Z := cmd_map (λ i, blocks i.2) get_blockchain_info.
Definition get_header (h : Hash) (hint : option Z) : clientm Header := ask (rpc_get_header h hint).
Definition get_block (h : Hash) : clientm Block := ask (rpc_get_block h).
Definition get_best_block : clientm (Hash * option Z) := ask rpc_get_best_block.
Definition metrics_block_height : clientm Z := λ c,
  match get_best_block c with
  | (Ok (_, Some h), c) => (Ok h, c)
  | (Panic w, c) => (Panic w, c)
  | (_, c) => (Err "Could not get best block from bitcoind", c)
  end.

(** [Service]. *)
Definition is_connected : clientm bool := λ c,
  match get_best_block c with
  | (Ok _, c) => (Ok true, c)
  | (Err _, c) => (Ok false, c)
  | (Panic w, c) => (Panic w, c)
  end.
Definition service_is_synchronised (now : Z) : clientm bool := λ c,
  match get_blockchain_info c with
  | (Ok (_, i), c) => (Ok (is_synchronised now (Ok i)), c)
  | (Err e, c) => (Ok (is_synchronised now (Err e)), c)
  | (Panic w, c) => (Panic w, c)
  end.

(** ** Start *)

(** [new]: the client of a server that runs the expected chain. *)
Definition new `{Os} (cookie_path host : string) (port : Z) (network : Network) (fs : FS)
    (s : Server) : result string client * Server :=
  match fs_read cookie_path fs with
  | (Ok cookie, _) =>
      match rpc_client_new (base64 cookie) host port with
      | Ok _ =>
          let c := mk_client s priorities_new [] [] in
          match get_blockchain_info c with
          | (Ok (chain, _), c) =>
              if chain_matches chain network then (Ok c, server c)
              else (Err ("Chain argument (" +:+ network_name network +:+
                         ") didn't match bitcoind chain (" +:+ chain +:+ ")"), server c)
          | (Err e, c) => (Err e, server c)
          | (Panic w, c) => (Panic w, server c)
          end
      | Err _ => (Err "failed to create rpc client", s)
      | Panic w => (Panic w, s)
      end
  | _ => (Err "Failed to read bitcoin cookie", s)
  end.

(** The loop of [wait_for_blockchain_synchronisation]: for each round, whether the signal to
    quit has come, the time of the test, and what bitcoind does in the five seconds of sleep.
    [Some b] says that the loop ended, with [b] when the chain was synchronised. *)
Record round := mk_round { quitted : bool; now : Z; meanwhile : Server → Server }.
Fixpoint wait_for_blockchain_synchronisation (rounds : list round) : clientm (option bool) :=
  match rounds with
  | [] => cmd_ret None
  | r :: rounds =>
      if quitted r then cmd_ret (Some false)
      else
        let* synced := service_is_synchronised (now r) in
        if synced then cmd_ret (Some true)
        else λ c, wait_for_blockchain_synchronisation rounds
                    (set_server (meanwhile r (server c)) c)
  end.

(** ** Fee estimates *)

(** One class of [estimate_fee]: the request for it, and what is stored. A failed request and an
    answer that is not understood are logged. *)
Definition estimate_class (get : Priorities → PriorityClass)
    (put : PriorityClass → Priorities → Priorities) : clientm () := λ c,
  let class := get (priorities c) in
  let '(answer, s) := call_method "estimatesmartfee"
                        [JNumber (n_blocks class); JString "CONSERVATIVE"] (server c) in
  let answer := result_bind answer parse_estimate in
  let c := set_server s c in
  match answer with
  | Panic w => (Panic w, c)
  | _ => (Ok (), set_priorities (put (estimate_of answer class) (priorities c)) c)
  end.
Definition put_background x (p : Priorities) := mk_priorities x (normal p) (high p).
Definition put_normal x (p : Priorities) := mk_priorities (background p) x (high p).
Definition put_high x (p : Priorities) := mk_priorities (background p) (normal p) x.
(** A round of [poll_for_fee_estimates]. *)
Definition estimate_fee_rpc : clientm () :=
  let* _ := estimate_class background put_background in
  let* _ := estimate_class normal put_normal in
  estimate_class high put_high.

(** ** Broadcast *)

(** A task for each transaction. *)
Definition broadcast_transactions (txs : list Tx) (c : client) : client :=
  set_spawned (spawned c ++ (serialize_hex <$> txs)) c.

(** What a task does when it runs. A task is one step here: that of its request, which is its only
    effect on bitcoind, so tasks that overlap are in the order in which bitcoind sees them. *)
Definition broadcast_task (tx_serialized : string) (c : client) : client :=
  match send_transaction_with_client tx_serialized c with
  | (Err e, c) => if broadcast_reported e then report ("Broadcast transaction: " +:+ e) c else c
  | (_, c) => c
  end.
(** The runtime runs the task number [k] of those that have not run. *)
Definition run_task (k : nat) (c : client) : option client :=
  tx ← spawned c !! k;
  Some (broadcast_task tx (set_spawned (delete k (spawned c)) c)).
Fixpoint run_tasks (ks : list nat) (c : client) : option client :=
  match ks with
  | [] => Some c
  | k :: ks => c' ← run_task k c; run_tasks ks c'
  end.
End Client.

(** ** The memory pool *)

(** What bitcoind does with a package that it would accept: the transactions conflict with
    nothing it has nor with each other, and pay enough ([admissible]). [has] says whether it has
    a transaction, in a block or in the pool. A transaction whose inputs are there is accepted;
    otherwise the answer is the error of missing inputs. *)
Class MempoolLaws `{Rpc} := {
  txid : Tx → string;
  spends : Tx → list string;
  has : Server → string → bool;
  admissible : Server → list Tx → Prop;
  send_accepted s txs tx :
    admissible s txs → tx ∈ txs → has s (txid tx) = false → forallb (has s) (spends tx) = true →
    ∃ answer s', call_method "sendrawtransaction" [JString (serialize_hex tx)] s = (Ok answer, s') ∧
      parse_txid answer = Ok (txid tx) ∧ admissible s' txs ∧
      ∀ t, has s' t = bool_decide (t = txid tx) || has s t;
  send_orphan s txs tx :
    admissible s txs → tx ∈ txs → has s (txid tx) = false → forallb (has s) (spends tx) = false →
    ∃ e, call_method "sendrawtransaction" [JString (serialize_hex tx)] s = (Err e, s) ∧
      contains "bad-txns-inputs-missingorspent" e = true;
}.

(** The elements that are taken from a list one after the other. *)
Fixpoint chosen {A} (ks : list nat) (l : list A) : option (list A) :=
  match ks with
  | [] => Some []
  | k :: ks => a ← l !! k; cons a <$> chosen ks (delete k l)
  end.

Section Packages.
Context {RP : Rpc} {ML : MempoolLaws}.

(** Each transaction comes after those that it spends. *)
Fixpoint parents_first (known : string → bool) (l : list Tx) : bool :=
  match l with
  | [] => true
  | tx :: l =>
      forallb known (spends tx) && parents_first (λ t, bool_decide (t = txid tx) || known t) l
  end.

Lemma parents_first_ext known known' l :
  (∀ t, known t = known' t) → parents_first known l = parents_first known' l.
Proof.
  revert known known'. induction l as [|tx l IH]; intros known known' Heq; simpl; [done|].
  f_equal; [|apply IH; intros t; by rewrite Heq].
  induction (spends tx) as [|t ts IHts]; simpl; [done|]. by rewrite Heq, IHts.
Qed.

Lemma chosen_perm {A} ks (l order : list A) :
  chosen ks l = Some order → ∃ rest, order ++ rest ≡ₚ l ∧ length rest = (length l - length ks)%nat.
Proof.
  revert l order. induction ks as [|k ks IH]; intros l order; simpl.
  - intros [= <-]. exists l. split; [done|lia].
  - destruct (l !! k) as [a|] eqn:Hk; [|done]. simpl.
    destruct (chosen ks (delete k l)) as [o|] eqn:Ho; simpl; [|done]. intros [= <-].
    destruct (IH _ _ Ho) as (rest & Hp & Hlen). exists rest. split.
    + simpl. rewrite Hp. symmetry. by apply delete_Permutation.
    + rewrite Hlen, length_delete by done. lia.
Qed.

Definition send_all (order : list Tx) (c : client) : client :=
  foldl (λ c tx, broadcast_task (serialize_hex tx) c) c order.

Lemma broadcast_task_spawned h l c :
  set_spawned l (broadcast_task h c) = broadcast_task h (set_spawned l c).
Proof.
  unfold broadcast_task, send_transaction_with_client, call, ask, cmd_bind. simpl.
  destruct (call_method _ _ _) as [[answer|e|w] s]; simpl; [|by destruct (broadcast_reported e)|done].
  unfold cmd_lift. destruct (parse_txid answer) as [|e|]; [done| |done].
  by destruct (broadcast_reported e).
Qed.

(** Running tasks is sending what they have, in the order in which they run. *)
Lemma run_tasks_sends ks c c' (l : list Tx) :
  spawned c = serialize_hex <$> l → run_tasks ks c = Some c' →
  ∃ order rest, chosen ks l = Some order ∧ order ++ rest ≡ₚ l ∧
    c' = send_all order (set_spawned (serialize_hex <$> rest) c).
Proof.
  revert c l. induction ks as [|k ks IH]; intros c l Hl; simpl.
  - intros [= <-]. exists [], l. split_and!; [done..|]. rewrite <- Hl. by destruct c.
  - unfold run_task. rewrite Hl, list_lookup_fmap.
    destruct (l !! k) as [tx|] eqn:Hk; [|done]. simpl. intros Hrun.
    assert (spawned (broadcast_task (serialize_hex tx)
      (set_spawned (delete k (serialize_hex <$> l)) c)) = serialize_hex <$> delete k l) as Hs.
    { by rewrite <- broadcast_task_spawned, list_fmap_delete. }
    destruct (IH _ (delete k l) Hs Hrun) as (order & rest & Ho & Hp & ->).
    exists (tx :: order), rest. rewrite Ho. split_and!; [done| |].
    + simpl. rewrite Hp. symmetry. by apply delete_Permutation.
    + unfold send_all. simpl. by rewrite broadcast_task_spawned.
Qed.

(** One transaction of an admissible package. *)
Lemma send_one c txs tx :
  admissible (server c) txs → tx ∈ txs → has (server c) (txid tx) = false →
  let c' := broadcast_task (serialize_hex tx) c in
  reported c' = reported c ∧
  if forallb (has (server c)) (spends tx)
  then admissible (server c') txs ∧ ∀ t, has (server c') t = bool_decide (t = txid tx) || has (server c) t
  else server c' = server c.
Proof.
  intros Ha Htx Hnew. unfold broadcast_task, send_transaction_with_client, call, ask, cmd_bind. simpl.
  destruct (forallb _ _) eqn:Hin.
  - destruct (send_accepted _ _ _ Ha Htx Hnew Hin) as (answer & s' & Hs & Hp & Ha' & Hhas).
    rewrite Hs. unfold cmd_lift. by rewrite Hp.
  - destruct (send_orphan _ _ _ Ha Htx Hnew Hin) as (e & Hs & He).
    rewrite Hs. unfold broadcast_reported. rewrite He. by rewrite !andb_false_r.
Qed.

(** Transactions of an admissible package that are new to bitcoind, sent one after the other. *)
Lemma send_all_spec pkg order c :
  admissible (server c) pkg → (∀ tx, tx ∈ order → tx ∈ pkg) → NoDup (txid <$> order) →
  (∀ tx, tx ∈ order → has (server c) (txid tx) = false) →
  let c' := send_all order c in
  reported c' = reported c ∧
  (∀ t, has (server c) t = true → has (server c') t = true) ∧
  (∀ t, has (server c') t = true → has (server c) t = true ∨ t ∈ txid <$> order) ∧
  ((∀ tx, tx ∈ order → has (server c') (txid tx) = true) ↔
     parents_first (has (server c)) order = true).
Proof.
  revert c. induction order as [|tx order IH]; intros c Ha Hin Hnd Hnew; simpl.
  { split_and!; [done..|by left|]. split; [done|]. intros _ tx Htx. by apply elem_of_nil in Htx. }
  apply NoDup_cons in Hnd as [Htx Hnd].
  destruct (send_one c pkg tx Ha (Hin _ ltac:(left)) (Hnew _ ltac:(left))) as [Hr Hone].
  set (c1 := broadcast_task (serialize_hex tx) c) in *.
  assert (∀ tx', tx' ∈ order → txid tx' ≠ txid tx) as Hne.
  { intros tx' Htx' Heq. apply Htx. rewrite <- Heq. by apply list_elem_of_fmap_2. }
  destruct (forallb _ _) eqn:Hsp.
  - destruct Hone as [Ha1 Hhas1].
    destruct (IH c1 Ha1) as (Hr' & Hmono & Hnew' & Hiff); [set_solver|done| |].
    { intros tx' Htx'. rewrite Hhas1, bool_decide_eq_false_2 by auto. apply Hnew. by right. }
    rewrite <- (parents_first_ext _ _ order Hhas1). split_and!.
    + congruence.
    + intros t Ht. apply Hmono. rewrite Hhas1, Ht. apply orb_true_r.
    + intros t Ht. destruct (Hnew' t Ht) as [Ht'|Ht']; [|right; by right].
      rewrite Hhas1, orb_true_iff, bool_decide_eq_true in Ht'. set_solver.
    + simpl. rewrite <- Hiff. split; intros Hall tx' Htx'; [apply Hall; by right|].
      apply elem_of_cons in Htx' as [->|Htx']; [|by apply Hall].
      apply Hmono. by rewrite Hhas1, bool_decide_eq_true_2.
  - destruct (IH c1) as (Hr' & Hmono & Hnew' & Hiff); rewrite ?Hone; [done|set_solver|done|set_solver|].
    rewrite Hone in Hmono, Hnew'. split_and!; [congruence|done| |].
    + intros t Ht. destruct (Hnew' t Ht); [by left|right; by right].
    + simpl. split; [|done]. intros Hall.
      destruct (Hnew' _ (Hall tx ltac:(left))) as [Hk|Hk]; [|done].
      rewrite Hnew in Hk; [done|left].
Qed.

Lemma send_all_spawned order l c :
  set_spawned l (send_all order c) = send_all order (set_spawned l c).
Proof.
  unfold send_all. revert c. induction order as [|tx order IH]; intros c; simpl; [done|].
  by rewrite IH, broadcast_task_spawned.
Qed.

(** [C20] [broadcast_transactions] spawns a task for each transaction of a package. In whatever
    order [ks] the runtime runs the tasks: when all have run, bitcoind has every transaction of
    the package if and only if each task ran after those of the transactions that it spends;
    otherwise a transaction is lost, and no line reports it. *)
Theorem packages_need_their_order pkg c ks c' :
  admissible (server c) pkg → NoDup (txid <$> pkg) →
  (∀ tx, tx ∈ pkg → has (server c) (txid tx) = false) → spawned c = [] →
  run_tasks ks (broadcast_transactions pkg c) = Some c' → spawned c' = [] →
  ∃ order, chosen ks pkg = Some order ∧ order ≡ₚ pkg ∧ reported c' = reported c ∧
    ((∀ tx, tx ∈ pkg → has (server c') (txid tx) = true) ↔
       parents_first (has (server c)) order = true).
Proof.
  intros Ha Hnd Hnew Hnone Hrun Hdone.
  assert (spawned (broadcast_transactions pkg c) = serialize_hex <$> pkg) as Hsp
    by (simpl; by rewrite Hnone).
  destruct (run_tasks_sends ks _ c' pkg Hsp Hrun) as (order & rest & Ho & Hp & ->).
  rewrite <- send_all_spawned in *. destruct rest; [|done].
  rewrite app_nil_r in Hp. exists order. split; [done|]. split; [done|].
  destruct (send_all_spec pkg order (broadcast_transactions pkg c))
    as (Hr & _ & _ & Hiff); [done|by intros tx; rewrite Hp|by rewrite Hp|by intros tx; rewrite Hp; apply Hnew|].
  split; [done|]. rewrite <- Hiff. by split; intros Hall tx Htx; apply Hall; [rewrite <- Hp|rewrite Hp].
Qed.
End Packages.

(** ** The start and the estimates *)

Section Estimates.
Context {RP : Rpc}.

(** A client is made only for a server that says that it runs the expected chain, and it has
    the estimates of the start and no tasks. *)
Lemma new_checks_the_chain `{Os} cookie host port network fs s c s' :
  new cookie host port network fs s = (Ok c, s') →
  c = mk_client s' priorities_new [] [] ∧
  ∃ chain i, get_blockchain_info (mk_client s priorities_new [] []) = (Ok (chain, i), c) ∧
    chain_matches chain network = true.
Proof.
  unfold new. destruct (fs_read cookie fs) as [[cookie'|?|?] ?]; [|done..].
  destruct (rpc_client_new _ host port); [|done..].
  unfold get_blockchain_info, call, ask, cmd_bind. simpl.
  destruct (call_method _ _ s) as [[answer|?|?] s1]; simpl; [|done..].
  unfold cmd_lift. destruct (parse_blockchain_info answer) as [[chain i]|?|?]; simpl; [|done..].
  destruct (chain_matches chain network) eqn:Hc; [|done]. intros [= <- <-]. split; [done|].
  by exists chain, i.
Qed.

(** The wait ends with the chain synchronised only when a test found it so: what was read then
    has all blocks, and they are not a week old. *)
Lemma wait_ends_synchronised rounds c c' :
  wait_for_blockchain_synchronisation rounds c = (Ok (Some true), c') →
  ∃ r c0 chain i, r ∈ rounds ∧ get_blockchain_info c0 = (Ok (chain, i), c') ∧
    blocks i = headers i ∧ median_time i > now r - 60 * 60 * 24 * 7.
Proof.
  revert c. induction rounds as [|r rounds IH]; intros c; simpl; [done|].
  destruct (quitted r); [done|]. unfold cmd_bind, service_is_synchronised.
  destruct (get_blockchain_info c) as [[[chain i]|e|w] c1] eqn:Hi; simpl; [| |done].
  - destruct (_ && _) eqn:Hs.
    + intros [= <-]. exists r, c, chain, i. rewrite !andb_true_iff, !bool_decide_eq_true in Hs.
      destruct Hs as [[Hb Hm] _]. split_and!; [left|done..].
    + intros Hrec. destruct (IH _ Hrec) as (r' & c0 & chain' & i' & Hin & Hrest).
      exists r', c0, chain', i'. split; [by right|done].
  - intros Hrec. destruct (IH _ Hrec) as (r' & c0 & chain' & i' & Hin & Hrest).
    exists r', c0, chain', i'. split; [by right|done].
Qed.

Lemma acceptable_classes p :
  acceptable p ↔ (MIN_FEERATE ≤ fee_rate (background p) < 2 ^ 32) ∧
    (MIN_FEERATE ≤ fee_rate (normal p) < 2 ^ 32) ∧ (MIN_FEERATE ≤ fee_rate (high p) < 2 ^ 32).
Proof.
  unfold acceptable, get_est_sat_per_1000_weight, priorities_get. split.
  - intros H. exact (conj (H ChannelCloseMinimum) (conj (H NonAnchorChannelFee) (H OnChainSweep))).
  - intros (Hb & Hn & Hh) []; done.
Qed.

Definition keeps_acceptable (m : cmd client string ()) : Prop :=
  ∀ c, acceptable (priorities c) → acceptable (priorities (m c).2).
Lemma keeps_acceptable_bind m m' : keeps_acceptable m → keeps_acceptable m' →
  keeps_acceptable (let* _ := m in m').
Proof.
  intros Hm Hm' c Hc. unfold cmd_bind. pose proof (Hm c Hc) as H1.
  destruct (m c) as [[?|?|?] c1]; [by apply Hm'|done..].
Qed.
Lemma keeps_acceptable_class get put :
  (∀ p, acceptable p → MIN_FEERATE ≤ fee_rate (get p) < 2 ^ 32) →
  (∀ x p, acceptable p → MIN_FEERATE ≤ fee_rate x < 2 ^ 32 → acceptable (put x p)) →
  keeps_acceptable (estimate_class get put).
Proof.
  intros Hget Hput c Hc. unfold estimate_class. destruct (call_method _ _ _) as [answer s].
  destruct (result_bind answer _); cbn -[estimate_of]; [| |done];
    (apply Hput; [done|]; apply estimate_of_acceptable; auto).
Qed.

(** A round of estimates leaves estimates that LDK accepts, whatever bitcoind answers, also when
    the round ends early. *)
Lemma estimate_fee_rpc_acceptable : keeps_acceptable estimate_fee_rpc.
Proof.
  repeat apply keeps_acceptable_bind; apply keeps_acceptable_class;
    intros *; rewrite ?acceptable_classes; simpl; rewrite ?acceptable_classes; tauto.
Qed.
End Estimates.

(** ** An instance *)

Section Instances.

(** A server knows transactions by a letter; the transaction ["b"] spends ["a"]. *)
Definition example_spends (tx : string) : list string := if bool_decide (tx = "b") then ["a"] else [].
Definition example_call (method : string) (params : list json) (s : list string) :
    result string string * list string :=
  match params with
  | [JString tx] =>
      if bool_decide (tx ∈ s) then (Err "txn-already-known", s)
      else if forallb (λ t, bool_decide (t ∈ s)) (example_spends tx) then (Ok tx, tx :: s)
      else (Err "bad-txns-inputs-missingorspent", s)
  | _ => (Ok method, s)
  end.
Definition example_rpc : Rpc := {|
  Server := list string; Tx := string; Hash := string; Header := string; Block := string;
  MempoolInfo := string; base64 s := s; rpc_client_new _ _ _ := Ok ();
  call_method := example_call;
  rpc_get_header h _ s := (Ok h, s); rpc_get_block h s := (Ok h, s);
  rpc_get_best_block s := (Ok ("tip", Some 100), s);
  serialize_hex tx := tx; parse_txid := Ok; parse_hash := Ok; parse_hashes s := Ok [s];
  parse_blockchain_info _ := Ok ("main", mk_info 100 100 1700000000 true);
  parse_mempool_info := Ok; parse_estimate _ := Ok None; network_name _ := "bitcoin";
|}.
#[local] Existing Instance example_rpc.

Lemma example_send s tx : bool_decide (tx ∈ s) = false →
  example_call "sendrawtransaction" [JString tx] s =
    if forallb (λ t, bool_decide (t ∈ s)) (example_spends tx) then (Ok tx, tx :: s)
    else (Err "bad-txns-inputs-missingorspent", s).
Proof. unfold example_call. by intros ->. Qed.

Definition example_mempool : MempoolLaws.
Proof.
  refine {| txid := (λ tx, tx) : Tx → string; spends := example_spends;
            has := λ s t, bool_decide (t ∈ (s : list string)); admissible _ _ := True |}.
  - intros s txs tx _ _ Hnew Hin. exists tx, (tx :: s). split_and!; [|done..|].
    + etransitivity; [exact (example_send s tx Hnew)|]. cbv beta in Hin. by rewrite Hin.
    + intros t. rewrite (bool_decide_ext _ _ (elem_of_cons s t tx)). apply bool_decide_or.
  - intros s txs tx _ _ Hnew Hin. exists "bad-txns-inputs-missingorspent". split; [|done].
    etransitivity; [exact (example_send s tx Hnew)|]. cbv beta in Hin. by rewrite Hin.
Defined.
#[local] Existing Instance example_mempool.

Definition example_client : client := mk_client ([] : Server) priorities_new [] [].

Definition example_package : list Tx := ["a"; "b"].

(** The parent first: both arrive. The child first: it is lost. *)
Lemma packages_need_their_order_witness :
  ∃ c1 c2, run_tasks [0; 0]%nat (broadcast_transactions example_package example_client) = Some c1 ∧
    run_tasks [1; 0]%nat (broadcast_transactions example_package example_client) = Some c2 ∧
    has (server c1) "b" = true ∧ has (server c2) "b" = false ∧ reported c2 = [].
Proof.
  eexists _, _. split; [reflexivity|]. split; [reflexivity|].
  assert (NoDup (txid <$> example_package)) as Hnd by (apply (bool_decide_unpack _); vm_compute; exact I).
  assert (∀ ks c', run_tasks ks (broadcast_transactions example_package example_client) = Some c' →
    spawned c' = [] → ∃ order, chosen ks example_package = Some order ∧ order ≡ₚ example_package ∧
      reported c' = [] ∧ ((∀ tx, tx ∈ example_package → has (server c') (txid tx) = true) ↔
        parents_first (has (server example_client)) order = true)) as Happ.
  { intros ks c' Hrun Hdone.
    by apply (packages_need_their_order example_package example_client ks c'). }
  split; [|split].
  - destruct (Happ [0; 0]%nat _ eq_refl eq_refl) as (order & [= <-] & _ & _ & Hiff).
    apply (proj2 Hiff eq_refl "b"). right. left.
  - reflexivity.
  - destruct (Happ [1; 0]%nat _ eq_refl eq_refl) as (order & _ & _ & Hr & _). exact Hr.
Defined.
End Instances.
