(* ===== verification/WalletDatabase.v ===== *)
(** * The wallet's tables (src/kld/src/database/wallet_database.rs)

    [WalletDatabase] implements bdk's [BatchOperations], [Database] and [BatchDatabase] on seven
    tables (src/kld/src/database/sql/V2__wallet.sql). Every method of the file is a definition
    here, under its own name: the [insert_], [update_], [select_] and [delete_] helpers that
    send one statement each, then the trait methods that combine them. The codecs of the
    [bitcoin] and [serde_json] crates are the class [BdkCodec]. The theorems on single methods
    are at the end; that the whole implements bdk's contract is in WalletRefinement.v. *)

From S2P Require Import Prelude Sql.

(** ** The codecs the methods call *)

(** Consensus encoding of transactions and ids, and the JSON form of a keychain. *)
Class BdkCodec := {
  Transaction : Type;
  Txid : Type;
  KeychainKind : Type;
  txid : Transaction → Txid;
  txid_as_ref : Txid → bytes;
  serialize : Transaction → bytes;
  deserialize_tx : bytes → result string Transaction;
  deserialize_txid : bytes → result string Txid;
  to_json : KeychainKind → result string string;
  from_json : string → result string KeychainKind;
}.

Class BdkCodecLaws `{BdkCodec} := {
  Txid_eq_dec :: EqDecision Txid;
  KeychainKind_eq_dec :: EqDecision KeychainKind;
  deserialize_serialize : ∀ tx, deserialize_tx (serialize tx) = Ok tx;
  deserialize_as_ref : ∀ t, deserialize_txid (txid_as_ref t) = Ok t;
  json_roundtrip : ∀ k, ∃ s, to_json k = Ok s ∧ from_json s = Ok k;
}.

(** ** bdk's data *)

Section Data.
Context `{BdkCodec}.

Record OutPoint := mk_outpoint { op_txid : Txid; op_vout : Z }.
Record TxOut := mk_txout { to_value : Z; to_script_pubkey : bytes }.
Record LocalUtxo := mk_local_utxo {
  lu_outpoint : OutPoint;
  lu_txout : TxOut;
  lu_keychain : KeychainKind;
  lu_is_spent : bool;
}.
Record BlockTime := mk_block_time { bt_height : Z; bt_timestamp : Z }.
Record SyncTime := mk_sync_time { st_block_time : BlockTime }.
Record TransactionDetails := mk_details {
  td_transaction : option Transaction;
  td_txid : Txid;
  td_received : Z;
  td_sent : Z;
  td_fee : option Z;
  td_confirmation_time : option BlockTime;
}.
End Data.

(** The cases of [bdk::Error] the file produces. *)
Inductive bdk_error :=
| Generic (e : sql_error)
| Json (msg : string)
| Encode (msg : string)
| ChecksumMismatch.

(** ** The tables *)

Record spk_row := mk_spk { sp_keychain : string; sp_child : Z; sp_script : bytes }.
Record utxo_row := mk_utxo {
  ut_value : Z; ut_keychain : string; ut_vout : Z; ut_txid : bytes; ut_script : bytes;
  ut_is_spent : bool;
}.
Record tx_row := mk_tx { tr_txid : bytes; tr_raw_tx : bytes }.
Record det_row := mk_det {
  dt_txid : bytes; dt_timestamp : option Z; dt_received : Z; dt_sent : Z; dt_fee : option Z;
  dt_height : option Z;
}.
Record idx_row := mk_idx { ix_keychain : string; ix_value : Z }.
Record checksum_row := mk_checksum { ck_keychain : string; ck_checksum : bytes }.
Record sync_row := mk_sync { sy_id : Z; sy_height : Z; sy_timestamp : Z }.

Record wallet_tables := mk_wallet {
  script_pubkeys : list spk_row;
  utxos : list utxo_row;
  transactions : list tx_row;
  transaction_details : list det_row;
  last_derivation_indices : list idx_row;
  checksums : list checksum_row;
  sync_time : list sync_row;
}.
Definition empty_wallet : wallet_tables := mk_wallet [] [] [] [] [] [] [].

Definition set_script_pubkeys (f : list spk_row → list spk_row) (t : wallet_tables) :=
  mk_wallet (f (script_pubkeys t)) (utxos t) (transactions t) (transaction_details t)
    (last_derivation_indices t) (checksums t) (sync_time t).
Definition set_utxos (l : list utxo_row) (t : wallet_tables) :=
  mk_wallet (script_pubkeys t) l (transactions t) (transaction_details t)
    (last_derivation_indices t) (checksums t) (sync_time t).
Definition set_transactions (f : list tx_row → list tx_row) (t : wallet_tables) :=
  mk_wallet (script_pubkeys t) (utxos t) (f (transactions t)) (transaction_details t)
    (last_derivation_indices t) (checksums t) (sync_time t).
Definition set_details (f : list det_row → list det_row) (t : wallet_tables) :=
  mk_wallet (script_pubkeys t) (utxos t) (transactions t) (f (transaction_details t))
    (last_derivation_indices t) (checksums t) (sync_time t).
Definition set_indices (l : list idx_row) (t : wallet_tables) :=
  mk_wallet (script_pubkeys t) (utxos t) (transactions t) (transaction_details t)
    l (checksums t) (sync_time t).
Definition set_checksums (f : list checksum_row → list checksum_row) (t : wallet_tables) :=
  mk_wallet (script_pubkeys t) (utxos t) (transactions t) (transaction_details t)
    (last_derivation_indices t) (f (checksums t)) (sync_time t).
Definition set_sync_rows (l : list sync_row) (t : wallet_tables) :=
  mk_wallet (script_pubkeys t) (utxos t) (transactions t) (transaction_details t)
    (last_derivation_indices t) (checksums t) l.

Definition utxo_key (r : utxo_row) : bytes * Z := (ut_txid r, ut_vout r).
Definition spk_path (r : spk_row) : string * Z := (sp_keychain r, sp_child r).

(** [FROM wallet_transaction_details wtd, wallet_transactions wt WHERE wtd.txid = wt.txid]. *)
Definition join_raw (t : wallet_tables) : list (det_row * tx_row) :=
  flat_map (λ d, pair d <$> where_ (has_key tr_txid (dt_txid d)) (transactions t))
    (transaction_details t).

Definition walletm (A : Type) : Type := cmd (conn wallet_tables) bdk_error A.

(** The macros [execute_blocking] and [query_blocking]. *)
Definition execute_blocking (s : wallet_tables → result sql_error wallet_tables) : walletm () :=
  cmd_map_err Generic (execute s).
Definition query_blocking `{Driver} {R} (s : wallet_tables → list R) : walletm (list R) :=
  cmd_map_err Generic (query s).

(** ** One statement each *)

Section Statements.
Context `{Driver, BdkCodec}.

Definition insert_script_pubkey (keychain : string) (child : Z) (script : bytes) : walletm Z :=
  cmd_map (λ _, 0) (execute_blocking (λ t,
    Ok (set_script_pubkeys (insert_row (mk_spk keychain (as_i32 child) script)) t))).

Definition insert_utxo (value : Z) (keychain : string) (vout : Z) (txid script : bytes)
    (is_spent : bool) : walletm Z :=
  let r := mk_utxo (as_i64 value) keychain (as_i32 vout) txid script is_spent in
  cmd_map (λ _, 0) (execute_blocking (λ t,
    Ok (set_utxos (upsert (has_key utxo_key (utxo_key r)) r (utxos t)) t))).

Definition insert_transaction (txid raw_tx : bytes) : walletm Z :=
  cmd_map (λ _, 0) (execute_blocking (λ t,
    Ok (set_transactions (insert_row (mk_tx txid raw_tx)) t))).

(** [SET raw_tx=$1 WHERE txid=$2] with the parameters [&[&txid, &raw_tx]]. *)
Definition update_transaction (txid raw_tx : bytes) : walletm () :=
  let p1 := txid in let p2 := raw_tx in
  execute_blocking (λ t,
    Ok (set_transactions
          (update_where (has_key tr_txid p2) (λ r, mk_tx (tr_txid r) p1)) t)).

Definition confirmation_columns (td : TransactionDetails) : option Z * option Z :=
  match td_confirmation_time td with
  | Some c => (Some (bt_timestamp c), Some (bt_height c))
  | None => (None, None)
  end.

Definition insert_transaction_details (td : TransactionDetails) : walletm Z :=
  let '(timestamp, height) := confirmation_columns td in
  cmd_map (λ _, 0) (execute_blocking (λ t,
    Ok (set_details (insert_row
          (mk_det (txid_as_ref (td_txid td)) (as_i64 <$> timestamp)
             (as_i64 (td_received td)) (as_i64 (td_sent td)) (as_i64 <$> td_fee td)
             (as_i64 <$> height))) t))).

Definition update_transaction_details (td : TransactionDetails) : walletm () :=
  let '(timestamp, height) := confirmation_columns td in
  execute_blocking (λ t,
    Ok (set_details (update_where (has_key dt_txid (txid_as_ref (td_txid td)))
          (λ r, mk_det (dt_txid r) (as_i64 <$> timestamp)
             (as_i64 (td_received td)) (as_i64 (td_sent td)) (as_i64 <$> td_fee td)
             (as_i64 <$> height))) t)).

Definition insert_last_derivation_index (keychain : string) (value : Z) : walletm Z :=
  let r := mk_idx keychain (as_i64 value) in
  cmd_map (λ _, 0) (execute_blocking (λ t,
    result_map (λ l, set_indices l t)
      (insert_pk "wallet_last_derivation_indices" (has_key ix_keychain keychain) r
         (last_derivation_indices t)))).

Definition insert_checksum (keychain : string) (checksum : bytes) : walletm Z :=
  cmd_map (λ _, 0) (execute_blocking (λ t,
    Ok (set_checksums (insert_row (mk_checksum keychain checksum)) t))).

Definition update_last_derivation_index (keychain : string) (value : Z) : walletm () :=
  let r := mk_idx keychain (as_i64 value) in
  execute_blocking (λ t,
    Ok (set_indices (upsert (has_key ix_keychain (ix_keychain r)) r
                       (last_derivation_indices t)) t)).

Definition update_sync_time (data : SyncTime) : walletm Z :=
  let r := mk_sync 0 (as_i64 (bt_height (st_block_time data)))
                     (as_i64 (bt_timestamp (st_block_time data))) in
  cmd_map (λ _, 0) (execute_blocking (λ t,
    Ok (set_sync_rows (upsert (has_key sy_id (sy_id r)) r (sync_time t)) t))).

Definition select_script_pubkeys : walletm (list bytes) :=
  cmd_map (fmap sp_script) (query_blocking script_pubkeys).

Definition select_script_pubkeys_by_keychain (keychain : string) : walletm (list bytes) :=
  cmd_map (fmap sp_script)
    (query_blocking (λ t, where_ (has_key sp_keychain keychain) (script_pubkeys t))).

Definition select_script_pubkey_by_path (keychain : string) (child : Z) :
    walletm (option bytes) :=
  cmd_map (λ rows, sp_script <$> head rows)
    (query_blocking (λ t, where_ (has_key spk_path (keychain, as_i32 child))
                            (script_pubkeys t))).

Definition select_script_pubkey_by_script (script : bytes) :
    walletm (option (KeychainKind * Z)) :=
  let* rows := query_blocking (λ t, where_ (has_key sp_script script) (script_pubkeys t)) in
  match head rows with
  | Some row =>
      let* keychain := cmd_lift (map_err Json (from_json (sp_keychain row))) in
      cmd_ret (Some (keychain, as_u32 (sp_child row)))
  | None => cmd_ret None
  end.

(** One row of [wallet_utxos] as the file reads it: the value must not be negative, then the
    keychain and the id must decode. *)
Definition read_utxo (txid : bytes) (vout : Z) (row : utxo_row) : result bdk_error LocalUtxo :=
  let? value := unwrap_unsigned 64 (ut_value row) in
  let? keychain := map_err Json (from_json (ut_keychain row)) in
  let? id := map_err Encode (deserialize_txid txid) in
  Ok (mk_local_utxo (mk_outpoint id vout) (mk_txout value (ut_script row)) keychain
        (ut_is_spent row)).

Definition select_utxos : walletm (list LocalUtxo) :=
  let* rows := query_blocking utxos in
  cmd_lift (result_mapM (λ row, read_utxo (ut_txid row) (as_u32 (ut_vout row)) row) rows).

Definition select_utxo_by_outpoint (txid : bytes) (vout : Z) : walletm (option LocalUtxo) :=
  let* rows := query_blocking (λ t, where_ (has_key utxo_key (txid, as_i32 vout)) (utxos t)) in
  match head rows with
  | Some row => cmd_lift (result_map Some (read_utxo txid vout row))
  | None => cmd_ret None
  end.

Definition select_transactions : walletm (list Transaction) :=
  let* rows := query_blocking transactions in
  cmd_lift (result_mapM (λ row, map_err Encode (deserialize_tx (tr_raw_tx row))) rows).

Definition select_transaction_by_txid (txid : bytes) : walletm (option Transaction) :=
  let* rows := query_blocking (λ t, where_ (has_key tr_txid txid) (transactions t)) in
  match head rows with
  | Some row => cmd_lift (result_map Some (map_err Encode (deserialize_tx (tr_raw_tx row))))
  | None => cmd_ret None
  end.

Definition unwrap_unsigned_opt {E} (w : Z) (o : option Z) : result E (option Z) :=
  match o with Some z => result_map Some (unwrap_unsigned w z) | None => Ok None end.

Definition confirmation (height timestamp : option Z) : option BlockTime :=
  match height, timestamp with
  | Some height, Some timestamp => Some (mk_block_time height timestamp)
  | _, _ => None
  end.

(** The number columns of a details row, in the order the file reads them. *)
Definition read_numbers (row : det_row) :
    result bdk_error (option Z * Z * Z * option Z * option Z) :=
  let? timestamp := unwrap_unsigned_opt 64 (dt_timestamp row) in
  let? received := unwrap_unsigned 64 (dt_received row) in
  let? sent := unwrap_unsigned 64 (dt_sent row) in
  let? fee := unwrap_unsigned_opt 64 (dt_fee row) in
  let? height := unwrap_unsigned_opt 32 (dt_height row) in
  Ok (timestamp, received, sent, fee, height).

Definition select_transaction_details_with_raw : walletm (list TransactionDetails) :=
  let* rows := query_blocking join_raw in
  cmd_lift (result_mapM (λ '(d, r),
    let? id := map_err Encode (deserialize_txid (dt_txid d)) in
    let? (timestamp, received, sent, fee, height) := read_numbers d in
    let? tx := map_err Encode (deserialize_tx (tr_raw_tx r)) in
    Ok (mk_details (Some tx) id received sent fee (confirmation height timestamp))) rows).

Definition select_transaction_details : walletm (list TransactionDetails) :=
  let* rows := query_blocking transaction_details in
  cmd_lift (result_mapM (λ d,
    let? id := map_err Encode (deserialize_txid (dt_txid d)) in
    let? (timestamp, received, sent, fee, height) := read_numbers d in
    Ok (mk_details None id received sent fee (confirmation height timestamp))) rows).

Definition select_transaction_details_by_txid (txid : bytes) :
    walletm (option TransactionDetails) :=
  let* rows := query_blocking (λ t, where_ (λ '(d, r), has_key dt_txid txid d) (join_raw t)) in
  match head rows with
  | Some (d, r) => cmd_lift (
      let? (timestamp, received, sent, fee, height) := read_numbers d in
      let? tx := map_err Encode (deserialize_tx (tr_raw_tx r)) in
      let? id := map_err Encode (deserialize_txid txid) in
      Ok (Some (mk_details (Some tx) id received sent fee (confirmation height timestamp))))
  | None => cmd_ret None
  end.

Definition select_last_derivation_index_by_keychain (keychain : string) :
    walletm (option Z) :=
  let* rows := query_blocking (λ t, where_ (has_key ix_keychain keychain)
                                      (last_derivation_indices t)) in
  match head rows with
  | Some row => cmd_lift (result_map Some (unwrap_unsigned 32 (ix_value row)))
  | None => cmd_ret None
  end.

Definition select_sync_time : walletm (option SyncTime) :=
  let* rows := query_blocking (λ t, where_ (has_key sy_id 0) (sync_time t)) in
  match head rows with
  | Some row => cmd_lift (
      let? height := unwrap_unsigned 32 (sy_height row) in
      let? timestamp := unwrap_unsigned 64 (sy_timestamp row) in
      Ok (Some (mk_sync_time (mk_block_time height timestamp))))
  | None => cmd_ret None
  end.

Definition select_checksum_by_keychain (keychain : string) : walletm (option bytes) :=
  cmd_map (λ rows, ck_checksum <$> head rows)
    (query_blocking (λ t, where_ (has_key ck_keychain keychain) (checksums t))).

Definition delete_script_pubkey_by_path (keychain : string) (child : Z) : walletm () :=
  execute_blocking (λ t,
    Ok (set_script_pubkeys (delete_where (has_key spk_path (keychain, as_i32 child))) t)).

Definition delete_script_pubkey_by_script (script : bytes) : walletm () :=
  execute_blocking (λ t, Ok (set_script_pubkeys (delete_where (has_key sp_script script)) t)).

Definition delete_utxo_by_outpoint (txid : bytes) (vout : Z) : walletm () :=
  execute_blocking (λ t,
    Ok (set_utxos (delete_where (has_key utxo_key (txid, as_i32 vout)) (utxos t)) t)).

Definition delete_transaction_by_txid (txid : bytes) : walletm () :=
  execute_blocking (λ t, Ok (set_transactions (delete_where (has_key tr_txid txid)) t)).

Definition delete_transaction_details_by_txid (txid : bytes) : walletm () :=
  execute_blocking (λ t, Ok (set_details (delete_where (has_key dt_txid txid)) t)).

Definition delete_last_derivation_index_by_keychain (keychain : string) : walletm () :=
  execute_blocking (λ t,
    Ok (set_indices (delete_where (has_key ix_keychain keychain)
                       (last_derivation_indices t)) t)).

Definition delete_sync_time : walletm () :=
  execute_blocking (λ t,
    Ok (set_sync_rows (delete_where (has_key sy_id 0) (sync_time t)) t)).
End Statements.

(** ** The trait methods *)

Section Methods.
Context `{Driver, BdkCodec}.

Definition json (k : KeychainKind) : walletm string := cmd_lift (map_err Json (to_json k)).

Definition set_script_pubkey (script : bytes) (keychain : KeychainKind) (child : Z) :
    walletm () :=
  let* keychain := json keychain in
  let* _ := insert_script_pubkey keychain child script in
  cmd_ret ().

Definition set_utxo (utxo : LocalUtxo) : walletm () :=
  let* keychain := json (lu_keychain utxo) in
  let* _ := insert_utxo (to_value (lu_txout utxo)) keychain (op_vout (lu_outpoint utxo))
              (txid_as_ref (op_txid (lu_outpoint utxo)))
              (to_script_pubkey (lu_txout utxo)) (lu_is_spent utxo) in
  cmd_ret ().

Definition set_raw_tx (transaction : Transaction) : walletm () :=
  let id := txid transaction in
  let* found := select_transaction_by_txid (txid_as_ref id) in
  match found with
  | Some _ => update_transaction (txid_as_ref id) (serialize transaction)
  | None =>
      let* _ := insert_transaction (txid_as_ref id) (serialize transaction) in
      cmd_ret ()
  end.

Definition set_tx (transaction : TransactionDetails) : walletm () :=
  let* found := select_transaction_details_by_txid (txid_as_ref (td_txid transaction)) in
  let* _ := match found with
            | Some _ => update_transaction_details transaction
            | None =>
                let* _ := insert_transaction_details transaction in
                cmd_ret ()
            end in
  match td_transaction transaction with
  | Some tx => set_raw_tx tx
  | None => cmd_ret ()
  end.

Definition set_last_index (keychain : KeychainKind) (value : Z) : walletm () :=
  let* keychain := json keychain in
  update_last_derivation_index keychain value.

Definition set_sync_time (ct : SyncTime) : walletm () :=
  let* _ := update_sync_time ct in
  cmd_ret ().

Definition del_script_pubkey_from_path (keychain : KeychainKind) (child : Z) :
    walletm (option bytes) :=
  let* keychain := json keychain in
  let* script := select_script_pubkey_by_path keychain child in
  match script with
  | Some script =>
      let* _ := delete_script_pubkey_by_path keychain child in
      cmd_ret (Some script)
  | None => cmd_ret None
  end.

Definition del_path_from_script_pubkey (script : bytes) : walletm (option (KeychainKind * Z)) :=
  let* found := select_script_pubkey_by_script script in
  match found with
  | Some (keychain, child) =>
      let* _ := delete_script_pubkey_by_script script in
      cmd_ret (Some (keychain, child))
  | None => cmd_ret None
  end.

Definition del_utxo (outpoint : OutPoint) : walletm (option LocalUtxo) :=
  let* found := select_utxo_by_outpoint (txid_as_ref (op_txid outpoint)) (op_vout outpoint) in
  match found with
  | Some local_utxo =>
      let* _ := delete_utxo_by_outpoint (txid_as_ref (op_txid outpoint)) (op_vout outpoint) in
      cmd_ret (Some local_utxo)
  | None => cmd_ret None
  end.

Definition del_raw_tx (id : Txid) : walletm (option Transaction) :=
  let* found := select_transaction_by_txid (txid_as_ref id) in
  match found with
  | Some tx =>
      let* _ := delete_transaction_by_txid (txid_as_ref id) in
      cmd_ret (Some tx)
  | None => cmd_ret None
  end.

Definition del_tx (id : Txid) (include_raw : bool) : walletm (option TransactionDetails) :=
  let* found := select_transaction_details_by_txid (txid_as_ref id) in
  match found with
  | Some details =>
      let* _ := delete_transaction_details_by_txid (txid_as_ref id) in
      let* _ := (if include_raw then delete_transaction_by_txid (txid_as_ref id)
                 else cmd_ret ()) in
      cmd_ret (Some details)
  | None => cmd_ret None
  end.

Definition del_last_index (keychain : KeychainKind) : walletm (option Z) :=
  let* keychain := json keychain in
  let* found := select_last_derivation_index_by_keychain keychain in
  match found with
  | Some value =>
      let* _ := delete_last_derivation_index_by_keychain keychain in
      cmd_ret (Some value)
  | None => cmd_ret None
  end.

Definition del_sync_time : walletm (option SyncTime) :=
  let* found := select_sync_time in
  match found with
  | Some value =>
      let* _ := delete_sync_time in
      cmd_ret (Some value)
  | None => cmd_ret None
  end.

Definition check_descriptor_checksum (keychain : KeychainKind) (checksum : bytes) :
    walletm () :=
  let* keychain := json keychain in
  let* found := select_checksum_by_keychain keychain in
  match found with
  | Some stored =>
      if bool_decide (stored = checksum) then cmd_ret () else cmd_err ChecksumMismatch
  | None =>
      let* _ := insert_checksum keychain checksum in
      cmd_ret ()
  end.

Definition iter_script_pubkeys (keychain : option KeychainKind) : walletm (list bytes) :=
  match keychain with
  | Some keychain =>
      let* keychain := json keychain in
      select_script_pubkeys_by_keychain keychain
  | None => select_script_pubkeys
  end.

Definition iter_utxos : walletm (list LocalUtxo) := select_utxos.

Definition iter_raw_txs : walletm (list Transaction) := select_transactions.

Definition iter_txs (include_raw : bool) : walletm (list TransactionDetails) :=
  if include_raw then select_transaction_details_with_raw else select_transaction_details.

Definition get_script_pubkey_from_path (keychain : KeychainKind) (child : Z) :
    walletm (option bytes) :=
  let* keychain := json keychain in
  select_script_pubkey_by_path keychain child.

Definition get_path_from_script_pubkey (script : bytes) : walletm (option (KeychainKind * Z)) :=
  select_script_pubkey_by_script script.

Definition get_utxo (outpoint : OutPoint) : walletm (option LocalUtxo) :=
  select_utxo_by_outpoint (txid_as_ref (op_txid outpoint)) (op_vout outpoint).

Definition get_raw_tx (id : Txid) : walletm (option Transaction) :=
  select_transaction_by_txid (txid_as_ref id).

Definition get_tx (id : Txid) (include_raw : bool) : walletm (option TransactionDetails) :=
  let* found := select_transaction_details_by_txid (txid_as_ref id) in
  match found with
  | Some td =>
      let tx := if include_raw then td_transaction td else None in
      cmd_ret (Some (mk_details tx (td_txid td) (td_received td) (td_sent td) (td_fee td)
                       (td_confirmation_time td)))
  | None => cmd_ret None
  end.

Definition get_last_index (keychain : KeychainKind) : walletm (option Z) :=
  let* keychain := json keychain in
  select_last_derivation_index_by_keychain keychain.

Definition get_sync_time : walletm (option SyncTime) := select_sync_time.

Definition increment_last_index `{Build} (keychain : KeychainKind) : walletm Z :=
  let* keychain_string := json keychain in
  let* found := get_last_index keychain in
  match found with
  | Some value =>
      let* next := cmd_lift (arith 32 (value + 1)) in
      let* _ := update_last_derivation_index keychain_string next in
      cmd_lift (arith 32 (value + 1))
  | None =>
      let* _ := insert_last_derivation_index keychain_string 0 in
      cmd_ret 0
  end.
End Methods.

(** The batch methods act on the connection itself, whatever else its tables hold. *)
Definition begin_batch {T} : cmd (conn T) bdk_error () := cmd_map_err Generic begin_txn.
Definition commit_batch {T} : cmd (conn T) bdk_error () := cmd_map_err Generic commit_txn.

(** ** Running on a connection that works *)

Section Running.
Context {D : Driver} {DL : DriverLaws} {BC : BdkCodec} {BCL : BdkCodecLaws}.
Implicit Types c : conn wallet_tables.

(** The JSON text of a keychain. *)
Definition keychain_text (k : KeychainKind) : string :=
  match to_json k with Ok s => s | _ => EmptyString end.

Lemma to_json_text k : to_json k = Ok (keychain_text k).
Proof. unfold keychain_text. by destruct (json_roundtrip k) as (s & -> & _). Qed.

Lemma from_json_text k : from_json (keychain_text k) = Ok k.
Proof. unfold keychain_text. by destruct (json_roundtrip k) as (s & -> & ?). Qed.

#[export] Instance keychain_text_inj : Inj (=) (=) keychain_text.
Proof. intros k1 k2 Hk. pose proof (from_json_text k1). rewrite Hk, from_json_text in *. congruence. Qed.

#[export] Instance txid_as_ref_inj : Inj (=) (=) txid_as_ref.
Proof.
  intros t1 t2 Ht. pose proof (deserialize_as_ref t1) as Ht1.
  rewrite Ht, deserialize_as_ref in Ht1. congruence.
Qed.

Lemma json_run k c : json k c = (Ok (keychain_text k), c).
Proof. unfold json. by rewrite to_json_text. Qed.

Lemma online_set_tables (t : wallet_tables) c : online c → online (set_tables t c).
Proof. done. Qed.

Lemma execute_blocking_run (s : wallet_tables → result sql_error wallet_tables) c t :
  online c → s (tables c) = Ok t → execute_blocking s c = (Ok (), set_tables t c).
Proof.
  intros Hc Hs. unfold execute_blocking, cmd_map_err. by rewrite (execute_online _ _ _ Hc Hs).
Qed.

Lemma query_blocking_run {R} (s : wallet_tables → list R) c :
  online c → query_blocking s c = (Ok (scan (s (tables c))), c).
Proof. intros Hc. unfold query_blocking, cmd_map_err. by rewrite query_online. Qed.

Lemma set_tables_id c : set_tables (tables c) c = c.
Proof. by destruct c. Qed.

Lemma bind_json {A} k (f : string → walletm A) c :
  cmd_bind (json k) f c = f (keychain_text k) c.
Proof. unfold cmd_bind. by rewrite json_run. Qed.

Lemma bind_execute {A} (s : wallet_tables → result sql_error wallet_tables) (f : () → walletm A)
    c t :
  online c → s (tables c) = Ok t → cmd_bind (execute_blocking s) f c = f () (set_tables t c).
Proof. intros Hc Hs. apply cmd_bind_ok. by apply execute_blocking_run. Qed.

Lemma bind_query {A R} (s : wallet_tables → list R) (f : list R → walletm A) c :
  online c → cmd_bind (query_blocking s) f c = f (scan (s (tables c))) c.
Proof. intros Hc. apply cmd_bind_ok. by apply query_blocking_run. Qed.

(** A query by primary key sees the row of that key. *)
Lemma query_pk_run {R K} `{EqDecision K} (key : R → K) (col : wallet_tables → list R) k c :
  online c → pk key (col (tables c)) →
  query_blocking (λ t, where_ (has_key key k) (col t)) c =
    (Ok (option_list (pk_find key k (col (tables c)))), c).
Proof. intros Hc Hpk. by rewrite query_blocking_run, scan_where_pk. Qed.
End Running.

(** The join restricted to one id. *)
Lemma where_pair (p : det_row → bool) d (rs : list tx_row) :
  where_ (λ '(d, r), p d) (pair d <$> rs) = if p d then pair d <$> rs else [].
Proof.
  unfold where_. destruct (p d) eqn:Hp; induction rs as [|r rs IH]; simpl; try done;
    rewrite Hp; [by f_equal|done].
Qed.

Lemma where_join k t :
  where_ (λ '(d, r), has_key dt_txid k d) (join_raw t) =
    flat_map (λ d, pair d <$> where_ (has_key tr_txid (dt_txid d)) (transactions t))
      (where_ (has_key dt_txid k) (transaction_details t)).
Proof.
  unfold join_raw. induction (transaction_details t) as [|d l IH]; simpl; [done|].
  rewrite where_app, IH, where_pair. by destruct (has_key dt_txid k d).
Qed.

Lemma head_option_list {A} (o : option A) : head (option_list o) = o.
Proof. by destruct o. Qed.

#[export] Hint Resolve online_set_tables : kld.

(** ** A codec to compute with

    Two ids and two bodies per id, so that two different transactions share an id, as two
    versions of a transaction with different witnesses do. *)
Definition byte_of_bool (b : bool) : byte := if b then x01 else x00.
Definition example_codec : BdkCodec := {|
  Transaction := bool * bool;
  Txid := bool;
  KeychainKind := bool;
  txid := fst;
  txid_as_ref b := [byte_of_bool b];
  serialize tx := [byte_of_bool tx.1; byte_of_bool tx.2];
  deserialize_tx l :=
    match l with
    | [x; y] => Ok (bool_decide (x = x01), bool_decide (y = x01))
    | _ => Err "unexpected end of file"%string
    end;
  deserialize_txid l :=
    match l with [x] => Ok (bool_decide (x = x01)) | _ => Err "unexpected end of file"%string end;
  to_json b := Ok (if b then "Internal" else "External")%string;
  from_json s :=
    if bool_decide (s = "Internal"%string) then Ok true
    else if bool_decide (s = "External"%string) then Ok false
    else Err "unknown variant"%string;
|}.
Lemma example_codec_laws : @BdkCodecLaws example_codec.
Proof.
  split; simpl.
  - exact bool_eq_dec.
  - exact bool_eq_dec.
  - by intros [[] []].
  - by intros [].
  - intros []; eauto.
Defined.

(** ** Properties of single methods *)

Section Properties.
Context {D : Driver} {DL : DriverLaws} {BC : BdkCodec} {BCL : BdkCodecLaws}.
Implicit Types c : conn wallet_tables.

(** [set_raw_tx] never replaces a stored transaction: when the id is known the [UPDATE]
    is sent with its two parameters exchanged, matches no row, and the call reports success
    with the tables unchanged. *)
Theorem set_raw_tx_never_replaces tx tx' c :
  online c → txid tx' = txid tx →
  get_raw_tx (txid tx) c = (Ok (Some tx), c) →
  (∀ r, r ∈ transactions (tables c) → tr_txid r ≠ serialize tx') →
  set_raw_tx tx' c = (Ok (), c).
Proof.
  intros Hc Hid Hget Hne. unfold set_raw_tx. rewrite Hid.
  rewrite (cmd_bind_ok _ _ _ _ _ Hget). unfold update_transaction.
  erewrite execute_blocking_run by done. unfold set_transactions.
  rewrite update_where_none.
  - destruct c as [[] ? ?]. done.
  - destruct (pk_find tr_txid (serialize tx') (transactions (tables c))) as [r|] eqn:Hr; [|done].
    apply pk_find_key in Hr as [Hk Hin]. by destruct (Hne r Hin).
Qed.

(** Rows of details whose transaction is not stored stay out of the join. *)
Lemma details_without_raw id c :
  online c → where_ (has_key tr_txid (txid_as_ref id)) (transactions (tables c)) = [] →
  select_transaction_details_by_txid (txid_as_ref id) c = (Ok None, c).
Proof.
  intros Hc Hno. unfold select_transaction_details_by_txid.
  rewrite bind_query, where_join by done.
  assert (flat_map (λ d, pair d <$> where_ (has_key tr_txid (dt_txid d)) (transactions (tables c)))
    (where_ (has_key dt_txid (txid_as_ref id)) (transaction_details (tables c))) = []) as ->.
  { induction (transaction_details (tables c)) as [|d l IH]; simpl; [done|].
    destruct (has_key dt_txid (txid_as_ref id) d) eqn:Hd; simpl; [|done].
    apply bool_decide_eq_true in Hd. by rewrite Hd, Hno. }
  by rewrite scan_nil.
Qed.

Fixpoint times {S E} (n : nat) (m : cmd S E ()) : cmd S E () :=
  match n with O => cmd_ret () | Datatypes.S n => let* _ := m in times n m end.

Lemma set_tx_without_raw td c :
  online c → td_transaction td = None →
  where_ (has_key tr_txid (txid_as_ref (td_txid td))) (transactions (tables c)) = [] →
  ∃ r, dt_txid r = txid_as_ref (td_txid td) ∧
    set_tx td c = (Ok (), set_tables (set_details (insert_row r) (tables c)) c).
Proof.
  intros Hc Hn Hno. unfold set_tx.
  rewrite (cmd_bind_ok _ _ _ _ _ (details_without_raw _ _ Hc Hno)).
  unfold insert_transaction_details. rewrite Hn.
  destruct (confirmation_columns td). rewrite cmd_bind_bind, cmd_bind_map.
  erewrite bind_execute by done. eexists. by split; [|reflexivity].
Qed.

(** Details of a transaction that is not itself stored: every [set_tx] inserts one more
    row for the same id instead of updating, and [get_tx] keeps answering that there is none,
    because both look for the details through the join with the raw transactions. *)
Theorem set_tx_without_raw_duplicates n td c b :
  online c → td_transaction td = None →
  where_ (has_key tr_txid (txid_as_ref (td_txid td))) (transactions (tables c)) = [] →
  ∃ c', times n (set_tx td) c = (Ok (), c') ∧
    length (where_ (has_key dt_txid (txid_as_ref (td_txid td))) (transaction_details (tables c')))
      = (n + length (where_ (has_key dt_txid (txid_as_ref (td_txid td)))
                       (transaction_details (tables c))))%nat ∧
    get_tx (td_txid td) b c' = (Ok None, c').
Proof.
  intros Hc Hn. revert c Hc. induction n as [|n IH]; intros c Hc Hno; simpl.
  - exists c. split; [done|]. split; [done|]. unfold get_tx.
    by rewrite (cmd_bind_ok _ _ _ _ _ (details_without_raw _ _ Hc Hno)).
  - destruct (set_tx_without_raw td c Hc Hn Hno) as (r & Hr & Hrun).
    rewrite (cmd_bind_ok _ _ _ _ _ Hrun).
    destruct (IH (set_tables (set_details (insert_row r) (tables c)) c) Hc Hno)
      as (c' & Hrun' & Hlen & Hget).
    exists c'. split; [done|]. split; [|done]. rewrite Hlen. unfold insert_row. simpl.
    rewrite where_app, length_app. simpl.
    rewrite has_key_eq by done. simpl. lia.
Qed.

(** An output whose value is below 2^63 is read back as it was stored; from 2^63 on the
    column holds a negative number and every read of the row panics. *)
Theorem utxo_value_bound u c :
  online c → pk utxo_key (utxos (tables c)) →
  u64 (to_value (lu_txout u)) →
  ∃ c', set_utxo u c = (Ok (), c') ∧
    get_utxo (lu_outpoint u) c' =
      (if decide (to_value (lu_txout u) < 2 ^ 63) then Ok (Some u)
       else Panic "out of range integral type conversion attempted"%string, c').
Proof.
  intros Hc Hpk Hv. unfold set_utxo, insert_utxo. rewrite bind_json, cmd_bind_map.
  erewrite bind_execute by done. eexists. split; [reflexivity|].
  unfold get_utxo, select_utxo_by_outpoint.
  erewrite cmd_bind_ok by (apply query_pk_run; [done|by apply pk_upsert]). simpl.
  rewrite head_option_list, pk_find_upsert, decide_True by done. unfold cmd_lift, read_utxo.
  simpl. case_decide as Hsmall.
  - rewrite (unsigned_signed_small 64), unwrap_unsigned_ok by (done || lia). simpl.
    rewrite from_json_text. simpl. rewrite deserialize_as_ref. simpl. by destruct u as [[] []].
  - unfold unwrap_unsigned. rewrite bool_decide_eq_false_2; [done|].
    assert (as_i64 (to_value (lu_txout u)) < 0) by (apply unsigned_signed_large; [done..|lia]).
    intros [? ?]. lia.
Qed.
End Properties.


(** ** Instances of the properties *)

Section Instances.
#[local] Existing Instance insertion_order.
#[local] Existing Instance insertion_order_laws.
#[local] Existing Instance example_codec.
#[local] Existing Instance example_codec_laws.

Definition empty_conn : conn wallet_tables := mk_conn empty_wallet [] None false.
Definition stored_tx : conn wallet_tables :=
  mk_conn (set_transactions (insert_row (mk_tx [x00] [x00; x00])) empty_wallet) [] None false.
Definition example_details : TransactionDetails := mk_details None true 5 7 (Some 2) None.
Definition example_utxo : LocalUtxo :=
  mk_local_utxo (mk_outpoint true 4294967295) (mk_txout (2 ^ 63) [x51]) false false.

Lemma set_raw_tx_never_replaces_witness :
  set_raw_tx (H0:=example_codec) (false, true) stored_tx = (Ok (), stored_tx).
Proof.
  apply (set_raw_tx_never_replaces (BC:=example_codec) (false, false)); [done|reflexivity|reflexivity|].
  intros r Hr. apply list_elem_of_singleton in Hr as ->. discriminate.
Defined.

Lemma set_tx_without_raw_duplicates_witness :
  ∃ c', times 3 (set_tx example_details) empty_conn = (Ok (), c') ∧
    length (where_ (has_key dt_txid [x01]) (transaction_details (tables c'))) = 3%nat ∧
    get_tx true false c' = (Ok None, c').
Proof.
  exact (set_tx_without_raw_duplicates 3 example_details empty_conn false
           (conj eq_refl eq_refl) eq_refl eq_refl).
Defined.

Lemma utxo_value_bound_witness :
  ∃ c', set_utxo example_utxo empty_conn = (Ok (), c') ∧
    get_utxo (lu_outpoint example_utxo) c' =
      (Panic "out of range integral type conversion attempted"%string, c').
Proof.
  assert (pk utxo_key (utxos empty_wallet)) as Hpk by constructor.
  assert (u64 (to_value (lu_txout example_utxo))) as Hv by (split; simpl; lia).
  exact (utxo_value_bound example_utxo empty_conn (conj eq_refl eq_refl) Hpk Hv).
Defined.
End Instances.
