(* ===== verification/WalletRefinement.v ===== *)
(** * The wallet's tables implement bdk's store

    bdk's [Database] and [BatchOperations] traits promise a store: scripts by path and paths by
    script, unspent outputs by outpoint, raw transactions and transaction details by id, the
    last derivation index and the descriptor checksum of a keychain, and the time of the last
    synchronisation; the five iterations list what it holds, and [BatchDatabase] puts calls into a
    batch. [spec] is that store as pure functions; the theorem at the end is that
    [WalletDatabase], on a working connection and from empty tables, answers every [allowed]
    sequence of calls and batches as [spec] does and then iterates over exactly what the store
    holds. Of the calls that [allowed] excludes, an amount that does not fit a signed column, a
    second transaction with a known id and details of a transaction that is not stored are the
    subject of the theorems of WalletDatabase.v. *)

From S2P Require Import Prelude Sql WalletDatabase.

Section Refinement.
Context {D : Driver} {DL : DriverLaws} {BC : BdkCodec} {BCL : BdkCodecLaws} {B : Build}.

(** ** The specification *)

Record store := mk_store {
  s_scripts : KeychainKind → Z → option bytes;
  s_paths : bytes → option (KeychainKind * Z);
  s_utxos : Txid → Z → option LocalUtxo;
  s_raw : Txid → option Transaction;
  s_details : Txid → option TransactionDetails;
  s_index : KeychainKind → option Z;
  s_checksum : KeychainKind → option bytes;
  s_sync : option SyncTime;
}.
Definition empty_store : store :=
  mk_store (λ _ _, None) (λ _, None) (λ _ _, None) (λ _, None) (λ _, None) (λ _, None)
    (λ _, None) None.

Definition set_at {K V} `{EqDecision K} (k : K) (v : V) (f : K → V) : K → V :=
  λ k', if decide (k' = k) then v else f k'.
Definition set_at2 {K V} `{EqDecision K} (k : K) (i : Z) (v : V) (f : K → Z → V) : K → Z → V :=
  λ k' i', if decide ((k', i') = (k, i)) then v else f k' i'.

Inductive op :=
| SetScript (script : bytes) (k : KeychainKind) (child : Z)
| SetUtxo (u : LocalUtxo)
| SetRaw (tx : Transaction)
| SetTx (td : TransactionDetails)
| SetIndex (k : KeychainKind) (v : Z)
| SetSync (st : SyncTime)
| DelPath (k : KeychainKind) (child : Z)
| DelScript (script : bytes)
| DelUtxo (o : OutPoint)
| DelRaw (id : Txid)
| DelTx (id : Txid) (include_raw : bool)
| DelIndex (k : KeychainKind)
| DelSync
| Checksum (k : KeychainKind) (sum : bytes)
| GetScript (k : KeychainKind) (child : Z)
| GetPath (script : bytes)
| GetUtxo (o : OutPoint)
| GetRaw (id : Txid)
| GetTx (id : Txid) (include_raw : bool)
| GetIndex (k : KeychainKind)
| GetSync
| Increment (k : KeychainKind).

Inductive answer :=
| ADone
| AScript (o : option bytes)
| APath (o : option (KeychainKind * Z))
| AUtxo (o : option LocalUtxo)
| ARaw (o : option Transaction)
| ATx (o : option TransactionDetails)
| AIndex (o : option Z)
| ASync (o : option SyncTime)
| ANext (v : Z).

Definition strip (td : TransactionDetails) : TransactionDetails :=
  mk_details None (td_txid td) (td_received td) (td_sent td) (td_fee td)
    (td_confirmation_time td).
Definition with_raw (s : store) (td : TransactionDetails) : TransactionDetails :=
  mk_details (s_raw s (td_txid td)) (td_txid td) (td_received td) (td_sent td) (td_fee td)
    (td_confirmation_time td).

Definition put_scripts f g (s : store) :=
  mk_store (f (s_scripts s)) (g (s_paths s)) (s_utxos s) (s_raw s) (s_details s) (s_index s)
    (s_checksum s) (s_sync s).
Definition put_utxos f (s : store) :=
  mk_store (s_scripts s) (s_paths s) (f (s_utxos s)) (s_raw s) (s_details s) (s_index s)
    (s_checksum s) (s_sync s).
Definition put_txs f g (s : store) :=
  mk_store (s_scripts s) (s_paths s) (s_utxos s) (f (s_raw s)) (g (s_details s)) (s_index s)
    (s_checksum s) (s_sync s).
Definition put_index f (s : store) :=
  mk_store (s_scripts s) (s_paths s) (s_utxos s) (s_raw s) (s_details s) (f (s_index s))
    (s_checksum s) (s_sync s).
Definition put_checksum f (s : store) :=
  mk_store (s_scripts s) (s_paths s) (s_utxos s) (s_raw s) (s_details s) (s_index s)
    (f (s_checksum s)) (s_sync s).
Definition put_sync o (s : store) :=
  mk_store (s_scripts s) (s_paths s) (s_utxos s) (s_raw s) (s_details s) (s_index s)
    (s_checksum s) o.

(** What a call promises: its answer and the store after it. *)
Definition spec (s : store) (o : op) : result bdk_error answer * store :=
  match o with
  | SetScript script k child =>
      (Ok ADone, put_scripts (set_at2 k child (Some script)) (set_at script (Some (k, child))) s)
  | SetUtxo u =>
      (Ok ADone, put_utxos (set_at2 (op_txid (lu_outpoint u)) (op_vout (lu_outpoint u)) (Some u)) s)
  | SetRaw tx => (Ok ADone, put_txs (set_at (txid tx) (Some tx)) id s)
  | SetTx td =>
      (Ok ADone,
       put_txs (match td_transaction td with
                | Some tx => set_at (txid tx) (Some tx)
                | None => id
                end) (set_at (td_txid td) (Some (strip td))) s)
  | SetIndex k v => (Ok ADone, put_index (set_at k (Some v)) s)
  | SetSync st => (Ok ADone, put_sync (Some st) s)
  | DelPath k child =>
      let found := s_scripts s k child in
      (Ok (AScript found),
       match found with
       | Some script => put_scripts (set_at2 k child None) (set_at script None) s
       | None => s
       end)
  | DelScript script =>
      let found := s_paths s script in
      (Ok (APath found),
       match found with
       | Some (k, child) => put_scripts (set_at2 k child None) (set_at script None) s
       | None => s
       end)
  | DelUtxo o =>
      (Ok (AUtxo (s_utxos s (op_txid o) (op_vout o))),
       put_utxos (set_at2 (op_txid o) (op_vout o) None) s)
  | DelRaw id' => (Ok (ARaw (s_raw s id')), put_txs (set_at id' None) id s)
  | DelTx id' include_raw =>
      let found := s_details s id' in
      (Ok (ATx (with_raw s <$> found)),
       match found with
       | Some _ => put_txs (if include_raw then set_at id' None else id) (set_at id' None) s
       | None => s
       end)
  | DelIndex k => (Ok (AIndex (s_index s k)), put_index (set_at k None) s)
  | DelSync => (Ok (ASync (s_sync s)), put_sync None s)
  | Checksum k sum =>
      match s_checksum s k with
      | Some stored => (if bool_decide (stored = sum) then Ok ADone else Err ChecksumMismatch, s)
      | None => (Ok ADone, put_checksum (set_at k (Some sum)) s)
      end
  | GetScript k child => (Ok (AScript (s_scripts s k child)), s)
  | GetPath script => (Ok (APath (s_paths s script)), s)
  | GetUtxo o => (Ok (AUtxo (s_utxos s (op_txid o) (op_vout o))), s)
  | GetRaw id' => (Ok (ARaw (s_raw s id')), s)
  | GetTx id' include_raw =>
      (Ok (ATx ((if include_raw then with_raw s else id) <$> s_details s id')), s)
  | GetIndex k => (Ok (AIndex (s_index s k)), s)
  | GetSync => (Ok (ASync (s_sync s)), s)
  | Increment k =>
      let next := match s_index s k with Some v => v + 1 | None => 0 end in
      (Ok (ANext next), put_index (set_at k (Some next)) s)
  end.

(** The implementation of a call. *)
Definition run (o : op) : walletm answer :=
  match o with
  | SetScript script k child => cmd_map (λ _, ADone) (set_script_pubkey script k child)
  | SetUtxo u => cmd_map (λ _, ADone) (set_utxo u)
  | SetRaw tx => cmd_map (λ _, ADone) (set_raw_tx tx)
  | SetTx td => cmd_map (λ _, ADone) (set_tx td)
  | SetIndex k v => cmd_map (λ _, ADone) (set_last_index k v)
  | SetSync st => cmd_map (λ _, ADone) (set_sync_time st)
  | DelPath k child => cmd_map AScript (del_script_pubkey_from_path k child)
  | DelScript script => cmd_map APath (del_path_from_script_pubkey script)
  | DelUtxo o => cmd_map AUtxo (del_utxo o)
  | DelRaw id' => cmd_map ARaw (del_raw_tx id')
  | DelTx id' include_raw => cmd_map ATx (del_tx id' include_raw)
  | DelIndex k => cmd_map AIndex (del_last_index k)
  | DelSync => cmd_map ASync del_sync_time
  | Checksum k sum => cmd_map (λ _, ADone) (check_descriptor_checksum k sum)
  | GetScript k child => cmd_map AScript (get_script_pubkey_from_path k child)
  | GetPath script => cmd_map APath (get_path_from_script_pubkey script)
  | GetUtxo o => cmd_map AUtxo (get_utxo o)
  | GetRaw id' => cmd_map ARaw (get_raw_tx id')
  | GetTx id' include_raw => cmd_map ATx (get_tx id' include_raw)
  | GetIndex k => cmd_map AIndex (get_last_index k)
  | GetSync => cmd_map ASync get_sync_time
  | Increment k => cmd_map ANext (increment_last_index k)
  end.

(** An amount that a signed 64-bit column holds. *)
Definition fits (z : Z) : Prop := 0 ≤ z < 2 ^ 63.
Definition fits_block_time (b : BlockTime) : Prop := u32 (bt_height b) ∧ fits (bt_timestamp b).
Definition fits_utxo (u : LocalUtxo) : Prop :=
  u32 (op_vout (lu_outpoint u)) ∧ fits (to_value (lu_txout u)).
Definition fits_details (td : TransactionDetails) : Prop :=
  fits (td_received td) ∧ fits (td_sent td) ∧ (∀ f, td_fee td = Some f → fits f) ∧
  (∀ b, td_confirmation_time td = Some b → fits_block_time b).

Definition allowed_raw (s : store) (tx : Transaction) : Prop :=
  s_raw s (txid tx) = None ∨
  (s_raw s (txid tx) = Some tx ∧ ∀ id, serialize tx ≠ txid_as_ref id).

Definition allowed (s : store) (o : op) : Prop :=
  match o with
  | SetScript script k child => u32 child ∧ s_scripts s k child = None ∧ s_paths s script = None
  | SetUtxo u => fits_utxo u
  | SetRaw tx => allowed_raw s tx
  | SetTx td =>
      fits_details td ∧
      match td_transaction td with
      | Some tx => txid tx = td_txid td ∧ allowed_raw s tx
      | None => s_raw s (td_txid td) ≠ None
      end
  | SetIndex k v => u32 v
  | SetSync st => fits_block_time (st_block_time st)
  | DelPath k child | GetScript k child => u32 child
  | DelUtxo o | GetUtxo o => u32 (op_vout o)
  | DelRaw id => s_details s id = None
  | Increment k => ∀ v, s_index s k = Some v → u32 (v + 1)
  | _ => True
  end.

(** ** The tables that represent a store *)

Definition path_row (k : KeychainKind) (child : Z) (script : bytes) : spk_row :=
  mk_spk (keychain_text k) (as_i32 child) script.
Definition row_of_utxo (u : LocalUtxo) : utxo_row :=
  mk_utxo (as_i64 (to_value (lu_txout u))) (keychain_text (lu_keychain u))
    (as_i32 (op_vout (lu_outpoint u))) (txid_as_ref (op_txid (lu_outpoint u)))
    (to_script_pubkey (lu_txout u)) (lu_is_spent u).
Definition row_of_tx (id : Txid) (tx : Transaction) : tx_row :=
  mk_tx (txid_as_ref id) (serialize tx).
Definition row_of_details (td : TransactionDetails) : det_row :=
  let '(timestamp, height) := confirmation_columns td in
  mk_det (txid_as_ref (td_txid td)) (as_i64 <$> timestamp) (as_i64 (td_received td))
    (as_i64 (td_sent td)) (as_i64 <$> td_fee td) (as_i64 <$> height).
Definition row_of_sync (st : SyncTime) : sync_row :=
  mk_sync 0 (as_i64 (bt_height (st_block_time st))) (as_i64 (bt_timestamp (st_block_time st))).

Record rel_scripts (scripts : KeychainKind → Z → option bytes)
    (paths : bytes → option (KeychainKind * Z)) (l : list spk_row) : Prop := {
  rs_path : pk spk_path l;
  rs_script : pk sp_script l;
  rs_find_path k child : u32 child →
    pk_find spk_path (keychain_text k, as_i32 child) l = path_row k child <$> scripts k child;
  rs_find_script script :
    pk_find sp_script script l = (λ p, path_row p.1 p.2 script) <$> paths script;
  rs_range script k child : paths script = Some (k, child) → u32 child;
}.

Record rel_utxos (f : Txid → Z → option LocalUtxo) (l : list utxo_row) : Prop := {
  ru_pk : pk utxo_key l;
  ru_find id vout : u32 vout →
    pk_find utxo_key (txid_as_ref id, as_i32 vout) l = row_of_utxo <$> f id vout;
  ru_key id vout u : f id vout = Some u → lu_outpoint u = mk_outpoint id vout ∧ fits_utxo u;
  ru_row r : r ∈ l → ∃ u, r = row_of_utxo u ∧
    f (op_txid (lu_outpoint u)) (op_vout (lu_outpoint u)) = Some u;
}.

Record rel_raw (f : Txid → option Transaction) (l : list tx_row) : Prop := {
  rr_pk : pk tr_txid l;
  rr_find id : pk_find tr_txid (txid_as_ref id) l = row_of_tx id <$> f id;
  rr_key id tx : f id = Some tx → txid tx = id;
  rr_row r : r ∈ l → ∃ id, tr_txid r = txid_as_ref id;
}.

Record rel_details (f : Txid → option TransactionDetails) (l : list det_row) : Prop := {
  rd_pk : pk dt_txid l;
  rd_find id : pk_find dt_txid (txid_as_ref id) l = row_of_details <$> f id;
  rd_key id td : f id = Some td → td_txid td = id ∧ td_transaction td = None ∧ fits_details td;
  rd_row r : r ∈ l → ∃ id, dt_txid r = txid_as_ref id;
}.

Record rel_index (f : KeychainKind → option Z) (l : list idx_row) : Prop := {
  ri_pk : pk ix_keychain l;
  ri_find k : pk_find ix_keychain (keychain_text k) l =
    (λ v, mk_idx (keychain_text k) (as_i64 v)) <$> f k;
  ri_range k v : f k = Some v → u32 v;
}.

Record rel_checksum (f : KeychainKind → option bytes) (l : list checksum_row) : Prop := {
  rc_pk : pk ck_keychain l;
  rc_find k : pk_find ck_keychain (keychain_text k) l = mk_checksum (keychain_text k) <$> f k;
}.

Record rel_sync (o : option SyncTime) (l : list sync_row) : Prop := {
  rt_pk : pk sy_id l;
  rt_find : pk_find sy_id 0 l = row_of_sync <$> o;
  rt_range st : o = Some st → fits_block_time (st_block_time st);
}.

Record rel (s : store) (t : wallet_tables) : Prop := {
  rel_s : rel_scripts (s_scripts s) (s_paths s) (script_pubkeys t);
  rel_u : rel_utxos (s_utxos s) (utxos t);
  rel_r : rel_raw (s_raw s) (transactions t);
  rel_d : rel_details (s_details s) (transaction_details t);
  rel_i : rel_index (s_index s) (last_derivation_indices t);
  rel_c : rel_checksum (s_checksum s) (checksums t);
  rel_t : rel_sync (s_sync s) (sync_time t);
  rel_stored id : s_details s id ≠ None → s_raw s id ≠ None;
}.

Lemma rel_empty : rel empty_store empty_wallet.
Proof. split; [split|split|split|split|split|split|split|]; simpl; try done; apply pk_nil || intros ? []%elem_of_nil. Qed.

(** ** The columns read back what was written *)

Lemma fits_i64 z : fits z → as_i64 z = z.
Proof. intros [??]. apply wrap_signed_id; [split; lia|lia]. Qed.

Lemma fits_unwrap {E} z : fits z → unwrap_unsigned (E:=E) 64 (as_i64 z) = Ok z.
Proof. intros Hz. rewrite (fits_i64 _ Hz). destruct Hz. apply unwrap_unsigned_ok. split; lia. Qed.

Lemma u32_unwrap {E} z : u32 z → unwrap_unsigned (E:=E) 32 (as_i64 z) = Ok z.
Proof.
  intros Hz. rewrite fits_i64; [by apply unwrap_unsigned_ok|]. destruct Hz. split; lia.
Qed.

Lemma u32_i32 z : u32 z → as_u32 (as_i32 z) = z.
Proof. intros. by apply unsigned_signed_unsigned. Qed.

Lemma i32_inj z1 z2 : u32 z1 → u32 z2 → as_i32 z1 = as_i32 z2 → z1 = z2.
Proof. intros. by apply (wrap_signed_inj 32). Qed.

Lemma read_row_of_utxo u :
  fits_utxo u →
  read_utxo (txid_as_ref (op_txid (lu_outpoint u))) (op_vout (lu_outpoint u)) (row_of_utxo u) =
    Ok u.
Proof.
  intros [Hv Ha]. unfold read_utxo, row_of_utxo. simpl. rewrite fits_unwrap by done. simpl.
  rewrite from_json_text. simpl. rewrite deserialize_as_ref. simpl. by destruct u as [[] []].
Qed.

Lemma read_row_of_details td :
  fits_details td →
  read_numbers (row_of_details td) =
    Ok (bt_timestamp <$> td_confirmation_time td, td_received td, td_sent td, td_fee td,
        bt_height <$> td_confirmation_time td).
Proof.
  intros (Hr & Hs & Hf & Hc). unfold read_numbers, row_of_details, confirmation_columns.
  destruct td as [tx i r s f c]; simpl in *.
  destruct c as [b|]; simpl.
  - destruct (Hc b eq_refl) as [Hb1 Hb2]. rewrite (fits_unwrap (bt_timestamp b)) by done. simpl.
    rewrite (fits_unwrap r), (fits_unwrap s) by done. simpl.
    destruct f as [f|]; simpl; [rewrite fits_unwrap by auto; simpl|];
      by rewrite u32_unwrap by done.
  - rewrite (fits_unwrap r), (fits_unwrap s) by done. simpl.
    destruct f as [f|]; simpl; [by rewrite fits_unwrap by auto|done].
Qed.

Lemma confirmation_of (o : option BlockTime) :
  confirmation (bt_height <$> o) (bt_timestamp <$> o) = o.
Proof. by destruct o as [[]|]. Qed.

(** ** What each statement does to the table it writes *)

Lemma rel_scripts_insert f g l script k child :
  u32 child → f k child = None → g script = None → rel_scripts f g l →
  rel_scripts (set_at2 k child (Some script) f) (set_at script (Some (k, child)) g)
    (insert_row (path_row k child script) l).
Proof.
  intros Hu Hf Hg [Hp Hs Hfp Hfs Hr]. unfold insert_row.
  assert (pk_find spk_path (keychain_text k, as_i32 child) l = None) as Hp0
    by (by rewrite Hfp, Hf).
  assert (pk_find sp_script script l = None) as Hs0 by (by rewrite Hfs, Hg).
  split.
  - by apply pk_snoc_new.
  - by apply pk_snoc_new.
  - intros k' child' Hu'. rewrite pk_find_snoc. unfold set_at2.
    case_decide as Hk; simplify_eq/=.
    + rewrite Hp0. by rewrite has_key_eq.
    + rewrite Hfp by done. destruct (f k' child'); [done|]. simpl.
      rewrite has_key_ne; [done|]. unfold spk_path, path_row. simpl.
      intros [= Hk1%(inj keychain_text) Hc1%i32_inj]; [|done..]. congruence.
  - intros script'. rewrite pk_find_snoc. unfold set_at. case_decide; simplify_eq/=.
    + rewrite Hs0. by rewrite has_key_eq.
    + rewrite Hfs. destruct (g script'); [done|]. simpl. rewrite has_key_ne; [done|].
      simpl. congruence.
  - intros script' k' child'. unfold set_at. case_decide; [congruence|eauto].
Qed.

Lemma rel_scripts_agree f g l k child script :
  rel_scripts f g l → u32 child → f k child = Some script ↔ g script = Some (k, child).
Proof.
  intros [Hp Hs Hfp Hfs Hr] Hu. split.
  - intros Hf. pose proof (Hfp k child Hu) as E1. rewrite Hf in E1.
    apply pk_find_key in E1 as [_ Hin]. apply (pk_find_in sp_script) in Hin; [|done].
    simpl in Hin. rewrite Hfs in Hin. destruct (g script) as [[k' c']|] eqn:Hg; [|done].
    unfold path_row in Hin. simpl in Hin.
    injection Hin as Hk Hc. apply (inj keychain_text) in Hk.
    apply i32_inj in Hc; [congruence|by eauto|done].
  - intros Hg. pose proof (Hfs script) as E1. rewrite Hg in E1.
    apply pk_find_key in E1 as [_ Hin]. apply (pk_find_in spk_path) in Hin; [|done].
    unfold spk_path in Hin. simpl in Hin. rewrite Hfp in Hin by done.
    destruct (f k child) eqn:Hf; [|done]. simpl in Hin. unfold path_row in Hin. congruence.
Qed.

Lemma rel_scripts_delete f g l k child script :
  rel_scripts f g l → u32 child → f k child = Some script →
  delete_where (has_key spk_path (keychain_text k, as_i32 child)) l =
    delete_where (has_key sp_script script) l ∧
  rel_scripts (set_at2 k child None f) (set_at script None g)
    (delete_where (has_key sp_script script) l).
Proof.
  intros Hrel Hu Hf. pose proof (rel_scripts_agree _ _ _ k _ script Hrel Hu) as [Hag _].
  pose proof (Hag Hf) as Hg. destruct Hrel as [Hp Hs Hfp Hfs Hr].
  assert (delete_where (has_key spk_path (keychain_text k, as_i32 child)) l =
    delete_where (has_key sp_script script) l) as Heq.
  { rewrite (delete_other_key spk_path sp_script _ (path_row k child script)); [done..|].
    by rewrite Hfp, Hf. }
  split; [done|]. split.
  - by apply pk_delete.
  - by apply pk_delete.
  - intros k' child' Hu'. rewrite <- Heq, pk_find_delete. unfold set_at2.
    destruct (decide ((k', child') = (k, child))); simplify_eq/=;
      [by rewrite decide_True|]. rewrite decide_False; [by apply Hfp|].
    intros [= Hk1%(inj keychain_text) Hc1%i32_inj]; [|done..]. congruence.
  - intros script'. rewrite pk_find_delete. unfold set_at. case_decide; [done|]. apply Hfs.
  - intros script' k' child'. unfold set_at. case_decide; [done|eauto].
Qed.

Lemma utxo_key_row u :
  utxo_key (row_of_utxo u) =
    (txid_as_ref (op_txid (lu_outpoint u)), as_i32 (op_vout (lu_outpoint u))).
Proof. done. Qed.

Lemma rel_utxos_set f l u :
  fits_utxo u → rel_utxos f l →
  rel_utxos (set_at2 (op_txid (lu_outpoint u)) (op_vout (lu_outpoint u)) (Some u) f)
    (upsert (has_key utxo_key (utxo_key (row_of_utxo u))) (row_of_utxo u) l).
Proof.
  intros Hfit [Hpk Hf Hk Hrow]. split.
  - by apply pk_upsert.
  - intros id vout Hu. rewrite pk_find_upsert, utxo_key_row. unfold set_at2.
    destruct (decide ((id, vout) = _)) as [Heq|Hne]; simplify_eq/=;
      [by rewrite decide_True|]. rewrite decide_False; [by apply Hf|].
    destruct Hfit. intros [= E1%(inj txid_as_ref) E2%i32_inj]; [|done..]. congruence.
  - intros id vout u'. unfold set_at2. case_decide as Heq; [|eauto].
    intros [= <-]. injection Heq as -> ->. split; [by destruct (lu_outpoint u)|done].
  - intros r Hr. unfold set_at2.
    assert (pk_find utxo_key (utxo_key r)
      (upsert (has_key utxo_key (utxo_key (row_of_utxo u))) (row_of_utxo u) l) = Some r) as Hfind
      by (apply pk_find_in; [by apply pk_upsert|done]).
    rewrite pk_find_upsert in Hfind. case_decide as Hkey.
    + injection Hfind as <-. exists u. split; [done|]. by rewrite decide_True.
    + apply pk_find_key in Hfind as [_ Hin]. destruct (Hrow r Hin) as (u' & -> & Hu').
      exists u'. split; [done|]. rewrite decide_False; [done|].
      intros [= E1 E2]. apply Hkey. by rewrite !utxo_key_row, E1, E2.
Qed.

Lemma rel_utxos_delete f l id vout :
  u32 vout → rel_utxos f l →
  rel_utxos (set_at2 id vout None f)
    (delete_where (has_key utxo_key (txid_as_ref id, as_i32 vout)) l).
Proof.
  intros Hu [Hpk Hf Hk Hrow]. split.
  - by apply pk_delete.
  - intros id' vout' Hu'. rewrite pk_find_delete. unfold set_at2.
    destruct (decide ((id', vout') = (id, vout))); simplify_eq/=; [by rewrite decide_True|].
    rewrite decide_False; [by apply Hf|].
    intros [= E1%(inj txid_as_ref) E2%i32_inj]; [|done..]. congruence.
  - intros id' vout' u. unfold set_at2. case_decide; [done|eauto].
  - intros r Hr. unfold delete_where in Hr.
    apply list_elem_of_In, filter_In in Hr as [Hin%list_elem_of_In Hne].
    destruct (Hrow r Hin) as (u & -> & Hu'). exists u. split; [done|]. unfold set_at2.
    rewrite decide_False; [done|]. intros [= E1 E2].
    unfold has_key in Hne. rewrite bool_decide_eq_true_2 in Hne; [done|].
    by rewrite utxo_key_row, E1, E2.
Qed.

Lemma rel_raw_insert f l tx :
  f (txid tx) = None → rel_raw f l →
  rel_raw (set_at (txid tx) (Some tx) f)
    (insert_row (mk_tx (txid_as_ref (txid tx)) (serialize tx)) l).
Proof.
  intros Hn [Hpk Hf Hk Hrow]. unfold insert_row. split.
  - apply pk_snoc_new; [done|]. simpl. by rewrite Hf, Hn.
  - intros id. rewrite pk_find_snoc, Hf. unfold set_at.
    case_decide as Heq; [subst; rewrite Hn; simpl|].
    + by rewrite has_key_eq.
    + destruct (f id); [done|]. simpl. rewrite has_key_ne; [done|]. simpl.
      intros E1%(inj txid_as_ref). congruence.
  - intros id tx'. unfold set_at. case_decide; [congruence|eauto].
  - intros r Hr. apply elem_of_app in Hr as [Hr|Hr]; [by eauto|].
    apply list_elem_of_singleton in Hr as ->. eauto.
Qed.

(** Storing the stored transaction again, with the parameters of the update in the order the
    code gives them. *)
Lemma rel_raw_again f l raw g :
  (∀ id', raw ≠ txid_as_ref id') → rel_raw f l → update_where (has_key tr_txid raw) g l = l.
Proof.
  intros Hne [_ _ _ Hrow]. apply update_where_none.
  destruct (pk_find tr_txid raw l) as [r|] eqn:Hr; [|done].
  apply pk_find_key in Hr as [Hk Hin]. destruct (Hrow r Hin) as [id' Hid'].
  destruct (Hne id'). congruence.
Qed.

Lemma rel_raw_ext f f' l : (∀ id, f id = f' id) → rel_raw f l → rel_raw f' l.
Proof.
  intros He [Hpk Hf Hk Hrow]. split; [done| |intros id tx; rewrite <- He; eauto|done].
  intros id. by rewrite Hf, He.
Qed.

Lemma rel_raw_delete f l id :
  rel_raw f l → rel_raw (set_at id None f) (delete_where (has_key tr_txid (txid_as_ref id)) l).
Proof.
  intros [Hpk Hf Hk Hrow]. split.
  - by apply pk_delete.
  - intros id'. rewrite pk_find_delete. unfold set_at.
    destruct (decide (id' = id)); subst; [by rewrite decide_True|].
    rewrite decide_False; [by apply Hf|]. by intros E1%(inj txid_as_ref).
  - intros id' tx. unfold set_at. case_decide; [done|eauto].
  - intros r Hr. unfold delete_where in Hr.
    apply list_elem_of_In, filter_In in Hr as [Hin%list_elem_of_In _]. eauto.
Qed.
Lemma row_of_details_txid td : dt_txid (row_of_details td) = txid_as_ref (td_txid td).
Proof. unfold row_of_details. by destruct (confirmation_columns td). Qed.

Lemma rel_details_insert f l td :
  fits_details td → f (td_txid td) = None → rel_details f l →
  rel_details (set_at (td_txid td) (Some (strip td)) f) (insert_row (row_of_details td) l).
Proof.
  intros Hfit Hn [Hpk Hf Hk Hrow]. unfold insert_row. split.
  - apply pk_snoc_new; [done|]. by rewrite row_of_details_txid, Hf, Hn.
  - intros id. rewrite pk_find_snoc, Hf. unfold set_at. case_decide as Heq; [subst|].
    + rewrite Hn, has_key_eq by by rewrite row_of_details_txid. done.
    + destruct (f id); [done|]. simpl. rewrite has_key_ne; [done|].
      rewrite row_of_details_txid. intros E1%(inj txid_as_ref). congruence.
  - intros id td'. unfold set_at. case_decide; [intros [= <-]; subst; done|eauto].
  - intros r Hr. apply elem_of_app in Hr as [Hr|Hr]; [by eauto|].
    apply list_elem_of_singleton in Hr as ->. rewrite row_of_details_txid. eauto.
Qed.

Lemma rel_details_update f l td g :
  fits_details td → f (td_txid td) ≠ None → rel_details f l →
  (∀ r, dt_txid r = txid_as_ref (td_txid td) → g r = row_of_details td) →
  rel_details (set_at (td_txid td) (Some (strip td)) f)
    (update_where (has_key dt_txid (txid_as_ref (td_txid td))) g l).
Proof.
  intros Hfit Hn [Hpk Hf Hk Hrow] Hg.
  assert (∀ r, has_key dt_txid (txid_as_ref (td_txid td)) r = true → dt_txid (g r) = dt_txid r).
  { intros r Hr%bool_decide_eq_true. by rewrite (Hg r Hr), row_of_details_txid. }
  split.
  - by apply pk_update.
  - intros id. rewrite pk_find_update_where, Hf by done. unfold set_at.
    case_decide as Heq; [subst|].
    + destruct (f (td_txid td)) as [td'|] eqn:Hd; [|done]. simpl.
      destruct (Hk _ _ Hd) as (Hid & _). rewrite has_key_eq; [|by rewrite row_of_details_txid, Hid].
      f_equal. apply Hg. by rewrite row_of_details_txid, Hid.
    + destruct (f id) as [td'|] eqn:Hd; [|done]. simpl. destruct (Hk _ _ Hd) as (Hid & _).
      rewrite has_key_ne; [done|]. rewrite row_of_details_txid, Hid.
      intros E1%(inj txid_as_ref). congruence.
  - intros id td'. unfold set_at. case_decide; [intros [= <-]; subst; done|eauto].
  - intros r Hr. unfold update_where in Hr.
    apply list_elem_of_In, in_map_iff in Hr as (r' & <- & Hr'%list_elem_of_In).
    destruct (has_key dt_txid (txid_as_ref (td_txid td)) r') eqn:Hk'; [|by eauto].
    apply bool_decide_eq_true in Hk'. rewrite (Hg r' Hk'), row_of_details_txid. eauto.
Qed.

Lemma rel_details_delete f l id :
  rel_details f l →
  rel_details (set_at id None f) (delete_where (has_key dt_txid (txid_as_ref id)) l).
Proof.
  intros [Hpk Hf Hk Hrow]. split.
  - by apply pk_delete.
  - intros id'. rewrite pk_find_delete. unfold set_at.
    destruct (decide (id' = id)); subst; [by rewrite decide_True|].
    rewrite decide_False; [by apply Hf|]. by intros E1%(inj txid_as_ref).
  - intros id' td. unfold set_at. case_decide; [done|eauto].
  - intros r Hr. unfold delete_where in Hr.
    apply list_elem_of_In, filter_In in Hr as [Hin%list_elem_of_In _]. eauto.
Qed.

Lemma rel_index_set f l k v :
  u32 v → rel_index f l →
  rel_index (set_at k (Some v) f)
    (upsert (has_key ix_keychain (ix_keychain (mk_idx (keychain_text k) (as_i64 v))))
       (mk_idx (keychain_text k) (as_i64 v)) l).
Proof.
  intros Hv [Hpk Hf Hr]. split.
  - by apply pk_upsert.
  - intros k'. rewrite pk_find_upsert. unfold set_at. simpl.
    destruct (decide (k' = k)); subst; [by rewrite decide_True|].
    rewrite decide_False; [by apply Hf|]. by intros E1%(inj keychain_text).
  - intros k' v'. unfold set_at. case_decide; [congruence|eauto].
Qed.

Lemma rel_index_insert f l k v :
  u32 v → f k = None → rel_index f l →
  insert_pk "wallet_last_derivation_indices" (has_key ix_keychain (keychain_text k))
    (mk_idx (keychain_text k) (as_i64 v)) l = Ok (l ++ [mk_idx (keychain_text k) (as_i64 v)]) ∧
  rel_index (set_at k (Some v) f) (l ++ [mk_idx (keychain_text k) (as_i64 v)]).
Proof.
  intros Hv Hn Hrel. pose proof (rel_index_set _ _ k v Hv Hrel) as Hset.
  destruct Hrel as [Hpk Hf Hr].
  assert (existsb (has_key ix_keychain (keychain_text k)) l = false) as He.
  { apply pk_find_None. by rewrite Hf, Hn. }
  unfold insert_pk. rewrite He. split; [done|].
  unfold upsert, upsert_with in Hset. simpl in Hset. by rewrite He in Hset.
Qed.

Lemma rel_index_delete f l k :
  rel_index f l →
  rel_index (set_at k None f) (delete_where (has_key ix_keychain (keychain_text k)) l).
Proof.
  intros [Hpk Hf Hr]. split.
  - by apply pk_delete.
  - intros k'. rewrite pk_find_delete. unfold set_at.
    destruct (decide (k' = k)); subst; [by rewrite decide_True|].
    rewrite decide_False; [by apply Hf|]. by intros E1%(inj keychain_text).
  - intros k' v'. unfold set_at. case_decide; [done|eauto].
Qed.

Lemma rel_checksum_insert f l k sum :
  f k = None → rel_checksum f l →
  rel_checksum (set_at k (Some sum) f) (insert_row (mk_checksum (keychain_text k) sum) l).
Proof.
  intros Hn [Hpk Hf]. unfold insert_row. split.
  - apply pk_snoc_new; [done|]. simpl. by rewrite Hf, Hn.
  - intros k'. rewrite pk_find_snoc, Hf. unfold set_at. case_decide; [subst|].
    + by rewrite Hn, has_key_eq.
    + destruct (f k'); [done|]. simpl. rewrite has_key_ne; [done|]. simpl.
      intros E1%(inj keychain_text). congruence.
Qed.

Lemma rel_sync_set o l st :
  fits_block_time (st_block_time st) → rel_sync o l →
  rel_sync (Some st) (upsert (has_key sy_id (sy_id (row_of_sync st))) (row_of_sync st) l).
Proof.
  intros Hfit [Hpk Hf Hr]. split; [by apply pk_upsert| |congruence].
  by rewrite pk_find_upsert.
Qed.

Lemma rel_sync_delete o l : rel_sync o l → rel_sync None (delete_where (has_key sy_id 0) l).
Proof. intros [Hpk Hf Hr]. split; [by apply pk_delete| |done]. by rewrite pk_find_delete. Qed.

(** ** What the reading methods return *)

Section Reads.
Context (s : store) (c : conn wallet_tables) (Hc : online c) (Hrel : rel s (tables c)).

Lemma read_script k child :
  u32 child →
  select_script_pubkey_by_path (keychain_text k) child c = (Ok (s_scripts s k child), c).
Proof.
  intros Hu. destruct (rel_s _ _ Hrel). unfold select_script_pubkey_by_path.
  erewrite cmd_map_ok by (apply query_pk_run; done).
  rewrite head_option_list, rs_find_path0 by done. by destruct (s_scripts s k child).
Qed.

Lemma read_path script :
  select_script_pubkey_by_script script c = (Ok (s_paths s script), c).
Proof.
  destruct (rel_s _ _ Hrel). unfold select_script_pubkey_by_script.
  erewrite cmd_bind_ok by (apply query_pk_run; done).
  rewrite head_option_list, rs_find_script0.
  destruct (s_paths s script) as [[k child]|] eqn:Hp; simpl; [|done].
  rewrite (cmd_bind_lift _ _ k) by (by rewrite from_json_text).
  rewrite u32_i32 by (by eapply rs_range0). done.
Qed.

Lemma read_utxo_at id vout :
  u32 vout →
  select_utxo_by_outpoint (txid_as_ref id) vout c = (Ok (s_utxos s id vout), c).
Proof.
  intros Hu. destruct (rel_u _ _ Hrel). unfold select_utxo_by_outpoint.
  erewrite cmd_bind_ok by (apply query_pk_run; done).
  rewrite head_option_list, ru_find0 by done.
  destruct (s_utxos s id vout) as [u|] eqn:Hf; simpl; [|done].
  destruct (ru_key0 _ _ _ Hf) as [Ho Hfit]. pose proof (read_row_of_utxo u Hfit) as Hr.
  rewrite Ho in Hr. simpl in Hr. by rewrite Hr.
Qed.

Lemma read_raw id :
  select_transaction_by_txid (txid_as_ref id) c = (Ok (s_raw s id), c).
Proof.
  destruct (rel_r _ _ Hrel). unfold select_transaction_by_txid.
  erewrite cmd_bind_ok by (apply query_pk_run; done).
  rewrite head_option_list, rr_find0. destruct (s_raw s id); simpl; [|done].
  by rewrite deserialize_serialize.
Qed.

Lemma read_details id :
  select_transaction_details_by_txid (txid_as_ref id) c =
    (Ok (with_raw s <$> s_details s id), c).
Proof.
  destruct (rel_d _ _ Hrel). destruct (rel_r _ _ Hrel).
  unfold select_transaction_details_by_txid. rewrite bind_query by done.
  rewrite where_join, pk_select by done. rewrite rd_find0.
  destruct (s_details s id) as [td|] eqn:Hd; simpl; [|by rewrite scan_nil].
  destruct (rd_key0 _ _ Hd) as (Hid & Hn & Hfit).
  assert (dt_txid (row_of_details td) = txid_as_ref id) as ->.
  { unfold row_of_details. destruct (confirmation_columns td). simpl. by rewrite Hid. }
  rewrite pk_select, rr_find0, app_nil_r by done.
  destruct (s_raw s id) as [tx|] eqn:Hraw.
  2:{ destruct (rel_stored _ _ Hrel id); [by rewrite Hd|done]. }
  simpl. rewrite scan_singleton. simpl. unfold cmd_lift.
  rewrite read_row_of_details by done. simpl.
  rewrite deserialize_serialize. simpl. rewrite deserialize_as_ref. simpl.
  unfold with_raw. by rewrite confirmation_of, Hid, Hraw.
Qed.

Lemma read_index k :
  select_last_derivation_index_by_keychain (keychain_text k) c = (Ok (s_index s k), c).
Proof.
  destruct (rel_i _ _ Hrel). unfold select_last_derivation_index_by_keychain.
  erewrite cmd_bind_ok by (apply query_pk_run; done).
  rewrite head_option_list, ri_find0. destruct (s_index s k) as [v|] eqn:Hv; simpl; [|done].
  unfold cmd_lift. by rewrite u32_unwrap by eauto.
Qed.

Lemma read_sync : select_sync_time c = (Ok (s_sync s), c).
Proof.
  destruct (rel_t _ _ Hrel). unfold select_sync_time.
  erewrite cmd_bind_ok by (apply query_pk_run; done).
  rewrite head_option_list, rt_find0. destruct (s_sync s) as [[b]|]; simpl; [|done].
  destruct (rt_range0 _ eq_refl). unfold cmd_lift. simpl in *.
  rewrite u32_unwrap by done. simpl. rewrite fits_unwrap by done. by destruct b.
Qed.

Lemma read_checksum k :
  select_checksum_by_keychain (keychain_text k) c = (Ok (s_checksum s k), c).
Proof.
  destruct (rel_c _ _ Hrel). unfold select_checksum_by_keychain.
  erewrite cmd_map_ok by (apply query_pk_run; done).
  rewrite head_option_list, rc_find0. by destruct (s_checksum s k).
Qed.
End Reads.

(** ** The simulation, one call at a time *)

Definition simulates (s : store) (c : conn wallet_tables) (o : op) : Prop :=
  ∃ t', run o c = (fst (spec s o), set_tables t' c) ∧ rel (snd (spec s o)) t'.

(** A call that only reads. *)
Lemma simulates_read s c o a :
  rel s (tables c) → run o c = (a, c) → spec s o = (a, s) → simulates s c o.
Proof.
  intros Hrel Hrun Hspec. exists (tables c). rewrite Hspec. simpl.
  by rewrite Hrun, set_tables_id.
Qed.

(** A call that leaves the tables [t']. *)
Lemma simulates_write s c o a s' t' :
  run o c = (a, set_tables t' c) → spec s o = (a, s') → rel s' t' → simulates s c o.
Proof. intros Hrun Hspec Hrel. exists t'. by rewrite Hspec. Qed.

Section Calls.
Context (s : store) (c : conn wallet_tables) (Hc : online c) (Hrel : rel s (tables c)).

Ltac step := first
  [ rewrite bind_json | rewrite cmd_bind_map | rewrite cmd_bind_bind | rewrite cmd_bind_ret
  | erewrite bind_execute by (done || reflexivity)
  | erewrite cmd_bind_ok by (by apply read_script)
  | erewrite cmd_bind_ok by (by apply read_path)
  | erewrite cmd_bind_ok by (by apply read_utxo_at)
  | erewrite cmd_bind_ok by (by apply read_raw)
  | erewrite cmd_bind_ok by (by apply read_details)
  | erewrite cmd_bind_ok by (by apply read_index)
  | erewrite cmd_bind_ok by (by apply read_sync)
  | erewrite cmd_bind_ok by (by apply read_checksum) ]; cbn beta.
Ltac frame := destruct Hrel; split; simpl; try assumption.

Lemma sim_set_script script k child :
  allowed s (SetScript script k child) → simulates s c (SetScript script k child).
Proof.
  intros (Hu & Hf & Hg). eapply simulates_write; [|reflexivity|].
  - unfold run, set_script_pubkey, insert_script_pubkey, cmd_map at 1. by repeat step.
  - frame. by apply rel_scripts_insert.
Qed.

Lemma sim_set_utxo u : allowed s (SetUtxo u) → simulates s c (SetUtxo u).
Proof.
  intros Hu. eapply simulates_write; [|reflexivity|].
  - unfold run, set_utxo, insert_utxo, cmd_map at 1. by repeat step.
  - frame. by apply rel_utxos_set.
Qed.

(** The transaction is inserted when its id is new; when it is stored the update finds no
    row. *)
Lemma set_raw_run tx c' :
  online c' → rel_raw (s_raw s) (transactions (tables c')) →
  select_transaction_by_txid (txid_as_ref (txid tx)) c' = (Ok (s_raw s (txid tx)), c') →
  allowed_raw s tx →
  ∃ l, set_raw_tx tx c' = (Ok (), set_tables (set_transactions (λ _, l) (tables c')) c') ∧
    rel_raw (set_at (txid tx) (Some tx) (s_raw s)) l.
Proof.
  intros Hc' Hr Hread Hal. unfold set_raw_tx. rewrite (cmd_bind_ok _ _ _ _ _ Hread).
  destruct Hal as [Hn|[Hs Hne]].
  - rewrite Hn. unfold insert_transaction. rewrite cmd_bind_map.
    erewrite bind_execute by done. eexists. split; [reflexivity|].
    by apply rel_raw_insert.
  - rewrite Hs. unfold update_transaction.
    erewrite execute_blocking_run by done. exists (transactions (tables c')). split.
    + unfold set_transactions. by erewrite rel_raw_again.
    + eapply rel_raw_ext; [|done]. intros id. unfold set_at. case_decide; by subst.
Qed.

Lemma stored_set_raw tx :
  ∀ id, s_raw s id ≠ None → set_at (txid tx) (Some tx) (s_raw s) id ≠ None.
Proof. intros id. unfold set_at. by case_decide. Qed.

Lemma sim_set_raw tx : allowed s (SetRaw tx) → simulates s c (SetRaw tx).
Proof.
  intros Hal. destruct (set_raw_run tx c) as (l & Hrun & Hl); [done|apply Hrel| |done|].
  { by apply read_raw. }
  eapply simulates_write; [|reflexivity|].
  - unfold run. by erewrite cmd_map_ok.
  - frame. intros id Hid. apply stored_set_raw. eauto.
Qed.

(** The first half of [set_tx]: the details are stored whether or not they were. *)
Lemma set_details_run td {A} (f : () → walletm A) :
  fits_details td →
  ∃ l, cmd_bind (select_transaction_details_by_txid (txid_as_ref (td_txid td))) (λ found,
         cmd_bind (match found with
                   | Some _ => update_transaction_details td
                   | None => cmd_bind (insert_transaction_details td) (λ _, cmd_ret ())
                   end) f) c
       = f () (set_tables (set_details (λ _, l) (tables c)) c) ∧
    rel_details (set_at (td_txid td) (Some (strip td)) (s_details s)) l.
Proof.
  intros Hfit. erewrite cmd_bind_ok by (by apply read_details). cbn beta.
  destruct (s_details s (td_txid td)) as [td'|] eqn:Hd; simpl.
  - unfold update_transaction_details.
    destruct (confirmation_columns td) as [timestamp height] eqn:Hcols.
    erewrite bind_execute by done. eexists. split; [reflexivity|].
    apply rel_details_update; [done|by rewrite Hd|apply Hrel|].
    intros r Hr. unfold row_of_details. rewrite Hcols. by rewrite Hr.
  - unfold insert_transaction_details.
    destruct (confirmation_columns td) as [timestamp height] eqn:Hcols.
    rewrite cmd_bind_bind, cmd_bind_map. erewrite bind_execute by done.
    eexists. split; [reflexivity|].
    pose proof (rel_details_insert _ _ td Hfit Hd (rel_d _ _ Hrel)) as Hi.
    unfold row_of_details in Hi. by rewrite Hcols in Hi.
Qed.

Lemma sim_set_tx td : allowed s (SetTx td) → simulates s c (SetTx td).
Proof.
  intros [Hfit Hal].
  destruct (set_details_run td (λ _, match td_transaction td with
                                     | Some tx => set_raw_tx tx
                                     | None => cmd_ret ()
                                     end) Hfit) as (l & Hrun & Hl).
  destruct (td_transaction td) as [tx|] eqn:Htx.
  - destruct Hal as [Hid Hal].
    set (c' := set_tables (set_details (λ _, l) (tables c)) c) in Hrun.
    destruct (set_raw_run tx c') as (l' & Hrun' & Hl'); [done|apply Hrel| |done|].
    { unfold select_transaction_by_txid. destruct (rel_r _ _ Hrel).
      erewrite cmd_bind_ok by (apply query_pk_run; done). cbn beta.
      rewrite head_option_list. unfold c'. simpl. rewrite rr_find0.
      destruct (s_raw s (txid tx)); simpl; [|done]. by rewrite deserialize_serialize. }
    rewrite Hrun' in Hrun.
    eapply (simulates_write _ _ _ _ _ (set_transactions (λ _, l') (tables c'))).
    + eapply cmd_map_ok. unfold set_tx. rewrite Htx. exact Hrun.
    + simpl. by rewrite Htx.
    + frame. intros id. unfold set_at. case_decide as Hi; [|].
      * intros _. rewrite decide_True; congruence.
      * case_decide; [done|]. auto.
  - eapply simulates_write.
    + eapply cmd_map_ok. unfold set_tx. rewrite Htx. exact Hrun.
    + simpl. by rewrite Htx.
    + frame. intros id. unfold set_at. case_decide; [subst; auto|auto].
Qed.

Lemma sim_set_index k v : allowed s (SetIndex k v) → simulates s c (SetIndex k v).
Proof.
  intros Hv. eapply simulates_write; [|reflexivity|].
  - unfold run, set_last_index, update_last_derivation_index, cmd_map at 1. by repeat step.
  - frame. by apply rel_index_set.
Qed.

Lemma sim_set_sync st : allowed s (SetSync st) → simulates s c (SetSync st).
Proof.
  intros Hv. eapply simulates_write; [|reflexivity|].
  - unfold run, set_sync_time, update_sync_time, cmd_map at 1. by repeat step.
  - frame. by eapply rel_sync_set.
Qed.

Lemma sim_del_path k child : allowed s (DelPath k child) → simulates s c (DelPath k child).
Proof.
  intros Hu. simpl in Hu. destruct (s_scripts s k child) as [script|] eqn:Hf.
  - destruct (rel_scripts_delete _ _ _ _ _ _ (rel_s _ _ Hrel) Hu Hf) as [Heq Hd].
    eapply simulates_write; [|simpl; rewrite Hf; reflexivity|].
    + unfold run, del_script_pubkey_from_path, delete_script_pubkey_by_path, cmd_map at 1.
      repeat step. rewrite Hf. by repeat step.
    + frame. unfold set_script_pubkeys. simpl. by rewrite Heq.
  - eapply simulates_read; [done| |simpl; rewrite Hf; reflexivity].
    unfold run, del_script_pubkey_from_path, cmd_map at 1. repeat step. by rewrite Hf.
Qed.

Lemma sim_del_script script : simulates s c (DelScript script).
Proof.
  destruct (s_paths s script) as [[k child]|] eqn:Hg.
  - pose proof (rs_range _ _ _ (rel_s _ _ Hrel) _ _ _ Hg) as Hu.
    pose proof (proj2 (rel_scripts_agree _ _ _ _ _ _ (rel_s _ _ Hrel) Hu) Hg) as Hf.
    destruct (rel_scripts_delete _ _ _ _ _ _ (rel_s _ _ Hrel) Hu Hf) as [_ Hd].
    eapply simulates_write; [|simpl; rewrite Hg; reflexivity|].
    + unfold run, del_path_from_script_pubkey, delete_script_pubkey_by_script, cmd_map at 1.
      repeat step. rewrite Hg. by repeat step.
    + by frame.
  - eapply simulates_read; [done| |simpl; rewrite Hg; reflexivity].
    unfold run, del_path_from_script_pubkey, cmd_map at 1. repeat step. by rewrite Hg.
Qed.

Lemma sim_del_utxo o : allowed s (DelUtxo o) → simulates s c (DelUtxo o).
Proof.
  intros Hu. simpl in Hu.
  destruct (s_utxos s (op_txid o) (op_vout o)) as [u|] eqn:Hf.
  - eapply simulates_write; [|simpl; rewrite Hf; reflexivity|].
    + unfold run, del_utxo, delete_utxo_by_outpoint, cmd_map at 1.
      repeat step. rewrite Hf. by repeat step.
    + frame. by apply rel_utxos_delete.
  - exists (tables c). split.
    + rewrite set_tables_id. unfold run, del_utxo, cmd_map at 1. repeat step. simpl.
      by rewrite Hf.
    + frame. pose proof (ru_pk _ _ rel_u0) as Hpk.
      rewrite <- (pk_find_None_delete utxo_key (txid_as_ref (op_txid o), as_i32 (op_vout o))
                   (utxos (tables c))).
      { by apply rel_utxos_delete. }
      by rewrite (ru_find _ _ rel_u0), Hf.
Qed.

Lemma sim_del_raw id' : allowed s (DelRaw id') → simulates s c (DelRaw id').
Proof.
  intros Hn. simpl in Hn.
  assert (∀ t, rel_raw (set_at id' None (s_raw s)) t →
    rel (put_txs (set_at id' None) id s) (set_transactions (λ _, t) (tables c))) as Hput.
  { intros t Ht. frame. intros id Hid. unfold set_at. case_decide; [by subst|auto]. }
  destruct (s_raw s id') as [tx|] eqn:Hf.
  - eapply simulates_write; [|simpl; rewrite Hf; reflexivity|].
    + unfold run, del_raw_tx, delete_transaction_by_txid, cmd_map at 1.
      repeat step. rewrite Hf. by repeat step.
    + apply Hput. apply rel_raw_delete, Hrel.
  - eapply simulates_write; [|simpl; rewrite Hf; reflexivity|].
    + rewrite <- (set_tables_id c) at 2. unfold run, del_raw_tx, cmd_map at 1. repeat step.
      rewrite Hf. instantiate (1 := set_transactions (λ _, transactions (tables c)) (tables c)).
      by destruct c as [[]].
    + apply Hput. pose proof (rel_r _ _ Hrel) as Hr.
      eapply rel_raw_ext; [|done]. intros id. unfold set_at. case_decide; by subst.
Qed.

Lemma sim_del_tx id' raw : simulates s c (DelTx id' raw).
Proof.
  destruct (s_details s id') as [td|] eqn:Hd.
  - eapply (simulates_write _ _ _ _ _
      (set_transactions (if raw then delete_where (has_key tr_txid (txid_as_ref id')) else id)
         (set_details (delete_where (has_key dt_txid (txid_as_ref id'))) (tables c))));
      [|simpl; rewrite Hd; reflexivity|].
    + unfold run, del_tx, delete_transaction_details_by_txid, cmd_map at 1.
      repeat step. rewrite Hd. simpl. repeat step. destruct raw.
      * unfold delete_transaction_by_txid. by repeat step.
      * repeat step. by destruct c as [[]].
    + destruct (rel_d _ _ Hrel) as [_ _ Hk _]. destruct (Hk _ _ Hd) as [Hid _].
      pose proof (rel_details_delete _ _ id' (rel_d _ _ Hrel)) as Hdel.
      destruct raw; frame.
      * by apply rel_raw_delete.
      * intros id. unfold set_at. case_decide; [done|auto].
      * intros id. unfold set_at. case_decide; [done|auto].
  - eapply simulates_read; [done| |simpl; rewrite Hd; reflexivity].
    unfold run, del_tx, cmd_map at 1. repeat step. by rewrite Hd.
Qed.

Lemma sim_del_index k : simulates s c (DelIndex k).
Proof.
  destruct (s_index s k) as [v|] eqn:Hi.
  - eapply simulates_write; [|simpl; rewrite Hi; reflexivity|].
    + unfold run, del_last_index, delete_last_derivation_index_by_keychain, cmd_map at 1.
      repeat step. rewrite Hi. by repeat step.
    + frame. by apply rel_index_delete.
  - exists (tables c). split.
    + rewrite set_tables_id. unfold run, del_last_index, cmd_map at 1. repeat step. simpl.
      by rewrite Hi.
    + frame.
      rewrite <- (pk_find_None_delete ix_keychain (keychain_text k)
                   (last_derivation_indices (tables c))).
      { by apply rel_index_delete. }
      by rewrite (ri_find _ _ rel_i0), Hi.
Qed.

Lemma sim_del_sync : simulates s c DelSync.
Proof.
  destruct (s_sync s) as [st|] eqn:Ht.
  - eapply simulates_write; [|simpl; rewrite Ht; reflexivity|].
    + unfold run, del_sync_time, delete_sync_time, cmd_map at 1.
      repeat step. rewrite Ht. by repeat step.
    + frame. by eapply rel_sync_delete.
  - exists (tables c). split.
    + rewrite set_tables_id. unfold run, del_sync_time, cmd_map at 1. repeat step. simpl.
      by rewrite Ht.
    + frame. by rewrite <- Ht.
Qed.

Lemma sim_checksum k sum : simulates s c (Checksum k sum).
Proof.
  destruct (s_checksum s k) as [stored|] eqn:Hk.
  - eapply simulates_read; [done| |simpl; rewrite Hk; reflexivity].
    unfold run, check_descriptor_checksum, cmd_map at 1. repeat step. rewrite Hk.
    by case_bool_decide.
  - eapply simulates_write; [|simpl; rewrite Hk; reflexivity|].
    + unfold run, check_descriptor_checksum, insert_checksum, cmd_map at 1.
      repeat step. rewrite Hk. by repeat step.
    + frame. by apply rel_checksum_insert.
Qed.

Lemma sim_increment k : allowed s (Increment k) → simulates s c (Increment k).
Proof.
  intros Hal. simpl in Hal. destruct (s_index s k) as [v|] eqn:Hi.
  - specialize (Hal v eq_refl).
    eapply simulates_write; [|simpl; rewrite Hi; reflexivity|].
    + unfold run, increment_last_index, get_last_index, update_last_derivation_index,
        cmd_map at 1.
      repeat step. rewrite Hi. rewrite cmd_bind_bind.
      rewrite (cmd_bind_lift _ _ (v + 1)) by by apply arith_ok. repeat step.
      rewrite (cmd_bind_lift _ _ (v + 1)) by by apply arith_ok. reflexivity.
    + frame. by apply rel_index_set.
  - assert (u32 0) as H0' by (split; lia).
    destruct (rel_index_insert _ _ k 0 H0' Hi (rel_i _ _ Hrel)) as [Hins Hset].
    eapply simulates_write; [|simpl; rewrite Hi; reflexivity|].
    + unfold run, increment_last_index, get_last_index, insert_last_derivation_index,
        cmd_map at 1.
      repeat step. rewrite Hi. rewrite cmd_bind_bind, cmd_bind_map.
      erewrite bind_execute; [reflexivity|done|]. by rewrite Hins.
    + frame.
Qed.

Lemma sim_get o :
  match o with
  | GetScript _ _ | GetPath _ | GetUtxo _ | GetRaw _ | GetTx _ _ | GetIndex _ | GetSync => True
  | _ => False
  end → allowed s o → simulates s c o.
Proof.
  intros Ho Hal. destruct o; try done;
    (eapply simulates_read; [done| |reflexivity]); unfold run, cmd_map at 1.
  - unfold get_script_pubkey_from_path. by repeat step.
  - unfold get_path_from_script_pubkey. by repeat step.
  - unfold get_utxo. by repeat step.
  - unfold get_raw_tx. by repeat step.
  - unfold get_tx. repeat step. destruct (s_details s _) as [td|] eqn:Hd; [|done].
    destruct (rd_key _ _ (rel_d _ _ Hrel) _ _ Hd) as (_ & Hn & _). simpl.
    destruct include_raw; [done|]. destruct td; simpl in *; by subst.
  - unfold get_last_index. by repeat step.
  - unfold get_sync_time. by repeat step.
Qed.

Lemma run_simulates o : allowed s o → simulates s c o.
Proof.
  destruct o; intros Hal;
    eauto using sim_set_script, sim_set_utxo, sim_set_raw, sim_set_tx, sim_set_index,
      sim_set_sync, sim_del_path, sim_del_script, sim_del_utxo, sim_del_raw, sim_del_tx,
      sim_del_index, sim_del_sync, sim_checksum, sim_increment, sim_get.
Qed.
End Calls.

(** ** Sequences of calls and batches *)

(** A call of the traits [Database] and [BatchOperations], or one of [BatchDatabase]. *)
Inductive wallet_call := Call (o : op) | BeginBatch | CommitBatch.

Definition run_call (wc : wallet_call) : walletm answer :=
  match wc with
  | Call o => run o
  | BeginBatch => cmd_map (λ _, ADone) begin_batch
  | CommitBatch => cmd_map (λ _, ADone) commit_batch
  end.

(** The store, and whether a batch is open. *)
Definition spec_call (s : store * bool) (wc : wallet_call) :
    result bdk_error answer * (store * bool) :=
  match wc with
  | Call o => let '(a, s') := spec (fst s) o in (a, (s', snd s))
  | BeginBatch => (Ok ADone, (fst s, true))
  | CommitBatch => (Ok ADone, (fst s, false))
  end.

Definition allowed_call (s : store * bool) (wc : wallet_call) : Prop :=
  match wc with
  | Call o => allowed (fst s) o
  | BeginBatch => snd s = false
  | CommitBatch => True
  end.

Fixpoint run_all (wcs : list wallet_call) (c : conn wallet_tables) :
    list (result bdk_error answer) * conn wallet_tables :=
  match wcs with
  | [] => ([], c)
  | wc :: wcs =>
      let '(a, c') := run_call wc c in
      let '(answers, c'') := run_all wcs c' in (a :: answers, c'')
  end.

Fixpoint spec_all (wcs : list wallet_call) (s : store * bool) :
    list (result bdk_error answer) * (store * bool) :=
  match wcs with
  | [] => ([], s)
  | wc :: wcs =>
      let '(a, s') := spec_call s wc in
      let '(answers, s'') := spec_all wcs s' in (a :: answers, s'')
  end.

Fixpoint allowed_all (wcs : list wallet_call) (s : store * bool) : Prop :=
  match wcs with
  | [] => True
  | wc :: wcs => allowed_call s wc ∧ allowed_all wcs (snd (spec_call s wc))
  end.

(** The connection works, its tables represent the store, and it is in a transaction exactly
    while a batch is open. *)
Definition represents (s : store * bool) (c : conn wallet_tables) : Prop :=
  online c ∧ rel (fst s) (tables c) ∧ in_transaction c = snd s.

Lemma run_call_simulates s c wc :
  represents s c → allowed_call s wc →
  fst (run_call wc c) = fst (spec_call s wc) ∧
  represents (snd (spec_call s wc)) (snd (run_call wc c)).
Proof.
  destruct s as [s open]. intros (Hc & Hrel & Ho) Hal. destruct wc as [o| |]; simpl in *.
  - destruct (run_simulates s c Hc Hrel o Hal) as (t' & Hrun & Hrel').
    rewrite Hrun. by destruct (spec s o).
  - subst open. destruct c as [t fs [sn|] b]; [done|]. destruct Hc as [Hf Ha]. simpl in *.
    by subst.
  - destruct c as [t fs sn b]. destruct Hc as [Hf Ha]. simpl in *. by subst.
Qed.

Lemma run_all_simulates wcs : ∀ s c,
  represents s c → allowed_all wcs s →
  fst (run_all wcs c) = fst (spec_all wcs s) ∧
  represents (snd (spec_all wcs s)) (snd (run_all wcs c)).
Proof.
  induction wcs as [|wc wcs IH]; simpl; intros s c Hc Hal; [done|].
  destruct Hal as [Hwc Hwcs]. destruct (run_call_simulates s c wc Hc Hwc) as [Hf Hr].
  destruct (run_call wc c) as [a c']. destruct (spec_call s wc) as [a' s']. simpl in *.
  subst a'. destruct (IH s' c' Hr Hwcs) as [Hf' Hr'].
  destruct (run_all wcs c'), (spec_all wcs s'). simpl in *. by subst.
Qed.

(** ** The iterations *)

(** [l] lists, without two of the same key, exactly the values of which [P] holds. *)
Definition lists {A K} (key : A → K) (P : A → Prop) (l : list A) : Prop :=
  NoDup (key <$> l) ∧ ∀ a, a ∈ l ↔ P a.

(** What the five iterations promise of a store; they change nothing. *)
Record iterates (s : store) (c : conn wallet_tables) : Prop := {
  it_scripts : ∃ l, iter_script_pubkeys None c = (Ok l, c) ∧
    lists id (λ script, s_paths s script ≠ None) l;
  it_keychain k : ∃ l, iter_script_pubkeys (Some k) c = (Ok l, c) ∧
    lists id (λ script, ∃ child, s_paths s script = Some (k, child)) l;
  it_utxos : ∃ l, iter_utxos c = (Ok l, c) ∧
    lists lu_outpoint (λ u, s_utxos s (op_txid (lu_outpoint u)) (op_vout (lu_outpoint u)) = Some u) l;
  it_raw : ∃ l, iter_raw_txs c = (Ok l, c) ∧ lists txid (λ tx, s_raw s (txid tx) = Some tx) l;
  it_details : ∃ l, iter_txs false c = (Ok l, c) ∧
    lists td_txid (λ td, s_details s (td_txid td) = Some td) l;
  it_with_raw : ∃ l, iter_txs true c = (Ok l, c) ∧
    lists td_txid (λ td, ∃ d, s_details s (td_txid td) = Some d ∧ td = with_raw s d) l;
}.

(** The rows of a table with a primary key, read back: [h] is the column that the key of a
    value is stored in. *)
Lemma scanned_values {R A K KA} (key : R → K) (row : A → R) (akey : A → KA) (h : KA → K)
    (P : A → Prop) rows :
  NoDup (key <$> rows) →
  (∀ a, key (row a) = h (akey a)) →
  (∀ a a', P a → P a' → h (akey a) = h (akey a') → a = a') →
  (∀ r, r ∈ rows → ∃ a, r = row a ∧ P a) →
  (∀ a, P a → row a ∈ rows) →
  ∃ l, scan rows = row <$> l ∧ lists akey P l.
Proof.
  intros Hpk Hkey Hinj Hrow Hall.
  destruct (list_preimage row P (scan rows)) as (l & Hl & HP).
  { intros r Hr. apply Hrow. by rewrite <- scan_elem. }
  exists l. split; [done|]. split.
  - rewrite <- (scan_perm rows), Hl, <- list_fmap_compose in Hpk.
    apply (NoDup_fmap_1 h). rewrite <- list_fmap_compose.
    by rewrite (list_fmap_ext _ (key ∘ row) l) by (intros; symmetry; apply Hkey).
  - intros a. split; [apply HP|]. intros Ha. pose proof (Hall a Ha) as Hin.
    rewrite <- scan_elem, Hl in Hin. apply list_elem_of_fmap in Hin as (a' & Heq & Hin).
    rewrite (Hinj a a'); [done..|by apply HP|]. by rewrite <- !Hkey, Heq.
Qed.

(** The join when every row of details has its raw transaction. *)
Lemma join_raw_elem t d r :
  (d, r) ∈ join_raw t ↔ d ∈ transaction_details t ∧ r ∈ transactions t ∧ tr_txid r = dt_txid d.
Proof.
  unfold join_raw. rewrite list_elem_of_In, in_flat_map. setoid_rewrite <- list_elem_of_In.
  split.
  - intros (d' & Hd & (r' & [= -> ->] & [Hr Hk%bool_decide_eq_true]%where_elem)%list_elem_of_fmap).
    done.
  - intros (Hd & Hr & Hk). exists d. split; [done|]. apply list_elem_of_fmap. exists r.
    split; [done|]. apply where_elem. split; [done|]. by apply bool_decide_eq_true.
Qed.

Lemma join_raw_keys t :
  pk tr_txid (transactions t) →
  (∀ d, d ∈ transaction_details t → pk_find tr_txid (dt_txid d) (transactions t) ≠ None) →
  fst <$> join_raw t = transaction_details t.
Proof.
  intros Hpk. unfold join_raw. induction (transaction_details t) as [|d ds IH]; simpl; [done|].
  intros Hd. rewrite fmap_app, IH by (intros d' ?; apply Hd; by right).
  rewrite pk_select by done. specialize (Hd d). destruct (pk_find _ _ _) as [r|] eqn:Hr; [done|].
  by destruct Hd; [left|].
Qed.

Lemma lists_ext {A K} (key : A → K) (P Q : A → Prop) l :
  (∀ a, P a ↔ Q a) → lists key P l → lists key Q l.
Proof. intros He [Hnd Hl]. split; [done|]. intros a. by rewrite Hl. Qed.

(** A query whose rows all read back. *)
Lemma query_mapM {R A} (sel : wallet_tables → list R) (read : R → result bdk_error A)
    (row : A → R) l c :
  online c → scan (sel (tables c)) = row <$> l → (∀ a, a ∈ l → read (row a) = Ok a) →
  cmd_bind (query_blocking sel) (λ rows, cmd_lift (result_mapM read rows)) c = (Ok l, c).
Proof.
  intros Hc Hl Hread. rewrite bind_query, Hl by done. unfold cmd_lift.
  rewrite result_mapM_fmap, (result_mapM_ok _ id) by done. by rewrite list_fmap_id.
Qed.

Section Iterations.
Context (s : store) (c : conn wallet_tables) (Hc : online c) (Hrel : rel s (tables c)).

(** The scripts of the rows that [sel] selects. *)
Lemma iterate_scripts (sel : spk_row → bool) (Q : KeychainKind → Prop) :
  (∀ k child script, sel (path_row k child script) = true ↔ Q k) →
  ∃ l, sp_script <$> scan (where_ sel (script_pubkeys (tables c))) = l ∧
    lists id (λ script, ∃ k child, s_paths s script = Some (k, child) ∧ Q k) l.
Proof.
  intros Hsel. destruct (rel_s _ _ Hrel) as [_ Hpk _ Hfind _].
  destruct (scanned_values sp_script (λ p : (KeychainKind * Z) * bytes, path_row p.1.1 p.1.2 p.2)
    snd id (λ p, s_paths s p.2 = Some p.1 ∧ Q p.1.1) (where_ sel (script_pubkeys (tables c))))
    as (l & Hl & Hnd & Hin).
  - unfold pk in Hpk. by apply where_NoDup.
  - done.
  - intros [p b] [p' b'] [Hp _] [Hp' _] E. simpl in *. subst. congruence.
  - intros r [Hr Hs]%where_elem. apply (pk_find_in sp_script) in Hr; [|done].
    rewrite Hfind in Hr. destruct (s_paths s (sp_script r)) as [[k child]|] eqn:Hp; [|done].
    simpl in Hr. injection Hr as Hr. exists ((k, child), sp_script r). simpl.
    split; [done|]. split; [done|]. by rewrite <- Hr, Hsel in Hs.
  - intros [[k child] script] [Hp HQ]. simpl in *. apply where_elem. split; [|by apply Hsel].
    pose proof (Hfind script) as Hr. rewrite Hp in Hr. by apply pk_find_key in Hr as [_ ?].
  - eexists. split; [done|]. rewrite Hl, <- list_fmap_compose. split.
    + by rewrite list_fmap_id.
    + intros script. rewrite list_elem_of_fmap. split.
      * intros ([[k child] script'] & -> & Hp). apply Hin in Hp as [Hp HQ]. by exists k, child.
      * intros (k & child & Hp & HQ). exists ((k, child), script). split; [done|]. by apply Hin.
Qed.

Lemma iterate_utxos :
  ∃ l, iter_utxos c = (Ok l, c) ∧
    lists lu_outpoint (λ u, s_utxos s (op_txid (lu_outpoint u)) (op_vout (lu_outpoint u)) = Some u) l.
Proof.
  destruct (rel_u _ _ Hrel) as [Hpk Hf Hk Hrow].
  destruct (scanned_values utxo_key row_of_utxo lu_outpoint
    (λ o, (txid_as_ref (op_txid o), as_i32 (op_vout o)))
    (λ u, s_utxos s (op_txid (lu_outpoint u)) (op_vout (lu_outpoint u)) = Some u)
    (utxos (tables c))) as (l & Hl & Hlists); [done|done| |exact Hrow| |].
  - intros u u' Hu Hu' [= E1%(inj txid_as_ref) E2%i32_inj].
    + congruence.
    + by destruct (Hk _ _ _ Hu) as [_ []].
    + by destruct (Hk _ _ _ Hu') as [_ []].
  - intros u Hu. destruct (Hk _ _ _ Hu) as [_ []]. pose proof (Hf (op_txid (lu_outpoint u)) (op_vout (lu_outpoint u))) as Hr.
    rewrite Hu in Hr. by apply pk_find_key in Hr as [_ ?].
  - exists l. split; [|done]. eapply query_mapM; [done|exact Hl|].
    intros u Hu. apply Hlists in Hu. destruct (Hk _ _ _ Hu) as [_ Hfit].
    unfold row_of_utxo at 1 2. simpl. rewrite u32_i32 by apply Hfit. by apply read_row_of_utxo.
Qed.

Lemma iterate_raw :
  ∃ l, iter_raw_txs c = (Ok l, c) ∧ lists txid (λ tx, s_raw s (txid tx) = Some tx) l.
Proof.
  destruct (rel_r _ _ Hrel) as [Hpk Hf Hk Hrow].
  destruct (scanned_values tr_txid (λ tx, row_of_tx (txid tx) tx) txid txid_as_ref
    (λ tx, s_raw s (txid tx) = Some tx) (transactions (tables c)))
    as (l & Hl & Hlists); [done|done| | | |].
  - intros tx tx' Htx Htx' E%(inj txid_as_ref). congruence.
  - intros r Hr. destruct (Hrow r Hr) as [id Hid]. apply (pk_find_in tr_txid) in Hr; [|done].
    rewrite Hid, Hf in Hr. destruct (s_raw s id) as [tx|] eqn:Htx; [|done].
    injection Hr as <-. exists tx. by rewrite (Hk _ _ Htx).
  - intros tx Htx. pose proof (Hf (txid tx)) as Hr. rewrite Htx in Hr.
    by apply pk_find_key in Hr as [_ ?].
  - exists l. split; [|done]. eapply query_mapM; [done|exact Hl|].
    intros tx _. simpl. by rewrite deserialize_serialize.
Qed.

Lemma iterate_details :
  ∃ l, iter_txs false c = (Ok l, c) ∧ lists td_txid (λ td, s_details s (td_txid td) = Some td) l.
Proof.
  destruct (rel_d _ _ Hrel) as [Hpk Hf Hk Hrow].
  destruct (scanned_values dt_txid row_of_details td_txid txid_as_ref
    (λ td, s_details s (td_txid td) = Some td) (transaction_details (tables c)))
    as (l & Hl & Hlists); [done|by apply row_of_details_txid| | | |].
  - intros td td' Htd Htd' E%(inj txid_as_ref). congruence.
  - intros r Hr. destruct (Hrow r Hr) as [id Hid]. apply (pk_find_in dt_txid) in Hr; [|done].
    rewrite Hid, Hf in Hr. destruct (s_details s id) as [td|] eqn:Htd; [|done].
    injection Hr as <-. exists td. destruct (Hk _ _ Htd) as [-> _]. done.
  - intros td Htd. pose proof (Hf (td_txid td)) as Hr. rewrite Htd in Hr.
    by apply pk_find_key in Hr as [_ ?].
  - exists l. split; [|done]. eapply query_mapM; [done|exact Hl|].
    intros td Htd. apply Hlists in Htd. destruct (Hk _ _ Htd) as (_ & Hn & Hfit).
    rewrite row_of_details_txid, deserialize_as_ref. simpl. rewrite read_row_of_details by done.
    simpl. rewrite confirmation_of. destruct td; simpl in *; by subst.
Qed.
Lemma iterate_with_raw :
  ∃ l, iter_txs true c = (Ok l, c) ∧
    lists td_txid (λ td, ∃ d, s_details s (td_txid td) = Some d ∧ td = with_raw s d) l.
Proof.
  destruct (rel_d _ _ Hrel) as [Hpk Hf Hk Hrow]. destruct (rel_r _ _ Hrel) as [Hrpk Hrf _ _].
  set (row td := (row_of_details td, mk_tx (txid_as_ref (td_txid td))
    (from_option serialize [] (td_transaction td)))).
  assert (∀ d, d ∈ transaction_details (tables c) → ∃ td tx, d = row_of_details td ∧
    s_details s (td_txid td) = Some td ∧ s_raw s (td_txid td) = Some tx) as Hd.
  { intros d Hd. destruct (Hrow d Hd) as [id Hid]. apply (pk_find_in dt_txid) in Hd; [|done].
    rewrite Hid, Hf in Hd. destruct (s_details s id) as [td|] eqn:Htd; [|done].
    destruct (Hk _ _ Htd) as [Htdi _]. destruct (s_raw s id) as [tx|] eqn:Htx.
    - exists td, tx. rewrite Htdi. by injection Hd as <-.
    - by destruct (rel_stored _ _ Hrel id); [rewrite Htd|]. }
  destruct (scanned_values (dt_txid ∘ fst) row td_txid txid_as_ref
    (λ td, ∃ d, s_details s (td_txid td) = Some d ∧ td = with_raw s d)
    (join_raw (tables c))) as (l & Hl & Hlists).
  - rewrite list_fmap_compose, join_raw_keys; [done|done|].
    intros d (td & tx & -> & _ & Htx)%Hd. by rewrite row_of_details_txid, Hrf, Htx.
  - exact row_of_details_txid.
  - intros td td' (d & Htd & ->) (d' & Htd' & ->) E%(inj txid_as_ref). congruence.
  - intros [d r] (Hin & Hr & Hkey)%join_raw_elem. destruct (Hd d Hin) as (td & tx & -> & Htd & Htx).
    exists (with_raw s td). split; [|by exists td].
    apply (pk_find_in tr_txid) in Hr; [|done].
    rewrite Hkey, row_of_details_txid, Hrf, Htx in Hr. injection Hr as <-.
    unfold row, with_raw. simpl. by rewrite Htx.
  - intros td (d & Htd & ->). simpl in Htd. apply join_raw_elem.
    pose proof (Hf (td_txid d)) as Hr. rewrite Htd in Hr. apply pk_find_key in Hr as [_ Hr].
    destruct (s_raw s (td_txid d)) as [tx|] eqn:Htx.
    2:{ by destruct (rel_stored _ _ Hrel (td_txid d)); [rewrite Htd|]. }
    pose proof (Hrf (td_txid d)) as Hx. rewrite Htx in Hx. apply pk_find_key in Hx as [_ Hx].
    unfold with_raw. simpl. rewrite Htx. split; [done|]. split; [done|].
    by rewrite row_of_details_txid.
  - exists l. split; [|done]. eapply query_mapM; [done|exact Hl|].
    intros td (d & Htd & ->)%Hlists. destruct (Hk _ _ Htd) as (_ & Hn & Hfit).
    unfold row. simpl in *. rewrite row_of_details_txid. simpl.
    rewrite deserialize_as_ref. simpl.
    change (row_of_details (with_raw s d)) with (row_of_details d).
    rewrite read_row_of_details by done. simpl.
    destruct (s_raw s (td_txid d)) as [tx|] eqn:Htx.
    2:{ by destruct (rel_stored _ _ Hrel (td_txid d)); [rewrite Htd|]. }
    unfold with_raw. simpl. rewrite Htx. simpl. rewrite deserialize_serialize. simpl.
    by rewrite confirmation_of.
Qed.

Lemma run_iterates : iterates s c.
Proof.
  split; [| |by apply iterate_utxos|by apply iterate_raw|by apply iterate_details|
    by apply iterate_with_raw].
  - destruct (iterate_scripts (λ _, true) (λ _, True)) as (l & Hl & Hlists); [done|].
    exists l. split.
    + simpl. unfold select_script_pubkeys. erewrite cmd_map_ok by by apply query_blocking_run.
      by rewrite <- Hl, where_true.
    + revert Hlists. apply lists_ext. intros script.
      destruct (s_paths s script) as [[k child]|]; naive_solver.
  - intros k. destruct (iterate_scripts (has_key sp_keychain (keychain_text k)) (λ k', k' = k))
      as (l & Hl & Hlists).
    { intros k' child script. unfold has_key. rewrite bool_decide_eq_true. simpl.
      split; [apply (inj keychain_text)|congruence]. }
    exists l. split.
    + simpl. rewrite bind_json. unfold select_script_pubkeys_by_keychain.
      erewrite cmd_map_ok by by apply query_blocking_run. by rewrite <- Hl.
    + revert Hlists. apply lists_ext. naive_solver.
Qed.
End Iterations.

(** [C1] On a working connection that starts from empty tables, [WalletDatabase] answers every
    [allowed_all] sequence of calls of bdk's traits, inside and outside of batches, exactly as
    the store [spec] does; after it the connection is in a transaction exactly while a batch is
    open, and each iteration lists once, with its contents, what the store holds, and nothing
    else. [allowed] asks that a script and a path are stored once, that amounts and times fit
    the signed columns, that a stored raw transaction is not replaced by another one and not
    deleted while its details are stored, that details come with a raw transaction or have one
    stored, that an index stays below 2^32, and that no batch begins inside another. *)
Theorem wallet_database_refines_store wcs :
  allowed_all wcs (empty_store, false) →
  let '(answers, c) := run_all wcs (mk_conn empty_wallet [] None false) in
  let '(promised, (s, open)) := spec_all wcs (empty_store, false) in
  answers = promised ∧ in_transaction c = open ∧ iterates s c.
Proof.
  intros Hal.
  destruct (run_all_simulates wcs (empty_store, false) (mk_conn empty_wallet [] None false))
    as [Hf (Hon & Hrel & Ho)]; [by split; [|split; [apply rel_empty|]]|done|].
  destruct (run_all wcs _) as [answers c]. destruct (spec_all wcs _) as [promised [s open]].
  simpl in *. split; [done|]. split; [done|]. by apply run_iterates.
Qed.
End Refinement.

(** ** Instances of the properties *)

Section Instances.
#[local] Existing Instance insertion_order.
#[local] Existing Instance insertion_order_laws.
#[local] Existing Instance example_codec.
#[local] Existing Instance example_codec_laws.
#[local] Instance checked : Build := {| overflow_checks := true |}.

Definition example_calls : list wallet_call :=
  [Call (Checksum false [x61]); Call (Checksum false [x62]); BeginBatch;
   Call (SetScript [x51] true 4294967295); Call (GetPath [x51]); Call (Increment false);
   Call (Increment false);
   Call (SetTx (mk_details (Some (true, false)) true 5 7 None (Some (mk_block_time 9 10))));
   Call (SetTx (mk_details None true 6 7 None None)); Call (GetTx true true); CommitBatch;
   Call (SetUtxo (mk_local_utxo (mk_outpoint true 4294967295) (mk_txout 4 []) true false));
   Call (GetUtxo (mk_outpoint true 4294967295)); BeginBatch].

Lemma example_calls_allowed : allowed_all example_calls (empty_store, false).
Proof.
  unfold example_calls, allowed_all, allowed_call, allowed, fits_details, fits_block_time,
    fits_utxo, fits.
  simpl.
  repeat match goal with
  | |- _ ∧ _ => split
  | |- in_unsigned _ _ => split; simpl; lia
  | |- ∀ v, Some _ = Some v → _ => intros ? [= <-]
  | |- ∀ v, None = Some v → _ => intros ? [=]
  | |- _ = _ => reflexivity
  | |- True => exact I
  | |- _ ≠ _ => discriminate
  | |- ∀ v, set_at _ _ _ _ = Some v → _ => intros ?; unfold set_at; simpl; intros [= <-]
  end; simpl; try lia.
  all: left; reflexivity.
Defined.

Lemma wallet_database_refines_store_witness :
  ∃ s c,
    run_all example_calls (mk_conn empty_wallet [] None false) =
      ([Ok ADone; Err ChecksumMismatch; Ok ADone; Ok ADone;
        Ok (APath (Some (true, 4294967295))); Ok (ANext 0); Ok (ANext 1); Ok ADone; Ok ADone;
        Ok (ATx (Some (mk_details (Some (true, false)) true 6 7 None None))); Ok ADone;
        Ok ADone;
        Ok (AUtxo (Some (mk_local_utxo (mk_outpoint true 4294967295) (mk_txout 4 []) true false)));
        Ok ADone], c) ∧
    in_transaction c = true ∧ iterates s c ∧ s_paths s [x51] = Some (true, 4294967295).
Proof.
  pose proof (wallet_database_refines_store example_calls example_calls_allowed) as H.
  destruct (run_all example_calls (mk_conn empty_wallet [] None false)) as [answers c].
  destruct (spec_all example_calls (empty_store, false)) as [promised [s open]] eqn:Hs.
  destruct H as (-> & Ho & Hit). exists s, c.
  assert (promised = fst (spec_all example_calls (empty_store, false))) as -> by (by rewrite Hs).
  assert (s = fst (snd (spec_all example_calls (empty_store, false)))) as Hs' by (by rewrite Hs).
  assert (open = snd (snd (spec_all example_calls (empty_store, false)))) as Ho' by (by rewrite Hs).
  clear Hs. split; [reflexivity|]. split; [by rewrite Ho, Ho'|]. split; [exact Hit|].
  by rewrite Hs'.
Defined.
End Instances.
