(* ===== verification/Wallet.v ===== *)
(** * The on-chain wallet (src/kld/src/wallet/bdk_wallet.rs)

    [Wallet] wraps a [bdk::Wallet] in a mutex and asks bitcoind for heights and fee rates. The
    calls into bdk are the class [Bdk]; a transaction builder is the list of the calls made on
    it. The mutex is a [std::sync::Mutex]: a panic while it is held poisons it. A [lock()] that
    has to wait is a command that runs when the holder is done. *)

From S2P Require Import Prelude Fees.

Class Bdk `{BdkFeeRate} := {
  BdkWallet : Type;
  Script : Type;
  OutPoint : Type;
  UncheckedAddress : Type;
  Psbt : Type;
  Transaction : Type;
  TransactionDetails : Type;
  AddressInfo : Type;
  LocalUtxo : Type;
  Balance : Type;
  balance_default : Balance;
  (** [Address::require_network] and the script of the address. *)
  require_network : UncheckedAddress → Network → result string Script;
  script_of : AddressInfo → Script;
  bdk_balance : BdkWallet → result string Balance;
  (** [add_utxos] looks the outputs up at once. *)
  bdk_known_utxos : BdkWallet → list OutPoint → result string ();
  bdk_sign : BdkWallet → Psbt → result string Psbt;
  extract_tx : Psbt → Transaction;
  last_unused_external : BdkWallet → result string AddressInfo * BdkWallet;
  last_unused_internal : BdkWallet → result string AddressInfo * BdkWallet;
  bdk_list_unspent : BdkWallet → result string (list LocalUtxo);
  bdk_get_tx : BdkWallet → LocalUtxo → result string (option TransactionDetails);
  (** The height of the block the wallet was last synchronised at. *)
  bdk_sync_time : BdkWallet → result string (option Z);
  (** [guard.sync(blockchain, ..)] at a height. *)
  bdk_sync : BdkWallet → Z → result string () * BdkWallet;
}.

(** The calls on a [TxBuilder]. *)
Inductive TxOp `{Bdk} :=
| AddRecipient (script : Script) (amount : Z)
| DrainWallet
| DrainTo (script : Script)
| AddUtxos (utxos : list OutPoint)
| CurrentHeight (height : Z)
| SetFeeRate (rate : BdkRate)
| EnableRbf.

Class BdkBuilder `{Bdk} := {
  bdk_finish : BdkWallet → list TxOp → result string (Psbt * TransactionDetails) * BdkWallet;
}.

(** The keys of a wallet: [ExtendedPrivKey::new_master], the template [Bip84] of a keychain, and
    [bdk::Wallet::new], which fails when the database is of another wallet. *)
Inductive Keychain := External | Internal.
Class BdkKeys `{Bdk} := {
  ExtendedPrivKey : Type;
  new_master : Network → bytes → result string ExtendedPrivKey;
  bdk_wallet_new : ExtendedPrivKey * Keychain → option (ExtendedPrivKey * Keychain) → Network →
    result string BdkWallet;
}.

Inductive lock_state := Free | Held | Poisoned.

Section Wallet.
Context {FR : BdkFeeRate} {B : Bdk} {BB : BdkBuilder}.

(** What the wallet sees of bitcoind: its answers, the fee estimates kept for it, and the
    transactions handed to it for broadcast. *)
Record bitcoind := mk_bitcoind {
  blockchain_info : result string BlockchainInfo;
  (** The height that [get_best_block] reports. *)
  best_height : result string (option Z);
  priorities : Priorities;
  broadcast : list Transaction;
}.
Record wallet := mk_wallet {
  bdk : BdkWallet;
  wallet_lock : lock_state;
  bitcoind_client : bitcoind;
}.

(** [Wallet::new]. *)
Definition new_wallet `{!BdkKeys} (seed : bytes) (network : Network) (client : bitcoind) :
    result string wallet :=
  let? xprivkey := new_master network seed in
  let? b := bdk_wallet_new (xprivkey, External) (Some (xprivkey, Internal)) network in
  Ok (mk_wallet b Free client).

Definition set_bdk (b : BdkWallet) (w : wallet) : wallet :=
  mk_wallet b (wallet_lock w) (bitcoind_client w).
Definition set_lock (l : lock_state) (w : wallet) : wallet :=
  mk_wallet (bdk w) l (bitcoind_client w).
Definition broadcast_transactions (txs : list Transaction) (c : bitcoind) : bitcoind :=
  mk_bitcoind (blockchain_info c) (best_height c) (priorities c) (broadcast c ++ txs).
Definition set_client (c : bitcoind) (w : wallet) : wallet := mk_wallet (bdk w) (wallet_lock w) c.

Definition walletm (A : Type) : Type := cmd wallet string A.

Definition ask {A} (f : wallet → result string A) : walletm A := λ w, (f w, w).
Definition in_bdk {A} (f : BdkWallet → result string A * BdkWallet) : walletm A := λ w,
  let '(r, b) := f (bdk w) in (r, set_bdk b w).

(** [match self.wallet.lock() { Ok(wallet) => body, Err(_) => poisoned }]. *)
Definition locked {A} (poisoned body : walletm A) : walletm A := λ w,
  match wallet_lock w with
  | Poisoned => poisoned w
  | _ => match body w with
         | (Panic m, w') => (Panic m, set_lock Poisoned w')
         | r => r
         end
  end.
Definition lock_unwrap {A} (body : walletm A) : walletm A :=
  locked (cmd_panic "called `Result::unwrap()` on an `Err` value: PoisonError") body.
(** [match self.wallet.try_lock()]. *)
Definition try_locked {A} (otherwise body : walletm A) : walletm A := λ w,
  match wallet_lock w with
  | Free => body w
  | _ => otherwise w
  end.

Definition balance : walletm Balance :=
  try_locked (cmd_ret balance_default) (ask (λ w, bdk_balance (bdk w))).

(** The height that coin selection is told: a subtraction of [u32]s. *)
Definition selection_height `{Build} (height : Z) (min_conf : option Z) : result string Z :=
  match min_conf with
  | None => Ok height
  | Some min_conf => arith 32 (height - min_conf)
  end.

Definition build_sign (ops : list TxOp) : walletm (Transaction * TransactionDetails) :=
  let* (psbt, tx_details) := in_bdk (λ b, bdk_finish b ops) in
  let* psbt := ask (λ w, bdk_sign (bdk w) psbt) in
  cmd_ret (extract_tx psbt, tx_details).

Definition transfer `{Build} (network : Network) (now : Z) (address : UncheckedAddress)
    (amount : Z) (fee_rate : option FeeRate) (min_conf : option Z) (utxos : list OutPoint) :
    walletm (Transaction * TransactionDetails) :=
  let* synced := ask (λ w, Ok (is_synchronised now (blockchain_info (bitcoind_client w)))) in
  let* _ := if synced then cmd_ret () else cmd_err "Bitcoind is synchronising the blockchain"%string in
  let* height := ask (λ w, match best_height (bitcoind_client w) with
                           | Ok (Some height) => Ok height
                           | _ => Err "Failed to fetch best block"%string
                           end) in
  let* script_pubkey := cmd_lift (require_network address network) in
  locked (cmd_err "Wallet is still syncing with chain"%string)
    (let* ops :=
       if bool_decide (amount = u64_max) then cmd_ret [DrainWallet; DrainTo script_pubkey]
       else
         let* _ := ask (λ w, bdk_known_utxos (bdk w) utxos) in
         cmd_ret [AddRecipient script_pubkey amount; DrainWallet; AddUtxos utxos] in
     let* current := cmd_lift (selection_height height min_conf) in
     let* rate := ask (λ w, Ok (to_bdk_fee_rate (priorities (bitcoind_client w)) <$> fee_rate)) in
     let* (tx, tx_details) :=
       build_sign (ops ++ [CurrentHeight current] ++
                   match rate with Some r => [SetFeeRate r] | None => [] end) in
     λ w, (Ok (tx, tx_details), set_client (broadcast_transactions [tx] (bitcoind_client w)) w)).

Definition new_external_address : walletm AddressInfo := lock_unwrap (in_bdk last_unused_external).
Definition new_internal_address : walletm AddressInfo := lock_unwrap (in_bdk last_unused_internal).

Fixpoint with_transactions (utxos : list LocalUtxo) : walletm (list (LocalUtxo * TransactionDetails)) :=
  match utxos with
  | [] => cmd_ret []
  | utxo :: utxos =>
      let* tx := ask (λ w, bdk_get_tx (bdk w) utxo) in
      let* rest := with_transactions utxos in
      cmd_ret (match tx with Some tx => (utxo, tx) :: rest | None => rest end)
  end.
Definition list_utxos : walletm (list (LocalUtxo * TransactionDetails)) :=
  try_locked (cmd_ret [])
    (let* utxos := ask (λ w, bdk_list_unspent (bdk w)) in with_transactions utxos).

Definition synced (w : wallet) : bool :=
  match best_height (bitcoind_client w) with
  | Ok (Some height) =>
      match wallet_lock w with
      | Free => match bdk_sync_time (bdk w) with
                | Ok (Some sync_time) => bool_decide (sync_time = height)
                | _ => false
                end
      | _ => false
      end
  | _ => false
  end.

(** One round of [keep_sync_with_chain]; [electrs] is the height that electrs reports. *)
Definition sync_round (electrs : result string Z) : walletm () :=
  let* height := cmd_lift electrs in
  locked (cmd_err "wallet lock is poisened"%string)
    (let* synctime := ask (λ w, bdk_sync_time (bdk w)) in
     let sync_height := default 0 synctime in
     if bool_decide (sync_height < height) then in_bdk (λ b, bdk_sync b height)
     else cmd_ret ()).

Definition fund_tx (output_script : Script) (channel_value_satoshis : Z) (fee_rate : FeeRate) :
    walletm Transaction :=
  lock_unwrap
    (let* rate := ask (λ w, Ok (to_bdk_fee_rate (priorities (bitcoind_client w)) fee_rate)) in
     cmd_map fst (build_sign [AddRecipient output_script channel_value_satoshis; SetFeeRate rate;
                              EnableRbf])).
End Wallet.

(** ** What the wallet guarantees *)

Section Properties.
Context {FR : BdkFeeRate} {B : Bdk} {BB : BdkBuilder}.
Implicit Types w : wallet.

(** The transaction a transfer asks bdk for. *)
Definition transfer_ops (script : Script) (amount current : Z) (utxos : list OutPoint)
    (rate : option BdkRate) : list TxOp :=
  (if bool_decide (amount = u64_max) then [DrainWallet; DrainTo script]
   else [AddRecipient script amount; DrainWallet; AddUtxos utxos]) ++
  [CurrentHeight current] ++ match rate with Some r => [SetFeeRate r] | None => [] end.

(** bdk built and signed [tx] from [ops], which left the wallet as [b]. *)
Definition signed_from (b0 : BdkWallet) (ops : list TxOp) (tx : Transaction)
    (d : TransactionDetails) (b : BdkWallet) : Prop :=
  ∃ psbt signed, bdk_finish b0 ops = (Ok (psbt, d), b) ∧ bdk_sign b psbt = Ok signed ∧
    tx = extract_tx signed.

Lemma build_sign_cases ops w r w' :
  build_sign ops w = (r, w') →
  bitcoind_client w' = bitcoind_client w ∧ wallet_lock w' = wallet_lock w ∧
  ∀ tx d, r = Ok (tx, d) → signed_from (bdk w) ops tx d (bdk w').
Proof.
  unfold build_sign, cmd_bind, in_bdk, ask. intros Hr.
  destruct (bdk_finish (bdk w) ops) as [[[psbt d]|e|m] b] eqn:Hf; simpl in Hr;
    [destruct (bdk_sign b psbt) as [signed|e|m] eqn:Hs|..]; simpl in Hr; injection Hr as <- <-;
    split_and!; try done.
  intros tx d' [= <- <-]. by exists psbt, signed.
Qed.

(** [C40] A transfer that reports success was built by bdk from exactly the recipient (or the
    whole wallet, for the amount that stands for it), the coins named and the fee rate of the
    request, on a synchronised node and to an address of its network; the transaction returned
    is the one bdk signed, and it is broadcast once. A transfer that fails or panics broadcasts
    nothing, whatever step failed. *)
Theorem transfer_broadcasts_what_it_signed `{Build} network now address amount rate min_conf
    utxos w r w' :
  transfer network now address amount rate min_conf utxos w = (r, w') →
  (∃ tx d height current script,
     r = Ok (tx, d) ∧
     is_synchronised now (blockchain_info (bitcoind_client w)) = true ∧
     best_height (bitcoind_client w) = Ok (Some height) ∧
     selection_height height min_conf = Ok current ∧
     require_network address network = Ok script ∧
     signed_from (bdk w) (transfer_ops script amount current utxos
       (to_bdk_fee_rate (priorities (bitcoind_client w)) <$> rate)) tx d (bdk w') ∧
     broadcast (bitcoind_client w') = broadcast (bitcoind_client w) ++ [tx]) ∨
  ((∀ p, r ≠ Ok p) ∧ broadcast (bitcoind_client w') = broadcast (bitcoind_client w)).
Proof.
  unfold transfer, cmd_bind, ask, cmd_lift, cmd_err, cmd_ret. intros Hr.
  destruct (is_synchronised now _) eqn:Hsync; simpl in Hr; [|right; by simplify_eq].
  destruct (best_height (bitcoind_client w)) as [[height|]|e|m] eqn:Hb; simpl in Hr;
    try (right; by simplify_eq).
  destruct (require_network address network) as [script|e|m] eqn:Ha; try (right; by simplify_eq).
  unfold locked in Hr. destruct (wallet_lock w) eqn:Hl; [| |right; by simplify_eq].
  all: (destruct (bool_decide (amount = u64_max)) eqn:Hm;
    [|destruct (bdk_known_utxos (bdk w) utxos) as [[]|e|m]; try (right; by simplify_eq)];
    (destruct (selection_height height min_conf) as [current|e|m] eqn:Hc; simpl in Hr;
       try (right; by simplify_eq)));
    destruct (build_sign _ w) as [[[tx d]|e|m] w1] eqn:Hs;
    destruct (build_sign_cases _ _ _ _ Hs) as (Hk & _ & Hok); simplify_eq/=;
    try (right; simpl; by rewrite Hk).
  all: left; exists tx, d, height, current, script; rewrite <- Hk; split_and!; try done;
    destruct (Hok tx d eq_refl) as (psbt & signed & Hf & Hsg & Htx);
    exists psbt, signed; unfold transfer_ops; rewrite Hm; split_and!; try done;
    by rewrite <- Hf, Hk.
Qed.

(** A poisoned lock never heals: no operation of the wallet works again or changes it. *)
Lemma poisoned_wallet `{Build} w :
  wallet_lock w = Poisoned →
  (∀ network now address amount rate min_conf utxos, ∃ e,
     transfer network now address amount rate min_conf utxos w = (Err e, w) ∨
     ∃ m, transfer network now address amount rate min_conf utxos w = (Panic m, w)) ∧
  (∃ m, new_external_address w = (Panic m, w)) ∧ (∃ m, new_internal_address w = (Panic m, w)) ∧
  (∀ script value rate, ∃ m, fund_tx script value rate w = (Panic m, w)) ∧
  (∀ electrs r w', sync_round electrs w = (r, w') → w' = w ∧ r ≠ Ok ()) ∧
  balance w = (Ok balance_default, w) ∧ list_utxos w = (Ok [], w) ∧ synced w = false.
Proof.
  intros Hl. split_and!.
  - intros. unfold transfer, cmd_bind, ask, cmd_lift, cmd_err, cmd_ret, locked.
    destruct (is_synchronised _ _); simpl; [|by eauto].
    destruct (best_height _) as [[]|e|m]; simpl; [|by eauto..].
    destruct (require_network _ _) as [|e|m]; rewrite ?Hl; [by eauto|by eauto|].
    exists ""%string. right. by eauto.
  - unfold new_external_address, lock_unwrap, locked. rewrite Hl. by eexists.
  - unfold new_internal_address, lock_unwrap, locked. rewrite Hl. by eexists.
  - intros. unfold fund_tx, lock_unwrap, locked. rewrite Hl. by eexists.
  - intros electrs r w'. unfold sync_round, cmd_bind, cmd_lift, locked. rewrite Hl.
    destruct electrs; intros [= <- <-]; done.
  - unfold balance, try_locked. by rewrite Hl.
  - unfold list_utxos, try_locked. by rewrite Hl.
  - unfold synced. rewrite Hl. by destruct (best_height _) as [[]|e|m].
Qed.

(** [min_conf] is subtracted from the chain height as a [u32]. Up to the height, coin
    selection is told the difference. Above it, a build with overflow checks panics while it
    holds the lock, after which no operation of the wallet works again until the process is
    restarted; a build without them tells coin selection a height near [2^32]. *)
Theorem transfer_min_conf `{Build} network now address amount rate c utxos w height script :
  u32 height → u8 c →
  is_synchronised now (blockchain_info (bitcoind_client w)) = true →
  best_height (bitcoind_client w) = Ok (Some height) →
  require_network address network = Ok script →
  bdk_known_utxos (bdk w) utxos = Ok () → wallet_lock w = Free →
  let '(r, w') := transfer network now address amount rate (Some c) utxos w in
  let built current := bdk w' = snd (bdk_finish (bdk w)
                         (transfer_ops script amount current utxos
                            (to_bdk_fee_rate (priorities (bitcoind_client w)) <$> rate))) in
  if bool_decide (c ≤ height) then built (height - c)
  else if overflow_checks then
    (∃ m, r = Panic m) ∧ wallet_lock w' = Poisoned ∧
    ∀ r2 w2 now2 address2 amount2 rate2 c2 utxos2,
      transfer network now2 address2 amount2 rate2 c2 utxos2 w' = (r2, w2) →
      w2 = w' ∧ ∀ p, r2 ≠ Ok p
  else built (2 ^ 32 + height - c).
Proof.
  intros Hh Hc Hsync Hb Ha Hu Hl.
  assert (∀ ops w0, bdk (snd (build_sign ops w0)) = snd (bdk_finish (bdk w0) ops)) as Hbuild.
  { intros ops w0. unfold build_sign, cmd_bind, in_bdk, ask.
    destruct (bdk_finish (bdk w0) ops) as [[[psbt d]|e|m] b]; [|done..]. simpl.
    by destruct (bdk_sign b psbt). }
  assert (∀ current, selection_height height (Some c) = Ok current →
    let '(r, w') := transfer network now address amount rate (Some c) utxos w in
    bdk w' = snd (bdk_finish (bdk w) (transfer_ops script amount current utxos
               (to_bdk_fee_rate (priorities (bitcoind_client w)) <$> rate)))) as Hrun.
  { intros current Hcur. rewrite <- Hbuild.
    unfold transfer, cmd_bind, ask, cmd_lift, cmd_ret, locked, transfer_ops.
    rewrite Hsync. cbn -[bool_decide selection_height build_sign]. rewrite Hb, Ha, Hl. cbn -[bool_decide selection_height build_sign]. rewrite Hcur.
    destruct (bool_decide (amount = u64_max)); rewrite ?Hu;
      destruct (build_sign _ w) as [[[tx d]|e|m] w1] eqn:Hs; done. }
  destruct (transfer network now address amount rate (Some c) utxos w) as [r w'] eqn:Ht.
  intros built. assert (∀ current, selection_height height (Some c) = Ok current → built current)
    as Hok by exact Hrun.
  case_bool_decide as Hle; unfold selection_height, arith in Hok.
  { apply Hok. rewrite bool_decide_eq_true_2; [done|]. unfold in_unsigned in *. lia. }
  assert (¬ in_unsigned 32 (height - c)) as Hneg by (unfold in_unsigned; lia).
  rewrite (bool_decide_eq_false_2 _ Hneg) in Hok. destruct overflow_checks eqn:Ho.
  2:{ apply Hok. f_equal. unfold wrap_unsigned. unfold in_unsigned in *.
      replace (height - c) with (2 ^ 32 + height - c + -1 * 2 ^ 32) by lia.
      rewrite Z.mod_add by lia. apply Z.mod_small. lia. }
  assert (∃ m, (r, w') = (Panic m, set_lock Poisoned w)) as [m [= -> ->]].
  { rewrite <- Ht. unfold transfer, cmd_bind, ask, cmd_lift, cmd_ret, locked.
    rewrite Hsync. cbn -[bool_decide selection_height build_sign].
    rewrite Hb, Ha, Hl. cbn -[bool_decide selection_height build_sign].
    unfold selection_height, arith. rewrite (bool_decide_eq_false_2 _ Hneg), Ho.
    destruct (bool_decide (amount = u64_max)); rewrite ?Hu; by eexists. }
  split; [by eexists|]. split; [done|]. intros r2 w2 now2 address2 amount2 rate2 c2 utxos2 Hr2.
  destruct (poisoned_wallet (set_lock Poisoned w) eq_refl) as [Hp _].
  destruct (Hp network now2 address2 amount2 rate2 c2 utxos2) as (e & [He|[m' He]]);
    rewrite He in Hr2; by simplify_eq.
Qed.

(** A synchronisation with the chain at a height records that height. *)
Class BdkLaws := {
  bdk_sync_records b h b' : bdk_sync b h = (Ok (), b') → bdk_sync_time b' = Ok (Some h);
}.

(** One round of [keep_sync_with_chain] with electrs and bitcoind at the same height: a
    wallet behind it is synchronised afterwards, if bdk succeeds. A wallet that is not behind is
    left alone, so one that was last synchronised above the height (a chain that was
    reorganised to a lower tip) or never (at height 0) stays not synchronised. *)
Theorem sync_round_only_forward `{BdkLaws} height synctime w r w' :
  wallet_lock w = Free → best_height (bitcoind_client w) = Ok (Some height) →
  bdk_sync_time (bdk w) = Ok synctime →
  sync_round (Ok height) w = (r, w') →
  if bool_decide (default 0 synctime < height) then r = Ok () → synced w' = true
  else r = Ok () ∧ w' = w ∧ synced w' = bool_decide (synctime = Some height).
Proof.
  intros Hl Hb Ht. unfold sync_round, cmd_bind, cmd_lift, locked, ask, in_bdk, cmd_ret.
  rewrite Hl, Ht. case_bool_decide; intros Hr.
  - destruct (bdk_sync (bdk w) height) as [r' b'] eqn:Hs.
    destruct r' as [[]|e|m]; injection Hr as <- <-; try done. intros _.
    unfold synced. simpl. rewrite Hb, Hl, (bdk_sync_records _ _ _ Hs). by rewrite bool_decide_eq_true_2.
  - injection Hr as <- <-. split; [done|]. split; [done|]. unfold synced. rewrite Hb, Hl, Ht.
    destruct synctime as [t|]; [|done]. by apply bool_decide_ext; split; [intros ->|intros [= ->]].
Qed.
End Properties.

(** ** Instances of the properties *)

Definition example_rate : BdkFeeRate :=
  {| BdkRate := Z * bool; from_sat_per_kwu z := (z, true); from_sat_per_kvb z := (z, false) |}.
Definition example_bdk : @Bdk example_rate := {|
  BdkWallet := option Z; Script := Network; OutPoint := nat; UncheckedAddress := Network;
  Psbt := nat; Transaction := nat; TransactionDetails := (); AddressInfo := Network;
  LocalUtxo := nat; Balance := Z; balance_default := 0;
  require_network a n := match a, n with
                         | Bitcoin, Bitcoin | Testnet, Testnet => Ok a
                         | _, _ => Err "invalid network"%string
                         end;
  script_of a := a; bdk_balance _ := Ok 7; bdk_known_utxos _ _ := Ok ();
  bdk_sign _ p := Ok p; extract_tx p := p;
  last_unused_external b := (Ok Bitcoin, b); last_unused_internal b := (Ok Bitcoin, b);
  bdk_list_unspent _ := Ok [1%nat]; bdk_get_tx _ _ := Ok (Some ());
  bdk_sync_time b := Ok b; bdk_sync _ h := (Ok (), Some h);
|}.
Definition example_finish (b : option Z) (ops : list (@TxOp example_rate example_bdk)) :
    result string (nat * ()) * option Z := (Ok (length ops, ()), b).
Definition example_builder : @BdkBuilder example_rate example_bdk :=
  @Build_BdkBuilder example_rate example_bdk example_finish.
Lemma example_bdk_laws : @BdkLaws example_rate example_bdk.
Proof. split. by intros b h b' [= <-]. Qed.

Section Instances.
#[local] Existing Instance example_rate.
#[local] Existing Instance example_bdk.
#[local] Existing Instance example_builder.
#[local] Existing Instance example_bdk_laws.

Definition example_client : bitcoind :=
  mk_bitcoind (Ok (mk_info 100 100 (10 * 604800) true)) (Ok (Some 100)) priorities_new [].
Definition example_wallet : wallet := mk_wallet (B:=example_bdk) (Some 90) Free example_client.

Lemma transfer_broadcasts_what_it_signed_witness :
  let w := snd (transfer (B:=example_bdk) (H:={| overflow_checks := true |}) Bitcoin (10 * 604800) Bitcoin 5000
                  (Some Urgent) (Some 6) [] example_wallet) in
  broadcast (bitcoind_client w) = [5%nat].
Proof.
  destruct (transfer_broadcasts_what_it_signed (B:=example_bdk) (H:={| overflow_checks := true |}) Bitcoin
              (10 * 604800) Bitcoin 5000 (Some Urgent) (Some 6) [] example_wallet _ _ (surjective_pairing _))
    as [(tx & d & height & current & script & Htx & _ & _ & _ & _ & _ & Hb)|[Hno _]].
  - vm_compute in Htx. injection Htx as <- _. exact Hb.
  - destruct (Hno _ eq_refl).
Defined.

Lemma transfer_min_conf_witness :
  let w := snd (transfer (B:=example_bdk) (H:={| overflow_checks := true |}) Bitcoin (10 * 604800) Bitcoin 5000
                  None (Some 101) [] example_wallet) in
  wallet_lock w = Poisoned.
Proof.
  refine (proj1 (proj2 (transfer_min_conf (B:=example_bdk) (H:={| overflow_checks := true |}) Bitcoin
            (10 * 604800) Bitcoin 5000 None 101 [] example_wallet 100 Bitcoin
            _ _ eq_refl eq_refl eq_refl eq_refl eq_refl))); split; lia.
Defined.

Lemma sync_round_only_forward_witness :
  synced (snd (sync_round (Ok 100) example_wallet)) = true.
Proof.
  exact (sync_round_only_forward (B:=example_bdk) 100 (Some 90) example_wallet _ _ eq_refl eq_refl eq_refl
           (surjective_pairing _) eq_refl).
Defined.
End Instances.
