(* ===== verification/Ldk.v ===== *)
(** * The types of [lightning], [lightning_invoice] and [bitcoin] that the node stores

    Keys, addresses, invoices, channel details, monitors and descriptors belong to libraries
    outside src/. They are abstract here, with the accessors and the codecs the node calls
    ([LdkTypes]) and the documented behaviour of those codecs ([LdkLaws]): what was written is
    read back, and ids have 32 bytes. Hashes, preimages, secrets, payment ids, channel ids and
    transaction ids are the bytes they wrap. *)

From S2P Require Import NetAddress Prelude.

(** A result of [MaybeReadable::read]: an unknown variant of a known type is [None]. *)
Abbreviation maybe A := (result string (option A)).

Class LdkTypes := {
  PublicKey : Type;
  pk_encode : PublicKey → bytes;
  pk_from_slice : bytes → result string PublicKey;
  (** [NodeId::from_pubkey(..).encode()]. *)
  node_id_encode : PublicKey → bytes;
  pk_to_string : PublicKey → string;
  id_to_string : bytes → string;

  SocketAddress : Type;
  addr_encode : SocketAddress → bytes;
  addr_read : bytes → maybe SocketAddress;
  (** The variant of an address, and the address of a variant. *)
  addr_view : SocketAddress → NetAddress.SocketAddress;
  addr_make : NetAddress.SocketAddress → SocketAddress;

  Bolt11Invoice : Type;
  bolt11_to_string : Bolt11Invoice → string;
  bolt11_from_str : string → result string Bolt11Invoice;
  check_signature : Bolt11Invoice → result string ();
  payment_hash_of : Bolt11Invoice → bytes;
  payment_secret_of : Bolt11Invoice → bytes;
  amount_milli_satoshis : Bolt11Invoice → option Z;
  expiry_time_secs : Bolt11Invoice → Z;
  bolt11_timestamp : Bolt11Invoice → Z;
  (** The fields of the raw, signed invoice. *)
  raw_expiry_time : Bolt11Invoice → option Z;
  raw_recover_payee_pub_key : Bolt11Invoice → result string PublicKey;
  raw_amount_pico_btc : Bolt11Invoice → option Z;
  raw_payment_hash : Bolt11Invoice → option bytes;

  HTLCDestination : Type;
  htlc_write : HTLCDestination → bytes;
  htlc_read : bytes → maybe HTLCDestination;

  ChannelDetails : Type;
  cd_channel_id : ChannelDetails → bytes;
  cd_short_channel_id : ChannelDetails → option Z;
  cd_node_id : ChannelDetails → PublicKey;
  cd_is_usable : ChannelDetails → bool;
  cd_is_public : ChannelDetails → bool;
  (** [detail.is_usable = b]. *)
  cd_set_usable : bool → ChannelDetails → ChannelDetails;
  cd_encode : ChannelDetails → bytes;
  cd_read : bytes → maybe ChannelDetails;

  (** The part of a spendable output descriptor the node does not look at. *)
  DescriptorRest : Type;
  ChannelMonitor : Type;
  BlockHash : Type;
  monitor_write : ChannelMonitor → bytes;
  monitor_read : bytes → result string (BlockHash * ChannelMonitor);
  get_funding_txo : ChannelMonitor → bytes * Z;
  get_latest_update_id : ChannelMonitor → Z;
  (** [OutPoint::write]: the transaction id and the index. *)
  out_point_write : bytes * Z → bytes;
}.

(** [SpendableOutputDescriptor], with the fields the node reads. *)
Inductive SpendableOutputDescriptor `{LdkTypes} :=
| StaticOutput (txid : bytes) (index value : Z) (rest : DescriptorRest)
| DelayedPaymentOutput (txid : bytes) (index value : Z) (rest : DescriptorRest)
| StaticPaymentOutput (txid : bytes) (index value : Z) (rest : DescriptorRest).

Class DescriptorCodec `{LdkTypes} := {
  descriptor_write : SpendableOutputDescriptor → result string bytes;
  descriptor_read : bytes → maybe SpendableOutputDescriptor;
}.

Definition is_id (b : bytes) : Prop := length b = 32%nat.
#[global] Instance is_id_dec b : Decision (is_id b) := _.

Class LdkLaws `{LdkTypes} := {
  PublicKey_eq_dec :: EqDecision PublicKey;
  pk_roundtrip : ∀ k, pk_from_slice (pk_encode k) = Ok k;
  node_id_is_pk : ∀ k, node_id_encode k = pk_encode k;
  addr_roundtrip : ∀ a, addr_read (addr_encode a) = Ok (Some a);
  bolt11_roundtrip : ∀ i, bolt11_from_str (bolt11_to_string i) = Ok i;
  payment_hash_id : ∀ i, is_id (payment_hash_of i);
  payment_secret_id : ∀ i, is_id (payment_secret_of i);
  raw_payment_hash_of : ∀ i h, raw_payment_hash i = Some h → h = payment_hash_of i;
  htlc_roundtrip : ∀ d, htlc_read (htlc_write d) = Ok (Some d);
  channel_id_id : ∀ d, is_id (cd_channel_id d);
  cd_roundtrip : ∀ d, cd_read (cd_encode d) = Ok (Some d);
  set_usable_usable : ∀ b d, cd_is_usable (cd_set_usable b d) = b;
  set_usable_id : ∀ b d, cd_channel_id (cd_set_usable b d) = cd_channel_id d;
  set_usable_node : ∀ b d, cd_node_id (cd_set_usable b d) = cd_node_id d;
  set_usable_same : ∀ d, cd_set_usable (cd_is_usable d) d = d;
  monitor_roundtrip : ∀ m, ∃ h, monitor_read (monitor_write m) = Ok (h, m);
  funding_txid_id : ∀ m, is_id (get_funding_txo m).1;
  funding_index_u16 : ∀ m, u16 (get_funding_txo m).2;
  out_point_bytes : ∀ t i, is_id t → u16 i →
    ∃ hi lo, out_point_write (t, i) = t ++ [hi; lo] ∧
      Z.of_N (Byte.to_N hi) * 256 + Z.of_N (Byte.to_N lo) = i;
}.

(** ** A small instance to compute with *)

Definition flag (b : bool) : byte := if b then x01 else x00.
Definition unflag (x : byte) : bool := bool_decide (x = x01).
Definition id_bytes (b : bool) : bytes := replicate 32 (flag b).
Definition byte_of_Z (z : Z) : byte := default x00 (Byte.of_N (Z.to_N z)).

Definition example_ldk : LdkTypes := {|
  PublicKey := bool;
  pk_encode k := [flag k];
  pk_from_slice b := match b with [x] => Ok (unflag x) | _ => Err "malformed public key"%string end;
  node_id_encode k := [flag k];
  pk_to_string k := if k then "02bb"%string else "02aa"%string;
  id_to_string _ := "0101"%string;
  SocketAddress := bool;
  addr_encode a := [flag a];
  addr_read b := match b with [x] => Ok (Some (unflag x)) | _ => Err "io error"%string end;
  addr_view a := if a then TcpIpV4 [127; 0; 0; 1] 9735 else TcpIpV4 [127; 0; 0; 2] 9735;
  addr_make a := bool_decide (a = TcpIpV4 [127; 0; 0; 1] 9735);
  Bolt11Invoice := bool;
  bolt11_to_string i := if i then "lnbc1"%string else "lnbc0"%string;
  bolt11_from_str s :=
    if bool_decide (s = "lnbc1"%string) then Ok true
    else if bool_decide (s = "lnbc0"%string) then Ok false else Err "Bech32 error"%string;
  check_signature _ := Ok ();
  payment_hash_of i := id_bytes i;
  payment_secret_of i := id_bytes i;
  amount_milli_satoshis _ := Some 1000;
  expiry_time_secs _ := 3600;
  bolt11_timestamp _ := 0;
  raw_expiry_time _ := None;
  raw_recover_payee_pub_key _ := Ok false;
  raw_amount_pico_btc _ := Some 10000;
  raw_payment_hash i := Some (id_bytes i);
  HTLCDestination := bool;
  htlc_write d := [flag d];
  htlc_read b := match b with [x] => Ok (Some (unflag x)) | _ => Err "io error"%string end;
  ChannelDetails := bool * bool * bool;
  cd_channel_id d := id_bytes d.1.1;
  cd_short_channel_id d := if d.1.2 then Some 7 else None;
  cd_node_id d := false;
  cd_is_usable d := d.2;
  cd_is_public d := true;
  cd_set_usable b d := (d.1, b);
  cd_encode d := [flag d.1.1; flag d.1.2; flag d.2];
  cd_read b := match b with
               | [x; y; z] => Ok (Some (unflag x, unflag y, unflag z))
               | _ => Err "io error"%string
               end;
  DescriptorRest := bool;
  ChannelMonitor := bool * bool;
  BlockHash := ();
  monitor_write m := [flag m.1; flag m.2];
  monitor_read b := match b with
                    | [x; y] => Ok ((), (unflag x, unflag y))
                    | _ => Err "io error"%string
                    end;
  get_funding_txo m := (id_bytes m.1, 258);
  get_latest_update_id m := if m.2 then 2 else 1;
  out_point_write o := o.1 ++ [byte_of_Z (o.2 / 256); byte_of_Z (o.2 mod 256)];
|}.

Lemma byte_of_Z_value z : 0 ≤ z < 256 → Z.of_N (Byte.to_N (byte_of_Z z)) = z.
Proof.
  intros Hz. unfold byte_of_Z. destruct (Byte.of_N (Z.to_N z)) as [b|] eqn:Hb; simpl.
  - apply Byte.to_of_N in Hb. lia.
  - apply Byte.of_N_None_iff in Hb. lia.
Qed.

Lemma example_ldk_laws : @LdkLaws example_ldk.
Proof.
  split; simpl; try done; try (by intros []); try (by intros [] []); try (exact bool_eq_dec).
  - by intros [] h [= <-].
  - by intros [[[] []] []].
  - intros [[] []]; by eexists.
  - intros t i Ht [Hi0 Hi1]. do 2 eexists. split; [reflexivity|].
    assert (0 ≤ i / 256 < 256) by (split; [apply Z.div_pos; lia|apply Z.div_lt_upper_bound; lia]).
    pose proof (Z.mod_pos_bound i 256 ltac:(lia)).
    rewrite !byte_of_Z_value by lia. pose proof (Z.div_mod i 256 ltac:(lia)). lia.
Defined.

Definition example_descriptors : @DescriptorCodec example_ldk :=
  {| descriptor_write _ := Ok [x01]; descriptor_read _ := Ok None |}.
