(* ===== verification/Payment.v ===== *)
(** * Payments, invoices, forwards and peers (src/kld/src/database/{payment,invoice,forward,peer}.rs)

    The records the node stores about payments, with their constructors, the two transitions of
    a payment ([succeeded], [failed]) and the conversions from database rows. The id of a new
    payment comes from the random generator and its timestamp from the clock: both are
    arguments. *)

From S2P Require Import Prelude Ldk.

(** ** payment.rs *)

Inductive PaymentStatus :=
| Pending | Succeeded | RecipientRejected | UserAbandoned | RetriesExhausted | Expired
| RouteNotFound | Error.
#[global] Instance PaymentStatus_eq_dec : EqDecision PaymentStatus.
Proof. solve_decision. Defined.

Definition payment_status_fmt (s : PaymentStatus) : string :=
  match s with
  | Pending => "pending"
  | Succeeded => "succeeded"
  | RecipientRejected => "recipient rejected"
  | UserAbandoned => "user abandoned"
  | RetriesExhausted => "retries exhausted"
  | Expired => "expired"
  | RouteNotFound => "route not found"
  | Error => "error"
  end.

Inductive PaymentDirection := Inbound | Outbound.
#[global] Instance PaymentDirection_eq_dec : EqDecision PaymentDirection.
Proof. solve_decision. Defined.

Definition payment_direction_fmt (d : PaymentDirection) : string :=
  match d with Inbound => "inbound" | Outbound => "outbound" end.

Definition payment_direction_from_str (s : string) : result string PaymentDirection :=
  if bool_decide (s = "inbound") then Ok Inbound
  else if bool_decide (s = "outbound") then Ok Outbound
  else Err ("unable to deserialize " +:+ s).

(** [lightning::events::PaymentFailureReason]. *)
Inductive PaymentFailureReason :=
| ReasonRecipientRejected | ReasonUserAbandoned | ReasonRetriesExhausted | ReasonPaymentExpired
| ReasonRouteNotFound | ReasonUnexpectedError.

Section Payment.
Context `{LdkTypes}.

Record Payment := mk_payment {
  pay_id : bytes;
  pay_hash : option bytes;
  pay_preimage : option bytes;
  pay_secret : option bytes;
  pay_label : option string;
  pay_status : PaymentStatus;
  pay_amount : Z;
  pay_fee : option Z;
  pay_direction : PaymentDirection;
  pay_timestamp : Z;
  pay_bolt11 : option Bolt11Invoice;
}.

(** ** invoice.rs *)

Record Invoice := mk_invoice {
  inv_payment_hash : bytes;
  inv_label : option string;
  inv_bolt11 : Bolt11Invoice;
  inv_payee_pub_key : PublicKey;
  inv_expiry : option Z;
  inv_amount : option Z;
  inv_timestamp : Z;
  inv_payments : list Payment;
}.

Definition invoice_new (label : option string) (bolt11 : Bolt11Invoice) : result string Invoice :=
  let expiry := raw_expiry_time bolt11 in
  let? payee_pub_key := raw_recover_payee_pub_key bolt11 in
  let amount := (λ a, a / 10) <$> raw_amount_pico_btc bolt11 in
  let timestamp := bolt11_timestamp bolt11 in
  let? payment_hash := ok_or "missing payment hash"%string (raw_payment_hash bolt11) in
  Ok (mk_invoice payment_hash label bolt11 payee_pub_key expiry amount timestamp []).

Definition invoice_try_from (value : string) : result string Invoice :=
  let? bolt11 := bolt11_from_str value in
  let? _ := check_signature bolt11 in
  invoice_new None bolt11.

Definition invoice_deserialize (payment_hash : bytes) (label : option string) (bolt11 : string)
    (payee_pub_key : bytes) (expiry amount : option Z) (timestamp : Z) : result string Invoice :=
  let? bolt11 := bolt11_from_str bolt11 in
  let? payee := pk_from_slice payee_pub_key in
  Ok (mk_invoice payment_hash label bolt11 payee expiry (as_u64 <$> amount) timestamp []).

Definition push_payment (p : Payment) (i : Invoice) : Invoice :=
  mk_invoice (inv_payment_hash i) (inv_label i) (inv_bolt11 i) (inv_payee_pub_key i)
    (inv_expiry i) (inv_amount i) (inv_timestamp i) (inv_payments i ++ [p]).

(** ** The constructors and transitions of a payment *)

Definition spontaneous_inbound (random : bytes) (now : Z) (hash preimage : bytes) (amount : Z) :
    Payment :=
  mk_payment random (Some hash) (Some preimage) None None Pending amount None Inbound now None.

Definition spontaneous_outbound (now : Z) (id : bytes) (amount : Z) : Payment :=
  mk_payment id None None None None Pending amount None Outbound now None.

Definition of_invoice_inbound (random : bytes) (now : Z) (hash : bytes) (preimage : option bytes)
    (secret : bytes) (amount : Z) : Payment :=
  mk_payment random (Some hash) preimage (Some secret) None Succeeded amount None Inbound now None.

Definition of_invoice_outbound (random : bytes) (now : Z) (invoice : Invoice)
    (label : option string) : Payment :=
  mk_payment random (Some (payment_hash_of (inv_bolt11 invoice))) None
    (Some (payment_secret_of (inv_bolt11 invoice))) label Pending
    (default 0 (amount_milli_satoshis (inv_bolt11 invoice))) None Outbound now
    (Some (inv_bolt11 invoice)).

Definition succeeded (hash preimage : bytes) (fee : option Z) (p : Payment) : Payment :=
  mk_payment (pay_id p) (Some hash) (Some preimage) (pay_secret p) (pay_label p) Succeeded
    (pay_amount p) fee (pay_direction p) (pay_timestamp p) (pay_bolt11 p).

Definition failed (reason : option PaymentFailureReason) (p : Payment) : Payment :=
  let status := match reason with
                | Some ReasonRecipientRejected => RecipientRejected
                | Some ReasonUserAbandoned => UserAbandoned
                | Some ReasonRetriesExhausted => RetriesExhausted
                | Some ReasonPaymentExpired => Expired
                | Some ReasonRouteNotFound => RouteNotFound
                | _ => Error
                end in
  mk_payment (pay_id p) (pay_hash p) (pay_preimage p) (pay_secret p) (pay_label p) status
    (pay_amount p) (pay_fee p) (pay_direction p) (pay_timestamp p) (pay_bolt11 p).

(** A row of [payments] (the columns the code writes) and, from the join, the text of the
    invoice with the same hash. *)
Record payment_row := mk_payment_row {
  pr_id : bytes;
  pr_hash : option bytes;
  pr_preimage : option bytes;
  pr_secret : option bytes;
  pr_label : option string;
  pr_status : PaymentStatus;
  pr_amount : Z;
  pr_fee : option Z;
  pr_direction : PaymentDirection;
  pr_timestamp : Z;
}.

(** [bytes.try_into()] to an array of 32 bytes. *)
Definition id_of_slice (msg : string) (b : bytes) : result string bytes :=
  if decide (is_id b) then Ok b else Err msg.
Definition id_of_slice_opt (msg : string) (o : option bytes) : result string (option bytes) :=
  match o with Some b => result_map Some (id_of_slice msg b) | None => Ok None end.

Definition payment_try_from (row : payment_row) (bolt11 : option string) :
    result string Payment :=
  let? hash := id_of_slice_opt "bad hash" (pr_hash row) in
  let? preimage := id_of_slice_opt "bad preimage" (pr_preimage row) in
  let? secret := id_of_slice_opt "bad secret" (pr_secret row) in
  let? id := id_of_slice "bad ID" (pr_id row) in
  (* [row.get("bolt11")] is a [&str]: reading NULL panics. *)
  let? text := expect "error retrieving column bolt11: a Postgres value was `NULL`" bolt11 in
  let bolt11 := match bolt11_from_str text with Ok b => Some b | _ => None end in
  Ok (mk_payment id hash preimage secret (pr_label row) (pr_status row) (as_u64 (pr_amount row))
        (as_u64 <$> pr_fee row) (pr_direction row) (pr_timestamp row) bolt11).

(** ** forward.rs *)

Inductive ForwardStatus := ForwardSucceeded | ForwardFailed.
#[export] Instance ForwardStatus_eq_dec : EqDecision ForwardStatus.
Proof. solve_decision. Defined.

Record Forward := mk_forward {
  fw_id : bytes;
  fw_inbound_channel_id : bytes;
  fw_outbound_channel_id : option bytes;
  fw_amount : option Z;
  fw_fee : option Z;
  fw_status : ForwardStatus;
  fw_htlc_destination : option HTLCDestination;
  fw_timestamp : Z;
}.

Definition forward_success (uuid : bytes) (now : Z) (inbound outbound : bytes) (amount fee : Z) :
    Forward :=
  mk_forward uuid inbound (Some outbound) (Some amount) (Some fee) ForwardSucceeded None now.

Definition forward_failure (uuid : bytes) (now : Z) (inbound : bytes) (d : HTLCDestination) :
    Forward :=
  mk_forward uuid inbound None None None ForwardFailed (Some d) now.

Record forward_row := mk_forward_row {
  fr_id : bytes;
  fr_inbound_channel_id : bytes;
  fr_outbound_channel_id : option bytes;
  fr_amount : option Z;
  fr_fee : option Z;
  fr_status : ForwardStatus;
  fr_htlc_destination : option bytes;
  fr_timestamp : Z;
}.

(** [RowExt::read_optional]: NULL is [None], anything else must be readable. *)
Definition read_column {A} (column : string) (read : bytes → maybe A) (b : bytes) :
    result string A :=
  let? o := read b in
  ok_or ("expected readable value for column " +:+ column)%string o.
Definition read_optional {A} (column : string) (read : bytes → maybe A) (o : option bytes) :
    result string (option A) :=
  match o with Some b => result_map Some (read_column column read b) | None => Ok None end.

Definition forward_try_from (row : forward_row) : result string Forward :=
  let? outbound := id_of_slice_opt "could not convert slice to array" (fr_outbound_channel_id row) in
  let? inbound := id_of_slice "could not convert slice to array" (fr_inbound_channel_id row) in
  let? d := read_optional "htlc_destination" htlc_read (fr_htlc_destination row) in
  Ok (mk_forward (fr_id row) inbound outbound (as_u64 <$> fr_amount row) (as_u64 <$> fr_fee row)
        (fr_status row) d (fr_timestamp row)).

Record TotalForwards := mk_total { tf_count : Z; tf_amount : Z; tf_fee : Z }.

Definition total_forwards_from (count amount fee : Z) : TotalForwards :=
  mk_total (as_u64 count) (as_u64 amount) (as_u64 fee).

(** ** peer.rs *)

Record Peer := mk_peer { peer_public_key : PublicKey; peer_address : SocketAddress }.

Definition peer_deserialize (public_key net_address : bytes) : result string Peer :=
  let? public_key := pk_from_slice public_key in
  let? o := addr_read net_address in
  let? address := ok_or "Error parsing address"%string o in
  Ok (mk_peer public_key address).
End Payment.
