(* ===== verification/LdkDatabase.v ===== *)
(** * The node's tables (src/kld/src/database/ldk_database.rs, mod.rs)

    [LdkDatabase] keeps peers, channels, spendable outputs, invoices, payments, forwards, the
    channel manager, the channel monitors and the scorer in the tables of
    src/kld/src/database/sql/V1, V3-V10. Every method is a definition under its own name; the
    server's clock ([current_timestamp()]) and the node's ([microsecond_timestamp()]) are the
    argument [now]. The writes that run as spawned tasks (channel monitors, the channel
    manager, the scorer) are steps of a small scheduler at the end of the file. *)

From S2P Require Import Prelude Sql Ldk Payment.

(** ** The tables *)

Record peer_row := mk_peer_row { pe_public_key : bytes; pe_address : bytes }.
Record initializing_row := mk_initializing {
  ic_id : bytes; ic_counterparty : bytes; ic_is_public : bool; ic_channel_id : option bytes;
  ic_status : option string; ic_txid : bytes; ic_vout : option Z; ic_open_timestamp : Z;
  ic_update_timestamp : Z;
}.
Record channel_row := mk_channel {
  ch_id : bytes; ch_counterparty : bytes; ch_data_version : Z; ch_short_channel_id : option Z;
  ch_is_usable : bool; ch_is_public : bool; ch_data : option bytes; ch_open_timestamp : Z;
  ch_update_timestamp : Z; ch_closure_reason : option string;
}.
Record output_row := mk_output {
  ou_txid : bytes; ou_index : Z; ou_value : Z; ou_channel_id : option bytes; ou_data : bytes;
  ou_is_spent : bool; ou_timestamp : Z;
}.
Record invoice_row := mk_invoice_row {
  iv_payment_hash : bytes; iv_label : option string; iv_expiry : option Z;
  iv_payee_pub_key : bytes; iv_amount : option Z; iv_bolt11 : string; iv_timestamp : Z;
}.
Record manager_row := mk_manager { mg_id : string; mg_manager : bytes; mg_timestamp : Z }.
Record monitor_row := mk_monitor {
  mo_out_point : bytes; mo_update_id : Z; mo_monitor : bytes; mo_timestamp : Z;
}.
Record scorer_row := mk_scorer { sc_id : string; sc_scorer : bytes; sc_timestamp : Z }.

Record ldk_tables := mk_ldk {
  peers : list peer_row;
  initializing_channels : list initializing_row;
  channels : list channel_row;
  spendable_outputs : list output_row;
  invoices : list invoice_row;
  payments : list payment_row;
  forwards : list forward_row;
  channel_manager : list manager_row;
  channel_monitors : list monitor_row;
  scorer : list scorer_row;
}.
Definition empty_ldk : ldk_tables := mk_ldk [] [] [] [] [] [] [] [] [] [].

Definition peer_key (r : peer_row) : bytes * bytes := (pe_public_key r, pe_address r).
Definition output_key (r : output_row) : bytes * Z := (ou_txid r, ou_index r).

Definition set_peers l (t : ldk_tables) :=
  mk_ldk l (initializing_channels t) (channels t) (spendable_outputs t) (invoices t) (payments t)
    (forwards t) (channel_manager t) (channel_monitors t) (scorer t).
Definition set_initializing l (t : ldk_tables) :=
  mk_ldk (peers t) l (channels t) (spendable_outputs t) (invoices t) (payments t)
    (forwards t) (channel_manager t) (channel_monitors t) (scorer t).
Definition set_channels l (t : ldk_tables) :=
  mk_ldk (peers t) (initializing_channels t) l (spendable_outputs t) (invoices t) (payments t)
    (forwards t) (channel_manager t) (channel_monitors t) (scorer t).
Definition set_outputs l (t : ldk_tables) :=
  mk_ldk (peers t) (initializing_channels t) (channels t) l (invoices t) (payments t)
    (forwards t) (channel_manager t) (channel_monitors t) (scorer t).
Definition set_invoices l (t : ldk_tables) :=
  mk_ldk (peers t) (initializing_channels t) (channels t) (spendable_outputs t) l (payments t)
    (forwards t) (channel_manager t) (channel_monitors t) (scorer t).
Definition set_payments l (t : ldk_tables) :=
  mk_ldk (peers t) (initializing_channels t) (channels t) (spendable_outputs t) (invoices t) l
    (forwards t) (channel_manager t) (channel_monitors t) (scorer t).
Definition set_forwards l (t : ldk_tables) :=
  mk_ldk (peers t) (initializing_channels t) (channels t) (spendable_outputs t) (invoices t)
    (payments t) l (channel_manager t) (channel_monitors t) (scorer t).
Definition set_manager l (t : ldk_tables) :=
  mk_ldk (peers t) (initializing_channels t) (channels t) (spendable_outputs t) (invoices t)
    (payments t) (forwards t) l (channel_monitors t) (scorer t).
Definition set_monitors l (t : ldk_tables) :=
  mk_ldk (peers t) (initializing_channels t) (channels t) (spendable_outputs t) (invoices t)
    (payments t) (forwards t) (channel_manager t) l (scorer t).
Definition set_scorer l (t : ldk_tables) :=
  mk_ldk (peers t) (initializing_channels t) (channels t) (spendable_outputs t) (invoices t)
    (payments t) (forwards t) (channel_manager t) (channel_monitors t) l.

(** An [anyhow::Error] of this file: the driver's, or a text. *)
Inductive db_error :=
| Sql (e : sql_error)
| Text (msg : string).

Definition ldkm (A : Type) : Type := cmd (conn ldk_tables) db_error A.

Definition db_execute (s : ldk_tables → result sql_error ldk_tables) : ldkm () :=
  cmd_map_err Sql (execute s).
Definition db_query `{Driver} {R} (s : ldk_tables → list R) : ldkm (list R) :=
  cmd_map_err Sql (query s).
(** [query_opt] and [query_one]. *)
Definition db_query_opt `{Driver} {R} (s : ldk_tables → list R) : ldkm (option R) :=
  let* rows := db_query s in cmd_lift (map_err Sql (query_opt rows)).
Definition db_query_one `{Driver} {R} (s : ldk_tables → list R) : ldkm R :=
  let* rows := db_query s in cmd_lift (map_err Sql (query_one rows)).

(** A conversion of a row with an [anyhow] message. *)
Definition text {A} (r : result string A) : result db_error A := map_err Text r.

Section Database.
Context `{Driver, LdkTypes, DescriptorCodec}.

(** ** mod.rs *)

Definition open_channel_count : ldkm Z :=
  db_query_one (λ t, [Z.of_nat (length (where_ ch_is_usable (channels t)))]).

Definition fetch_scorer_update_time : ldkm Z :=
  cmd_map sc_timestamp (db_query_one scorer).

(** ** Peers *)

Definition is_first_start : ldkm bool :=
  cmd_map (λ o, bool_decide (o = None))
    (db_query_opt (λ t, (λ _, true) <$> channel_manager t)).

Definition persist_peer (peer : Peer) : ldkm () :=
  let r := mk_peer_row (pk_encode (peer_public_key peer)) (addr_encode (peer_address peer)) in
  db_execute (λ t, Ok (set_peers (upsert (has_key peer_key (peer_key r)) r (peers t)) t)).

Definition fetch_peer (public_key : PublicKey) : ldkm (option Peer) :=
  let* row := db_query_opt (λ t, where_ (has_key pe_public_key (pk_encode public_key)) (peers t)) in
  match row with
  | Some row =>
      cmd_lift (result_map Some (text (peer_deserialize (pe_public_key row) (pe_address row))))
  | None => cmd_ret None
  end.

Definition fetch_peers `{EqDecision PublicKey} : ldkm (list (PublicKey * SocketAddress)) :=
  let fix go rows m :=
    match rows with
    | [] => Ok m
    | row :: rows =>
        let? peer := text (peer_deserialize (pe_public_key row) (pe_address row)) in
        go rows (hm_insert (peer_public_key peer) (peer_address peer) m)
    end in
  let* rows := db_query peers in
  cmd_lift (go rows []).

Definition delete_peer (public_key : PublicKey) : ldkm () :=
  db_execute (λ t,
    Ok (set_peers (delete_where (has_key pe_public_key (pk_encode public_key)) (peers t)) t)).

(** ** Channels that are being opened *)

Definition persist_initializing_channel (now : Z) (initializing_channel_id : bytes)
    (is_public : bool) (counterparty : PublicKey) (txid : bytes) : ldkm () :=
  let r := mk_initializing initializing_channel_id (pk_encode counterparty) is_public None None
             txid None now now in
  db_execute (λ t,
    result_map (λ l, set_initializing l t)
      (insert_pk "initializing_channels" (has_key ic_id initializing_channel_id) r
         (initializing_channels t))).

Definition update_initializing_channel (now : Z) (initializing_channel_id : bytes)
    (channel_id_with_vout : option (bytes * Z)) (status : option string) : ldkm () :=
  match channel_id_with_vout with
  | Some (channel_id, vout) =>
      let status := match status with
                    | Some status => status
                    | None => "Updated by ChannelPending Event"%string
                    end in
      db_execute (λ t, Ok (set_initializing
        (update_where (has_key ic_id initializing_channel_id)
           (λ r, mk_initializing (ic_id r) (ic_counterparty r) (ic_is_public r)
                   (Some channel_id) (Some status) (ic_txid r) (Some (as_i32 vout))
                   (ic_open_timestamp r) now)
           (initializing_channels t)) t))
  | None =>
      match status with
      | Some status =>
          db_execute (λ t, Ok (set_initializing
            (update_where (has_key ic_id initializing_channel_id)
               (λ r, mk_initializing (ic_id r) (ic_counterparty r) (ic_is_public r)
                       (ic_channel_id r) (Some status) (ic_txid r) (ic_vout r)
                       (ic_open_timestamp r) now)
               (initializing_channels t)) t))
      | None => cmd_ret ()
      end
  end.

(** ** Channels *)

Definition create_channel (now : Z) (channel_id : bytes) (is_public : bool)
    (counterparty : PublicKey) : ldkm () :=
  let r := mk_channel channel_id (pk_encode counterparty) 0 None false is_public None now now
             None in
  db_execute (λ t,
    result_map (λ l, set_channels l t)
      (insert_pk "channels" (has_key ch_id channel_id) r (channels t))).

Definition persist_channel (now : Z) (channel : ChannelDetails) : ldkm () :=
  let id := cd_channel_id channel in
  let counterparty := node_id_encode (cd_node_id channel) in
  match cd_short_channel_id channel with
  | Some scid =>
      db_execute (λ t, Ok (set_channels
        (upsert_with (has_key ch_id id)
           (λ r, mk_channel (ch_id r) counterparty (ch_data_version r) (Some (as_i64 scid))
                   (cd_is_usable channel) (cd_is_public channel) (Some (cd_encode channel))
                   (ch_open_timestamp r) now (ch_closure_reason r))
           (mk_channel id counterparty 0 (Some (as_i64 scid)) (cd_is_usable channel)
              (cd_is_public channel) (Some (cd_encode channel)) now now None)
           (channels t)) t))
  | None =>
      db_execute (λ t, Ok (set_channels
        (upsert_with (has_key ch_id id)
           (λ r, mk_channel (ch_id r) counterparty (ch_data_version r) (ch_short_channel_id r)
                   (cd_is_usable channel) (cd_is_public channel) (Some (cd_encode channel))
                   (ch_open_timestamp r) now (ch_closure_reason r))
           (mk_channel id counterparty 0 None (cd_is_usable channel)
              (cd_is_public channel) (Some (cd_encode channel)) now now None)
           (channels t)) t))
  end.

Definition close_channel (now : Z) (channel_id : bytes) (closure_reason : string) : ldkm () :=
  db_execute (λ t, Ok (set_channels
    (update_where (has_key ch_id channel_id)
       (λ r, mk_channel (ch_id r) (ch_counterparty r) (ch_data_version r) (ch_short_channel_id r)
               false (ch_is_public r) (ch_data r) (ch_open_timestamp r) now (Some closure_reason))
       (channels t)) t)).

Record ChannelRecord := mk_channel_record {
  cr_channel_id : string;
  cr_counterparty : string;
  cr_open_timestamp : Z;
  cr_update_timestamp : Z;
  cr_closure_reason : option string;
  cr_detail : option ChannelDetails;
}.

(** A closed channel in the history; a row without details is left out. *)
Definition history_record (row : channel_row) : result db_error (list ChannelRecord) :=
  let? detail := text (read_optional "data" cd_read (ch_data row)) in
  match detail with
  | Some detail =>
      let detail := cd_set_usable false detail in
      Ok [mk_channel_record (id_to_string (cd_channel_id detail))
            (pk_to_string (cd_node_id detail)) (ch_open_timestamp row)
            (ch_update_timestamp row) (ch_closure_reason row) (Some detail)]
  | None => Ok []
  end.

Definition fetch_channel_history : ldkm (list ChannelRecord) :=
  let* rows := db_query (λ t, where_ (λ r, negb (ch_is_usable r)) (channels t)) in
  cmd_lift (result_map (@concat _) (result_mapM history_record rows)).

(** [row.read::<[u8; 32]>(..)] reads the first 32 bytes. *)
Definition read_array32 (b : bytes) : result string bytes :=
  if bool_decide (32 ≤ length b)%nat then Ok (firstn 32 b) else Err "A read of data ended early"%string.

Definition channel_record (row : channel_row) : result db_error ChannelRecord :=
  let? detail := text (read_optional "data" cd_read (ch_data row)) in
  let detail := cd_set_usable (ch_is_usable row) <$> detail in
  let? counterparty := text (pk_from_slice (ch_counterparty row)) in
  let? id := text (read_array32 (ch_id row)) in
  Ok (mk_channel_record (id_to_string id) (pk_to_string counterparty) (ch_open_timestamp row)
        (ch_update_timestamp row) (ch_closure_reason row) detail).

Definition fetch_channels : ldkm (list ChannelRecord) :=
  let* rows := db_query channels in
  cmd_lift (result_mapM channel_record rows).

(** ** Spendable outputs *)

Record SpendableOutputRecord := mk_output_record {
  or_descriptor : SpendableOutputDescriptor;
  or_is_spent : bool;
}.

Definition descriptor_parts (d : SpendableOutputDescriptor) : bytes * Z * Z :=
  match d with
  | StaticOutput txid index value _ => (txid, index, value)
  | DelayedPaymentOutput txid index value _ => (txid, index, value)
  | StaticPaymentOutput txid index value _ => (txid, index, value)
  end.

Definition persist_spendable_output (now : Z) (descriptor : SpendableOutputDescriptor)
    (channel_id : option bytes) (is_spent : bool) : ldkm () :=
  let '(txid, index, value) := descriptor_parts descriptor in
  let* data := cmd_lift (text (descriptor_write descriptor)) in
  let r := mk_output txid (as_i16 index) (as_i64 value) channel_id data is_spent now in
  match channel_id with
  | Some channel_id =>
      db_execute (λ t, Ok (set_outputs
        (upsert_with (has_key output_key (output_key r))
           (λ o, mk_output (ou_txid o) (ou_index o) (as_i64 value) (Some channel_id) data is_spent
                   (ou_timestamp o)) r (spendable_outputs t)) t))
  | None =>
      db_execute (λ t, Ok (set_outputs
        (upsert_with (has_key output_key (output_key r))
           (λ o, mk_output (ou_txid o) (ou_index o) (as_i64 value) (ou_channel_id o) data is_spent
                   (ou_timestamp o)) r (spendable_outputs t)) t))
  end.

Definition fetch_spendable_outputs : ldkm (list SpendableOutputRecord) :=
  let* rows := db_query spendable_outputs in
  cmd_lift (result_mapM (λ row,
    let? descriptor := text (read_column "data" descriptor_read (ou_data row)) in
    Ok (mk_output_record descriptor (ou_is_spent row))) rows).

(** ** Invoices and payments *)

(** [ADD CONSTRAINT unique_label UNIQUE (label)]: NULL labels do not collide. *)
Definition label_taken (r : invoice_row) (l : list invoice_row) : bool :=
  existsb (λ r', bool_decide (iv_label r ≠ None ∧ iv_label r' = iv_label r ∧
                              iv_payment_hash r' ≠ iv_payment_hash r)) l.

Definition row_of_invoice (invoice : Invoice) : invoice_row :=
  mk_invoice_row (inv_payment_hash invoice) (inv_label invoice)
    (Some (as_i64 (expiry_time_secs (inv_bolt11 invoice))))
    (pk_encode (inv_payee_pub_key invoice)) (as_i64 <$> inv_amount invoice)
    (bolt11_to_string (inv_bolt11 invoice)) (inv_timestamp invoice).

Definition persist_invoice (invoice : Invoice) : ldkm () :=
  let r := row_of_invoice invoice in
  db_execute (λ t,
    if label_taken r (invoices t) then Err (Constraint "unique_label")
    else Ok (set_invoices (upsert (has_key iv_payment_hash (iv_payment_hash r)) r (invoices t)) t)).

(** [invoices i LEFT OUTER JOIN payments p ON i.payment_hash = p.hash]. *)
Definition invoices_payments (t : ldk_tables) : list (invoice_row * option payment_row) :=
  flat_map (λ i, match where_ (has_key pr_hash (Some (iv_payment_hash i))) (payments t) with
                 | [] => [(i, None)]
                 | ps => (λ p, (i, Some p)) <$> ps
                 end) (invoices t).

(** The body of the loop of [fetch_invoices]: one row of the join goes into the map. *)
Definition add_invoice_row (m : list (bytes * Invoice)) (row : invoice_row * option payment_row) :
    result db_error (list (bytes * Invoice)) :=
  let '(i, p) := row in
  let? payment_hash := text (id_of_slice "could not convert slice to array" (iv_payment_hash i)) in
  let? payment := match p with
                  | Some p => result_map Some (text (payment_try_from p (Some (iv_bolt11 i))))
                  | None => Ok None
                  end in
  match hm_get payment_hash m with
  | Some invoice =>
      match payment with
      | Some payment => Ok (hm_insert payment_hash (push_payment payment invoice) m)
      | None => Ok m
      end
  | None =>
      let? invoice := text (invoice_deserialize payment_hash (iv_label i) (iv_bolt11 i)
                              (iv_payee_pub_key i) (as_u64 <$> iv_expiry i) (iv_amount i)
                              (iv_timestamp i)) in
      let invoice := match payment with
                     | Some payment => push_payment payment invoice
                     | None => invoice
                     end in
      Ok (hm_insert (inv_payment_hash invoice) invoice m)
  end.

Fixpoint add_invoice_rows (rows : list (invoice_row * option payment_row))
    (m : list (bytes * Invoice)) : result db_error (list (bytes * Invoice)) :=
  match rows with
  | [] => Ok m
  | row :: rows => let? m := add_invoice_row m row in add_invoice_rows rows m
  end.

Definition fetch_invoices `{HashOrder} (label : option string) : ldkm (list Invoice) :=
  let* rows := db_query (λ t,
    where_ (λ '(i, _), match label with
                       | Some label => bool_decide (iv_label i = Some label)
                       | None => true
                       end) (invoices_payments t)) in
  cmd_lift (result_map (λ m, hash_order (snd <$> m)) (add_invoice_rows rows [])).

Definition row_of_payment (payment : Payment) : payment_row :=
  mk_payment_row (pay_id payment) (pay_hash payment) (pay_preimage payment) (pay_secret payment)
    (pay_label payment) (pay_status payment) (as_i64 (pay_amount payment))
    (as_i64 <$> pay_fee payment) (pay_direction payment) (pay_timestamp payment).

Definition persist_payment (payment : Payment) : ldkm () :=
  let r := row_of_payment payment in
  db_execute (λ t, Ok (set_payments (upsert (has_key pr_id (pr_id r)) r (payments t)) t)).

(** [payments p LEFT OUTER JOIN invoices i ON p.hash = i.payment_hash]. *)
Definition payment_bolt11s (t : ldk_tables) (p : payment_row) : list (payment_row * option string) :=
  match where_ (λ i, bool_decide (pr_hash p = Some (iv_payment_hash i))) (invoices t) with
  | [] => [(p, None)]
  | found => (λ i, (p, Some (iv_bolt11 i))) <$> found
  end.

Definition fetch_payments (payment_hash : option bytes) (direction : option PaymentDirection) :
    ldkm (list Payment) :=
  let* rows := db_query (λ t,
    where_ (λ '(p, _),
      match payment_hash with Some h => bool_decide (pr_hash p = Some h) | None => true end &&
      match direction with Some d => bool_decide (pr_direction p = d) | None => true end)
      (flat_map (payment_bolt11s t) (payments t))) in
  cmd_lift (result_mapM (λ '(p, bolt11), text (payment_try_from p bolt11)) rows).

(** ** Forwards *)

Definition row_of_forward (f : Forward) : forward_row :=
  mk_forward_row (fw_id f) (fw_inbound_channel_id f) (fw_outbound_channel_id f)
    (as_i64 <$> fw_amount f) (as_i64 <$> fw_fee f) (fw_status f)
    (htlc_write <$> fw_htlc_destination f) (fw_timestamp f).

Definition persist_forward (forward : Forward) : ldkm () :=
  let r := row_of_forward forward in
  db_execute (λ t, Ok (set_forwards (upsert (has_key fr_id (fr_id r)) r (forwards t)) t)).

(** [ORDER BY timestamp ASC]: insertion sort, which keeps the order of equal timestamps. *)
Fixpoint insert_by_time (r : forward_row) (l : list forward_row) : list forward_row :=
  match l with
  | [] => [r]
  | x :: l => if bool_decide (fr_timestamp r < fr_timestamp x) then r :: x :: l
              else x :: insert_by_time r l
  end.
Definition order_by_time (l : list forward_row) : list forward_row :=
  fold_left (λ acc r, insert_by_time r acc) l [].

Definition fetch_forwards (status : option ForwardStatus) : ldkm (list Forward) :=
  let* rows := db_query (λ t,
    where_ (λ r, match status with
                 | Some s => bool_decide (fr_status r = s)
                 | None => true
                 end) (forwards t)) in
  cmd_lift (result_mapM (λ row, text (forward_try_from row)) (order_by_time rows)).

(** [sum(..)]: NULL amounts do not count; [CAST(.. AS INT)] refuses what INT cannot hold. *)
Definition sql_sum (l : list (option Z)) : Z := foldr (λ o acc, default 0 o + acc) 0 l.
Definition cast_int (z : Z) : result sql_error Z :=
  if bool_decide (i64 z) then Ok z else Err (Fault "integer out of range").

Definition fetch_total_forwards : ldkm TotalForwards :=
  cmd_map_err Sql (statement (λ t,
    let l := where_ (λ r, bool_decide (fr_status r = ForwardSucceeded)) (forwards t) in
    let? amount := cast_int (sql_sum (fr_amount <$> l)) in
    let? fee := cast_int (sql_sum (fr_fee <$> l)) in
    Ok (total_forwards_from (Z.of_nat (length l)) amount fee, t))).

(** ** Channel monitors, the channel manager, the scorer, the graph *)

(** [u16::from_be_bytes(index_bytes.try_into().unwrap())]. *)
Definition u16_of_be (b : bytes) : result string Z :=
  match b with
  | [hi; lo] => Ok (Z.of_N (Byte.to_N hi) * 256 + Z.of_N (Byte.to_N lo))
  | _ => Panic "could not convert slice to array"
  end.

Definition read_monitor (row : monitor_row) : result db_error (BlockHash * ChannelMonitor) :=
  let? txid := (if bool_decide (32 ≤ length (mo_out_point row))%nat
                then Ok (firstn 32 (mo_out_point row)) else Panic "mid > len") in
  let? index := text (u16_of_be (skipn 32 (mo_out_point row))) in
  match monitor_read (mo_monitor row) with
  | Ok (blockhash, monitor) =>
      if bool_decide ((get_funding_txo monitor).1 ≠ txid ∨ (get_funding_txo monitor).2 ≠ index)
      then Err (Text "Unable to find ChannelMonitor")
      else Ok (blockhash, monitor)
  | Err e => Err (Text ("Failed to deserialize ChannelMonitor: " +:+ e))
  | Panic w => Panic w
  end.

Definition fetch_channel_monitors : ldkm (list (BlockHash * ChannelMonitor)) :=
  let* rows := db_query channel_monitors in
  cmd_lift (result_mapM read_monitor rows).

Definition fetch_channel_manager {M} (read : bytes → result string M) : ldkm M :=
  let* row := db_query_one channel_manager in
  cmd_lift (text (read (mg_manager row))).

Definition fetch_scorer {Sc} (read : bytes → option Sc) : ldkm (option (Sc * Z)) :=
  let* row := db_query_opt scorer in
  match row with
  | Some row =>
      cmd_lift (result_map (λ s, Some (s, sc_timestamp row))
                  (expect "Unable to deserialize scorer" (read (sc_scorer row))))
  | None => cmd_ret None
  end.

Definition fetch_scorer_binary : ldkm bytes := cmd_map sc_scorer (db_query_one scorer).
End Database.

(** The file of the network graph: what reading it gives. *)
Inductive file_read := FileBytes (b : bytes) | NotFound | IoError (msg : string).

Definition fetch_graph {G} (read : bytes → result string G) (file : file_read) :
    result string (option G) :=
  match file with
  | FileBytes b => result_map Some (read b)
  | NotFound => Ok None
  | IoError e => Err e
  end.

(** [persist_graph] reports success even when the file could not be written. *)
Definition persist_graph (write : result string bytes) (disk : bytes → result string file_read)
    (file : file_read) : result string () * file_read :=
  match write with
  | Ok buf => match disk buf with Ok file' => (Ok (), file') | _ => (Ok (), file) end
  | Err e => (Err e, file)
  | Panic w => (Panic w, file)
  end.

(** ** Spawned tasks

    The process: the connection, the updates reported to the chain monitor
    ([channel_monitor_updated]), and the tasks the runtime has not run yet. A future does
    nothing until it is polled, so a future is a command that a task may run. *)

Record process := mk_process {
  db : conn ldk_tables;
  completed : list ((bytes * Z) * Z);
  tasks : list (cmd (conn ldk_tables * list ((bytes * Z) * Z)) db_error ());
}.

Definition task : Type := cmd (conn ldk_tables * list ((bytes * Z) * Z)) db_error ().

(** [tokio::spawn(future)] / [Handle::spawn(future)]. *)
Definition spawn (future : task) (p : process) : process :=
  mk_process (db p) (completed p) (tasks p ++ [future]).

(** [Handle::spawn_blocking(closure)]: the task calls the closure and drops the value it
    returns. *)
Definition spawn_blocking {R} (closure : () → R) (p : process) : process :=
  mk_process (db p) (completed p) (tasks p ++ [λ s, let _ := closure () in (Ok (), s)]).

(** A database command inside a task; errors are logged. *)
Definition in_task {A} (m : ldkm A) (ok : task) : task := λ '(c, done),
  match m c with
  | (Ok _, c') => ok (c', done)
  | (_, c') => (Ok (), (c', done))
  end.
Definition log_done : task := cmd_ret ().

Inductive task_step : process → process → Prop :=
| run_task l1 t l2 c done r c' done' :
    t (c, done) = (r, (c', done')) →
    task_step (mk_process c done (l1 ++ t :: l2)) (mk_process c' done' (l1 ++ l2)).

Section Persister.
Context `{LdkTypes}.

(** [persist_manager]: the closure is [async move || { ... }], whose call only builds the
    future. *)
Definition persist_manager (now : Z) (write : result string bytes) (p : process) :
    result string () * process :=
  match write with
  | Ok buf =>
      let row := mk_manager "manager" buf now in
      let future : task := in_task (db_execute (λ t, Ok (set_manager
                             (upsert (has_key mg_id (mg_id row)) row (channel_manager t)) t)))
                             log_done in
      (Ok (), spawn_blocking (λ _, future) p)
  | Err e => (Err e, p)
  | Panic w => (Panic w, p)
  end.

Definition persist_scorer (now : Z) (write : result string bytes) (p : process) :
    result string () * process :=
  match write with
  | Ok buf =>
      let row := mk_scorer "scorer" buf now in
      (Ok (), spawn (in_task (db_execute (λ t, Ok (set_scorer
                               (upsert (has_key sc_id (sc_id row)) row (scorer t)) t))) log_done) p)
  | Err e => (Err e, p)
  | Panic w => (Panic w, p)
  end.

Inductive ChannelMonitorUpdateStatus := Completed | InProgress.

(** The write of a monitor and, when it succeeded, the report to the chain monitor. *)
Definition monitor_task (now : Z) (funding_txo : bytes * Z) (monitor : ChannelMonitor)
    (update_id : Z) : task :=
  let latest_update_id := get_latest_update_id monitor in
  let row := mk_monitor (out_point_write funding_txo) (as_i64 latest_update_id)
               (monitor_write monitor) now in
  in_task (db_execute (λ t, Ok (set_monitors
             (upsert_with (has_key mo_out_point (mo_out_point row))
                (λ r, mk_monitor (mo_out_point r) (as_i64 latest_update_id)
                        (monitor_write monitor) (mo_timestamp r)) row (channel_monitors t)) t)))
    (λ '(c, done), (Ok (), (c, done ++ [(funding_txo, update_id)]))).

Definition persist_new_channel (chain_monitor : bool) (now : Z) (funding_txo : bytes * Z)
    (monitor : ChannelMonitor) (update_id : Z) (p : process) :
    result string ChannelMonitorUpdateStatus * process :=
  if chain_monitor then (Ok InProgress, spawn (monitor_task now funding_txo monitor update_id) p)
  else (Panic "bad initialisation", p).

Definition update_persisted_channel (chain_monitor : bool) (now : Z) (funding_txo : bytes * Z)
    (monitor : ChannelMonitor) (update_id : Z) (p : process) :
    result string ChannelMonitorUpdateStatus * process :=
  persist_new_channel chain_monitor now funding_txo monitor update_id p.
End Persister.

(** ** Running on a connection that works *)

Section Running.
Context {D : Driver} {DL : DriverLaws}.
Implicit Types c : conn ldk_tables.

Lemma db_execute_run s c t :
  online c → s (tables c) = Ok t → db_execute s c = (Ok (), set_tables t c).
Proof. intros Hc Hs. unfold db_execute, cmd_map_err. by rewrite (execute_online _ _ _ Hc Hs). Qed.

Lemma db_execute_err s c e :
  online c → s (tables c) = Err e → db_execute s c = (Err (Sql e), failed_in c).
Proof. intros Hc Hs. unfold db_execute, cmd_map_err. by rewrite (execute_online_err _ _ _ Hc Hs). Qed.

Lemma db_query_run {R} (s : ldk_tables → list R) c :
  online c → db_query s c = (Ok (scan (s (tables c))), c).
Proof. intros Hc. unfold db_query, cmd_map_err. by rewrite query_online. Qed.

Lemma bind_db_query {R A} (s : ldk_tables → list R) (f : list R → ldkm A) c :
  online c → cmd_bind (db_query s) f c = f (scan (s (tables c))) c.
Proof. intros Hc. apply cmd_bind_ok. by apply db_query_run. Qed.

Lemma db_query_opt_run {R} (s : ldk_tables → list R) c :
  online c → db_query_opt s c = (map_err Sql (query_opt (scan (s (tables c)))), c).
Proof. intros Hc. unfold db_query_opt. by rewrite bind_db_query. Qed.

Lemma db_query_one_run {R} (s : ldk_tables → list R) c :
  online c → db_query_one s c = (map_err Sql (query_one (scan (s (tables c)))), c).
Proof. intros Hc. unfold db_query_one. by rewrite bind_db_query. Qed.
End Running.

(** ** The channel manager is never stored *)

Section Manager.
Context {D : Driver} {DL : DriverLaws}.

Lemma persist_manager_spawns now write p :
  ∃ ts, snd (persist_manager now write p) = mk_process (db p) (completed p) (tasks p ++ ts) ∧
    ∀ t, t ∈ ts → ∀ s, t s = (Ok (), s).
Proof.
  destruct write as [buf| |]; simpl.
  - unfold spawn_blocking. eexists. split; [reflexivity|].
    by intros t ->%list_elem_of_singleton s.
  - exists []. rewrite app_nil_r. split; [by destruct p|]. by intros t ?%elem_of_nil.
  - exists []. rewrite app_nil_r. split; [by destruct p|]. by intros t ?%elem_of_nil.
Qed.

(** Every task of the process leaves the database as it is. *)
Definition idle (p : process) : Prop := ∀ t, t ∈ tasks p → ∀ s, t s = (Ok (), s).

Lemma persist_manager_idle now write p :
  idle p → idle (snd (persist_manager now write p)) ∧ db (snd (persist_manager now write p)) = db p.
Proof.
  intros Hp. destruct (persist_manager_spawns now write p) as (ts & -> & Hts). split; [|done].
  intros t Ht. simpl in Ht. apply elem_of_app in Ht as [Ht|Ht]; auto.
Qed.

Lemma idle_step p p' : idle p → task_step p p' → idle p' ∧ db p' = db p.
Proof.
  intros Hp Hs. destruct Hs as [l1 t l2 c done r c' done' Ht].
  rewrite (Hp t) in Ht by (simpl; apply elem_of_app; right; by left).
  injection Ht as <- <- <-. split; [|done]. intros t' Ht'. apply Hp. simpl in *.
  apply elem_of_app in Ht' as [?|?]; apply elem_of_app; [by left|right; by right].
Qed.

Lemma idle_run p p' : rtc task_step p p' → idle p → db p' = db p.
Proof.
  induction 1 as [|p1 p2 p3 Hs _ IH]; [done|]. intros Hi.
  destruct (idle_step _ _ Hi Hs) as [Hi' <-]. auto.
Qed.

(** However often [persist_manager] is called, with whatever bytes, and whatever the
    runtime runs of the tasks it spawned, no channel manager ever reaches the database: the
    closure given to [spawn_blocking] only builds a future, which nobody polls. At the next
    start the node takes it for its first start, and loading the manager fails. *)
Theorem persist_manager_never_stores (calls : list (Z * result string bytes)) p p' M
    (read : bytes → result string M) :
  tasks p = [] → online (db p) → channel_manager (tables (db p)) = [] →
  rtc task_step (fold_left (λ p '(now, write), snd (persist_manager now write p)) calls p) p' →
  fst (is_first_start (db p')) = Ok true ∧
  ∃ e, fst (fetch_channel_manager read (db p')) = Err e.
Proof.
  intros Ht Hon Hempty Hrun.
  assert (idle p) as Hidle by (intros t; rewrite Ht; by intros ?%elem_of_nil).
  assert (db p' = db p) as ->.
  { clear Ht. revert p Hidle Hon Hempty Hrun. induction calls as [|[now write] calls IH]; simpl;
      intros p Hidle Hon Hempty Hrun; [by eapply idle_run|].
    destruct (persist_manager_idle now write p Hidle) as [Hi Hd].
    rewrite <- Hd. apply IH; [done|by rewrite Hd..|done]. }
  unfold is_first_start, fetch_channel_manager. split.
  - unfold cmd_map, cmd_bind. rewrite db_query_opt_run, Hempty by done. simpl.
    by rewrite scan_nil, query_opt_nil.
  - unfold cmd_bind. rewrite db_query_one_run, Hempty, scan_nil by done.
    destruct (query_one_nil (R:=manager_row)) as [e ->]. simpl. by eexists.
Qed.
End Manager.

(** ** Channel monitors *)

Section Monitors.
Context {D : Driver} {DL : DriverLaws} {LT : LdkTypes} {LL : LdkLaws}.
Implicit Types c : conn ldk_tables.

(** A call of [update_persisted_channel] for the monitor's own funding output. *)
Definition monitor_call : Type := Z * ChannelMonitor * Z.

Definition spawn_monitors (calls : list monitor_call) (p : process) : process :=
  fold_left (λ p '(now, m, u),
    snd (update_persisted_channel true now (get_funding_txo m) m u p)) calls p.

Definition call_task (call : monitor_call) : task :=
  let '(now, m, u) := call in monitor_task now (get_funding_txo m) m u.

Lemma spawn_monitors_tasks calls p :
  spawn_monitors calls p = mk_process (db p) (completed p) (tasks p ++ (call_task <$> calls)).
Proof.
  revert p. induction calls as [|[[now m] u] calls IH]; intros p; simpl.
  - rewrite app_nil_r. by destruct p.
  - rewrite IH. simpl. by rewrite <- app_assoc.
Qed.

(** The tasks run one after the other, in the order they were spawned. *)
Fixpoint run_tasks (ts : list task) (s : conn ldk_tables * list ((bytes * Z) * Z)) :=
  match ts with [] => s | t :: ts => run_tasks ts (snd (t s)) end.
Definition run_in_order (p : process) : process :=
  let '(c, done) := run_tasks (tasks p) (db p, completed p) in mk_process c done [].

Lemma run_in_order_steps p : rtc task_step p (run_in_order p).
Proof.
  destruct p as [c done ts]. revert c done. induction ts as [|t ts IH]; intros c done.
  - apply rtc_refl.
  - destruct (t (c, done)) as [r [c' done']] eqn:Ht.
    assert (run_in_order (mk_process c done (t :: ts)) = run_in_order (mk_process c' done' ts)) as ->.
    { unfold run_in_order. simpl. by rewrite Ht. }
    eapply rtc_l; [|apply IH]. by apply (run_task [] t ts c done r).
Qed.

Fixpoint last_call (o : bytes * Z) (calls : list monitor_call) : option ChannelMonitor :=
  match calls with
  | [] => None
  | (_, m, _) :: calls =>
      match last_call o calls with
      | Some m' => Some m'
      | None => if decide (get_funding_txo m = o) then Some m else None
      end
  end.

Lemma last_call_snoc o calls now m u :
  last_call o (calls ++ [(now, m, u)]) =
    if decide (get_funding_txo m = o) then Some m else last_call o calls.
Proof.
  induction calls as [|[[now' m'] u'] calls IH]; simpl; [done|]. rewrite IH.
  by case_decide.
Qed.

Lemma last_call_txo o calls m : last_call o calls = Some m → get_funding_txo m = o.
Proof.
  induction calls as [|[[now' m'] u'] calls IH]; simpl; [done|].
  destruct (last_call o calls) eqn:Hl; [by intros [= ->]; apply IH|]. case_decide; congruence.
Qed.

Lemma out_point_inj m m' :
  out_point_write (get_funding_txo m) = out_point_write (get_funding_txo m') →
  get_funding_txo m = get_funding_txo m'.
Proof.
  pose proof (funding_txid_id m) as Ht. pose proof (funding_index_u16 m) as Hi.
  pose proof (funding_txid_id m') as Ht'. pose proof (funding_index_u16 m') as Hi'.
  destruct (get_funding_txo m) as [t i], (get_funding_txo m') as [t' i']. simpl in *.
  destruct (out_point_bytes t i Ht Hi) as (hi & lo & -> & Hv).
  destruct (out_point_bytes t' i' Ht' Hi') as (hi' & lo' & -> & Hv').
  intros Heq. apply app_inj_1 in Heq as [-> Heq]; [|by rewrite Ht, Ht'].
  injection Heq as -> ->. congruence.
Qed.

(** The rows are the last monitors of their outputs. *)
Record monitors_of (calls : list monitor_call) (rows : list monitor_row) : Prop := {
  mon_pk : pk mo_out_point rows;
  mon_row r : r ∈ rows → ∃ m, mo_out_point r = out_point_write (get_funding_txo m) ∧
    mo_monitor r = monitor_write m ∧ last_call (get_funding_txo m) calls = Some m;
  mon_last o m : last_call o calls = Some m →
    ∃ r, r ∈ rows ∧ mo_out_point r = out_point_write o ∧ mo_monitor r = monitor_write m;
}.

Definition monitor_upsert (call : monitor_call) (rows : list monitor_row) : list monitor_row :=
  let '(now, m, _) := call in
  let row := mk_monitor (out_point_write (get_funding_txo m)) (as_i64 (get_latest_update_id m))
               (monitor_write m) now in
  upsert_with (has_key mo_out_point (mo_out_point row))
    (λ r, mk_monitor (mo_out_point r) (as_i64 (get_latest_update_id m)) (monitor_write m)
            (mo_timestamp r)) row rows.

Lemma monitors_of_upsert calls call rows :
  monitors_of calls rows → monitors_of (calls ++ [call]) (monitor_upsert call rows).
Proof.
  destruct call as [[now m] u]. intros [Hpk Hrow Hlast].
  assert (pk mo_out_point (monitor_upsert (now, m, u) rows)) as Hpk'.
  { apply (pk_upsert_with mo_out_point); [done|done]. }
  assert (∀ k, pk_find mo_out_point k (monitor_upsert (now, m, u) rows) =
    if decide (k = out_point_write (get_funding_txo m))
    then Some (match pk_find mo_out_point k rows with
               | Some r => mk_monitor (mo_out_point r) (as_i64 (get_latest_update_id m))
                             (monitor_write m) (mo_timestamp r)
               | None => mk_monitor (out_point_write (get_funding_txo m))
                           (as_i64 (get_latest_update_id m)) (monitor_write m) now
               end)
    else pk_find mo_out_point k rows) as Hfind.
  { intros k. unfold monitor_upsert. case_decide as Hk; subst.
    - by apply (pk_find_upsert_with_eq mo_out_point _
        (mk_monitor (out_point_write (get_funding_txo m)) _ _ now)).
    - by apply (pk_find_upsert_with_ne mo_out_point _ _
        (mk_monitor (out_point_write (get_funding_txo m)) _ _ now)). }
  split; [done| |].
  - intros r Hr. pose proof (pk_find_in _ _ _ Hpk' Hr) as Hr'. rewrite Hfind in Hr'.
    case_decide as Hk.
    + exists m. rewrite last_call_snoc, decide_True by done. split; [done|]. split; [|done].
      injection Hr' as <-. by destruct (pk_find _ _ _).
    + apply pk_find_key in Hr' as [_ Hin]. destruct (Hrow r Hin) as (m' & Ho & Hm & Hl).
      exists m'. split; [done|]. split; [done|]. rewrite last_call_snoc, decide_False; [done|].
      intros Heq. apply Hk. by rewrite Ho, Heq.
  - intros o m' Hl. pose proof (last_call_txo _ _ _ Hl) as Ho. rewrite last_call_snoc in Hl.
    case_decide as Heq.
    + injection Hl as <-. specialize (Hfind (out_point_write (get_funding_txo m))).
      rewrite decide_True in Hfind by done. apply pk_find_key in Hfind as [Hk Hin].
      eexists. split; [exact Hin|]. rewrite <- Ho. split; [done|]. by destruct (pk_find _ _ _).
    + destruct (Hlast o m' Hl) as (r & Hin & Hr & Hm). exists r. split; [|done].
      assert (pk_find mo_out_point (mo_out_point r) rows = Some r) as Hf by by apply pk_find_in.
      specialize (Hfind (mo_out_point r)). rewrite decide_False, Hf in Hfind.
      * by apply pk_find_key in Hfind as [_ ?].
      * rewrite Hr, <- Ho. intros E. apply out_point_inj in E. congruence.
Qed.

Lemma call_task_run call c done :
  online c →
  call_task call (c, done) =
    (Ok (), (set_tables (set_monitors (monitor_upsert call (channel_monitors (tables c)))
                           (tables c)) c,
             done ++ [(get_funding_txo call.1.2, call.2)])).
Proof.
  intros Hc. destruct call as [[now m] u]. unfold call_task, monitor_task, in_task.
  by erewrite db_execute_run by done.
Qed.

Lemma run_calls calls : ∀ done0 before c,
  online c → monitors_of before (channel_monitors (tables c)) →
  ∃ c', run_tasks (call_task <$> calls) (c, done0) =
      (c', done0 ++ ((λ call : monitor_call, (get_funding_txo call.1.2, call.2)) <$> calls)) ∧
    online c' ∧ monitors_of (before ++ calls) (channel_monitors (tables c')).
Proof.
  induction calls as [|call calls IH]; intros done0 before c Hc Hm.
  - exists c. simpl. by rewrite !app_nil_r.
  - simpl. rewrite call_task_run by done. simpl.
    edestruct (IH (done0 ++ [(get_funding_txo call.1.2, call.2)]) (before ++ [call]))
      as (c' & Hrun & Hc' & Hm'); [| |].
    3:{ exists c'. split; [rewrite Hrun|]; rewrite <- !app_assoc in *; done. }
    + done.
    + by apply monitors_of_upsert.
Qed.

Lemma read_monitor_row r m :
  mo_out_point r = out_point_write (get_funding_txo m) → mo_monitor r = monitor_write m →
  ∃ h, read_monitor r = Ok (h, m).
Proof.
  intros Ho Hm. unfold read_monitor. rewrite Ho, Hm.
  pose proof (funding_txid_id m) as Ht. pose proof (funding_index_u16 m) as Hi.
  destruct (get_funding_txo m) as [t i] eqn:Htxo. simpl in *.
  destruct (out_point_bytes t i Ht Hi) as (hi & lo & -> & Hv). unfold is_id in Ht.
  rewrite bool_decide_eq_true_2 by (rewrite length_app; simpl; lia). simpl.
  rewrite take_app_length', drop_app_length' by done. simpl.
  destruct (monitor_roundtrip m) as [h ->]. rewrite Htxo. simpl.
  rewrite bool_decide_eq_false_2; [by eexists|]. rewrite Hv. by intros [].
Qed.

Lemma fetch_monitors_of calls c :
  online c → monitors_of calls (channel_monitors (tables c)) →
  ∃ l, fst (fetch_channel_monitors c) = Ok l ∧
    ∀ m, m ∈ (snd <$> l) ↔ last_call (get_funding_txo m) calls = Some m.
Proof.
  intros Hc [Hpk Hrow Hlast].
  assert (∀ r, r ∈ scan (channel_monitors (tables c)) → ∃ p, read_monitor r = Ok p ∧
    last_call (get_funding_txo p.2) calls = Some p.2) as Hread.
  { intros r Hr. rewrite scan_elem in Hr. destruct (Hrow r Hr) as (m & Ho & Hm & Hl).
    destruct (read_monitor_row r m Ho Hm) as [h Hh]. by exists (h, m). }
  unfold fetch_channel_monitors. rewrite bind_db_query by done. unfold cmd_lift. simpl.
  destruct (result_mapM_forall read_monitor
    (λ p, last_call (get_funding_txo p.2) calls = Some p.2)
    (scan (channel_monitors (tables c))) Hread) as (l & -> & Hl & Hin).
  exists l. split; [done|]. intros m. split.
  - intros Hm. apply list_elem_of_fmap in Hm as (p & -> & Hp). by apply Hl.
  - intros Hm. destruct (Hlast _ _ Hm) as (r & Hr & Ho & Hmo).
    destruct (read_monitor_row r m Ho Hmo) as [h Hh].
    apply list_elem_of_fmap. exists (h, m). split; [done|].
    eapply Hin; [|done]. by rewrite scan_elem.
Qed.

(** [C8] When the runtime runs the spawned writes in the order of the calls, then after any
    sequence of calls every update has been reported to the chain monitor and
    [fetch_channel_monitors] returns exactly the last monitor of every channel: nothing is
    lost, mixed up or refused at the next start. *)
Theorem monitors_in_order_are_current calls c :
  online c → channel_monitors (tables c) = [] →
  let p := run_in_order (spawn_monitors calls (mk_process c [] [])) in
  completed p = (λ call : monitor_call, (get_funding_txo call.1.2, call.2)) <$> calls ∧
  ∃ l, fst (fetch_channel_monitors (db p)) = Ok l ∧
    ∀ m, m ∈ (snd <$> l) ↔ last_call (get_funding_txo m) calls = Some m.
Proof.
  intros Hc Hempty p. subst p. unfold run_in_order. rewrite spawn_monitors_tasks. simpl.
  assert (monitors_of [] (channel_monitors (tables c))) as Hm.
  { rewrite Hempty. split; [apply pk_nil|by intros ? ?%elem_of_nil|done]. }
  destruct (run_calls calls [] [] c Hc Hm) as (c' & -> & Hc' & Hm'). simpl. split; [done|].
  by apply fetch_monitors_of.
Qed.

(** Nothing keeps the spawned writes in that order. Of two updates of one channel the
    runtime may run the second first: both are then reported to the chain monitor as
    persisted, but the table holds the older monitor, and that is what the node loads at its
    next start. *)
Theorem monitors_out_of_order_are_stale now1 now2 m1 m2 u1 u2 c :
  online c → channel_monitors (tables c) = [] → get_funding_txo m1 = get_funding_txo m2 →
  ∃ p l, rtc task_step (spawn_monitors [(now1, m1, u1); (now2, m2, u2)] (mk_process c [] [])) p ∧
    tasks p = [] ∧
    completed p = [(get_funding_txo m2, u2); (get_funding_txo m1, u1)] ∧
    fst (fetch_channel_monitors (db p)) = Ok l ∧ m1 ∈ (snd <$> l) ∧
    ∀ m, m ∈ (snd <$> l) → m = m1.
Proof.
  intros Hc Hempty Htxo. rewrite spawn_monitors_tasks. simpl.
  assert (monitors_of [] (channel_monitors (tables c))) as Hm.
  { rewrite Hempty. split; [apply pk_nil|by intros ? ?%elem_of_nil|done]. }
  destruct (run_calls [(now2, m2, u2); (now1, m1, u1)] [] [] c Hc Hm)
    as (c' & Hrun & Hc' & Hm').
  destruct (fetch_monitors_of _ _ Hc' Hm') as (l & Hl & Hin). simpl in Hin.
  exists (mk_process c' [(get_funding_txo m2, u2); (get_funding_txo m1, u1)] []), l.
  split_and!; [|done|done|done| |].
  - cbn [fmap list_fmap run_tasks] in Hrun. rewrite call_task_run in Hrun by done.
    eapply rtc_l;
      [eapply (run_task [call_task (now1, m1, u1)] (call_task (now2, m2, u2)) []);
       by apply call_task_run|].
    eapply rtc_l; [|apply rtc_refl]. simpl.
    apply (run_task [] (call_task (now1, m1, u1)) []) with (r := Ok ()).
    rewrite call_task_run by done. cbn [snd] in Hrun. rewrite call_task_run in Hrun by done.
    by injection Hrun as <-.
  - apply Hin. by rewrite decide_True.
  - intros m Hmem. apply Hin in Hmem. rewrite Htxo in Hmem. repeat case_decide; congruence.
Qed.
End Monitors.

(** ** Peers *)

Section Peers.
Context {D : Driver} {DL : DriverLaws} {LT : LdkTypes} {LL : LdkLaws}.
Implicit Types c : conn ldk_tables.

Lemma peer_deserialize_encode k a :
  peer_deserialize (pk_encode k) (addr_encode a) = Ok (mk_peer k a).
Proof. unfold peer_deserialize. rewrite pk_roundtrip. simpl. by rewrite addr_roundtrip. Qed.

Lemma fetch_peer_run k c :
  online c →
  fetch_peer k c =
    (let? row := map_err Sql (query_opt (scan (where_ (has_key pe_public_key (pk_encode k))
                                                (peers (tables c))))) in
     match row with
     | Some row => result_map Some (text (peer_deserialize (pe_public_key row) (pe_address row)))
     | None => Ok None
     end, c).
Proof.
  intros Hc. unfold fetch_peer, cmd_bind. rewrite db_query_opt_run by done.
  by destruct (query_opt _) as [[]| |].
Qed.

Lemma persist_new_peer k a c :
  online c → mk_peer_row (pk_encode k) (addr_encode a) ∉ peers (tables c) →
  persist_peer (mk_peer k a) c =
    (Ok (), set_tables (set_peers (peers (tables c) ++ [mk_peer_row (pk_encode k) (addr_encode a)])
                          (tables c)) c).
Proof.
  intros Hc Hn. unfold persist_peer. erewrite db_execute_run by done. simpl.
  unfold upsert, upsert_with. rewrite (proj1 (pk_find_None _ _ _)); [done|].
  destruct (pk_find peer_key _ (peers (tables c))) as [r|] eqn:Hr; [|done].
  apply pk_find_key in Hr as [Hk Hin]. destruct r as [k' a']. unfold peer_key in Hk. simpl in Hk.
  injection Hk as -> ->. by destruct Hn.
Qed.

(** A peer stored under one address is found again. Stored under a second address as
    well (the primary key of [peers] is the key and the address together), it is never found
    again: [fetch_peer] fails from then on, although both rows are there. *)
Theorem fetch_peer_one_address k a1 a2 c :
  online c → where_ (has_key pe_public_key (pk_encode k)) (peers (tables c)) = [] → a1 ≠ a2 →
  ∃ c1 c2, persist_peer (mk_peer k a1) c = (Ok (), c1) ∧
    persist_peer (mk_peer k a2) c1 = (Ok (), c2) ∧
    fst (fetch_peer k c1) = Ok (Some (mk_peer k a1)) ∧
    ∃ e, fst (fetch_peer k c2) = Err e.
Proof.
  intros Hc Hno Hne.
  assert (∀ a, mk_peer_row (pk_encode k) (addr_encode a) ∉ peers (tables c)) as Hnew.
  { intros a Hin. apply where_nil_existsb in Hno. apply not_true_iff_false in Hno. apply Hno.
    apply existsb_has_key, list_elem_of_fmap. by eexists (mk_peer_row _ _). }
  assert (addr_encode a1 ≠ addr_encode a2) as Henc.
  { intros E. pose proof (addr_roundtrip a1) as Ha. rewrite E, addr_roundtrip in Ha. congruence. }
  do 2 eexists. split_and!.
  - by apply persist_new_peer.
  - apply persist_new_peer; [done|]. simpl. intros Hin. apply elem_of_app in Hin as [Hin|Hin].
    + by apply (Hnew a2).
    + apply list_elem_of_singleton in Hin. congruence.
  - rewrite fetch_peer_run by done. simpl. rewrite where_app, Hno. simpl.
    rewrite has_key_eq by done. simpl. rewrite scan_singleton, query_opt_one. simpl.
    by rewrite peer_deserialize_encode.
  - rewrite fetch_peer_run by done. simpl. rewrite !where_app, Hno. simpl.
    rewrite !has_key_eq by done. simpl.
    destruct (query_opt_scan_many [mk_peer_row (pk_encode k) (addr_encode a1);
      mk_peer_row (pk_encode k) (addr_encode a2)]) as [e ->]; [simpl; lia|]. simpl. by eexists.
Qed.
End Peers.

(** ** Payments *)

Section Payments.
Context {D : Driver} {DL : DriverLaws} {LT : LdkTypes} {LL : LdkLaws}.
Implicit Types c : conn ldk_tables.

(** Ids, hashes and the like have 32 bytes, amounts 64 bits. *)
Definition payment_ok (p : Payment) : Prop :=
  is_id (pay_id p) ∧ (∀ h, pay_hash p = Some h → is_id h) ∧
  (∀ h, pay_preimage p = Some h → is_id h) ∧ (∀ h, pay_secret p = Some h → is_id h) ∧
  u64 (pay_amount p) ∧ (∀ f, pay_fee p = Some f → u64 f).

Definition with_bolt11 (p : Payment) (b : option Bolt11Invoice) : Payment :=
  mk_payment (pay_id p) (pay_hash p) (pay_preimage p) (pay_secret p) (pay_label p) (pay_status p)
    (pay_amount p) (pay_fee p) (pay_direction p) (pay_timestamp p) b.

Definition parsed (text : string) : option Bolt11Invoice :=
  match bolt11_from_str text with Ok b => Some b | _ => None end.

Lemma id_of_slice_opt_ok msg o :
  (∀ h, o = Some h → is_id h) → id_of_slice_opt msg o = Ok o.
Proof.
  intros Ho. destruct o as [h|]; [|done]. unfold id_of_slice_opt, id_of_slice.
  by rewrite decide_True by auto.
Qed.

Lemma payment_columns p : payment_ok p →
  as_u64 (pr_amount (row_of_payment p)) = pay_amount p ∧
  as_u64 <$> pr_fee (row_of_payment p) = pay_fee p.
Proof.
  intros (_ & _ & _ & _ & Ha & Hf). simpl. split; [by apply unsigned_signed_unsigned|].
  destruct (pay_fee p) as [f|]; [|done]. simpl. f_equal. apply unsigned_signed_unsigned; auto. lia.
Qed.

(** What a stored payment reads back as, given the invoice the join found. *)
Lemma read_payment p b : payment_ok p →
  payment_try_from (row_of_payment p) b =
    match b with
    | Some t => Ok (with_bolt11 p (parsed t))
    | None => Panic "error retrieving column bolt11: a Postgres value was `NULL`"
    end.
Proof.
  intros Hok. pose proof (payment_columns p Hok) as [Hamount Hfee].
  destruct Hok as (Hid & Hh & Hpre & Hs & _). unfold payment_try_from. simpl in *.
  rewrite !id_of_slice_opt_ok by done. simpl. unfold id_of_slice. rewrite decide_True by done.
  simpl. destruct b as [t|]; [|done]. simpl. by rewrite Hamount, Hfee.
Qed.

Definition selected (h : option bytes) (d : option PaymentDirection) (p : Payment) : Prop :=
  (∀ h', h = Some h' → pay_hash p = Some h') ∧ (∀ d', d = Some d' → pay_direction p = d').

Definition has_invoice (t : ldk_tables) (p : Payment) (i : invoice_row) : Prop :=
  i ∈ invoices t ∧ pay_hash p = Some (iv_payment_hash i).

(** The rows of the query of [fetch_payments]. *)
Lemma payment_rows h d t ps r :
  payments t = row_of_payment <$> ps →
  r ∈ where_ (λ '(p, _),
      match h with Some h => bool_decide (pr_hash p = Some h) | None => true end &&
      match d with Some d => bool_decide (pr_direction p = d) | None => true end)
      (flat_map (payment_bolt11s t) (payments t)) ↔
  ∃ p, p ∈ ps ∧ selected h d p ∧ r.1 = row_of_payment p ∧
    match r.2 with
    | Some b => ∃ i, has_invoice t p i ∧ b = iv_bolt11 i
    | None => ∀ i, ¬ has_invoice t p i
    end.
Proof.
  intros Ht. destruct r as [row b]. unfold where_. rewrite list_elem_of_In, filter_In, in_flat_map.
  assert (∀ p, (match h with Some h => bool_decide (pr_hash (row_of_payment p) = Some h)
                | None => true end &&
      match d with Some d => bool_decide (pr_direction (row_of_payment p) = d)
      | None => true end) = true ↔ selected h d p) as Hsel.
  { intros p. unfold selected. simpl. rewrite andb_true_iff.
    destruct h, d; rewrite ?bool_decide_eq_true; naive_solver. }
  assert (∀ p b, In (row_of_payment p, b) (payment_bolt11s t (row_of_payment p)) ↔
    match b with
    | Some b => ∃ i, has_invoice t p i ∧ b = iv_bolt11 i
    | None => ∀ i, ¬ has_invoice t p i
    end) as Hjoin.
  { intros p b'. unfold payment_bolt11s, has_invoice.
    assert (∀ i, In i (where_ (λ i, bool_decide (pr_hash (row_of_payment p) =
        Some (iv_payment_hash i))) (invoices t)) ↔
      i ∈ invoices t ∧ pay_hash p = Some (iv_payment_hash i)) as Hw.
    { intros i. unfold where_. by rewrite filter_In, bool_decide_eq_true, list_elem_of_In. }
    revert Hw. generalize (where_ (λ i, bool_decide (pr_hash (row_of_payment p) =
        Some (iv_payment_hash i))) (invoices t)). intros found Hw.
    destruct found as [|i0 found].
    - destruct b' as [b'|]; simpl; naive_solver.
    - rewrite <- list_elem_of_In, list_elem_of_fmap. setoid_rewrite list_elem_of_In.
      destruct b' as [b'|]; [naive_solver|]. split; [naive_solver|].
      intros Hn. destruct (Hn i0). apply Hw. by left. }
  split.
  - intros [(row' & Hrow & Hin) Hs]. rewrite Ht in Hrow.
    apply list_elem_of_In, list_elem_of_fmap in Hrow as (p & -> & Hp).
    assert (row = row_of_payment p) as ->.
    { unfold payment_bolt11s in Hin. destruct (where_ _ (invoices t)).
      - destruct Hin as [[= <- _]|[]]. done.
      - apply list_elem_of_In, list_elem_of_fmap in Hin as (? & [= -> _] & _). done. }
    exists p. rewrite Hsel in Hs. rewrite Hjoin in Hin. done.
  - intros (p & Hp & Hs & Hr & Hb). simpl in Hr, Hb. subst row. split.
    + exists (row_of_payment p). split; [|by apply Hjoin].
      apply list_elem_of_In. rewrite Ht. apply list_elem_of_fmap. by exists p.
    + by apply Hsel.
Qed.

(** [C31] [fetch_payments] on stored payments: when each selected payment has an invoice with
    its hash, it returns the selected payments as they were stored, with their invoices; when a
    single one has none (every spontaneous payment), the call panics, because the column
    [bolt11] of the outer join is read as a string that cannot be NULL. *)
Theorem fetch_payments_needs_invoices h d ps c :
  online c → payments (tables c) = row_of_payment <$> ps → (∀ p, p ∈ ps → payment_ok p) →
  ((∀ p, p ∈ ps → selected h d p → ∃ i, has_invoice (tables c) p i) →
   ∃ l, fst (fetch_payments h d c) = Ok l ∧
     ∀ q, q ∈ l ↔ ∃ p i, p ∈ ps ∧ selected h d p ∧ has_invoice (tables c) p i ∧
                         q = with_bolt11 p (parsed (iv_bolt11 i))) ∧
  ((∃ p, p ∈ ps ∧ selected h d p ∧ ∀ i, ¬ has_invoice (tables c) p i) →
   ∃ w, fst (fetch_payments h d c) = Panic w).
Proof.
  intros Hc Ht Hok. unfold fetch_payments. rewrite bind_db_query by done. unfold cmd_lift. simpl.
  set (rows := scan _).
  assert (∀ r, r ∈ rows ↔ ∃ p, p ∈ ps ∧ selected h d p ∧ r.1 = row_of_payment p ∧
    match r.2 with
    | Some b => ∃ i, has_invoice (tables c) p i ∧ b = iv_bolt11 i
    | None => ∀ i, ¬ has_invoice (tables c) p i
    end) as Hrows by (intros r; unfold rows; by rewrite scan_elem, (payment_rows h d _ ps)).
  clearbody rows. split.
  - intros Hall.
    destruct (result_mapM_forall (λ '(p, b), text (payment_try_from p b))
      (λ q, ∃ p i, p ∈ ps ∧ selected h d p ∧ has_invoice (tables c) p i ∧
                   q = with_bolt11 p (parsed (iv_bolt11 i))) rows) as (l & Hl & HP & Hin).
    { intros [row b] Hr. apply Hrows in Hr as (p & Hp & Hs & Hrow & Hb). simpl in *. subst.
      rewrite read_payment by auto. destruct b as [b|].
      - destruct Hb as (i & Hi & ->). simpl. eexists. split; [done|]. eauto 10.
      - destruct (Hall p Hp Hs) as [i Hi]. by destruct (Hb i). }
    exists l. split; [done|]. intros q. split; [apply HP|].
    intros (p & i & Hp & Hs & Hi & ->).
    apply (Hin (row_of_payment p, Some (iv_bolt11 i))).
    + apply Hrows. exists p. simpl. eauto 10.
    + by rewrite read_payment by auto.
  - intros (p & Hp & Hs & Hno).
    apply (result_mapM_panic _ _ "error retrieving column bolt11: a Postgres value was `NULL`"
             (row_of_payment p, None)).
    + apply Hrows. by exists p.
    + by rewrite read_payment by auto.
    + intros [row b] Hr e. apply Hrows in Hr as (p' & Hp' & _ & Hrow & _). simpl in *. subst.
      rewrite read_payment by auto. by destruct b.
Qed.
End Payments.

(** ** Invoices *)

Section Invoices.
Context {D : Driver} {DL : DriverLaws} {HO : HashOrder} {HL : HashOrderLaws} {LT : LdkTypes}
  {LL : LdkLaws}.
Implicit Types (c : conn ldk_tables) (inv : Invoice) (rs : list (Invoice * option Payment)).

Definition invoice_ok inv : Prop :=
  is_id (inv_payment_hash inv) ∧ ∀ a, inv_amount inv = Some a → u64 a.

(** A stored invoice as it is read back: its expiry is the one of the text (with the default
    filled in), its payments come from the join. *)
Definition reread inv (ps : list Payment) : Invoice :=
  mk_invoice (inv_payment_hash inv) (inv_label inv) (inv_bolt11 inv) (inv_payee_pub_key inv)
    (Some (as_u64 (as_i64 (expiry_time_secs (inv_bolt11 inv))))) (inv_amount inv)
    (inv_timestamp inv) ps.

Definition encode (r : Invoice * option Payment) : invoice_row * option payment_row :=
  (row_of_invoice r.1, row_of_payment <$> r.2).
Definition of_hash (k : bytes) (r : Invoice * option Payment) : bool :=
  bool_decide (inv_payment_hash r.1 = k).
Definition paid inv (r : Invoice * option Payment) : list Payment :=
  option_list ((λ p, with_bolt11 p (Some (inv_bolt11 inv))) <$> r.2).

(** What the map holds for a key after the rows [rs]. *)
Definition summary (k : bytes) rs : option Invoice :=
  match where_ (of_hash k) rs with
  | [] => None
  | r :: _ => Some (reread r.1 (flat_map (paid r.1) (where_ (of_hash k) rs)))
  end.

Definition consistent rs : Prop :=
  ∀ r r', r ∈ rs → r' ∈ rs → inv_payment_hash r.1 = inv_payment_hash r'.1 → r.1 = r'.1.

Lemma consistent_incl rs rs' : (∀ r, r ∈ rs → r ∈ rs') → consistent rs' → consistent rs.
Proof. intros Hi Hc r r' Hr Hr'. auto. Qed.

Lemma deserialize_row inv : invoice_ok inv →
  invoice_deserialize (inv_payment_hash inv) (inv_label inv) (bolt11_to_string (inv_bolt11 inv))
    (pk_encode (inv_payee_pub_key inv))
    (as_u64 <$> Some (as_i64 (expiry_time_secs (inv_bolt11 inv)))) (as_i64 <$> inv_amount inv)
    (inv_timestamp inv) = Ok (reread inv []).
Proof.
  intros [_ Ha]. unfold invoice_deserialize. rewrite bolt11_roundtrip. simpl.
  rewrite pk_roundtrip. simpl. unfold reread. repeat f_equal.
  destruct (inv_amount inv) as [a|]; simpl; [|done]. f_equal.
  apply unsigned_signed_unsigned; [lia|auto].
Qed.

Lemma summary_snoc k rs r :
  consistent (rs ++ [r]) →
  summary k (rs ++ [r]) =
    if of_hash k r
    then Some (match summary k rs with
               | Some q => reread r.1 (inv_payments q ++ paid r.1 r)
               | None => reread r.1 (paid r.1 r)
               end)
    else summary k rs.
Proof.
  intros Hcon. unfold summary. rewrite where_app. simpl.
  destruct (of_hash k r) eqn:Hr; [|by rewrite app_nil_r].
  destruct (where_ (of_hash k) rs) as [|r0 l] eqn:Hw; simpl; [by rewrite app_nil_r|].
  assert (r0.1 = r.1) as ->.
  { assert (In r0 (where_ (of_hash k) rs)) as Hin by (rewrite Hw; by left).
    unfold where_ in Hin. apply filter_In in Hin as [Hin H0%bool_decide_eq_true].
    apply bool_decide_eq_true in Hr. apply Hcon; [|apply elem_of_app; right; by left|congruence].
    apply elem_of_app. left. by apply list_elem_of_In. }
  do 2 f_equal. rewrite flat_map_app. simpl. by rewrite app_nil_r, <- app_assoc.
Qed.

Lemma summary_hash k rs q : summary k rs = Some q → inv_payment_hash q = k.
Proof.
  unfold summary. destruct (where_ (of_hash k) rs) as [|r l] eqn:Hw; [done|]. intros [= <-].
  simpl. assert (In r (where_ (of_hash k) rs)) as Hin by (rewrite Hw; by left).
  unfold where_ in Hin. by apply filter_In in Hin as [_ H0%bool_decide_eq_true].
Qed.

Record summarised rs (m : list (bytes * Invoice)) : Prop := {
  sum_keys : NoDup m.*1;
  sum_get k : hm_get k m = summary k rs;
}.

Lemma add_row_summarised rs inv op m :
  invoice_ok inv → (∀ p, op = Some p → payment_ok p) → consistent (rs ++ [(inv, op)]) →
  summarised rs m →
  ∃ m', add_invoice_row m (encode (inv, op)) = Ok m' ∧ summarised (rs ++ [(inv, op)]) m'.
Proof.
  intros Hinv Hop Hcon [Hk Hg]. unfold add_invoice_row, encode. cbn [fst snd].
  unfold id_of_slice. simpl. rewrite decide_True by apply Hinv. cbn [text map_err result_bind].
  assert (∃ o, (match row_of_payment <$> op with
    | Some p => result_map Some (text (payment_try_from p (Some (bolt11_to_string (inv_bolt11 inv)))))
    | None => Ok None end) = (Ok o : result db_error _) ∧ option_list o = paid inv (inv, op)) as (o & -> & Ho).
  { destruct op as [p|]; simpl; [|by exists None]. rewrite read_payment by auto.
    eexists. split; [reflexivity|]. unfold parsed. by rewrite bolt11_roundtrip. }
  cbn [result_bind]. rewrite Hg.
  assert (of_hash (inv_payment_hash inv) (inv, op) = true) as Hof by by apply bool_decide_eq_true.
  pose proof (λ k, summary_snoc k rs (inv, op) Hcon) as Hsnoc. cbn [fst snd] in Hsnoc.
  pose proof (Hsnoc (inv_payment_hash inv)) as Hthis. rewrite Hof in Hthis.
  assert (∀ k q, Some q = summary (inv_payment_hash inv) (rs ++ [(inv, op)]) →
    hm_get k (hm_insert (inv_payment_hash inv) q m) = summary k (rs ++ [(inv, op)])) as Hput.
  { intros k q Hq. rewrite hm_get_insert. case_decide as Hkk; [by subst|].
    rewrite Hg, Hsnoc. unfold of_hash. cbn [fst]. by rewrite bool_decide_eq_false_2. }
  destruct (summary (inv_payment_hash inv) rs) as [q|] eqn:Hq.
  - assert (q = reread inv (inv_payments q)) as Hqr.
    { unfold summary in Hq. destruct (where_ _ rs) as [|r l] eqn:Hw; [done|].
      injection Hq as <-. assert (r.1 = inv) as ->; [|done].
      assert (In r (where_ (of_hash (inv_payment_hash inv)) rs)) as Hin by (rewrite Hw; by left).
      unfold where_ in Hin. apply filter_In in Hin as [Hin H0%bool_decide_eq_true].
      apply (Hcon r (inv, op)); [|apply elem_of_app; right; by left|done].
      apply elem_of_app. left. by apply list_elem_of_In. }
    rewrite <- Ho in Hthis. destruct o as [p|]; simpl in Hthis.
    + eexists. split; [reflexivity|]. split; [by apply hm_keys_insert|].
      intros k. apply Hput. rewrite Hthis, Hqr. done.
    + exists m. split; [done|]. split; [done|]. intros k. rewrite Hg, Hsnoc.
      destruct (of_hash k (inv, op)) eqn:Hok; [|done]. apply bool_decide_eq_true in Hok.
      simpl in Hok. subst k. rewrite Hq, <- Ho. simpl. by rewrite app_nil_r, <- Hqr.
  - pose proof (deserialize_row inv Hinv) as Hd. simpl in Hd |- *. rewrite Hd.
    cbn [text map_err result_bind].
    rewrite <- Ho in Hthis. destruct o as [p|]; simpl in Hthis;
      (eexists; split; [reflexivity|]; split; [by apply hm_keys_insert|];
       intros k; apply Hput; by rewrite Hthis).
Qed.

Lemma add_rows_summarised rs : ∀ pre m,
  (∀ r, r ∈ rs → invoice_ok r.1 ∧ ∀ p, r.2 = Some p → payment_ok p) →
  consistent (pre ++ rs) → summarised pre m →
  ∃ m', add_invoice_rows (encode <$> rs) m = Ok m' ∧ summarised (pre ++ rs) m'.
Proof.
  induction rs as [|[inv op] rs IH]; intros pre m Hok Hcon Hm; cbn [fmap list_fmap add_invoice_rows].
  - exists m. by rewrite app_nil_r.
  - destruct (Hok (inv, op)) as [Hi Hp]; [by left|].
    destruct (add_row_summarised pre inv op m Hi Hp) as (m1 & -> & Hm1); [|done|].
    { eapply consistent_incl; [|exact Hcon]. intros r Hr.
      apply elem_of_app. apply elem_of_app in Hr as [Hr|Hr]; [by left|right].
      apply list_elem_of_singleton in Hr as ->. by left. }
    cbn [result_bind]. destruct (IH (pre ++ [(inv, op)]) m1) as (m' & Hm' & Hs).
    + intros r Hr. apply Hok. by right.
    + by rewrite <- app_assoc.
    + done.
    + exists m'. split; [done|]. by rewrite <- app_assoc in Hs.
Qed.

(** The rows of the join, invoice by invoice. *)
Definition joined (ps : list Payment) inv : list (Invoice * option Payment) :=
  match where_ (λ p, bool_decide (pay_hash p = Some (inv_payment_hash inv))) ps with
  | [] => [(inv, None)]
  | l => (λ p, (inv, Some p)) <$> l
  end.

Lemma where_map {A B} (f : A → B) p l : where_ p (f <$> l) = f <$> where_ (λ a, p (f a)) l.
Proof.
  unfold where_. induction l as [|a l IH]; [done|]. simpl.
  destruct (p (f a)); simpl; [by f_equal|done].
Qed.

Lemma where_ext {A} (p q : A → bool) l : (∀ a, p a = q a) → where_ p l = where_ q l.
Proof. intros H'. unfold where_. by apply filter_ext. Qed.

Lemma where_perm {A} (p : A → bool) l l' : l ≡ₚ l' → where_ p l ≡ₚ where_ p l'.
Proof.
  unfold where_. induction 1; simpl; repeat case_match; eauto using Permutation.
Qed.

Lemma invoices_payments_encode t invs ps :
  invoices t = row_of_invoice <$> invs → payments t = row_of_payment <$> ps →
  invoices_payments t = encode <$> flat_map (joined ps) invs.
Proof.
  intros Hi Hp. unfold invoices_payments. rewrite Hi, Hp.
  clear Hi. induction invs as [|inv invs IH]; [done|]. rewrite fmap_cons. cbn [flat_map].
  rewrite fmap_app. f_equal; [|exact IH]. unfold joined. rewrite where_map. unfold has_key. simpl.
  destruct (where_ _ ps) as [|p l]; [done|]. simpl.
  f_equal. by rewrite <- !list_fmap_compose.
Qed.

Lemma joined_elem ps inv r : r ∈ joined ps inv →
  r.1 = inv ∧ ∀ p, r.2 = Some p → p ∈ ps ∧ pay_hash p = Some (inv_payment_hash inv).
Proof.
  unfold joined. intros Hr.
  assert (∀ p, p ∈ where_ (λ p, bool_decide (pay_hash p = Some (inv_payment_hash inv))) ps →
    p ∈ ps ∧ pay_hash p = Some (inv_payment_hash inv)) as Hw.
  { intros p Hp. apply list_elem_of_In in Hp. unfold where_ in Hp.
    apply filter_In in Hp as [Hp Hh%bool_decide_eq_true]. split; [|done]. by apply list_elem_of_In. }
  destruct (where_ _ ps) as [|p l].
  - by apply list_elem_of_singleton in Hr as ->.
  - apply list_elem_of_fmap in Hr as (p' & -> & Hp'). split; [done|]. intros ? [= <-]. auto.
Qed.

Lemma where_of_hash_joined ps inv k :
  where_ (of_hash k) (joined ps inv) =
    if decide (inv_payment_hash inv = k) then joined ps inv else [].
Proof.
  assert (∀ l, (∀ r, r ∈ l → r.1 = inv) → where_ (of_hash k) l =
    if decide (inv_payment_hash inv = k) then l else []) as Hall.
  { induction l as [|r l IH]; intros Hl; simpl; [by case_decide|].
    unfold of_hash at 1. rewrite (Hl r) by by left. rewrite IH by (intros; apply Hl; by right).
    case_decide; by case_bool_decide. }
  apply Hall. intros r Hr. by apply joined_elem in Hr as [-> _].
Qed.

Lemma where_of_hash_all ps invs inv :
  NoDup (inv_payment_hash <$> invs) → inv ∈ invs →
  where_ (of_hash (inv_payment_hash inv)) (flat_map (joined ps) invs) = joined ps inv.
Proof.
  induction invs as [|inv0 invs IH]; [by intros _ ?%elem_of_nil|]. cbn [fmap list_fmap flat_map].
  intros [Hn Hnd]%NoDup_cons Hin. rewrite where_app, where_of_hash_joined.
  assert (∀ k, (∀ i, i ∈ invs → inv_payment_hash i ≠ k) →
    where_ (of_hash k) (flat_map (joined ps) invs) = []) as Hnone.
  { clear. intros k. induction invs as [|i invs IH]; intros Hk; simpl; [done|].
    rewrite where_app, where_of_hash_joined, decide_False by (apply Hk; by left).
    apply IH. intros. apply Hk. by right. }
  apply elem_of_cons in Hin as [->|Hin].
  - rewrite decide_True, Hnone, app_nil_r; [done| |done].
    intros i Hi Heq. apply Hn, list_elem_of_fmap. by exists i.
  - rewrite decide_False; [by apply IH|]. intros Heq. apply Hn, list_elem_of_fmap. by exists inv.
Qed.

Lemma where_joined ps (sel : Invoice → bool) invs :
  where_ (λ r, sel r.1) (flat_map (joined ps) invs) = flat_map (joined ps) (where_ sel invs).
Proof.
  induction invs as [|inv invs IH]; simpl; [done|]. rewrite where_app, IH.
  assert (where_ (λ r, sel r.1) (joined ps inv) = if sel inv then joined ps inv else []) as ->.
  { assert (∀ l, (∀ r, r ∈ l → r.1 = inv) →
      where_ (λ r : Invoice * option Payment, sel r.1) l = if sel inv then l else []) as Hall.
    { induction l as [|r l IHl]; intros Hl; simpl; [by destruct (sel inv)|].
      rewrite (Hl r) by by left. rewrite IHl by (intros; apply Hl; by right).
      by destruct (sel inv). }
    apply Hall. intros r Hr. by apply joined_elem in Hr as [-> _]. }
  by destruct (sel inv).
Qed.

Lemma paid_joined ps inv :
  flat_map (paid inv) (joined ps inv) =
    (λ p, with_bolt11 p (Some (inv_bolt11 inv))) <$>
      where_ (λ p, bool_decide (pay_hash p = Some (inv_payment_hash inv))) ps.
Proof.
  unfold joined. destruct (where_ _ ps) as [|p l]; [done|].
  induction (p :: l) as [|p' l' IH]; [done|]. cbn [fmap list_fmap flat_map]. unfold paid at 1.
  simpl. by f_equal.
Qed.

(** The invoice that the rows of one hash build up. *)
Lemma summary_joined ps invs inv rs :
  NoDup (inv_payment_hash <$> invs) → inv ∈ invs → flat_map (joined ps) invs ≡ₚ rs →
  ∃ qs, summary (inv_payment_hash inv) rs = Some (reread inv qs) ∧
    qs ≡ₚ (λ p, with_bolt11 p (Some (inv_bolt11 inv))) <$>
      where_ (λ p, bool_decide (pay_hash p = Some (inv_payment_hash inv))) ps.
Proof.
  intros Hnd Hi Hperm. pose proof (where_perm (of_hash (inv_payment_hash inv)) _ _ Hperm) as Hw.
  rewrite where_of_hash_all in Hw by done. unfold summary.
  destruct (where_ (of_hash _) rs) as [|r l] eqn:Hr.
  { apply Permutation_nil_r in Hw. unfold joined in Hw. by destruct (where_ _ ps). }
  assert (r ∈ joined ps inv) as Hj by (rewrite Hw; by left).
  apply joined_elem in Hj as [-> _]. eexists. split; [reflexivity|].
  rewrite <- paid_joined, Hw. done.
Qed.

Lemma summary_from k rs q :
  summary k rs = Some q → ∃ r, r ∈ rs ∧ inv_payment_hash r.1 = k.
Proof.
  unfold summary. destruct (where_ (of_hash k) rs) as [|r l] eqn:Hr; [done|]. intros _. exists r.
  assert (In r (where_ (of_hash k) rs)) as H' by (rewrite Hr; by left).
  unfold where_ in H'. apply filter_In in H' as [? ?%bool_decide_eq_true].
  split; [by apply list_elem_of_In|done].
Qed.

(** The rows that the query of [fetch_invoices] returns. *)
Lemma invoice_rows (sel : Invoice → bool) (p : invoice_row * option payment_row → bool) t invs ps :
  invoices t = row_of_invoice <$> invs → payments t = row_of_payment <$> ps →
  (∀ i op, p (encode (i, op)) = sel i) →
  ∃ rs, scan (where_ p (invoices_payments t)) = encode <$> rs ∧
    flat_map (joined ps) (where_ sel invs) ≡ₚ rs.
Proof.
  intros Hti Htp Hsel.
  assert (scan (where_ p (invoices_payments t)) ≡ₚ encode <$> flat_map (joined ps) (where_ sel invs))
    as Hp.
  { rewrite scan_perm, (invoices_payments_encode _ invs ps) by done.
    rewrite where_map, (where_ext _ (λ r, sel r.1)) by (by intros [i ?]). by rewrite where_joined. }
  apply Permutation_map_inv in Hp as (rs & -> & ?). by exists rs.
Qed.

Definition has_label (label : option string) inv : bool :=
  match label with Some lb => bool_decide (inv_label inv = Some lb) | None => true end.

Lemma labelled label invs inv :
  inv ∈ where_ (has_label label) invs ↔
    inv ∈ invs ∧ ∀ lb, label = Some lb → inv_label inv = Some lb.
Proof.
  unfold where_, has_label. rewrite list_elem_of_In, filter_In, <- list_elem_of_In.
  destruct label as [lb|]; [rewrite bool_decide_eq_true|]; naive_solver.
Qed.

Lemma labelled_nodup label invs :
  NoDup (inv_payment_hash <$> invs) → NoDup (inv_payment_hash <$> where_ (has_label label) invs).
Proof.
  intros Hnd. pose proof (pk_delete inv_payment_hash (λ i, negb (has_label label i)) invs Hnd) as Hd.
  unfold pk, delete_where in Hd. unfold where_.
  erewrite filter_ext in Hd; [exact Hd|]. intros i. simpl. by rewrite negb_involutive.
Qed.

(** [C23] [fetch_invoices] on stored invoices and payments: every invoice (with the label asked
    for) is returned exactly once, as it was stored, together with exactly the payments whose
    hash is its payment hash. *)
Theorem fetch_invoices_groups_payments label invs ps c :
  online c → invoices (tables c) = row_of_invoice <$> invs →
  payments (tables c) = row_of_payment <$> ps →
  NoDup (inv_payment_hash <$> invs) → (∀ inv, inv ∈ invs → invoice_ok inv) →
  (∀ p, p ∈ ps → payment_ok p) →
  ∃ l, fst (fetch_invoices label c) = Ok l ∧ NoDup (inv_payment_hash <$> l) ∧
    (∀ inv, inv ∈ invs → (∀ lb, label = Some lb → inv_label inv = Some lb) →
       ∃ qs, reread inv qs ∈ l) ∧
    ∀ q, q ∈ l → ∃ inv qs, inv ∈ invs ∧ (∀ lb, label = Some lb → inv_label inv = Some lb) ∧
      q = reread inv qs ∧
      qs ≡ₚ (λ p, with_bolt11 p (Some (inv_bolt11 inv))) <$>
        where_ (λ p, bool_decide (pay_hash p = Some (inv_payment_hash inv))) ps.
Proof.
  intros Hc Hti Htp Hnd Hiok Hpok. pose proof (labelled_nodup label invs Hnd) as Hnd'.
  unfold fetch_invoices. rewrite bind_db_query by done. unfold cmd_lift. simpl.
  match goal with |- context [scan (where_ ?p _)] =>
    destruct (invoice_rows (has_label label) p (tables c) invs ps) as (rs & -> & Hperm);
      [done|done|by intros; destruct label|] end.
  assert (∀ r, r ∈ rs → ∃ inv, inv ∈ where_ (has_label label) invs ∧ r ∈ joined ps inv) as Hrs.
  { intros r. rewrite <- Hperm, list_elem_of_In, in_flat_map. setoid_rewrite <- list_elem_of_In.
    done. }
  destruct (add_rows_summarised rs [] []) as (m & -> & [Hkeys Hget]).
  { intros r Hr. destruct (Hrs r Hr) as (inv & Hi & Hj). apply joined_elem in Hj as [-> Hp].
    split; [by apply Hiok, (labelled label)|]. intros p Hp'. by apply Hpok, Hp. }
  { intros r r' Hr Hr' Heq. destruct (Hrs r Hr) as (i & Hi & Hj), (Hrs r' Hr') as (i' & Hi' & Hj').
    apply joined_elem in Hj as [Hj _], Hj' as [Hj' _]. rewrite Hj, Hj' in Heq |- *.
    eapply (pk_find_in inv_payment_hash) in Hi, Hi'; [|done..]. congruence. }
  { split; [constructor|done]. }
  simpl in Hget |- *. eexists. split; [reflexivity|]. split_and!.
  - rewrite hash_order_perm, <- list_fmap_compose. rewrite (map_ext_in _ fst); [exact Hkeys|].
    intros [k q] Hin%list_elem_of_In. apply hm_in_get in Hin; [|done]. rewrite Hget in Hin.
    by apply summary_hash in Hin.
  - intros inv Hi Hl. destruct (summary_joined ps _ inv rs Hnd') as (qs & Hs & _);
      [by apply labelled|done|]. exists qs.
    rewrite hash_order_perm. rewrite <- Hget in Hs. apply hm_get_in in Hs.
    apply list_elem_of_fmap. by exists (inv_payment_hash inv, reread inv qs).
  - intros q Hq. rewrite hash_order_perm in Hq. apply list_elem_of_fmap in Hq as ([k q'] & -> & Hin).
    apply hm_in_get in Hin; [|done]. rewrite Hget in Hin. simpl.
    destruct (summary_from _ _ _ Hin) as (r & Hr' & Hk).
    destruct (Hrs r Hr') as (inv & Hi & Hj). apply joined_elem in Hj as [Hj _].
    destruct (summary_joined ps _ inv rs Hnd' Hi Hperm) as (qs & Hs & Hqs). exists inv, qs.
    destruct (proj1 (labelled label invs inv) Hi) as [Hi1 Hi2]. split; [done|]. split; [done|].
    split; [|done]. rewrite <- Hj, Hk in Hs. congruence.
Qed.
End Invoices.

(** ** Channels *)

Section Channels.
Context {LT : LdkTypes}.
Implicit Types c : conn ldk_tables.

Inductive channel_call :=
| Create (now : Z) (id : bytes) (is_public : bool) (counterparty : PublicKey)
| Persist (now : Z) (d : ChannelDetails)
| Close (now : Z) (id : bytes) (reason : string).

Definition channel_run (call : channel_call) : ldkm () :=
  match call with
  | Create now id is_public counterparty => create_channel now id is_public counterparty
  | Persist now d => persist_channel now d
  | Close now id reason => close_channel now id reason
  end.

Definition channel_runs (calls : list channel_call) c : conn ldk_tables :=
  fold_left (λ c call, snd (channel_run call c)) calls c.

(** What a later row of a channel keeps of an earlier one. *)
Record extends (r r' : channel_row) : Prop := {
  ext_id : ch_id r' = ch_id r;
  ext_open : ch_open_timestamp r' = ch_open_timestamp r;
  ext_version : ch_data_version r' = ch_data_version r;
  ext_scid : ch_short_channel_id r ≠ None → ch_short_channel_id r' ≠ None;
  ext_data : ch_data r ≠ None → ch_data r' ≠ None;
  ext_closure : ch_closure_reason r ≠ None → ch_closure_reason r' ≠ None;
}.

#[export] Instance extends_preorder : PreOrder extends.
Proof. split; [by intros r; split|]. intros r1 r2 r3 [] []. split; congruence || auto. Qed.

Definition channels_extend (l l' : list channel_row) : Prop :=
  pk ch_id l → pk ch_id l' ∧
  ∀ id r, pk_find ch_id id l = Some r → ∃ r', pk_find ch_id id l' = Some r' ∧ extends r r'.

#[export] Instance channels_extend_preorder : PreOrder channels_extend.
Proof.
  split.
  - intros l Hl. split; [done|]. intros id r Hr. by exists r.
  - intros l1 l2 l3 H12 H23 H1. destruct (H12 H1) as [H2 Hf]. destruct (H23 H2) as [H3 Hf'].
    split; [done|]. intros id r Hr. destruct (Hf id r Hr) as (r' & Hr' & He).
    destruct (Hf' id r' Hr') as (r'' & Hr'' & He'). exists r''. split; [done|]. by etrans.
Qed.

Lemma extend_update p f l :
  (∀ r, p r = true → extends r (f r)) → channels_extend l (update_where p f l).
Proof.
  intros Hf Hl. assert (∀ r, p r = true → ch_id (f r) = ch_id r) as Hid by (intros; by apply Hf).
  split; [by apply pk_update|]. intros id r Hr. rewrite pk_find_update_where, Hr by done. simpl.
  eexists. split; [done|]. destruct (p r) eqn:Hp; [by apply Hf|done].
Qed.

Lemma extend_snoc r l :
  existsb (has_key ch_id (ch_id r)) l = false → channels_extend l (l ++ [r]).
Proof.
  intros Hr Hl. split; [by apply pk_snoc|]. intros id r0 Hr0. rewrite pk_find_snoc, Hr0. by eexists.
Qed.

Lemma extend_upsert id upd r l :
  ch_id r = id → (∀ x, ch_id x = id → extends x (upd x)) →
  channels_extend l (upsert_with (has_key ch_id id) upd r l).
Proof.
  intros <- Hu. unfold upsert_with. destruct (existsb _ l) eqn:He; [|by apply extend_snoc].
  apply extend_update. intros x Hx%bool_decide_eq_true. auto.
Qed.

Lemma db_execute_channels s (c : conn ldk_tables) :
  (∀ t t', s t = Ok t' → channels_extend (channels t) (channels t')) →
  channels_extend (channels (tables c)) (channels (tables (snd (db_execute s c)))).
Proof.
  intros Hs. unfold db_execute, cmd_map_err.
  destruct (execute s c) as [r c'] eqn:He. simpl.
  destruct (execute_atomic s c r c' He) as [[_ Ht]|[_ ->]]; [by apply Hs|done].
Qed.

Lemma channel_run_extends call c :
  channels_extend (channels (tables c)) (channels (tables (snd (channel_run call c)))).
Proof.
  destruct call as [now id is_public counterparty|now d|now id reason]; simpl.
  - apply db_execute_channels. intros t t'. unfold insert_pk.
    destruct (existsb _ (channels t)) eqn:He; simpl; [done|]. intros [= <-]. by apply extend_snoc.
  - unfold persist_channel. destruct (cd_short_channel_id d) as [scid|];
      apply db_execute_channels; intros t t' [= <-]; simpl; apply extend_upsert; try done;
      intros x Hx; split; simpl; done.
  - apply db_execute_channels. intros t t' [= <-]. simpl. apply extend_update. intros r _.
    by split.
Qed.

(** [C37] Whatever sequence of [create_channel], [persist_channel] and [close_channel] runs, on
    a connection that may fail any of the statements: the channel ids stay unique, no channel
    disappears, and a channel keeps the time it was opened, and once it has them a short
    channel id, details and a closure reason. *)
Theorem channels_keep_their_history calls c id r :
  pk ch_id (channels (tables c)) → pk_find ch_id id (channels (tables c)) = Some r →
  let l := channels (tables (channel_runs calls c)) in
  pk ch_id l ∧ ∃ r', pk_find ch_id id l = Some r' ∧ extends r r'.
Proof.
  intros Hpk Hr.
  assert (channels_extend (channels (tables c)) (channels (tables (channel_runs calls c)))) as He.
  { clear Hpk Hr. revert c. induction calls as [|call calls IH]; intros c; simpl; [done|].
    etrans; [apply (channel_run_extends call)|apply IH]. }
  destruct (He Hpk) as [Hpk' Hf]. split; [done|]. by apply Hf.
Qed.

(** A channel that is created cannot be created again. *)
Lemma create_channel_twice now id is_public counterparty c :
  online c → pk_find ch_id id (channels (tables c)) ≠ None →
  create_channel now id is_public counterparty c = (Err (Sql (Constraint "channels")), failed_in c).
Proof.
  intros Hc Hf. apply db_execute_err; [done|]. unfold insert_pk.
  destruct (existsb _ _) eqn:He; [done|]. by apply pk_find_None in He.
Qed.

(** [update_initializing_channel] for a channel whose row has not been inserted (yet)
    succeeds without storing anything. *)
Theorem update_initializing_without_row now id vout status c :
  online c → pk_find ic_id id (initializing_channels (tables c)) = None →
  update_initializing_channel now id vout status c = (Ok (), c).
Proof.
  intros Hc Hf. unfold update_initializing_channel.
  destruct vout as [[channel_id vout]|]; [|destruct status as [status|]; [|done]];
    erewrite db_execute_run by done; rewrite update_where_none by done;
    by destruct c as [[]].
Qed.
End Channels.

(** ** Instances of the properties *)

Section Instances.
#[local] Existing Instance insertion_order.
#[local] Existing Instance insertion_order_laws.
#[local] Existing Instance list_order.
#[local] Existing Instance list_order_laws.
#[local] Existing Instance example_ldk.
#[local] Existing Instance example_ldk_laws.

Definition fresh_ldk : conn ldk_tables := mk_conn empty_ldk [] None false.

Lemma persist_manager_never_stores_witness :
  ∃ p', rtc task_step (snd (persist_manager 5 (Ok [x01]) (mk_process fresh_ldk [] []))) p' ∧
    tasks p' = [] ∧ fst (is_first_start (db p')) = Ok true.
Proof.
  set (p' := mk_process fresh_ldk [] []). exists p'.
  assert (rtc task_step (snd (persist_manager 5 (Ok [x01]) (mk_process fresh_ldk [] []))) p')
    as Hrun.
  { eapply rtc_l; [|apply rtc_refl]. apply (run_task [] _ [] _ _ (Ok ())). reflexivity. }
  split; [exact Hrun|]. split; [reflexivity|].
  exact (proj1 (persist_manager_never_stores [(5, Ok [x01])] (mk_process fresh_ldk [] []) p' ()
                  (λ _, Err ""%string) eq_refl (conj eq_refl eq_refl) eq_refl Hrun)).
Defined.

Definition example_calls : list monitor_call :=
  [(1, (false, false), 10); (2, (true, false), 11); (3, (false, true), 12)].

Lemma monitors_in_order_are_current_witness :
  ∃ l, fst (fetch_channel_monitors
              (db (run_in_order (spawn_monitors example_calls (mk_process fresh_ldk [] []))))) = Ok l ∧
    (false, true) ∈ (snd <$> l) ∧ (true, false) ∈ (snd <$> l).
Proof.
  destruct (monitors_in_order_are_current example_calls fresh_ldk (conj eq_refl eq_refl) eq_refl)
    as (_ & l & Hl & Hin).
  exists l. split; [exact Hl|]. split; apply Hin; reflexivity.
Defined.

Lemma monitors_out_of_order_are_stale_witness :
  ∃ p l, rtc task_step
           (spawn_monitors (LT:=example_ldk) [(1, (false, false), 10); (2, (false, true), 11)]
              (mk_process fresh_ldk [] [])) p ∧
    fst (fetch_channel_monitors (db p)) = Ok l ∧ (false, false) ∈ (snd <$> l).
Proof.
  destruct (monitors_out_of_order_are_stale (LT:=example_ldk) 1 2 (false, false) (false, true) 10 11 fresh_ldk
              (conj eq_refl eq_refl) eq_refl eq_refl) as (p & l & Hrun & _ & _ & Hl & Hin & _).
  exists p, l. split; [exact Hrun|]. split; [exact Hl|exact Hin].
Defined.

Lemma fetch_peer_one_address_witness :
  ∃ c1 c2, persist_peer (mk_peer (H:=example_ldk) true false) fresh_ldk = (Ok (), c1) ∧
    persist_peer (mk_peer true true) c1 = (Ok (), c2) ∧
    fst (fetch_peer true c1) = Ok (Some (mk_peer true false)) ∧
    ∃ e, fst (fetch_peer true c2) = Err e.
Proof.
  exact (fetch_peer_one_address (LT:=example_ldk) true false true fresh_ldk (conj eq_refl eq_refl) eq_refl ltac:(discriminate)).
Defined.

Definition example_payment : Payment := spontaneous_outbound 3 (id_bytes false) 1000.
Definition paid_ldk : conn ldk_tables :=
  mk_conn (set_payments [row_of_payment example_payment] empty_ldk) [] None false.

Lemma example_payment_ok : payment_ok example_payment.
Proof. repeat split; simpl; try discriminate; lia. Defined.

Lemma fetch_payments_needs_invoices_witness :
  ∃ w, fst (fetch_payments None (Some Outbound) paid_ldk) = Panic w.
Proof.
  apply (fetch_payments_needs_invoices None (Some Outbound) [example_payment] paid_ldk).
  - done.
  - reflexivity.
  - intros p Hp. apply list_elem_of_singleton in Hp as ->. exact example_payment_ok.
  - exists example_payment. split; [by left|]. split; [split; [discriminate|intros d [= <-]; done]|].
    intros i [Hi _]. by apply elem_of_nil in Hi.
Defined.

Definition example_invoice : Invoice :=
  mk_invoice (id_bytes true) (Some "coffee"%string) true false (Some 3600) (Some 1000) 0 [].
Definition invoice_payment : Payment :=
  of_invoice_outbound (id_bytes false) 4 example_invoice None.
Definition invoiced_ldk : conn ldk_tables :=
  mk_conn (set_invoices [row_of_invoice example_invoice]
             (set_payments (row_of_payment <$> [invoice_payment; example_payment]) empty_ldk))
    [] None false.

Lemma fetch_invoices_groups_payments_witness :
  ∃ l, fst (fetch_invoices (Some "coffee"%string) invoiced_ldk) = Ok l ∧
    ∃ qs, reread example_invoice qs ∈ l.
Proof.
  destruct (fetch_invoices_groups_payments (Some "coffee"%string) [example_invoice]
              [invoice_payment; example_payment] invoiced_ldk) as (l & Hl & _ & Hin & _).
  - done.
  - reflexivity.
  - reflexivity.
  - apply NoDup_singleton.
  - intros inv Hi. apply list_elem_of_singleton in Hi as ->. split; [reflexivity|].
    intros a [= <-]. split; lia.
  - intros p Hp. apply elem_of_cons in Hp as [->|Hp].
    + repeat split; simpl; try discriminate; try lia; by intros ? [= <-].
    + apply list_elem_of_singleton in Hp as ->. exact example_payment_ok.
  - exists l. split; [exact Hl|]. apply Hin; [by left|]. by intros lb [= <-].
Defined.

Definition opened : channel_row :=
  mk_channel (id_bytes true) [x00] 0 None false true None 1 1 None.

Lemma channels_keep_their_history_witness :
  let c := mk_conn (set_channels [opened] empty_ldk) [None; Some "timeout"%string] None false in
  let l := channels (tables (channel_runs
             [Persist 2 (true, true, true); Create 3 (id_bytes true) false true;
              Close 4 (id_bytes true) "closed"] c)) in
  pk ch_id l ∧ ∃ r', pk_find ch_id (id_bytes true) l = Some r' ∧ extends opened r'.
Proof.
  apply channels_keep_their_history; [apply NoDup_singleton|reflexivity].
Defined.

Lemma update_initializing_without_row_witness :
  update_initializing_channel 7 (id_bytes true) None (Some "Funding"%string) fresh_ldk =
    (Ok (), fresh_ldk).
Proof. by apply update_initializing_without_row. Defined.
End Instances.
