(* ===== verification/Shared.v ===== *)
(** * One connection for both databases (src/kld/src/kld/main.rs, database/mod.rs)

    main.rs makes one [DurableConnection] and gives it to the wallet's database and to the
    node's. The batches of bdk are transactions of that session ([begin_batch],
    [commit_batch] of wallet_database.rs); a batch that is dropped after an error is neither
    committed nor rolled back. The theorem is about what becomes of the node's writes. *)

From S2P Require Import Prelude Sql Ldk Payment WalletDatabase WalletRefinement LdkDatabase.

Section Shared.
Context {D : Driver} {LT : LdkTypes} {BC : BdkCodec} {BU : Build}.

Definition shared : Type := conn (wallet_tables * ldk_tables).

Implicit Types c : shared.

(** What the tasks of the process do on the connection: a call of bdk's traits, a method of the
    node's database, the two ends of a batch, and the loss of the connection, after which the
    reconnection gives a new session. *)
Inductive session_step :=
| WalletCall (o : op)
| NodeCall (m : ldkm ())
| BeginBatch
| CommitBatch
| Reconnect.

Definition session (s : session_step) (c : shared) : shared :=
  match s with
  | WalletCall o => snd (zoom (run o) c)
  | NodeCall m => snd (zoom m c)
  | BeginBatch => snd (begin_batch c)
  | CommitBatch => snd (commit_batch c)
  | Reconnect => disconnect c
  end.
Definition sessions (l : list session_step) (c : shared) : shared :=
  fold_left (λ c s, session s c) l c.

(** What the server still has when the connection is lost now. *)
Definition durable (c : shared) : wallet_tables * ldk_tables := tables (disconnect c).

Definition ends_batch (s : session_step) : bool :=
  match s with CommitBatch | Reconnect => true | _ => false end.

Lemma begin_batch_ok c c' :
  begin_batch c = (Ok (), c') →
  snapshot c = None ∧ tables c' = tables c ∧ snapshot c' = Some (tables c) ∧ aborted c' = false.
Proof.
  unfold begin_batch, cmd_map_err, begin_txn, statement.
  destruct (faults c) as [|[e|] fs]; simpl; [|done|]; destruct (aborted c); try done;
    simpl; destruct (snapshot c); by intros [= <-].
Qed.

Lemma begin_batch_inside c t : snapshot c = Some t →
  snapshot (snd (begin_batch c)) = Some t ∧ tables (snd (begin_batch c)) = tables c ∧
  fst (begin_batch c) ≠ Ok () ∧ stays_dead (T:=wallet_tables * ldk_tables) begin_batch.
Proof.
  intros Hs. split_and!; [..|intros c' [Ha Hi]].
  all: unfold begin_batch, cmd_map_err, begin_txn, statement; rewrite ?Ha.
  4: by destruct (faults c') as [|[e|] fs].
  all: destruct (faults c) as [|[e|] fs]; simpl; try done; destruct (aborted c); simpl;
    rewrite ?Hs; done.
Qed.

Lemma session_keeps_snapshot s c t :
  snapshot c = Some t → ends_batch s = false → snapshot (session s c) = Some t.
Proof.
  intros Hs He. destruct s as [o|m| | |]; try done; simpl.
  - unfold zoom. by destruct (run o _).
  - unfold zoom. by destruct (m _).
  - by apply begin_batch_inside.
Qed.

Lemma sessions_keep_snapshot l c t :
  snapshot c = Some t → (∀ s, s ∈ l → ends_batch s = false) → snapshot (sessions l c) = Some t.
Proof.
  unfold sessions. revert c. induction l as [|s l IH]; intros c Hs Hl; [done|]. simpl. apply IH.
  - apply session_keeps_snapshot; [done|]. apply Hl. by left.
  - intros s' Hs'. apply Hl. by right.
Qed.

(** Outside a batch nothing is pending, and no call of either database makes it so. *)
Lemma session_outside s c :
  snapshot c = None → s ≠ BeginBatch → snapshot (session s c) = None ∧
  durable (session s c) = tables (session s c).
Proof.
  intros Hs Hb. assert (snapshot (session s c) = None) as Hn.
  { destruct s as [o|m| | |]; simpl; try done.
    - unfold zoom. by destruct (run o _).
    - unfold zoom. by destruct (m _).
    - unfold commit_batch, cmd_map_err, commit_txn. by destruct (faults c) as [|[e|] fs]. }
  split; [done|]. unfold durable, disconnect. simpl. by rewrite Hn.
Qed.

(** *** Calls in an aborted batch *)

Lemma dead_execute_blocking s : stays_dead (execute_blocking s).
Proof. apply dead_map_err, dead_statement. Qed.
Lemma dead_query_blocking {R} (s : wallet_tables → list R) : stays_dead (query_blocking s).
Proof. apply dead_map_err, dead_statement. Qed.
Lemma dead_db_execute s : stays_dead (db_execute s).
Proof. apply dead_map_err, dead_statement. Qed.
Lemma dead_db_query {R} (s : ldk_tables → list R) : stays_dead (db_query s).
Proof. apply dead_map_err, dead_statement. Qed.
Hint Resolve dead_execute_blocking dead_query_blocking dead_db_execute dead_db_query : dead.

Ltac solve_dead :=
  repeat match goal with
  | |- ∀ _, _ => intros
  | |- stays_dead (match ?x with _ => _ end) => destruct x
  | |- stays_dead (let '_ := ?x in _) => destruct x
  | |- stays_dead (cmd_bind _ _) => apply dead_bind
  | |- stays_dead (cmd_map _ _) => apply dead_map
  | _ => solve [auto with dead]
  | |- stays_dead ?m => let h := get_head m in unfold h
  end.

Lemma dead_run o : stays_dead (run o).
Proof. destruct o; unfold run; solve_dead. Qed.

Lemma dead_session s c :
  ends_batch s = false → (∀ m, s = NodeCall m → stays_dead m) → dead c →
  dead (session s c) ∧ tables (session s c) = tables c.
Proof.
  intros He Hm Hc. destruct s as [o|m| | |]; try done; simpl.
  - apply dead_zoom; [apply dead_run|by intros []|done].
  - apply dead_zoom; [by apply Hm|by intros []|done].
  - destruct Hc as [Ha Hi]. pose proof Hi as Hi'. unfold in_transaction in Hi'.
    destruct (snapshot c) as [t|] eqn:Hs; [|done].
    by apply (begin_batch_inside c t Hs).
Qed.

Lemma dead_sessions l c :
  (∀ s, s ∈ l → ends_batch s = false) → (∀ m, NodeCall m ∈ l → stays_dead m) → dead c →
  dead (sessions l c) ∧ tables (sessions l c) = tables c.
Proof.
  unfold sessions. revert c. induction l as [|s l IH]; intros c He Hm Hc; [done|]. simpl.
  destruct (dead_session s c) as [Hd Ht]; [apply He; by left|intros m ->; apply Hm; by left|done|].
  rewrite <- Ht. apply IH; [|intros m Hi; apply Hm; by right|done].
  intros s' Hs'. apply He. by right.
Qed.

(** [C5] The writes of the node and the batches of the wallet share one session. While no batch is
    open, whatever a call wrote survives the loss of the connection. From the beginning of a
    batch until its end, nothing survives that any call of either database wrote, whatever was
    reported to its caller and however many calls there were, and no other batch can begin.
    A commit makes all of it durable, unless a statement of the batch failed, of whichever
    database: from then on no call changes a table, and the commit reports success and leaves
    the tables where the batch began.
    Nothing in the node ends a batch that bdk dropped after an error. *)
Theorem open_batch_holds_node_writes c c1 l :
  let c2 := sessions l c1 in
  (snapshot c = None → ∀ s, s ≠ BeginBatch → durable (session s c) = tables (session s c)) ∧
  (begin_batch c = (Ok (), c1) → (∀ s, s ∈ l → ends_batch s = false) →
   (∀ m, NodeCall m ∈ l → stays_dead m) →
     durable c2 = tables c ∧ fst (begin_batch c2) ≠ Ok () ∧
     (∀ c3, commit_batch c2 = (Ok (), c3) →
        durable c3 = if aborted c2 then tables c else tables c2) ∧
     (faults c2 = [] → ∃ c3, commit_batch c2 = (Ok (), c3)) ∧
     (∀ l1 l2, l = l1 ++ l2 → aborted (sessions l1 c1) = true →
        aborted c2 = true ∧ tables c2 = tables (sessions l1 c1))).
Proof.
  intros c2. split; [intros; by apply session_outside|]. intros Hb Hl Hm.
  destruct (begin_batch_ok _ _ Hb) as (Hn & Ht & Hs & _).
  pose proof (sessions_keep_snapshot l c1 _ Hs Hl) as Hs2. fold c2 in Hs2. split_and!.
  - unfold durable, disconnect. simpl. by rewrite Hs2.
  - by eapply begin_batch_inside.
  - intros c3. unfold commit_batch, cmd_map_err, commit_txn, durable, disconnect. rewrite Hs2.
    by destruct (faults c2) as [|[e|] fs]; intros [= <-].
  - intros Hf. unfold commit_batch, cmd_map_err, commit_txn. rewrite Hf. by eexists.
  - intros l1 l2 -> Ha. subst c2. unfold sessions in *. rewrite fold_left_app in *.
    destruct (dead_sessions l2 (sessions l1 c1)) as [[] ?]; [..|done].
    + intros s Hi. apply Hl, elem_of_app. by right.
    + intros m Hi. apply Hm, elem_of_app. by right.
    + split; [done|]. unfold in_transaction.
      rewrite (sessions_keep_snapshot l1 c1 _ Hs); [done|].
      intros s Hi. apply Hl, elem_of_app. by left.
Qed.
End Shared.

(** ** A payment that is lost *)

Section Instances.
#[local] Existing Instance insertion_order.
#[local] Existing Instance example_codec.
#[local] Existing Instance example_ldk.
#[local] Existing Instance checked.

Definition shared_conn : shared := mk_conn (empty_wallet, empty_ldk) [] None false.
Definition a_channel : ldkm () := create_channel 5 (id_bytes true) false true.

Definition an_index : op := SetIndex (true : @KeychainKind example_codec) 3.

(** The wallet stores an index in a batch while the node creates a channel, twice: the
    second attempt fails, the commit succeeds, and the index is gone. *)
Lemma open_batch_holds_node_writes_witness :
  let c1 := snd (begin_batch shared_conn) in
  let c2 := sessions [WalletCall an_index; NodeCall a_channel; NodeCall a_channel] c1 in
  length (last_derivation_indices (fst (tables c2))) = 1%nat ∧
  ∃ c3, commit_batch c2 = (Ok (), c3) ∧ durable c3 = (empty_wallet, empty_ldk).
Proof.
  intros c1 c2. split; [reflexivity|].
  destruct (proj2 (open_batch_holds_node_writes shared_conn (snd (begin_batch shared_conn))
    [WalletCall an_index; NodeCall a_channel; NodeCall a_channel]) eq_refl)
    as (_ & _ & Hc & Hok & _).
  - intros s Hs. repeat (apply elem_of_cons in Hs as [->|Hs]); try done. by apply elem_of_nil in Hs.
  - intros m Hm. assert (m = a_channel) as ->.
    { repeat (apply elem_of_cons in Hm as [[=]|Hm]); [done..|by apply elem_of_nil in Hm]. }
    apply dead_map_err, dead_statement.
  - destruct (Hok eq_refl) as [c3 H3]. exists c3. split; [exact H3|]. rewrite (Hc c3 H3). reflexivity.
Defined.
End Instances.
