(* ===== verification/DurableConnection.v ===== *)
(** * The connection that is made again (src/kld/src/database/mod.rs)

    [DurableConnection] keeps the client of the database behind a lock. Tasks read it to run
    their statements; one task looks every two seconds whether the session has ended, and then
    replaces the client while it holds the lock for writing. The steps below are those of
    [keep_connected], of the readers ([get], [wait]), of [disconnect] and of the server. *)

From stdpp Require Import gmap sets.
From S2P Require Import Prelude Text Sql Ldk Payment WalletDatabase WalletRefinement LdkDatabase Shared.

#[local] Open Scope string_scope.
#[local] Open Scope Z_scope.

(** ** Making a connection *)

Record DatabaseSettings := mk_database_settings {
  database_host : string; database_port : Z; database_user : string; database_name : string;
  database_ca_cert_path : string; database_client_cert_path : string;
  database_client_key_path : string;
}.

(** OpenSSL reading its files, and the server, at the moment they are asked. *)
Class Postgres := {
  moment : Type;
  set_ca_file : moment → string → bool;
  set_certificate_file : moment → string → bool;
  set_private_key_file : moment → string → bool;
  pg_connect : moment → string → bool;
}.

Section Connecting.
Context {PG : Postgres}.

Definition log_safe_params (s : DatabaseSettings) : string :=
  "host=" +:+ database_host s +:+ " port=" +:+ print_nat (database_port s) +:+
  " user=" +:+ database_user s +:+ " dbname=" +:+ database_name s.

(** A certificate authority that cannot be read is an error, the client's own certificate and
    key are [expect]ed. *)
Definition create_connection (s : DatabaseSettings) (now : moment) : result string () :=
  if negb (set_ca_file now (database_ca_cert_path s)) then Err "ca file" else
  if negb (set_certificate_file now (database_client_cert_path s))
  then Panic "Database certificate" else
  if negb (set_private_key_file now (database_client_key_path s))
  then Panic "Database private key" else
  if pg_connect now (log_safe_params s) then Ok ()
  else Err ("Cannot connect to database (" +:+ log_safe_params s +:+ ")").
End Connecting.

(** ** State *)

(** Where the task of [keep_connected] is. [Installed]: the new client is in place and its
    connection task is not stored yet. *)
Inductive reconnect_task := Top | WantWrite | Connecting | Installed | Sleeping | Gone.

Definition locks (t : reconnect_task) : bool :=
  match t with Connecting | Installed => true | _ => false end.
(** No new reader passes a writer that waits. *)
Definition writes (t : reconnect_task) : bool :=
  match t with WantWrite | Connecting | Installed => true | _ => false end.

(** Sessions are numbered; [opened] are those whose connection task runs. [db]: the data as the
    current session sees it. *)
Record connection (T : Type) := mk_connection {
  opened : gset nat;
  fresh : nat;
  client : nat;
  connection_task : nat;
  readers : nat;
  task : reconnect_task;
  abort_requested : bool;
  db : conn T;
}.
Arguments mk_connection {T}.
Arguments opened {T}.
Arguments fresh {T}.
Arguments client {T}.
Arguments connection_task {T}.
Arguments readers {T}.
Arguments task {T}.
Arguments abort_requested {T}.
Arguments db {T}.

Section Steps.
Context {PG : Postgres} {T Op : Type}.
Variable settings : DatabaseSettings.
(** What a call of either database does to the session. *)
Variable exec : Op → conn T → conn T.
Implicit Types (s : connection T).

Definition set_task t s := mk_connection (opened s) (fresh s) (client s) (connection_task s)
  (readers s) t (abort_requested s) (db s).
Definition set_readers n s := mk_connection (opened s) (fresh s) (client s) (connection_task s)
  n (task s) (abort_requested s) (db s).
Definition set_db (c : conn T) s := mk_connection (opened s) (fresh s) (client s) (connection_task s)
  (readers s) (task s) (abort_requested s) c.

Definition is_closed s : bool := bool_decide (client s ∉ opened s).

(** The connection task of a session ends: the server drops what its transaction wrote. *)
Definition end_session i s := mk_connection (opened s ∖ {[i]}) (fresh s) (client s)
  (connection_task s) (readers s) (task s) (abort_requested s)
  (if bool_decide (i = client s) && negb (is_closed s) then Sql.disconnect (db s) else db s).

(** [*client_guard = client]: the task of the connection has been spawned. *)
Definition install s := mk_connection ({[fresh s]} ∪ opened s) (S (fresh s)) (fresh s)
  (connection_task s) (readers s) Installed (abort_requested s) (db s).
(** [*task_guard = connect_task], and the lock is released. *)
Definition store_task s := mk_connection (opened s) (fresh s) (client s) (client s)
  (readers s) Sleeping (abort_requested s) (db s).

(** [disconnect]: the task is asked to stop and the stored connection is aborted. *)
Definition disconnect s :=
  let s := mk_connection (opened s) (fresh s) (client s) (connection_task s) (readers s) (task s)
             true (db s) in
  end_session (connection_task s) s.

(** A statement of a reader; on a closed client it fails at once. *)
Definition run_call (o : Op) s := if is_closed s then s else set_db (exec o (db s)) s.

Inductive label :=
| Lost | Get | Put | Call (o : Op)
| Looked | Queued | Locked | Tried (now : moment) | Stored | Slept | Disconnect | Aborted.

(** An abort takes effect where the task waits, in place of its next poll. *)
Inductive step : label → connection T → connection T → Prop :=
| step_lost s : client s ∈ opened s → step Lost s (end_session (client s) s)
| step_get s : writes (task s) = false → step Get s (set_readers (S (readers s)) s)
| step_put s n : readers s = S n → step Put s (set_readers n s)
| step_call o s : (0 < readers s)%nat → step (Call o) s (run_call o s)
| step_looked s :
    task s = Top → abort_requested s = false → is_closed s = false → step Looked s (set_task Sleeping s)
| step_queued s :
    task s = Top → abort_requested s = false → is_closed s = true → step Queued s (set_task WantWrite s)
| step_locked s :
    task s = WantWrite → abort_requested s = false → readers s = 0%nat →
    step Locked s (set_task Connecting s)
| step_connected now s :
    task s = Connecting → abort_requested s = false → create_connection settings now = Ok () →
    step (Tried now) s (install s)
| step_refused now e s :
    task s = Connecting → abort_requested s = false → create_connection settings now = Err e →
    step (Tried now) s (set_task Sleeping s)
| step_panicked now w s :
    task s = Connecting → abort_requested s = false → create_connection settings now = Panic w →
    step (Tried now) s (set_task Gone s)
| step_stored s : task s = Installed → step Stored s (store_task s)
| step_slept s : task s = Sleeping → abort_requested s = false → step Slept s (set_task Top s)
| step_disconnect s : step Disconnect s (disconnect s)
| step_aborted s :
    abort_requested s = true → task s ≠ Installed → task s ≠ Gone →
    step Aborted s (set_task Gone s).

Inductive run : list label → connection T → connection T → Prop :=
| run_nil s : run [] s s
| run_snoc tr l s s' s'' : run tr s s' → step l s' s'' → run (tr ++ [l]) s s''.

(** ** Starting: [new_migrate] *)

Definition started (c : conn T) : connection T :=
  mk_connection {[0%nat]} 1 0 0 0 Top false c.

(** [attempts]: the moments of the loop that makes the first connection. *)
Fixpoint new_migrate (fuel : nat) (attempts : nat → moment) (migrate : conn T → result string (conn T))
    (c : conn T) : result string (connection T) :=
  match fuel with
  | O => Err "still waiting"
  | S fuel =>
      match create_connection settings (attempts 0%nat) with
      | Ok _ => match migrate c with
                | Ok c => Ok (started c)
                | _ => Panic "failed to run migrations"
                end
      | Err _ => new_migrate fuel (λ i, attempts (S i)) migrate c
      | Panic w => Panic w
      end
  end.

(** [wait]: the first of the states that the loop looks at in which the client is open. *)
Definition wait (looks : list (connection T)) : option (connection T) :=
  head (List.filter (λ s, negb (is_closed s)) looks).

(** [Service for DurableConnection]. *)
Definition is_connected s : bool := negb (is_closed s).

(** ** The invariant *)

Record inv s : Prop := {
  inv_one : opened s ⊆ {[client s]};
  inv_client : (client s < fresh s)%nat;
  inv_task : task s ≠ Installed → connection_task s = client s;
  inv_old : task s = Installed → connection_task s ∉ opened s;
  inv_alone : locks (task s) = true → readers s = 0%nat;
  inv_closed : task s = WantWrite ∨ task s = Connecting → is_closed s = true;
  inv_rolled_back : is_closed s = true → snapshot (db s) = None;
}.

Lemma started_inv c : inv (started c).
Proof.
  split; simpl; try done; try (by intros [?|?]); try lia.
Qed.

Lemma closed_spec s : is_closed s = true ↔ client s ∉ opened s.
Proof. apply bool_decide_eq_true. Qed.
Lemma open_spec s : is_closed s = false ↔ client s ∈ opened s.
Proof. unfold is_closed. rewrite bool_decide_eq_false. destruct (decide (client s ∈ opened s)); tauto. Qed.

Lemma end_session_inv i s : inv s → inv (end_session i s).
Proof.
  intros [H1 H2 H3 H4 H5 H6 H7]. split; simpl; try done; [set_solver|set_solver| |].
  - rewrite closed_spec. simpl. intros Ht. specialize (H6 Ht). rewrite closed_spec in H6. set_solver.
  - rewrite closed_spec. simpl. intros Hc. case_bool_decide as Hi; simpl.
    + destruct (is_closed s) eqn:Ho; [by apply H7|done].
    + apply H7, closed_spec. set_solver.
Qed.

Lemma step_inv l s s' : inv s → step l s s' → inv s'.
Proof.
  intros Hinv Hs. pose proof Hinv as [H1 H2 H3 H4 H5 H6 H7].
  destruct Hs as [s Hc|s Hw|s n Hr|o s Hr|s Ht Ha Hc|s Ht Ha Hc|s Ht Ha Hr|now s Ht Ha Hn
    |now e s Ht Ha Hn|now w s Ht Ha Hn|s Ht|s Ht Ha|s|s Ha Hi Hg].
  - by apply end_session_inv.
  - split; simpl; try done. intros Hl. by destruct (task s).
  - split; simpl; try done. intros Hl. specialize (H5 Hl). lia.
  - unfold run_call. destruct (is_closed s) eqn:Hc; [done|]. split; simpl; try done.
    all: change (is_closed (set_db (exec o (db s)) s)) with (is_closed s); rewrite Hc in *; try done.
  - split; simpl; try done; [intros _; apply H3; by rewrite Ht|by intros [?|?]].
  - split; simpl; try done. intros _. apply H3. by rewrite Ht.
  - split; simpl; try done; [intros _; apply H3; by rewrite Ht|]. intros _. apply H6. by left.
  - assert (client s ∉ opened s) as Hc by (apply closed_spec, H6; by right).
    assert (opened s = ∅) as He by set_solver. rewrite Ht in *.
    split; simpl; try done; try lia; try (by intros [?|?]); try (by intros _; apply H5).
    + rewrite He. set_solver.
    + intros _. rewrite (H3 ltac:(done)), He.
      intros [?%elem_of_singleton|?%elem_of_empty]%elem_of_union; [lia|done].
    + intros Hc'%closed_spec. simpl in Hc'. set_solver.
  - rewrite Ht in *. split; simpl; try done; [intros _; by apply H3|by intros [?|?]].
  - rewrite Ht in *. split; simpl; try done; [intros _; by apply H3|by intros [?|?]].
  - split; simpl; try done. by intros [?|?].
  - split; simpl; try done; [intros _; apply H3; by rewrite Ht|by intros [?|?]].
  - unfold disconnect. apply end_session_inv. by split.
  - split; simpl; try done; [intros _; by apply H3|by intros [?|?]].
Qed.

Lemma run_inv tr s s' : run tr s s' → inv s → inv s'.
Proof. induction 1 as [|tr l s s' s'' _ IH Hs]; [done|]. intros Hi. eapply step_inv; [by apply IH|done]. Qed.

(** ** Readers see one session *)

Definition calls_of (tr : list label) : list Op :=
  omap (λ l, match l with Call o => Some o | _ => None end) tr.
(** Calls on one session; [None]: the session is lost, and another one begins. *)
Definition replay (l : list (option Op)) (c : conn T) : conn T :=
  fold_left (λ c o, match o with Some o => exec o c | None => Sql.disconnect c end) l c.

Lemma replay_snoc l o c :
  replay (l ++ [o])%list c = match o with Some o => exec o (replay l c) | None => Sql.disconnect (replay l c) end.
Proof. unfold replay. by rewrite fold_left_app. Qed.

Lemma end_session_db i s : db (end_session i s) = db s ∨ db (end_session i s) = Sql.disconnect (db s).
Proof. simpl. destruct (_ && _); auto. Qed.

Lemma step_db l s s' : step l s s' →
  db s' = db s ∨ db s' = Sql.disconnect (db s) ∨ ∃ o, l = Call o ∧ db s' = exec o (db s).
Proof.
  destruct 1 as [s Hc|s Hw|s n Hr|o s Hr| | | | | | | | |s| ]; auto.
  - destruct (end_session_db (client s) s); auto.
  - unfold run_call. destruct (is_closed s); eauto.
  - unfold disconnect. match goal with |- context [end_session ?i ?x] => destruct (end_session_db i x) end; auto.
Qed.

(** The data are those of one session on which the calls that found the client open ran in
    their order, and which was lost in between. *)
Lemma run_replay tr s s' : run tr s s' →
  ∃ l, db s' = replay l (db s) ∧ omap id l `sublist_of` calls_of tr.
Proof.
  induction 1 as [s|tr l s s' s'' _ (k & Hk & Hsub) Hs]; [by exists []|].
  unfold calls_of in *. rewrite omap_app.
  destruct (step_db l s' s'' Hs) as [He|[He|(o & -> & He)]].
  - exists k. rewrite He. split; [done|]. by apply sublist_inserts_r.
  - exists (k ++ [None])%list. rewrite replay_snoc, He, Hk, omap_app, app_nil_r. split; [done|].
    by apply sublist_inserts_r.
  - exists (k ++ [Some o])%list. rewrite replay_snoc, He, Hk, omap_app. split; [done|].
    by apply sublist_app.
Qed.

(** ** A lost session is replaced *)

(** Steps of the reconnecting task until it tries to connect. *)
Definition distance (t : reconnect_task) : nat :=
  match t with Installed => 4 | Sleeping => 3 | Top => 2 | WantWrite => 1 | Connecting | Gone => 0 end.
Definition own (l : label) : bool :=
  match l with Looked | Queued | Locked | Stored | Slept => true | _ => false end.
Definition tried (l : label) : bool := match l with Tried _ => true | _ => false end.
Definition ends (l : label) : bool := match l with Aborted => true | _ => false end.

Lemma closed_step l s s' : step l s s' → is_closed s = true → tried l = false → is_closed s' = true.
Proof.
  intros Hs Hc Ht. destruct Hs; try done.
  - by apply closed_spec in Hc.
  - unfold run_call. by rewrite Hc.
  - unfold disconnect. rewrite !closed_spec in *. simpl. set_solver.
Qed.

Lemma own_step l s s' : step l s s' → is_closed s = true → tried l = false → ends l = false →
  (distance (task s') + (if own l then 1 else 0) = distance (task s))%nat.
Proof.
  intros Hs Hc Ht He. destruct Hs as [| |s n Hr|o s Hr|s Ht' Ha Hc'|s Ht' Ha Hc'|s Ht' Ha Hr| | | |s Ht'|s Ht' Ha| | ];
    try done; simpl; try (rewrite Ht'; simpl; lia); try lia.
  - unfold run_call. rewrite Hc. lia.
  - congruence.
Qed.

Lemma run_closed tr s s' : run tr s s' → is_closed s = true → Forall (λ l, tried l = false) tr →
  Forall (λ l, ends l = false) tr →
  is_closed s' = true ∧
  (distance (task s') + length (List.filter own tr) = distance (task s))%nat.
Proof.
  induction 1 as [s|tr l s s' s'' _ IH Hs]; [simpl; intros; split; [done|lia]|].
  rewrite !Forall_app, !Forall_singleton, List.filter_app, length_app. intros Hc [Ht Hl] [He Hl'].
  destruct (IH Hc Ht He) as [Hc' Hd]. split; [by eapply closed_step|].
  pose proof (own_step l s' s'' Hs Hc' Hl Hl') as Ho. simpl. destruct (own l); simpl; lia.
Qed.

(** The task can move, or waits for readers that were there before it. *)
Lemma task_moves s (now : moment) : inv s → abort_requested s = false → task s ≠ Gone →
  is_closed s = true →
  (∃ l s', (own l || tried l) = true ∧ step l s s') ∨ (task s = WantWrite ∧ (0 < readers s)%nat).
Proof.
  intros Hi Ha Hg Hc. destruct (task s) eqn:Ht; try done.
  - left. exists Queued. eexists. split; [done|]. by apply step_queued.
  - destruct (readers s) eqn:Hr; [|right; split; [done|lia]].
    left. exists Locked. eexists. split; [done|]. by apply step_locked.
  - left. exists (Tried now). destruct (create_connection settings now) as [[]|e|w] eqn:Hn; eexists;
      (split; [done|]); [by apply step_connected|by eapply step_refused|by eapply step_panicked].
  - left. exists Stored. eexists. split; [done|]. by apply step_stored.
  - left. exists Slept. eexists. split; [done|]. by apply step_slept.
Qed.

(** ** The end of reconnection *)

Lemma disconnect_closed_db s : is_closed s = true → db (disconnect s) = db s.
Proof.
  intros Hc. unfold disconnect, end_session. simpl.
  match goal with |- context [is_closed ?x] => change (is_closed x) with (is_closed s) end.
  by rewrite Hc, andb_false_r.
Qed.

Lemma gone_step l s s' : step l s s' → task s = Gone → is_closed s = true →
  task s' = Gone ∧ is_closed s' = true ∧ db s' = db s.
Proof.
  intros Hs Hg Hc. destruct Hs; try congruence; try done.
  - by apply closed_spec in Hc.
  - unfold run_call. by rewrite Hc.
  - split; [done|]. split; [|by apply disconnect_closed_db].
    unfold disconnect. rewrite !closed_spec in *. simpl. set_solver.
Qed.

Lemma run_gone tr s s' : run tr s s' → task s = Gone → is_closed s = true →
  task s' = Gone ∧ is_closed s' = true ∧ db s' = db s.
Proof.
  induction 1 as [|tr l s s' s'' _ IH Hs]; [done|]. intros Hg Hc.
  destruct (IH Hg Hc) as (Hg' & Hc' & <-). by eapply gone_step.
Qed.

(** *** Before and after [disconnect] *)

(** Nobody disconnects, and the client's certificate and key can be read. *)
Definition quiet (l : label) : Prop :=
  match l with
  | Disconnect => False
  | Tried now => ∀ w, create_connection settings now ≠ Panic w
  | _ => True
  end.

Lemma quiet_step l s s' : step l s s' → quiet l → abort_requested s = false → task s ≠ Gone →
  abort_requested s' = false ∧ task s' ≠ Gone ∧ ends l = false.
Proof.
  intros Hs Hl Ha Hg. destruct Hs; simpl in *; try done; try congruence.
  all: first [by edestruct Hl|unfold run_call; by destruct (is_closed s)].
Qed.

Lemma run_quiet tr s s' : run tr s s' → Forall quiet tr →
  abort_requested s = false → task s ≠ Gone →
  abort_requested s' = false ∧ task s' ≠ Gone ∧ Forall (λ l, ends l = false) tr.
Proof.
  induction 1 as [|tr l s s' s'' _ IH Hs]; [done|].
  rewrite !Forall_app, !Forall_singleton. intros [Hq Hl] Ha Hg.
  destruct (IH Hq Ha Hg) as (Ha' & Hg' & He). destruct (quiet_step _ _ _ Hs Hl Ha' Hg'). tauto.
Qed.

Lemma disconnected_step l s s' : step l s s' → abort_requested s = true →
  abort_requested s' = true ∧ client s' = client s ∧ opened s' ⊆ opened s ∧
  (l ≠ Lost → l ≠ Disconnect → opened s' = opened s).
Proof.
  intros Hs Ha. destruct Hs; simpl in *; try congruence;
    try (split_and!; first [done|by intros i [? _]%elem_of_difference]).
  unfold run_call. by destruct (is_closed s).
Qed.

Lemma run_disconnected tr s s' : run tr s s' → abort_requested s = true →
  abort_requested s' = true ∧ client s' = client s ∧ opened s' ⊆ opened s ∧
  (Lost ∉ tr → Disconnect ∉ tr → opened s' = opened s).
Proof.
  induction 1 as [|tr l s s' s'' _ IH Hs]; [done|]. intros Ha.
  destruct (IH Ha) as (Ha' & Hc & Ho & He).
  destruct (disconnected_step _ _ _ Hs Ha') as (Ha'' & Hc' & Ho' & He').
  split_and!; [done|congruence|by etrans|]. intros [Hl Hl']%not_elem_of_app [Hd Hd']%not_elem_of_app.
  rewrite He', He; [done..| |]; intros ->; [apply Hl'|apply Hd']; by left.
Qed.
End Steps.

Section Theorems.
Context {PG : Postgres} {D : Driver} {LT : LdkTypes} {BC : BdkCodec} {BU : Build}.
Variable settings : DatabaseSettings.
Implicit Types s : connection (wallet_tables * ldk_tables).

Let step := step (T := wallet_tables * ldk_tables) settings session.
Let run := run (T := wallet_tables * ldk_tables) settings session.

Definition is_reconnect (x : session_step) : bool := match x with Reconnect => true | _ => false end.

(** [C6] However often the session is lost, made again and used by both databases at the same
    time: all readers run on the one session that is open, none is inside while it is replaced,
    and the data are those of calls on a single session, in their order and without those that
    found it closed, with a [Reconnect] wherever it was lost. So what holds of [sessions] holds
    of the connection. While it is closed nothing is pending. *)
Theorem reconnection_is_one_session tr c s :
  run tr (started c) s →
  (∃ l, db s = sessions l c ∧
     List.filter (λ x, negb (is_reconnect x)) l `sublist_of` calls_of tr) ∧
  opened s ⊆ {[client s]} ∧ (locks (task s) = true → readers s = 0%nat) ∧
  (is_connected s = false → durable (db s) = tables (db s)).
Proof.
  intros Hr. destruct (run_inv _ _ _ _ _ Hr (started_inv c)) as [H1 _ _ _ H5 _ H7].
  split_and!; [|done..|].
  - destruct (run_replay _ _ _ _ _ Hr) as (k & Hk & Hsub).
    exists (default Reconnect <$> k). split.
    + rewrite Hk. simpl. unfold replay, sessions. clear. generalize c. induction k as [|o k IH]; [done|].
      intros c'. simpl. rewrite IH. by destruct o.
    + etrans; [|exact Hsub]. clear. induction k as [|[o|] k IH]; simpl; [done| |done].
      destruct (negb (is_reconnect o)); [by apply sublist_skip|by apply sublist_cons].
  - intros Hc%negb_false_iff. unfold durable, Sql.disconnect. simpl. by rewrite H7.
Qed.

(** [C11] A session that is lost is replaced, as long as the run is [quiet]: nobody has
    disconnected, and no attempt has found a certificate or key that cannot be read, which ends
    reconnection ([end_of_reconnection]). Whatever the readers and the server do, the task that
    reconnects makes at most four steps before it tries to connect; it can always make the next
    one, except that it waits for readers that were there before, and lets no new one in; and an
    attempt that the server accepts connects. *)
Theorem lost_session_is_replaced c tr tr' s s' now :
  run tr (started c) s → is_connected s = false → run tr' s s' →
  Forall (quiet settings) (tr ++ tr') → Forall (λ l, tried l = false) tr' →
  (length (List.filter own tr') ≤ 4)%nat ∧
  ((∃ l s'', (own l || tried l) = true ∧ step l s' s'') ∨
   (task s' = WantWrite ∧ (0 < readers s')%nat ∧ ∀ s'', ¬ step Get s' s'')) ∧
  (∀ s'', step (Tried now) s' s'' → create_connection settings now = Ok () → is_connected s'' = true).
Proof.
  intros Hr Hc%negb_false_iff Hr' [Hq Hq']%Forall_app Ht.
  pose proof (run_inv _ _ _ _ _ Hr (started_inv c)) as Hi.
  destruct (run_quiet _ _ _ _ _ Hr Hq) as (Ha & Hg & _); [done..|].
  destruct (run_quiet _ _ _ _ _ Hr' Hq' Ha Hg) as (Ha' & Hg' & He).
  destruct (run_closed _ _ _ _ _ Hr' Hc Ht He) as [Hc' Hd].
  split; [|split].
  - destruct (task s); simpl in *; lia.
  - destruct (task_moves settings session s' now) as [?|[Hw Hn]]; [by eapply run_inv|done..|by left|].
    right. split_and!; [done..|]. intros s'' Hs. inversion Hs; subst. by rewrite Hw in *.
  - intros s'' Hs Hok. inversion Hs; subst; [|congruence..].
    unfold is_connected, is_closed. simpl. rewrite bool_decide_eq_false_2; [done|]. set_solver.
Qed.

(** [C32] What ends reconnection. A certificate or key that cannot be read when the task tries to
    connect panics in the task: the client stays closed for ever, whatever else happens, and no
    statement of either database runs again. [disconnect] closes the connection for good, unless
    it comes between a new client and its connection task: then it aborts the old one, and the
    new session stays open until the server ends it. *)
Theorem end_of_reconnection c tr s :
  run tr (started c) s →
  (∀ now w s1 tr' s', create_connection settings now = Panic w → step (Tried now) s s1 →
     run tr' s1 s' → task s' = Gone ∧ is_connected s' = false ∧ db s' = db s) ∧
  (∀ tr' s', run tr' (disconnect s) s' →
     (task s ≠ Installed → opened s' = ∅) ∧
     (task s = Installed → is_connected s = true → Lost ∉ tr' → Disconnect ∉ tr' →
        is_connected s' = true)).
Proof.
  intros Hr. pose proof (run_inv _ _ _ _ _ Hr (started_inv c)) as [H1 _ H3 H4 _ H6 _]. split.
  - intros now w s1 tr' s' Hw Hs Hr'. inversion Hs; subst; [congruence..|].
    unfold is_connected. rewrite negb_false_iff.
    apply (run_gone _ _ _ _ _ Hr'); [done|]. apply H6. by right.
  - intros tr' s' Hr'. destruct (run_disconnected _ _ _ _ _ Hr') as (_ & Hc & Ho & He); [done|].
    simpl in Hc, Ho, He. split.
    + intros Ht. rewrite (H3 Ht) in Ho. apply leibniz_equiv, elem_of_equiv_empty.
      intros i [Hi Hn]%Ho%elem_of_difference. by apply H1 in Hi.
    + intros Ht Hopen Hl Hd. unfold is_connected in *. rewrite negb_true_iff, open_spec in *.
      rewrite Hc, He by done. apply elem_of_difference. split; [done|].
      intros Heq%elem_of_singleton. apply (H4 Ht). by rewrite <- Heq.
Qed.
End Theorems.

(** [new_migrate] waits for the server: failed attempts are repeated until one succeeds. *)
Section Starting.
Context {PG : Postgres} {T : Type}.
Variable settings : DatabaseSettings.

Lemma new_migrate_waits n (attempts : nat → moment) migrate (c c' : conn T) fuel :
  (∀ i, (i < n)%nat → ∃ e, create_connection settings (attempts i) = Err e) →
  create_connection settings (attempts n) = Ok () → migrate c = Ok c' → (n < fuel)%nat →
  new_migrate settings fuel attempts migrate c = Ok (started c').
Proof.
  revert attempts fuel. induction n as [|n IH]; intros attempts [|fuel] He Hok Hm Hf; try lia; simpl.
  - by rewrite Hok, Hm.
  - destruct (He 0%nat) as [e ->]; [lia|]. apply IH; [|done..|lia].
    intros i Hi. apply (He (S i)). lia.
Qed.

Lemma wait_gives_open (looks : list (connection T)) s :
  wait looks = Some s → s ∈ looks ∧ is_closed s = false.
Proof.
  unfold wait. intros Hw. apply head_Some_elem_of in Hw. apply list_elem_of_In, filter_In in Hw as [Hi Hc].
  split; [by apply list_elem_of_In|by apply negb_true_iff].
Qed.
End Starting.

(** ** A server that restarts while the certificate is replaced *)

Section Instances.
#[local] Existing Instance insertion_order.
#[local] Existing Instance example_codec.
#[local] Existing Instance example_ldk.
#[local] Existing Instance checked.

(** The certificate is missing in the second 1. *)
#[local] Instance example_postgres : Postgres := {|
  moment := nat;
  set_ca_file _ _ := true;
  set_certificate_file now _ := negb (bool_decide (now = 1%nat));
  set_private_key_file _ _ := true;
  pg_connect _ _ := true;
|}.
Definition second (n : nat) : @moment example_postgres := n.
Definition example_database : DatabaseSettings :=
  mk_database_settings "localhost" 5432 "root" "defaultdb" "ca" "cert" "key".
Definition sessions_at (t : reconnect_task) (c : conn (wallet_tables * ldk_tables)) :=
  mk_connection ∅ 1 0 0 0 t false c.

Lemma lost_and_seen c :
  run example_database session [Lost; Queued; Locked] (started c)
    (sessions_at Connecting (Sql.disconnect c)).
Proof.
  apply (run_snoc _ _ [Lost; Queued] Locked _ (sessions_at WantWrite (Sql.disconnect c)));
    [apply (run_snoc _ _ [Lost] Queued _ (sessions_at Top (Sql.disconnect c)));
      [apply (run_snoc _ _ [] Lost _ (started c)); [constructor|]|]|].
  - apply (step_lost _ _ (started c)). by apply elem_of_singleton.
  - by apply (step_queued _ _ (sessions_at Top (Sql.disconnect c))).
  - by apply (step_locked _ _ (sessions_at WantWrite (Sql.disconnect c))).
Qed.

Lemma reconnection_is_one_session_witness :
  ∃ l, Sql.disconnect shared_conn = sessions l shared_conn.
Proof.
  destruct (reconnection_is_one_session example_database [Lost; Queued; Locked] shared_conn
    (sessions_at Connecting (Sql.disconnect shared_conn)) (lost_and_seen shared_conn)) as ([l [Hl _]] & _).
  exists l. exact Hl.
Defined.

Definition lost_session := sessions_at Connecting (Sql.disconnect shared_conn).
Lemma lost_session_is_replaced_witness :
  ∃ s'', step example_database session (Tried (second 0)) lost_session s'' ∧ is_connected s'' = true.
Proof.
  destruct (lost_session_is_replaced example_database shared_conn [Lost; Queued; Locked] [] lost_session
    lost_session (second 0) (lost_and_seen shared_conn)) as (_ & _ & H).
  - reflexivity.
  - constructor.
  - simpl. repeat constructor.
  - constructor.
  - exists (install lost_session). assert (step example_database session (Tried (second 0)) lost_session
      (install lost_session)) as Hs by by constructor.
    split; [exact Hs|by apply (H _ Hs)].
Defined.

Lemma end_of_reconnection_witness :
  let s := sessions_at Connecting (Sql.disconnect shared_conn) in
  step example_database session (Tried (second 1)) s (set_task Gone s) ∧
  is_connected (set_task Gone s) = false.
Proof.
  intros s. assert (step example_database session (Tried (second 1)) s (set_task Gone s)) as Hs
    by (by apply (step_panicked _ _ _ "Database certificate")).
  split; [exact Hs|].
  apply (proj1 (end_of_reconnection example_database shared_conn [Lost; Queued; Locked] s
    (lost_and_seen shared_conn)) (second 1) "Database certificate" (set_task Gone s) [] (set_task Gone s));
    [reflexivity|exact Hs|constructor].
Defined.
End Instances.
