(* ===== verification/AsyncRequests.v ===== *)
(** * Requests that wait for an event (src/kld/src/ldk/controller.rs, [AsyncSenders])

    An API call that starts a payment or opens a channel registers a sender under the id of the
    request and waits on the receiver; the event handler takes the sender out and answers
    through it. [senders] is the map together with the one-shot channels that were created for
    it; a receiver is the number of its channel. *)

From S2P Require Import Prelude.

(** A one-shot channel: nothing sent yet, a value, or the sender is gone. *)
Inductive oneshot (RV : Type) := Waiting | Value (rv : RV) | Closed.
Arguments Waiting {RV}.
Arguments Value {RV} rv.
Arguments Closed {RV}.

Section Senders.
Context {K V RV : Type} `{EqDecision K}.

Record senders := mk_senders {
  entries : list (K * (V * nat));
  chans : list (oneshot RV);
}.
Definition new_senders : senders := mk_senders [] [].

(** Dropping a sender that sent nothing closes its channel. *)
Definition drop_sender (tx : nat) (l : list (oneshot RV)) : list (oneshot RV) :=
  alter (λ c, match c with Waiting => Closed | c => c end) tx l.
Definition send (tx : nat) (rv : RV) (l : list (oneshot RV)) : list (oneshot RV) :=
  alter (λ c, match c with Waiting => Value rv | c => c end) tx l.

(** [insert]: a new channel; the sender a key had before is dropped. *)
Definition insert (k : K) (v : V) (s : senders) : nat * senders :=
  let rx := length (chans s) in
  let old := match hm_get k (entries s) with
             | Some (_, tx) => drop_sender tx (chans s)
             | None => chans s
             end in
  (rx, mk_senders (hm_insert k (v, rx) (entries s)) (old ++ [Waiting])).

(** [get]: the value and the closure [respond], which sends through the sender taken out. *)
Definition get (k : K) (s : senders) : option (V * nat) * senders :=
  match hm_get k (entries s) with
  | Some (v, tx) => (Some (v, tx), mk_senders (hm_remove k (entries s)) (chans s))
  | None => (None, s)
  end.
Definition call_respond (tx : nat) (rv : RV) (s : senders) : senders :=
  mk_senders (entries s) (send tx rv (chans s)).

(** The closure is dropped without being called. *)
Definition drop_respond (tx : nat) (s : senders) : senders :=
  mk_senders (entries s) (drop_sender tx (chans s)).

(** [respond]: answers and forgets the request; without a request it does nothing. *)
Definition respond (k : K) (rv : RV) (s : senders) : senders :=
  match hm_get k (entries s) with
  | Some (_, tx) => mk_senders (hm_remove k (entries s)) (send tx rv (chans s))
  | None => s
  end.

(** What the receiver sees. *)
Definition receiver (rx : nat) (s : senders) : oneshot RV := default Closed (chans s !! rx).

(** ** Invariant: every registered sender has its own channel, on which nothing was sent *)

Record senders_wf (s : senders) : Prop := {
  wf_waiting k v tx : hm_get k (entries s) = Some (v, tx) → chans s !! tx = Some Waiting;
  wf_own k k' v v' tx : hm_get k (entries s) = Some (v, tx) →
    hm_get k' (entries s) = Some (v', tx) → k = k';
}.

Lemma new_senders_wf : senders_wf new_senders.
Proof. by split. Qed.

Lemma lookup_send tx rv l i :
  send tx rv l !! i =
    if decide (i = tx) then (λ c, match c with Waiting => Value rv | c => c end) <$> l !! i
    else l !! i.
Proof. unfold send. case_decide; subst; [apply list_lookup_alter_eq|by apply list_lookup_alter_ne]. Qed.

Lemma lookup_drop tx l i :
  drop_sender tx l !! i =
    if decide (i = tx) then (λ c, match c with Waiting => Closed | c => c end) <$> l !! i
    else l !! i.
Proof.
  unfold drop_sender. case_decide; subst; [apply list_lookup_alter_eq|by apply list_lookup_alter_ne].
Qed.

Lemma insert_wf k v s : senders_wf s → senders_wf (snd (insert k v s)).
Proof.
  intros [Hw Ho].
  assert (∀ k' v' tx, k' ≠ k → hm_get k' (entries s) = Some (v', tx) →
    (tx < length (chans s))%nat ∧
    match hm_get k (entries s) with
    | Some (_, tx') => drop_sender tx' (chans s)
    | None => chans s
    end !! tx = Some Waiting) as Hold.
  { intros k' v' tx Hne Hg. pose proof (Hw _ _ _ Hg) as Hwt.
    split; [by eapply lookup_lt_Some|].
    destruct (hm_get k (entries s)) as [[v0 tx0]|] eqn:Hk; [|done].
    rewrite lookup_drop, decide_False; [done|]. intros ->. apply Hne. by eapply Ho. }
  split; simpl.
  - intros k' v' tx. rewrite hm_get_insert. case_decide as Hk; subst.
    + intros [= <- <-]. rewrite lookup_app_r; [|destruct (hm_get k _) as [[]|]; unfold drop_sender; by rewrite ?length_alter].
      destruct (hm_get k (entries s)) as [[]|]; unfold drop_sender; rewrite ?length_alter;
        by rewrite Nat.sub_diag.
    + intros Hg. destruct (Hold _ _ _ Hk Hg) as [Hlt Hc]. by apply lookup_app_l_Some.
  - intros k1 k2 v1 v2 tx. rewrite !hm_get_insert. repeat case_decide; subst; try done.
    + intros [= <- <-] Hg. destruct (Hold k2 v2 _ ltac:(done) Hg). lia.
    + intros Hg [= <- <-]. destruct (Hold k1 v1 _ ltac:(done) Hg). lia.
    + apply Ho.
Qed.

Lemma get_wf k s : senders_wf s → senders_wf (snd (get k s)).
Proof.
  intros [Hw Ho]. unfold get. destruct (hm_get k (entries s)) as [[v tx]|]; simpl; [|by split].
  split; simpl.
  - intros k' v' tx'. rewrite hm_get_remove. case_decide; [done|]. apply Hw.
  - intros k1 k2 v1 v2 tx'. rewrite !hm_get_remove. repeat case_decide; try done. apply Ho.
Qed.

Lemma send_wf k v tx rv s :
  senders_wf s → hm_get k (entries s) = Some (v, tx) →
  senders_wf (mk_senders (hm_remove k (entries s)) (send tx rv (chans s))).
Proof.
  intros [Hw Ho] Hk. split; simpl.
  - intros k' v' tx'. rewrite hm_get_remove. case_decide as Hne; [done|]. intros Hg.
    rewrite lookup_send, decide_False; [by eapply Hw|]. intros ->. apply Hne. by eapply Ho.
  - intros k1 k2 v1 v2 tx'. rewrite !hm_get_remove. repeat case_decide; try done. apply Ho.
Qed.

Lemma respond_wf k rv s : senders_wf s → senders_wf (respond k rv s).
Proof.
  intros Hs. unfold respond. destruct (hm_get k (entries s)) as [[v tx]|] eqn:Hk; [|done].
  by eapply send_wf.
Qed.

(** A request that is registered is answered by [respond] under its key ... *)
Lemma respond_delivers k v tx rv s :
  senders_wf s → hm_get k (entries s) = Some (v, tx) → receiver tx (respond k rv s) = Value rv.
Proof.
  intros [Hw Ho] Hk. unfold respond, receiver. rewrite Hk. simpl.
  rewrite lookup_send, decide_True by done. by rewrite (Hw _ _ _ Hk).
Qed.

(** ... and by nothing that is said under another key. *)
Lemma respond_other k k' v tx rv s :
  senders_wf s → hm_get k (entries s) = Some (v, tx) → k' ≠ k →
  hm_get k (entries (respond k' rv s)) = Some (v, tx) ∧ receiver tx (respond k' rv s) = Waiting.
Proof.
  intros [Hw Ho] Hk Hne. unfold respond, receiver.
  destruct (hm_get k' (entries s)) as [[v' tx']|] eqn:Hk'; simpl.
  - rewrite hm_get_remove, decide_False by done. split; [done|].
    rewrite lookup_send, decide_False; [by rewrite (Hw _ _ _ Hk)|]. intros <-. apply Hne.
    by eapply Ho.
  - split; [done|]. by rewrite (Hw _ _ _ Hk).
Qed.

(** What a receiver got stays what it got. *)
Definition settled (c : oneshot RV) : Prop := match c with Waiting => False | _ => True end.

Lemma send_settled tx rv l i c : l !! i = Some c → settled c → send tx rv l !! i = Some c.
Proof.
  intros Hi Hc. rewrite lookup_send. case_decide; [|done]. rewrite Hi. by destruct c.
Qed.
End Senders.
Arguments senders : clear implicits.
