(* ===== verification/Node.v ===== *)
(** * The state the controller and the event handler share

    The LDK objects (channel manager, peer manager, network graph, liquidity manager) are
    outside src/; [Lightning] gives the calls the node makes to them, over a state [World] of
    their own that each call may change. The node's state is [node]: that world, the database
    connection, the wallet with its bitcoind client, the requests that wait for an event and the
    database writes that were spawned. The error translations of src/kld/src/ldk/mod.rs are
    here as well, and the threads of the asynchronous API calls. *)

From S2P Require Import Prelude Text Sql Ldk Payment LdkDatabase Fees AsyncRequests Wallet.

(** ** Errors (ldk/mod.rs) *)

(** An [anyhow::Error]: a message, or an error of the database layer. *)
Inductive error :=
| Msg (m : string)
| DbError (e : db_error)
| RecvError.

Inductive APIError :=
| APIMisuseError (err : string)
| FeeRateTooHigh (err : string) (feerate : Z)
| InvalidRoute (err : string)
| ChannelUnavailable (err : string)
| MonitorUpdateInProgress
| IncompatibleShutdownScript (script : string).

Definition ldk_error (e : APIError) : error :=
  Msg (match e with
       | APIMisuseError err => "Misuse error: " +:+ err
       | FeeRateTooHigh err feerate => err +:+ " feerate: " +:+ print_nat feerate
       | InvalidRoute err => "Invalid route provided: " +:+ err
       | ChannelUnavailable err => "Channel unavailable: " +:+ err
       | MonitorUpdateInProgress =>
           "Client indicated a channel monitor update is in progress but not yet complete"
       | IncompatibleShutdownScript script =>
           "Provided a scriptpubkey format not accepted by peer: " +:+ script
       end)%string.

(** [NoRoute] is [RouteNotFound], a name that payments have too. *)
Inductive RetryableSendFailure := PaymentExpired | NoRoute | DuplicatePayment.
Definition retryable_send_failure (e : RetryableSendFailure) : error :=
  Msg (match e with
       | PaymentExpired => "Payment failure: payment has expired"
       | NoRoute => "Payment failure: route not found"
       | DuplicatePayment => "Payment failure: duplicate payment"
       end)%string.

Inductive SignOrCreationError := SignError | CreationError (e : string).
Definition sign_or_creation_error (e : SignOrCreationError) : error :=
  Msg (match e with
       | SignError => "Error signing invoice"
       | CreationError e => "Error creating invoice: " +:+ e
       end)%string.

(** The results of the paths of a payment: [None] is [Ok]. *)
Inductive PaymentSendFailure :=
| ParameterError (e : APIError)
| PathParameterError (results : list (option APIError))
| AllFailedResendSafe (errors : list APIError)
| DuplicateSend
| PartialFailure (results : list (option APIError)).
Definition payment_send_failure (e : PaymentSendFailure) : error :=
  match e with
  | ParameterError e => ldk_error e
  | PathParameterError _ =>
      Msg "Payment failure: Path parameter error. Check logs for more details."
  | AllFailedResendSafe _ =>
      Msg "Payment failure: All failed, resend safe. Check logs for more details."
  | DuplicateSend => Msg "Payment failed: Duplicate Payment"
  | PartialFailure _ => Msg "Payment failed: Partial failure. Check logs for more details."
  end.

Inductive DecodeError :=
| UnknownVersion | UnknownRequiredFeature | InvalidValue | ShortRead | BadLengthDescriptor
| DecodeIo (e : string) | UnsupportedCompression.
Definition decode_error (e : DecodeError) : string :=
  match e with
  | UnknownVersion => "Unknown version"
  | UnknownRequiredFeature => "Unknown required feature"
  | InvalidValue => "Invalid value"
  | ShortRead => "Short read"
  | BadLengthDescriptor => "Bad length descriptor"
  | DecodeIo e => e
  | UnsupportedCompression => "Unsupported compression"
  end.

(** ** The calls to LDK, the wallet and bitcoind *)

Class Lightning `{LdkTypes, Bdk} := {
  World : Type;
  tx_txid : Transaction → bytes;
  txid_to_string : bytes → string;
  hex_encode : bytes → string;
  (** [<[u8; 3]>::from_hex]. *)
  rgb_from_hex : string → option (Z * Z * Z);
  UserConfig : Type;
  announced_channel : UserConfig → bool;
  Route : Type;
  NetworkUpdate : Type;
  InterceptId : Type;

  cm_create_channel : World → PublicKey → Z → Z → Z → option UserConfig →
    result APIError bytes * World;
  cm_funding_transaction_generated : World → bytes → PublicKey → Transaction →
    result APIError () * World;
  cm_list_channels : World → list ChannelDetails;
  cd_is_channel_ready : ChannelDetails → bool;
  cm_close_channel_with_feerate : World → bytes → PublicKey → option Z →
    result APIError () * World;
  cm_close_channel : World → bytes → PublicKey → result APIError () * World;
  cm_force_close_broadcasting : World → bytes → PublicKey → result APIError () * World;
  cm_force_close_without_broadcasting : World → bytes → PublicKey → result APIError () * World;
  (** The default forwarding fees (base, proportional) of the channel manager. *)
  cm_default_fees : World → Z * Z;
  cm_update_channel_config : World → PublicKey → list bytes → Z * Z → result APIError () * World;
  cm_claim_funds : World → bytes → World;
  cm_send_payment : World → bytes → bytes → bytes → PublicKey → Z →
    result RetryableSendFailure () * World;
  cm_send_spontaneous_payment : World → Route → bytes → result PaymentSendFailure bytes * World;
  cm_create_invoice : World → option Z → string → Z → result SignOrCreationError Bolt11Invoice * World;
  find_route : World → PublicKey → Z → result string Route;

  pm_peers : World → list (PublicKey * option SocketAddress);
  (** Connecting to a socket, and whether the peer then becomes connected before the connection
      closes. *)
  pm_connect_outbound : World → PublicKey → SocketAddress → option () * World;
  pm_await_connected : World → PublicKey → bool * World;
  pm_disconnect : World → PublicKey → World;
  pm_disconnect_all_peers : World → World;
  (** [setup_inbound] with the socket of an accepted connection. *)
  TcpStream : Type;
  pm_setup_inbound : World → TcpStream → World;
  pm_broadcast_node_announcement : World → Z * Z * Z → bytes → list SocketAddress → World;
  graph_addresses : World → PublicKey → option (list SocketAddress);
  graph_alias : World → PublicKey → option string;
  graph_handle_network_update : World → NetworkUpdate → World;

  lsps_channel_ready : World → Z → bytes → PublicKey → result string () * World;
  lsps_payment_forwarded : World → bytes → result string () * World;
  lsps_htlc_handling_failed : World → HTLCDestination → result string () * World;
  lsps_htlc_intercepted : World → Z → InterceptId → Z → bytes → result string () * World;

  locktime_from_height : Z → result string Z;
  spend_spendable_outputs : World → list SpendableOutputDescriptor → Script → Z → Z →
    option Transaction;
}.

(** The settings the node reads. *)
Record Settings `{LdkTypes} := mk_settings {
  node_alias : string;
  node_alias_color : string;
  public_addresses : list SocketAddress;
  bitcoin_network : Network;
}.

Section Node.
Context {LT : LdkTypes} {FR : BdkFeeRate} {B : Bdk} {BB : BdkBuilder} {LN : Lightning}.

(** ** The state *)

Record node := mk_node {
  world : World;
  database : conn ldk_tables;
  node_wallet : wallet;
  (** [AsyncAPIRequests]. *)
  funding_transactions : senders Z FeeRate (result error Transaction);
  payment_requests : senders bytes Payment (result error Payment);
  (** Database writes handed to [runtime_handle.spawn]. *)
  spawned : list (ldkm ());
}.

Definition set_world (w : World) (n : node) : node :=
  mk_node w (database n) (node_wallet n) (funding_transactions n) (payment_requests n) (spawned n).
Definition set_database (c : conn ldk_tables) (n : node) : node :=
  mk_node (world n) c (node_wallet n) (funding_transactions n) (payment_requests n) (spawned n).
Definition set_wallet (w : wallet) (n : node) : node :=
  mk_node (world n) (database n) w (funding_transactions n) (payment_requests n) (spawned n).
Definition set_funding s (n : node) : node :=
  mk_node (world n) (database n) (node_wallet n) s (payment_requests n) (spawned n).
Definition set_payment_requests s (n : node) : node :=
  mk_node (world n) (database n) (node_wallet n) (funding_transactions n) s (spawned n).
Definition add_spawned (m : ldkm ()) (n : node) : node :=
  mk_node (world n) (database n) (node_wallet n) (funding_transactions n) (payment_requests n)
    (spawned n ++ [m]).

Definition nodem (A : Type) : Type := cmd node error A.

Definition in_db {A} (m : ldkm A) : nodem A := λ n,
  let '(r, c) := m (database n) in (map_err DbError r, set_database c n).
Definition in_wallet {A} (m : walletm A) : nodem A := λ n,
  let '(r, w) := m (node_wallet n) in (map_err Msg r, set_wallet w n).
Definition ask_client {A} (f : bitcoind → result string A) : nodem A :=
  in_wallet (ask (λ w, f (bitcoind_client w))).
Definition in_world {E A} (f : World → result E A * World) (err : E → error) : nodem A := λ n,
  let '(r, w) := f (world n) in (map_err err r, set_world w n).
Definition change_world (f : World → World) : nodem () := λ n,
  (Ok (), set_world (f (world n)) n).
Definition ask_world {A} (f : World → A) : nodem A := λ n, (Ok (f (world n)), n).

(** [self.runtime_handle.spawn]. *)
Definition spawn_write (m : ldkm ()) : nodem () := λ n, (Ok (), add_spawned m n).

(** [if let Err(e) = m { log }]. *)
Definition logged {A} (m : nodem A) : nodem () := λ n,
  match m n with
  | (Panic w, n') => (Panic w, n')
  | (_, n') => (Ok (), n')
  end.
(** [m], and its error as a value. *)
Definition catch {A} (m : nodem A) : nodem (result error A) := λ n,
  match m n with
  | (Panic w, n') => (Panic w, n')
  | (r, n') => (Ok r, n')
  end.

(** The outcome of [m], panics included: what is dropped when the stack unwinds still runs. *)
Definition attempt {A} (m : nodem A) : nodem (result error A) := λ n,
  let '(r, n') := m n in (Ok r, n').

Definition insert_funding (k : Z) (v : FeeRate) : nodem nat := λ n,
  let '(rx, s) := insert k v (funding_transactions n) in (Ok rx, set_funding s n).
Definition get_funding (k : Z) : nodem (option (FeeRate * nat)) := λ n,
  let '(o, s) := get k (funding_transactions n) in (Ok o, set_funding s n).
Definition send_funding (tx : nat) (rv : result error Transaction) : nodem () := λ n,
  (Ok (), set_funding (call_respond tx rv (funding_transactions n)) n).
Definition drop_funding (tx : nat) : nodem () := λ n,
  (Ok (), set_funding (drop_respond tx (funding_transactions n)) n).
Definition respond_funding (k : Z) (rv : result error Transaction) : nodem () := λ n,
  (Ok (), set_funding (respond k rv (funding_transactions n)) n).
Definition insert_payment (k : bytes) (v : Payment) : nodem nat := λ n,
  let '(rx, s) := insert k v (payment_requests n) in (Ok rx, set_payment_requests s n).
Definition get_payment (k : bytes) : nodem (option (Payment * nat)) := λ n,
  let '(o, s) := get k (payment_requests n) in (Ok o, set_payment_requests s n).
Definition send_payment (tx : nat) (rv : result error Payment) : nodem () := λ n,
  (Ok (), set_payment_requests (call_respond tx rv (payment_requests n)) n).

(** ** Threads

    An [async fn] of the API: steps that run without interruption, and waits on a receiver. *)

Inductive thread (A : Type) :=
| Done (r : result error A)
| Act (m : node → thread A * node)
| AwaitFunding (rx : nat) (k : result error (result error Transaction) → thread A)
| AwaitPayment (rx : nat) (k : result error (result error Payment) → thread A).
Arguments Done {A} r.
Arguments Act {A} m.
Arguments AwaitFunding {A} rx k.
Arguments AwaitPayment {A} rx k.

Fixpoint tbind {A B} (t : thread A) (f : A → thread B) : thread B :=
  match t with
  | Done (Ok a) => f a
  | Done (Err e) => Done (Err e)
  | Done (Panic w) => Done (Panic w)
  | Act m => Act (λ n, let '(t', n') := m n in (tbind t' f, n'))
  | AwaitFunding rx k => AwaitFunding rx (λ v, tbind (k v) f)
  | AwaitPayment rx k => AwaitPayment rx (λ v, tbind (k v) f)
  end.

(** One uninterrupted step. *)
Definition act {A} (m : nodem A) : thread A := Act (λ n, let '(r, n') := m n in (Done r, n')).

(** [receiver.await??]. *)
Definition await_funding (rx : nat) : thread Transaction :=
  AwaitFunding rx (λ v, Done (let? v := v in v)).
Definition await_payment (rx : nat) : thread Payment :=
  AwaitPayment rx (λ v, Done (let? v := v in v)).

(** What a receiver returns to the thread that waits on it. *)
Definition received {RV} (c : oneshot RV) : option (result error RV) :=
  match c with
  | Waiting => None
  | Value rv => Some (Ok rv)
  | Closed => Some (Err RecvError)
  end.

(** A thread makes a step: it runs, or the receiver it waits on has something for it. *)
Inductive thread_step {A} : thread A → node → thread A → node → Prop :=
| step_act m n t' n' : m n = (t', n') → thread_step (Act m) n t' n'
| step_funding rx k n v :
    received (receiver rx (funding_transactions n)) = Some v →
    thread_step (AwaitFunding rx k) n (k v) n
| step_payment rx k n v :
    received (receiver rx (payment_requests n)) = Some v →
    thread_step (AwaitPayment rx k) n (k v) n.
End Node.

Arguments node {_ _ _ _}.
Arguments nodem {_ _ _ _} A.
Arguments thread {_ _ _ _} A.
Arguments Done {_ _ _ _ A} r.
Arguments Act {_ _ _ _ A} m.
Arguments AwaitFunding {_ _ _ _ A} rx k.
Arguments AwaitPayment {_ _ _ _ A} rx k.

Notation "'let!' p ':=' m 'in' k" := (tbind m (λ p, k))
  (at level 10, p as pattern, m at level 100, k at level 200) : kld_scope.

(** ** A small instance to compute with *)

Definition example_channels : list (@ChannelDetails example_ldk) :=
  [(true, true, true); (false, false, false)] : list (bool * bool * bool).
Definition example_lightning : @Lightning example_ldk example_rate example_bdk :=
  {|
  World := nat;
  tx_txid := λ _, id_bytes true;
  txid_to_string := λ _, "0101"%string;
  hex_encode := λ b, match b with [x00] => "02aa" | [x01] => "02bb" | _ => "0202" end%string;
  rgb_from_hex := λ _, None;
  UserConfig := bool;
  announced_channel := λ b, b;
  Route := ();
  NetworkUpdate := ();
  InterceptId := ();
  cm_create_channel := λ w _ _ _ _ _, (Ok (id_bytes false), S w);
  cm_funding_transaction_generated := λ w _ _ _, (Ok (), S w);
  (* In the world 7 there are two channels, one usable and one that is being opened. *)
  cm_list_channels := λ w, if bool_decide (w = 7%nat)
                           then example_channels else [];
  cd_is_channel_ready := λ _, true;
  cm_close_channel_with_feerate := λ w _ _ _, (Ok (), S w);
  cm_close_channel := λ w _ _, (Ok (), S w);
  cm_force_close_broadcasting := λ w _ _, (Ok (), S w);
  cm_force_close_without_broadcasting := λ w _ _, (Ok (), S w);
  cm_default_fees := λ _, (1000, 1);
  cm_update_channel_config := λ w _ _ _, (Ok (), S w);
  cm_claim_funds := λ w _, S w;
  cm_send_payment := λ w _ _ _ _ _, (Ok (), S w);
  cm_send_spontaneous_payment := λ w _ _, (Ok (id_bytes true), S w);
  cm_create_invoice := λ w _ _ _, (Ok (true : @Bolt11Invoice example_ldk), S w);
  find_route := λ _ _ _, Ok ();
  pm_peers := λ _, [(true, Some true)];
  pm_connect_outbound := λ w _ _, (Some (), S w);
  pm_await_connected := λ w _, (true, S w);
  pm_disconnect := λ w _, S w;
  pm_disconnect_all_peers := λ w, S w;
  TcpStream := string;
  pm_setup_inbound := λ w _, S w;
  pm_broadcast_node_announcement := λ w _ _ _, S w;
  graph_addresses := λ _ _, None;
  graph_alias := λ _ _, None;
  graph_handle_network_update := λ w _, S w;
  lsps_channel_ready := λ w _ _ _, (Ok (), w);
  lsps_payment_forwarded := λ w _, (Ok (), w);
  lsps_htlc_handling_failed := λ w _, (Ok (), w);
  lsps_htlc_intercepted := λ w _ _ _ _, (Ok (), w);
  locktime_from_height := λ h, Ok h;
  spend_spendable_outputs := λ _ outs _ _ _, 
    Some (length (outs : list SpendableOutputDescriptor) : @Transaction example_rate example_bdk);
  |}.

Definition example_node : @node example_ldk example_rate example_bdk example_lightning :=
  @mk_node example_ldk example_rate example_bdk example_lightning 0%nat
    (mk_conn empty_ldk [] None false) example_wallet new_senders new_senders [].
