(* ===== verification/Probe.v ===== *)
(** * Probing of routes (src/kld/src/ldk/controller.rs)

    [send_probe] tries the route to a node and tells the scorer which channel refused, from the
    longest part of the path that is not refused. [start_ldk] runs it for the targets of the
    settings in turn, or for random nodes of the graph. *)

From S2P Require Import Prelude Ldk Fees Wallet Node.

(** The calls of [send_probe] to LDK. [route_to] is [find_route] with the usable channels, the
    in-flight HTLCs and the parameters [send_probe] fixes; the world has the clock. *)
Class Probes `{LN : Lightning} := {
  Hop : Type;
  short_channel_id : Hop → Z;
  BlindedTail : Type;
  Scorer : Type;
  route_to : World → Scorer → PublicKey → Z → option (list (list Hop * BlindedTail));
  cm_send_probe : World → list Hop * BlindedTail → bool * World;
  (** [send_time.elapsed()], [None] when the clock was set back. *)
  elapsed : World → option Z;
  thread_sleep : Z → World → World;
  probe_successful : list Hop * BlindedTail → Z → Scorer → Scorer;
  probe_failed : list Hop * BlindedTail → Z → Z → Scorer → Scorer;
}.

Abbreviation Path := (list Hop * BlindedTail)%type.

Section Probe.
Context {LT : LdkTypes} {FR : BdkFeeRate} {B : Bdk} {LN : Lightning} {PB : Probes}.

(** The scorer behind its lock ([None] when a panic poisoned it), the counters, [None] until the
    exporter has set them, and the probes that the channel manager was asked to send with its
    answers. *)
Record prober := mk_prober {
  pr_world : World;
  pr_scorer : option Scorer;
  total_count : option Z;
  successful_count : option Z;
  failed_count : option Z;
  sent : list (Path * bool);
}.

Definition set_scorer (f : Scorer → Scorer) (s : prober) : prober :=
  mk_prober (pr_world s) (f <$> pr_scorer s) (total_count s) (successful_count s)
    (failed_count s) (sent s).
Definition inc_total (s : prober) : prober :=
  mk_prober (pr_world s) (pr_scorer s) (Z.succ <$> total_count s) (successful_count s)
    (failed_count s) (sent s).
Definition inc_successful (s : prober) : prober :=
  mk_prober (pr_world s) (pr_scorer s) (total_count s) (Z.succ <$> successful_count s)
    (failed_count s) (sent s).
Definition inc_failed (s : prober) : prober :=
  mk_prober (pr_world s) (pr_scorer s) (total_count s) (successful_count s)
    (Z.succ <$> failed_count s) (sent s).
Definition try_probe (path : Path) (s : prober) : bool * prober :=
  let '(ok, w) := cm_send_probe (pr_world s) path in
  (ok, mk_prober w (pr_scorer s) (total_count s) (successful_count s) (failed_count s)
         (sent s ++ [(path, ok)])).
Definition sleep (secs : Z) (s : prober) : prober :=
  mk_prober (thread_sleep secs (pr_world s)) (pr_scorer s) (total_count s) (successful_count s)
    (failed_count s) (sent s).
(** [if let Ok(duration) = send_time.elapsed()]. *)
Definition learn (f : Z → Scorer → Scorer) (s : prober) : prober :=
  match elapsed (pr_world s) with Some duration => set_scorer (f duration) s | None => s end.

(** [Vec::pop]. *)
Fixpoint pop {A} (l : list A) : option (A * list A) :=
  match l with
  | [] => None
  | a :: l => match pop l with Some (b, l) => Some (b, a :: l) | None => Some (a, []) end
  end.

(** [while let Some(pop_hop) = hops.pop()]; [None] is out of fuel. *)
Fixpoint probe_prefixes (fuel : nat) (interval : Z) (blinded_tail : BlindedTail)
    (hops : list Hop) (s : prober) : option prober :=
  match fuel with
  | O => None
  | S fuel =>
      match pop hops with
      | None => Some s
      | Some (pop_hop, hops) =>
          let s := sleep interval s in
          let '(ok, s) := match hops with
                          | [] => (false, s)
                          | _ => try_probe (hops, blinded_tail) s
                          end in
          if ok then
            Some (learn (probe_failed (hops ++ [pop_hop], blinded_tail)
                           (short_channel_id pop_hop)) s)
          else probe_prefixes fuel interval blinded_tail hops s
      end
  end.

Definition probe_path (fuel : nat) (interval : Z) (path : Path) (s : prober) : option prober :=
  let s := inc_total s in
  let '(ok, s) := try_probe path s in
  if ok then Some (learn (probe_successful path) (inc_successful s))
  else
    let '(hops, blinded_tail) := path in
    probe_prefixes fuel interval blinded_tail hops (inc_failed s).

Fixpoint probe_paths (fuel : nat) (interval : Z) (paths : list Path) (s : prober) :
    option prober :=
  match paths with
  | [] => Some s
  | path :: paths => probe_path fuel interval path s ≫= probe_paths fuel interval paths
  end.

Definition send_probe (fuel : nat) (recipient : PublicKey) (amt_msat interval : Z)
    (s : prober) : option prober :=
  match pr_scorer s with
  | None => Some s
  | Some scorer =>
      match route_to (pr_world s) scorer recipient amt_msat with
      | Some paths => probe_paths fuel interval paths s
      | None => Some s
      end
  end.

(** ** Whom to probe *)

Inductive round := StopProbing | NothingToProbe | ProbeNode (pk : PublicKey).

(** A round of the random probing: [random] is a [usize], [nodes] the ids in the order of
    [unordered_iter]. The task returns when the graph is empty. *)
Definition random_round (random : Z) (nodes : list bytes) : round :=
  match nodes with
  | [] => StopProbing
  | _ =>
      match skipn (Z.to_nat (random mod Z.of_nat (length nodes))) nodes with
      | rcpt :: _ => match pk_from_slice rcpt with Ok pk => ProbeNode pk | _ => NothingToProbe end
      | [] => NothingToProbe
      end
  end.

(** Round [i] of [targets.iter().cycle()]; [cycle] of an empty iterator is empty. *)
Definition target_round (i : nat) (targets : list PublicKey) : round :=
  match targets !! (i mod length targets)%nat with
  | Some pk => ProbeNode pk
  | None => StopProbing
  end.

Record ProbeSettings := mk_probe_settings {
  probe_interval : Z;
  probe_amt_msat : Z;
  probe_targets : list PublicKey;
}.

(** Round [i], when the settings ask for probes at all. *)
Definition probe_round (settings : ProbeSettings) (i : nat) (random : Z) (nodes : list bytes) :
    round :=
  if bool_decide (0 < probe_interval settings) && bool_decide (0 < probe_amt_msat settings)
  then match probe_targets settings with
       | [] => random_round random nodes
       | targets => target_round i targets
       end
  else StopProbing.
End Probe.

(** ** Facts *)

Section Theorems.
Context {LT : LdkTypes} {FR : BdkFeeRate} {B : Bdk} {LN : Lightning} {PB : Probes}.
Implicit Types s : prober.

Lemma pop_nil {A} (l : list A) : pop l = None → l = [].
Proof. destruct l as [|a l]; simpl; [done|]. by destruct (pop l) as [[]|]. Qed.
Lemma pop_snoc {A} (l : list A) a : pop (l ++ [a]) = Some (a, l).
Proof. induction l as [|b l IH]; simpl; [done|]. by rewrite IH. Qed.

(** The counters of a prober. *)
Definition counts s : option Z * option Z * option Z :=
  (total_count s, successful_count s, failed_count s).

Lemma learn_keeps f s : counts (learn f s) = counts s ∧ sent (learn f s) = sent s ∧
  pr_world (learn f s) = pr_world s.
Proof. unfold learn. by destruct (elapsed _). Qed.

Lemma try_probe_inv path s ok s' : try_probe path s = (ok, s') →
  counts s' = counts s ∧ sent s' = sent s ++ [(path, ok)] ∧ pr_scorer s' = pr_scorer s.
Proof. unfold try_probe. destruct (cm_send_probe _ _). by intros [= <- <-]. Qed.

(** The refused probes of the prefixes of [hops] that are longer than [k], but for [hops]
    itself, longest first. *)
Definition refused (blinded_tail : BlindedTail) (hops : list Hop) (k : nat) :
    list (list Hop * BlindedTail * bool) :=
  (λ n, (take n hops, blinded_tail, false)) <$> reverse (seq (S k) (length hops - S k)).

Lemma refused_snoc tail hops h k : (k < length hops)%nat →
  refused tail (hops ++ [h]) k = (hops, tail, false) :: refused tail hops k.
Proof.
  intros Hk. unfold refused. rewrite length_app. simpl.
  replace (length hops + 1 - S k)%nat with (S (length hops - S k)) by lia.
  rewrite seq_S, reverse_app, fmap_app, reverse_singleton.
  simpl. f_equal.
  - do 2 f_equal. rewrite take_app_length'; [done|lia].
  - apply list_fmap_ext. intros i n Hn. apply list_elem_of_lookup_2 in Hn.
    rewrite elem_of_reverse, elem_of_seq in Hn. by rewrite take_app_le by lia.
Qed.

Lemma refused_last tail hops k : (length hops ≤ S k)%nat → refused tail hops k = [].
Proof. intros Hk. unfold refused. by replace (length hops - S k)%nat with 0%nat by lia. Qed.

(** What the scorer is when the loop ends. *)
Definition blames (tail : BlindedTail) (hops : list Hop) (k : nat) (h : Hop) s s' : Prop :=
  pr_scorer s' =
    match elapsed (pr_world s') with
    | Some d => probe_failed (take (S k) hops, tail) (short_channel_id h) d <$> pr_scorer s
    | None => pr_scorer s
    end.

Lemma probe_prefixes_run fuel interval tail hops s : (length hops < fuel)%nat →
  ∃ s', probe_prefixes fuel interval tail hops s = Some s' ∧ counts s' = counts s ∧
    ((sent s' = sent s ++ refused tail hops 0 ∧ pr_scorer s' = pr_scorer s) ∨
     ∃ k h, (0 < k)%nat ∧ hops !! k = Some h ∧ blames tail hops k h s s' ∧
       sent s' = sent s ++ refused tail hops k ++ [(take k hops, tail, true)]).
Proof.
  revert s hops. induction fuel as [|fuel IH]; intros s hops Hf; [lia|]. simpl.
  destruct hops as [|h hops _] using rev_ind.
  { exists s. simpl. split_and!; [done..|]. left. by rewrite app_nil_r. }
  rewrite pop_snoc. rewrite length_app in Hf. simpl in Hf.
  destruct (decide (hops = [])) as [->|Hne].
  { destruct (IH (sleep interval s) [] ltac:(simpl; lia)) as (s' & -> & Hc & Hr).
    exists s'. split_and!; [done..|]. left.
    destruct Hr as [Hr|(k & h' & _ & Hk & _)]; [exact Hr|done]. }
  assert (match hops with [] => (false, sleep interval s)
          | _ => try_probe (hops, tail) (sleep interval s) end =
          try_probe (hops, tail) (sleep interval s)) as -> by by destruct hops.
  assert (0 < length hops)%nat by by destruct hops; simpl; [|lia].
  destruct (try_probe (hops, tail) (sleep interval s)) as [[] s1] eqn:Ht;
    apply try_probe_inv in Ht as (Hc1 & Hs1 & Hsc1); simpl in Hs1, Hsc1.
  - eexists. split; [reflexivity|]. edestruct learn_keeps as (-> & -> & Hw). split; [done|].
    right. exists (length hops), h. split_and!; [done|by apply list_lookup_middle| |].
    + unfold blames. rewrite Hw. unfold learn. rewrite take_ge by (rewrite length_app; simpl; lia).
      destruct (elapsed (pr_world s1)); simpl; by rewrite Hsc1.
    + rewrite refused_last by (rewrite length_app; simpl; lia).
      by rewrite take_app_length.
  - destruct (IH s1 hops ltac:(lia)) as (s' & -> & Hc & Hr). exists s'.
    split_and!; [done|by rewrite Hc|]. destruct Hr as [[Hs Hsc]|(k & h' & Hk & Hh & Hb & Hs)].
    + left. rewrite Hs, Hs1, Hsc, Hsc1, <- app_assoc. by rewrite refused_snoc by lia.
    + right. apply lookup_lt_Some in Hh as Hlt. exists k, h'.
      split_and!; [done|by rewrite lookup_app_l| |].
      * unfold blames in *. rewrite Hb, Hsc1. by rewrite take_app_le by lia.
      * rewrite Hs, Hs1, <- app_assoc. rewrite refused_snoc by lia.
        by rewrite take_app_le by lia.
Qed.

Lemma length_refused tail hops k : length (refused tail hops k) = (length hops - S k)%nat.
Proof. unfold refused. by rewrite length_fmap, length_reverse, length_seq. Qed.

(** One path: the counters, and the number of probes. *)
Lemma probe_path_run fuel interval path s : (length path.1 < fuel)%nat →
  ∃ s' ok, probe_path fuel interval path s = Some s' ∧
    counts s' = (Z.succ <$> total_count s,
      (if ok : bool then Z.succ <$> successful_count s else successful_count s),
      (if ok then failed_count s else Z.succ <$> failed_count s)) ∧
    (length (sent s') ≤ length (sent s) + (1 + (length path.1 - 1)))%nat.
Proof.
  intros Hf. unfold probe_path. destruct (try_probe path (inc_total s)) as [[] s1] eqn:Ht;
    apply try_probe_inv in Ht as (Hc & Hs & Hsc); injection Hc as Hc1 Hc2 Hc3.
  - eexists _, true. split; [reflexivity|]. edestruct learn_keeps as (-> & -> & _).
    unfold counts. simpl. rewrite Hc1, Hc2, Hc3, Hs, length_app. simpl. split; [done|lia].
  - destruct path as [hops tail].
    destruct (probe_prefixes_run fuel interval tail hops (inc_failed s1) Hf) as (s' & -> & Hc & Hr).
    exists s', false. split; [done|]. split.
    + rewrite Hc. unfold counts. simpl. by rewrite Hc1, Hc2, Hc3.
    + destruct Hr as [[-> _]|(k & h & Hk & Hh%lookup_lt_Some & _ & ->)]; simpl;
        rewrite Hs, ?length_app, length_refused; simpl in *; lia.
Qed.

Definition most_probes (paths : list Path) : nat :=
  sum_list ((λ p : Path, 1 + (length p.1 - 1))%nat <$> paths).

Lemma probe_paths_run fuel interval paths s :
  (∀ p, p ∈ paths → (length p.1 < fuel)%nat) →
  ∃ s' ok failed, probe_paths fuel interval paths s = Some s' ∧
    ok + failed = Z.of_nat (length paths) ∧ 0 ≤ ok ∧ 0 ≤ failed ∧
    counts s' = (Z.add (ok + failed) <$> total_count s, Z.add ok <$> successful_count s,
                 Z.add failed <$> failed_count s) ∧
    (length (sent s') ≤ length (sent s) + most_probes paths)%nat.
Proof.
  revert s. induction paths as [|path paths IH]; intros s Hf.
  { exists s, 0, 0. unfold counts, most_probes. simpl. split_and!; [done..| |lia].
    by destruct (total_count s), (successful_count s), (failed_count s). }
  destruct (probe_path_run fuel interval path s) as (s1 & b & Hp & Hc & Hl);
    [apply Hf; by left|].
  destruct (IH s1) as (s' & ok & failed & Hps & Hsum & ? & ? & Hc' & Hl');
    [intros p Hp'; apply Hf; by right|].
  exists s', (ok + if b then 1 else 0), (failed + if b then 0 else 1).
  simpl. rewrite Hp. simpl. split_and!; [done|destruct b; lia..| |].
  - rewrite Hc'. injection Hc as -> -> ->.
    destruct b, (total_count s), (successful_count s), (failed_count s); simpl;
      repeat match goal with
             | |- (_, _) = (_, _) => f_equal
             | |- Some _ = Some _ => f_equal
             end; lia || done.
  - change (most_probes (path :: paths)) with
      ((1 + (length path.1 - 1)) + most_probes paths)%nat. lia.
Qed.

(** [C26] A round of probing ends: with more fuel than the longest path of the route has hops,
    [send_probe] returns. It asks for at most one probe for every hop of a path (one for a path
    without hops), and of the three counters the total grows by the number of paths, which is
    what the successful and the failed count grow by together. *)
Theorem send_probe_terminates fuel recipient amt_msat interval s :
  let paths := default [] (pr_scorer s ≫= λ scorer,
                 route_to (pr_world s) scorer recipient amt_msat) in
  (∀ p, p ∈ paths → (length p.1 < fuel)%nat) →
  ∃ s' ok failed, send_probe fuel recipient amt_msat interval s = Some s' ∧
    ok + failed = Z.of_nat (length paths) ∧ 0 ≤ ok ∧ 0 ≤ failed ∧
    counts s' = (Z.add (ok + failed) <$> total_count s, Z.add ok <$> successful_count s,
                 Z.add failed <$> failed_count s) ∧
    (length (sent s') ≤
       length (sent s) + sum_list ((λ p : Path, 1 + (length p.1 - 1))%nat <$> paths))%nat.
Proof.
  intros paths Hf. unfold send_probe. subst paths.
  destruct (pr_scorer s) as [scorer|]; simpl in *;
    [destruct (route_to _ _ _ _) as [paths|]|]; simpl in *;
    [by apply probe_paths_run|by apply (probe_paths_run fuel interval [] s)..].
Qed.

(** When the probe of a path is refused, its shorter beginnings are probed, longest first,
    until one is not refused. If that is the one of [k] hops, the scorer is told that the
    channel of the next hop failed the path that ends with it; if all are refused, the first hop
    included, the scorer learns nothing. *)
Theorem refused_path_blames_a_channel fuel interval hops tail s w :
  cm_send_probe (pr_world s) (hops, tail) = (false, w) → (length hops < fuel)%nat →
  ∃ s', probe_path fuel interval (hops, tail) s = Some s' ∧
    ((sent s' = sent s ++ (hops, tail, false) :: refused tail hops 0 ∧
      pr_scorer s' = pr_scorer s) ∨
     ∃ k h, (0 < k)%nat ∧ hops !! k = Some h ∧
       sent s' = sent s ++ (hops, tail, false) :: refused tail hops k ++
                   [(take k hops, tail, true)] ∧
       pr_scorer s' =
         match elapsed (pr_world s') with
         | Some d => probe_failed (take (S k) hops, tail) (short_channel_id h) d <$> pr_scorer s
         | None => pr_scorer s
         end).
Proof.
  intros Hw Hf. unfold probe_path, try_probe. simpl. rewrite Hw.
  set (s1 := inc_failed _).
  destruct (probe_prefixes_run fuel interval tail hops s1 Hf) as (s' & -> & _ & Hr).
  exists s'. split; [done|]. subst s1. simpl in Hr.
  destruct Hr as [[Hs Hsc]|(k & h & Hk & Hh & Hb & Hs)].
  - left. by rewrite Hs, <- app_assoc.
  - right. exists k, h. split_and!; [done..| |exact Hb]. by rewrite Hs, <- app_assoc.
Qed.

(** The random node is one of the graph, whatever the random number. *)
Lemma random_round_in_graph random nodes :
  (∀ n, n ∈ nodes → ∃ pk, pk_from_slice n = Ok pk) → nodes ≠ [] →
  ∃ n pk, n ∈ nodes ∧ pk_from_slice n = Ok pk ∧ random_round random nodes = ProbeNode pk.
Proof.
  intros Hn Hne. unfold random_round. set (i := Z.to_nat (random mod Z.of_nat (length nodes))).
  assert (i < length nodes)%nat as Hi.
  { assert (0 < length nodes)%nat by (destruct nodes; simpl; [done|lia]).
    pose proof (Z.mod_pos_bound random (Z.of_nat (length nodes))). unfold i. lia. }
  destruct (lookup_lt_is_Some_2 _ _ Hi) as [n Hn'].
  destruct (Hn n) as [pk Hpk]; [by eapply list_elem_of_lookup_2|].
  exists n, pk. split_and!; [by eapply list_elem_of_lookup_2|done|].
  rewrite (drop_S _ _ _ Hn'). rewrite Hpk. by destruct nodes.
Qed.

(** An empty graph, which is what the first start of a node has, ends the random probing for
    good: the task returns. *)
Lemma empty_graph_ends_probing settings i random :
  probe_targets settings = [] → probe_round settings i random [] = StopProbing.
Proof. intros Ht. unfold probe_round. rewrite Ht. by destruct (_ && _). Qed.
End Theorems.

(** ** Concrete inputs *)

Section Instances.

(** Hops are numbers. The channel manager refuses paths of more than two hops; the scorer is the
    list of the channels that failed. *)
Definition example_probes : Probes (LN := example_lightning) :=
  {| Hop := nat; short_channel_id h := Z.of_nat h; BlindedTail := (); Scorer := list Z;
     route_to _ _ _ _ := Some [([7; 8; 9; 10]%nat, ()); ([5]%nat, ())];
     cm_send_probe w p := (bool_decide (length p.1 ≤ 2)%nat, w);
     elapsed _ := Some 1; thread_sleep _ w := w; probe_successful _ _ s := s;
     probe_failed _ scid _ s := scid :: s |}.
#[local] Existing Instance example_probes.

Definition example_prober : prober :=
  mk_prober (0%nat : @World _ _ _ example_lightning) (Some ([] : @Scorer _ _ _ _ example_probes))
    (Some 3) (Some 2) None [].

Lemma send_probe_terminates_witness :
  ∃ s', send_probe 5 (false : @PublicKey example_ldk) 1000 1 example_prober = Some s' ∧
    total_count s' = Some 5 ∧ pr_scorer s' = Some ([9] : @Scorer _ _ _ _ example_probes).
Proof.
  destruct (send_probe_terminates 5 (false : @PublicKey example_ldk) 1000 1 example_prober)
    as (s' & ok & failed & Hs & Hsum & _ & _ & Hc & _).
  - intros p Hp. change (p ∈ [([7; 8; 9; 10]%nat, ()); ([5]%nat, ())]) in Hp.
    apply elem_of_cons in Hp as [->|Hp%list_elem_of_singleton]; [|subst p]; simpl; lia.
  - exists s'. split; [exact Hs|]. injection Hc as Ht _ _. split.
    + rewrite Ht. simpl. simpl in Hsum. f_equal. lia.
    + assert (pr_scorer <$> send_probe 5 (false : @PublicKey example_ldk) 1000 1 example_prober
              = Some (Some [9])) as Hsc by reflexivity.
      rewrite Hs in Hsc. by injection Hsc.
Defined.

Lemma refused_path_blames_a_channel_witness :
  ∃ s', probe_path 5 1 ([7; 8; 9; 10]%nat : list (@Hop _ _ _ _ example_probes), ()) example_prober
          = Some s' ∧ pr_scorer s' = Some ([9] : @Scorer _ _ _ _ example_probes).
Proof.
  destruct (refused_path_blames_a_channel 5 1 ([7; 8; 9; 10]%nat : list (@Hop _ _ _ _ example_probes))
    () example_prober 0%nat) as (s' & Hs & _); [reflexivity|simpl; lia|].
  exists s'. split; [exact Hs|].
  assert (pr_scorer <$> Some s' = Some (Some [9])) as Hsc by (rewrite <- Hs; reflexivity).
  by injection Hsc.
Defined.
End Instances.
