(* ===== verification/Controller.v ===== *)
(** * The controller (src/kld/src/ldk/controller.rs, peer_manager.rs)

    [Controller] implements [LightningInterface], the operations of the API on the node.
    [open_channel], [pay_invoice] and [keysend_payment] wait for an event: they are threads, one
    step per statement that runs uninterrupted. The others are commands. Values of the random
    generator and of the clock are arguments. *)

From S2P Require Import NetAddress Prelude Text Sql Ldk Payment LdkDatabase Fees AsyncRequests Wallet Node.

Section Controller.
Context {LT : LdkTypes} {FR : BdkFeeRate} {B : Bdk} {BB : BdkBuilder} {LN : Lightning} {D : Driver} {HO : HashOrder} {DC : DescriptorCodec}.
(** [identity_pubkey]: the key of the node. *)
Variable our_node_id : PublicKey.
Context `{EqDecision PublicKey}.

Definition bail {A} (m : string) : nodem A := cmd_err (Msg m).

Definition check_synchronised (now : Z) : nodem () :=
  let* synced := ask_client (λ c, Ok (is_synchronised (unix_timestamp now) (blockchain_info c))) in
  if synced then cmd_ret () else bail "Bitcoind is synchronising blockchain".

(** ** Counts and lists *)

Definition synced (now : Z) (n : node) : bool :=
  is_synchronised now (blockchain_info (bitcoind_client (node_wallet n))) &&
  Wallet.synced (node_wallet n).

Definition num_active_channels : nodem nat :=
  ask_world (λ w, length (where_ cd_is_usable (cm_list_channels w))).
Definition num_inactive_channels : nodem nat :=
  ask_world (λ w, length (where_ (λ c, cd_is_channel_ready c && negb (cd_is_usable c))
                            (cm_list_channels w))).
Definition num_pending_channels : nodem nat :=
  ask_world (λ w, length (where_ (λ c, negb (cd_is_channel_ready c)) (cm_list_channels w))).
Definition num_peers : nodem nat := ask_world (λ w, length (pm_peers w)).
Definition list_active_channels : nodem (list ChannelDetails) := ask_world cm_list_channels.
Definition list_channels : nodem (list ChannelRecord) := in_db fetch_channels.

(** ** Channels *)

Record OpenChannelResult := mk_opened {
  opened_transaction : Transaction;
  opened_txid : bytes;
  opened_channel_id : bytes;
}.

Definition open_channel (random now : Z) (their_network_key : PublicKey)
    (channel_value_satoshis : Z) (push_msat : option Z) (fee_rate : option FeeRate)
    (override_config : option UserConfig) : thread OpenChannelResult :=
  let! _ := act (check_synchronised now) in
  let! connected := act (ask_world (λ w,
      existsb (λ p, bool_decide (p.1 = their_network_key)) (pm_peers w))) in
  let! _ := act (if connected then cmd_ret () else bail "Peer not connected") in
  let user_channel_id := random / 2 in
  let is_public := match override_config with Some c => announced_channel c | None => false end in
  let counterparty := their_network_key in
  let! channel_id := act (in_world (λ w,
      cm_create_channel w their_network_key channel_value_satoshis (default 0 push_msat)
        user_channel_id override_config) ldk_error) in
  let! receiver := act (insert_funding user_channel_id (default fee_rate_default fee_rate)) in
  let! transaction := await_funding receiver in
  let txid := tx_txid transaction in
  let! _ := act (logged (in_db (persist_initializing_channel now channel_id is_public counterparty
                                  txid))) in
  Done (Ok (mk_opened transaction txid channel_id)).

Definition close_channel (now : Z) (channel_id : bytes) (counterparty_node_id : PublicKey)
    (fee_rate : option Z) : nodem () :=
  let* _ := check_synchronised now in
  match fee_rate with
  | Some _ =>
      in_world (λ w, cm_close_channel_with_feerate w channel_id counterparty_node_id fee_rate)
        ldk_error
  | None => in_world (λ w, cm_close_channel w channel_id counterparty_node_id) ldk_error
  end.

Definition force_close_channel (now : Z) (channel_id : bytes) (counterparty_node_id : PublicKey)
    (with_broadcast : bool) : nodem () :=
  let* _ := check_synchronised now in
  if with_broadcast then
    in_world (λ w, cm_force_close_broadcasting w channel_id counterparty_node_id) ldk_error
  else
    in_world (λ w, cm_force_close_without_broadcasting w channel_id counterparty_node_id) ldk_error.

(** The fees that are not given are the default ones, not the ones the channel has. *)
Definition set_channel_fee (counterparty_node_id : PublicKey) (channel_ids : list bytes)
    (proportional base : option Z) : nodem (Z * Z) :=
  let* (default_base, default_proportional) := ask_world cm_default_fees in
  let proportional := default default_proportional proportional in
  let base := default default_base base in
  let* _ := in_world (λ w, cm_update_channel_config w counterparty_node_id channel_ids
                             (base, proportional)) ldk_error in
  cmd_ret (base, proportional).

Definition update_channels (now : Z) (channels : list ChannelDetails) : nodem () :=
  cmd_forM (λ channel, logged (in_db (persist_channel now channel))) channels.

Definition channel_history : nodem (list ChannelRecord) := in_db fetch_channel_history.

(** ** Peers *)

Inductive PeerStatus := Connected | Disconnected.
Record PeerInfo := mk_peer_info {
  pi_public_key : PublicKey;
  pi_net_address : option SocketAddress;
  pi_status : PeerStatus;
  pi_alias : string;
}.

Definition alias_of (public_key : PublicKey) : nodem (option string) :=
  ask_world (λ w, graph_alias w public_key).

Definition list_peers : nodem (list PeerInfo) :=
  let* connected_peers := ask_world pm_peers in
  let* channel_peers := ask_world (λ w, cd_node_id <$> cm_list_channels w) in
  let* persistent_peers := in_db fetch_peers in
  let all_pub_keys := hash_order (remove_dups (connected_peers.*1 ++ channel_peers ++
                                               persistent_peers.*1)) in
  ask_world (λ w, (λ public_key,
    let net_address := hm_get public_key connected_peers ≫= id in
    let status := match net_address with Some _ => Connected | None => Disconnected end in
    mk_peer_info public_key net_address status (default ""%string (graph_alias w public_key)))
    <$> all_pub_keys).

Definition is_connected (public_key : PublicKey) (w : World) : bool :=
  existsb (λ p, bool_decide (p.1 = public_key)) (pm_peers w).

(** [peer_manager::connect_peer]: connects the socket and stores the peer. *)
Definition connect_socket (public_key : PublicKey) (address : SocketAddress) : nodem () :=
  let* _ := cmd_lift (map_err Msg (to_socket_addr (addr_view address))) in
  let* _ := in_world (λ w, let '(o, w') := pm_connect_outbound w public_key address in
                           (ok_or tt o, w'))
              (λ _, Msg "Could not connect to peer {public_key}@{peer_addr}") in
  in_db (persist_peer (mk_peer public_key address)).

(** [KuutamoPeerManger::connect_peer]. *)
Definition pm_connect_peer (public_key : PublicKey) (peer_addr : SocketAddress) : nodem () :=
  let* connected := ask_world (is_connected public_key) in
  if connected then cmd_ret ()
  else
    let* _ := connect_socket public_key peer_addr in
    in_world (λ w, let '(b, w') := pm_await_connected w public_key in
                   (if b then Ok () else Err tt, w')) (λ _, Msg "Peer disconnected").

Fixpoint connect_any (public_key : PublicKey) (addresses : list SocketAddress) : nodem () :=
  match addresses with
  | [] => bail "Could not connect to any peer addresses."
  | address :: addresses =>
      let* r := catch (pm_connect_peer public_key address) in
      match r with
      | Ok _ => cmd_ret ()
      | _ => connect_any public_key addresses
      end
  end.

Definition connect_peer (public_key : PublicKey) (peer_address : option SocketAddress) :
    nodem () :=
  match peer_address with
  | Some net_address => pm_connect_peer public_key net_address
  | None =>
      let* addresses := ask_world (λ w, graph_addresses w public_key) in
      let* addresses := cmd_lift (ok_or (Msg "No addresses found for node") addresses) in
      connect_any public_key (where_ (λ a, is_ipv4 (addr_view a)) addresses)
  end.

(** [broadcast_node_announcement_from_settings]: the alias is copied into 32 bytes. *)
Definition alias_bytes (alias : string) : result error bytes :=
  let b := String.list_byte_of_string alias in
  if bool_decide (length b ≤ 32)%nat then Ok (b ++ replicate (32 - length b) x00)
  else Panic "range end index out of range for slice of length 32".
Definition broadcast_node_announcement_from_settings (s : Settings) : nodem () :=
  let* alias := cmd_lift (alias_bytes (node_alias s)) in
  let color := default (110, 44, 247) (rgb_from_hex (node_alias_color s)) in
  change_world (λ w, pm_broadcast_node_announcement w color alias (public_addresses s)).

(** [get_connected_peers]. *)
Definition get_connected_peers : nodem (list (PublicKey * option SocketAddress)) := ask_world pm_peers.

(** [disconnect_and_drop_by_node_id]. *)
Definition disconnect_peer (public_key : PublicKey) : nodem () :=
  let* _ := change_world (λ w, pm_disconnect w public_key) in
  in_db (delete_peer public_key).

(** [stop], which dropping the controller calls. *)
Definition stop : nodem () := change_world pm_disconnect_all_peers.

(** What [accept] gives: an error, or a connection whose stream the standard library can take or
    not. One round of the task of [listen], and the task for what was accepted so far. *)
Inductive accepted := AcceptError (e : string) | NoStdStream | Accepted (tcp_stream : TcpStream).
Definition accept_round (a : accepted) : nodem () :=
  match a with
  | Accepted tcp_stream => change_world (λ w, pm_setup_inbound w tcp_stream)
  | _ => cmd_ret ()
  end.
Definition listen (bind : result string ()) (rounds : list accepted) : nodem () :=
  let* _ := cmd_lift (map_err (λ _, Msg "Failed to bind to listen port") bind) in
  cmd_forM accept_round rounds.

(** One round of [keep_channel_peers_connected]. *)
Definition reconnect_channel_peers : nodem () :=
  let* connected := ask_world (λ w, (pm_peers w).*1) in
  let* channel_peers := ask_world (λ w, cd_node_id <$> cm_list_channels w) in
  cmd_forM (λ node_id,
    let* found := catch (in_db (fetch_peer node_id)) in
    match found with
    | Ok (Some peer) => logged (connect_socket (peer_public_key peer) (peer_address peer))
    | _ => cmd_ret ()
    end) (where_ (λ id, negb (bool_decide (id ∈ connected))) channel_peers).

(** ** Invoices and payments *)

Definition DEFAULT_EXPIRY_TIME : Z := 3600.

Definition generate_invoice (label : string) (amount : option Z) (description : string)
    (expiry : option Z) : nodem Invoice :=
  let* bolt11 := in_world (λ w, cm_create_invoice w amount description
                                  (default DEFAULT_EXPIRY_TIME expiry)) sign_or_creation_error in
  let* invoice := cmd_lift (map_err Msg (invoice_new (Some label) bolt11)) in
  let* _ := in_db (persist_invoice invoice) in
  cmd_ret invoice.

Definition list_invoices (label : option string) : nodem (list Invoice) :=
  in_db (fetch_invoices label).

Definition pay_invoice (random : bytes) (now : Z) (invoice : Invoice) (label : option string) :
    thread Payment :=
  let payment := of_invoice_outbound random now invoice label in
  let! final_value_msat := act (cmd_lift (ok_or (Msg "amount missing from invoice")
                                            (inv_amount invoice))) in
  let! hash := act (cmd_lift (ok_or (Msg "expected payment hash") (pay_hash payment))) in
  let! _ := act (in_world (λ w, cm_send_payment w hash (payment_secret_of (inv_bolt11 invoice))
                                  (pay_id payment) (inv_payee_pub_key invoice) final_value_msat)
                   retryable_send_failure) in
  let! _ := act (in_db (persist_invoice invoice)) in
  let! _ := act (in_db (persist_payment payment)) in
  let! receiver := act (insert_payment (pay_id payment) payment) in
  let! payment := await_payment receiver in
  let! _ := act (in_db (persist_payment payment)) in
  Done (Ok payment).

(** A partial failure whose only errors are pending monitor updates is not one. *)
Definition send_failed (e : PaymentSendFailure) : bool :=
  match e with
  | PartialFailure results =>
      negb (forallb (λ r, match r with
                          | None | Some MonitorUpdateInProgress => true
                          | _ => false
                          end) results)
  | _ => true
  end.

(** [payee] is what [NodeId::as_pubkey] makes of the node id. *)
Definition keysend_payment (random : bytes) (now : Z) (payee : result string PublicKey)
    (amount : Z) : thread Payment :=
  let payment_id := random in
  let! payee := act (cmd_lift (map_err Msg payee)) in
  let! route := act (λ n, (map_err Msg (find_route (world n) payee amount), n)) in
  let! _ := act (λ n,
    match cm_send_spontaneous_payment (world n) route payment_id with
    | (Ok _, w) => (Ok (), set_world w n)
    | (Err e, w) =>
        if send_failed e then (Err (payment_send_failure e), set_world w n)
        else (Ok (), set_world w n)
    | (Panic m, w) => (Panic m, set_world w n)
    end) in
  let payment := spontaneous_outbound now payment_id amount in
  let! _ := act (in_db (persist_payment payment)) in
  let! receiver := act (insert_payment payment_id payment) in
  let! payment := await_payment receiver in
  let! _ := act (in_db (persist_payment payment)) in
  Done (Ok payment).

Definition list_payments (invoice : option Invoice) (direction : option PaymentDirection) :
    nodem (list Payment) :=
  in_db (fetch_payments (inv_payment_hash <$> invoice) direction).

Definition forwards_total : nodem TotalForwards := in_db fetch_total_forwards.
Definition forwards_list (status : option ForwardStatus) : nodem (list Forward) :=
  in_db (fetch_forwards status).
Definition scorer_binary : nodem bytes := in_db fetch_scorer_binary.

(** ** The liquidity service *)

Inductive LspsAnswer :=
| FeeParams (valid_until max_payment_size_msat : Z)
| InvalidToken
| InvoiceParameters (cltv_expiry_delta : Z) (client_trusts_lsp : bool) (user_channel_id : Z)
| NoAnswer.

(** [LSPS2ServiceEvent::GetInfo]. *)
Definition lsps_get_info (now : Z) (token : option string) : LspsAnswer :=
  if bool_decide (token = Some "kuutamo"%string) then FeeParams (now + 600) 1000001
  else InvalidToken.

(** [payment_size_msat <= Some(1_000_001)], where [None] is below every [Some]. *)
Definition option_le (a : option Z) (b : Z) : bool :=
  match a with None => true | Some a => bool_decide (a ≤ b) end.

Definition jit_threshold : Z := 9223372036854775808.

(** [LSPS2ServiceEvent::BuyRequest]; [random] is a [u64]. *)
Definition lsps_buy_request (random : Z) (payment_size_msat : option Z) : LspsAnswer :=
  if option_le payment_size_msat 1000001
  then InvoiceParameters 9 true (random / 2 + jit_threshold)
  else NoAnswer.

(** ** Listening *)

(** Connections that cannot be accepted do not end the listening: the ones that can are set up in
    their order, and nothing else of the node is touched. *)
Definition streams (rounds : list accepted) : list TcpStream :=
  omap (λ a, match a with Accepted s => Some s | _ => None end) rounds.
Lemma listen_sets_up rounds n :
  listen (Ok ()) rounds n =
    (Ok (), set_world (fold_left pm_setup_inbound (streams rounds) (world n)) n).
Proof.
  unfold listen. rewrite (cmd_bind_ok _ _ n () n) by done. revert n.
  induction rounds as [|a rounds IH]; intros n; [by destruct n|].
  cbn [cmd_forM]. destruct a as [| |s];
    [rewrite (cmd_bind_ok _ _ n () n) by done; apply IH..|].
  rewrite (cmd_bind_ok _ _ n () (set_world (pm_setup_inbound (world n) s) n)) by done. by rewrite IH.
Qed.
End Controller.
