(* ===== verification/EventHandler.v ===== *)
(** * The event handler (src/kld/src/ldk/event_handler.rs)

    LDK reports what happened as an [Event]; [handle_event_async] has an arm for each, and a
    definition here. A handler runs alone, after the handler of the previous event returned
    ([process_events_async]); API calls run between its effects, but nothing they do changes
    what a handler reads, so a handler is one command. The clock and the random generator (ids
    of payments, uuids of forwards) are arguments. Log lines are left out. *)

From S2P Require Import Prelude Text Sql Ldk Payment LdkDatabase Fees AsyncRequests Wallet Node Controller.

Inductive PaymentPurpose :=
| InvoicePayment (payment_preimage : option bytes) (payment_secret : bytes)
| SpontaneousPayment (preimage : bytes).

Section Event.
Context {LT : LdkTypes} {FR : BdkFeeRate} {B : Bdk} {BB : BdkBuilder} {LN : Lightning}.

Inductive PathFailure := InitialSend (err : APIError) | OnPath (network_update : option NetworkUpdate).

(** [lightning::events::Event], with the fields the handler reads. *)
Inductive Event :=
| FundingGenerationReady (temporary_channel_id : bytes) (counterparty_node_id : PublicKey)
    (channel_value_satoshis : Z) (output_script : Script) (user_channel_id : Z)
| ChannelPending (channel_id : bytes) (user_channel_id : Z)
    (former_temporary_channel_id : option bytes) (counterparty_node_id : PublicKey)
    (funding_vout : Z)
| ChannelReady (channel_id : bytes) (user_channel_id : Z) (counterparty_node_id : PublicKey)
| ChannelClosed (channel_id : bytes) (reason : string) (user_channel_id : Z)
| DiscardFunding (channel_id : bytes) (transaction : Transaction)
| OpenChannelRequest
| PaymentClaimable (payment_hash : bytes) (purpose : PaymentPurpose) (amount_msat : Z)
| PaymentClaimed (payment_hash : bytes) (purpose : PaymentPurpose) (amount_msat : Z)
| PaymentSent (payment_id : option bytes) (payment_preimage payment_hash : bytes)
    (fee_paid_msat : option Z)
| PaymentPathSuccessful (payment_id : bytes)
| PaymentPathFailed (payment_hash : bytes) (failure : PathFailure)
| PaymentFailed (payment_id payment_hash : bytes) (reason : option PaymentFailureReason)
| PaymentForwarded (prev_channel_id next_channel_id : option bytes) (fee_earned_msat : option Z)
    (claim_from_onchain_tx : bool) (outbound_amount_forwarded_msat : option Z)
| ProbeSuccessful
| ProbeFailed
| HTLCHandlingFailed (prev_channel_id : bytes) (failed_next_destination : HTLCDestination)
| PendingHTLCsForwardable (time_forwardable_millis : Z)
| SpendableOutputs (outputs : list SpendableOutputDescriptor) (channel_id : option bytes)
| HTLCIntercepted (intercept_id : InterceptId) (requested_next_hop_scid : Z)
    (payment_hash : bytes) (expected_outbound_amount_msat : Z)
| InvoiceRequestFailed (payment_id : bytes)
| BumpTransaction
| ConnectionNeeded (node_id : PublicKey).
End Event.

Section Handler.
Context {LT : LdkTypes} {FR : BdkFeeRate} {B : Bdk} {BB : BdkBuilder} {LN : Lightning}
  {D : Driver} {DC : DescriptorCodec}.
Variable settings : Settings.

Definition anyhow_text (e : error) : string :=
  match e with
  | Msg m => m
  | DbError (Text m) => m
  | DbError (Sql (Constraint c)) => c
  | DbError (Sql (Fault m)) => m
  | DbError (Sql _) => "query returned an unexpected number of rows"
  | RecvError => "channel closed"
  end.

Definition handle_FundingGenerationReady (now : Z) (temporary_channel_id : bytes)
    (counterparty_node_id : PublicKey) (channel_value_satoshis : Z) (output_script : Script)
    (user_channel_id : Z) : nodem () :=
  let* found := get_funding (as_u64 user_channel_id) in
  let* (fee_rate, respond) := cmd_lift (ok_or (Msg ("Can't find funding transaction for user_channel_id "
                                           +:+ print_nat user_channel_id)) found) in
  let* funding_tx := attempt (in_wallet (fund_tx output_script channel_value_satoshis fee_rate)) in
  match funding_tx with
  | Ok funding_tx =>
      let* generated := attempt (in_world (λ w,
        cm_funding_transaction_generated w temporary_channel_id counterparty_node_id funding_tx)
        ldk_error) in
      match generated with
      | Err e =>
          let* _ := send_funding respond
                      (Err (Msg ("Failed opening channel: " +:+ anyhow_text e))) in
          cmd_err e
      | Panic w => let* _ := drop_funding respond in cmd_panic w
      | Ok _ =>
          let* _ := logged (in_db (update_initializing_channel now temporary_channel_id None
            (Some ("Channel with user channel id " +:+ print_nat user_channel_id +:+
                   " has been funded")%string))) in
          send_funding respond (Ok funding_tx)
      end
  | Err e =>
      let m := ("Failed funding transaction: " +:+ anyhow_text e)%string in
      let* _ := send_funding respond (Err (Msg m)) in
      cmd_err (Msg m)
  | Panic w => let* _ := drop_funding respond in cmd_panic w
  end.

(** The first channel of the channel manager with an id. *)
Definition find_channel (channel_id : bytes) (w : World) : option ChannelDetails :=
  head (where_ (λ c, bool_decide (cd_channel_id c = channel_id)) (cm_list_channels w)).

Definition handle_ChannelPending (now : Z) (channel_id : bytes)
    (former_temporary_channel_id : option bytes) (counterparty_node_id : PublicKey)
    (funding_vout : Z) : nodem () :=
  let* _ := match former_temporary_channel_id with
            | Some former => in_db (update_initializing_channel now former
                                      (Some (channel_id, funding_vout)) None)
            | None => cmd_ret ()
            end in
  let* detail := ask_world (find_channel channel_id) in
  match detail with
  | Some detail => in_db (persist_channel now detail)
  | None => in_db (create_channel now channel_id true counterparty_node_id)
  end.

Definition handle_ChannelReady (now : Z) (channel_id : bytes) (user_channel_id : Z)
    (counterparty_node_id : PublicKey) : nodem () :=
  let* _ := if bool_decide (user_channel_id > jit_threshold) then
              logged (in_world (λ w, lsps_channel_ready w user_channel_id channel_id
                                       counterparty_node_id) Msg)
            else cmd_ret () in
  let* detail := ask_world (find_channel channel_id) in
  let* _ := match detail with
            | Some detail => in_db (persist_channel now detail)
            | None => in_db (LdkDatabase.close_channel now channel_id
                               "Channel detail missing when receiving ChannelReady")
            end in
  broadcast_node_announcement_from_settings settings.

Definition handle_ChannelClosed (now : Z) (channel_id : bytes) (reason : string)
    (user_channel_id : Z) : nodem () :=
  let* _ := respond_funding (as_u64 user_channel_id)
              (Err (Msg ("Channel closed due to " +:+ reason))) in
  in_db (LdkDatabase.close_channel now channel_id reason).

Definition handle_DiscardFunding (now : Z) (channel_id : bytes) (transaction : Transaction) :
    nodem () :=
  logged (in_db (LdkDatabase.close_channel now channel_id
    ("Funding discarded for channel, txid: " +:+ txid_to_string (tx_txid transaction)))).

Definition handle_PaymentClaimable (purpose : PaymentPurpose) : nodem () :=
  match purpose with
  | InvoicePayment (Some payment_preimage) _ => change_world (λ w, cm_claim_funds w payment_preimage)
  | InvoicePayment None _ => cmd_ret ()
  | SpontaneousPayment preimage => change_world (λ w, cm_claim_funds w preimage)
  end.

Definition claimed_payment (random : bytes) (now : Z) (payment_hash : bytes)
    (purpose : PaymentPurpose) (amount_msat : Z) : Payment :=
  match purpose with
  | InvoicePayment payment_preimage payment_secret =>
      of_invoice_inbound random now payment_hash payment_preimage payment_secret amount_msat
  | SpontaneousPayment preimage =>
      spontaneous_inbound random now payment_hash preimage amount_msat
  end.
Definition handle_PaymentClaimed (random : bytes) (now : Z) (payment_hash : bytes)
    (purpose : PaymentPurpose) (amount_msat : Z) : nodem () :=
  cmd_map_err (λ _, Msg "Failed to persist payment")
    (in_db (persist_payment (claimed_payment random now payment_hash purpose amount_msat))).

Definition handle_PaymentSent (payment_id : option bytes) (payment_preimage payment_hash : bytes)
    (fee_paid_msat : option Z) : nodem () :=
  let* payment_id := cmd_lift (ok_or (Msg ("Failed to update payment with hash " +:+
                                            hex_encode payment_hash)) payment_id) in
  let* found := get_payment payment_id in
  let* (payment, respond) := cmd_lift (ok_or (Msg ("Can't find payment for " +:+
                                                   hex_encode payment_id)) found) in
  send_payment respond (Ok (succeeded payment_hash payment_preimage fee_paid_msat payment)).

Definition handle_PaymentPathFailed (failure : PathFailure) : nodem () :=
  match failure with
  | OnPath (Some update) => change_world (λ w, graph_handle_network_update w update)
  | _ => cmd_ret ()
  end.

Definition handle_PaymentFailed (payment_id : bytes) (reason : option PaymentFailureReason) :
    nodem () :=
  let* found := get_payment payment_id in
  let* (payment, respond) := cmd_lift (ok_or (Msg ("Can't find payment for " +:+
                                                   hex_encode payment_id)) found) in
  send_payment respond (Ok (failed reason payment)).

Definition handle_PaymentForwarded (uuid : bytes) (now : Z)
    (prev_channel_id next_channel_id : option bytes) (fee_earned_msat : option Z)
    (outbound_amount_forwarded_msat : option Z) : nodem () :=
  let* _ := match next_channel_id with
            | Some next => logged (in_world (λ w, lsps_payment_forwarded w next) Msg)
            | None => cmd_ret ()
            end in
  match prev_channel_id, next_channel_id, outbound_amount_forwarded_msat, fee_earned_msat with
  | Some inbound, Some outbound, Some amount, Some fee =>
      spawn_write (persist_forward (forward_success uuid now inbound outbound amount fee))
  | _, _, _, _ => cmd_ret ()
  end.

Definition handle_HTLCHandlingFailed (uuid : bytes) (now : Z) (prev_channel_id : bytes)
    (failed_next_destination : HTLCDestination) : nodem () :=
  let* _ := logged (in_world (λ w, lsps_htlc_handling_failed w failed_next_destination) Msg) in
  spawn_write (persist_forward (forward_failure uuid now prev_channel_id failed_next_destination)).

Definition persist_outputs (now : Z) (channel_id : option bytes) (is_spent : bool)
    (outputs : list SpendableOutputDescriptor) : nodem () :=
  cmd_forM (λ o, logged (in_db (persist_spendable_output now o channel_id is_spent))) outputs.

Definition handle_SpendableOutputs (now : Z) (outputs : list SpendableOutputDescriptor)
    (channel_id : option bytes) : nodem () :=
  let* _ := persist_outputs now channel_id false outputs in
  let* destination_address := in_wallet new_internal_address in
  let* tx_feerate := ask_client (λ c, Ok (get_est_sat_per_1000_weight (priorities c) OnChainSweep)) in
  let* best_block_height := ask_client (λ c, result_map blocks (blockchain_info c)) in
  let* locktime := cmd_lift (map_err Msg (locktime_from_height (as_u32 best_block_height))) in
  let* spending_tx := ask_world (λ w,
    spend_spendable_outputs w outputs (script_of destination_address) tx_feerate locktime) in
  let* spending_tx := cmd_lift (ok_or (Msg "Failed to build spending transaction") spending_tx) in
  let* _ := in_wallet (λ w,
    (Ok (), set_client (broadcast_transactions [spending_tx] (bitcoind_client w)) w)) in
  persist_outputs now channel_id true outputs.

Definition handle_HTLCIntercepted (intercept_id : InterceptId) (requested_next_hop_scid : Z)
    (payment_hash : bytes) (expected_outbound_amount_msat : Z) : nodem () :=
  logged (in_world (λ w, lsps_htlc_intercepted w requested_next_hop_scid intercept_id
                           expected_outbound_amount_msat payment_hash) Msg).

(** [thread_rng().gen_range(min..min * 5)], in a task of its own: [random] picks from the range,
    an empty range panics that task. *)
Definition forward_delay `{Build} (random min : Z) : result error Z :=
  let? max := arith 64 (min * 5) in
  if bool_decide (min < max) then Ok (min + random mod (max - min))
  else Panic "cannot sample empty range".

Definition handle_event_async (now : Z) (random : bytes) (event : Event) : nodem () :=
  match event with
  | FundingGenerationReady temporary_channel_id counterparty_node_id value script id =>
      handle_FundingGenerationReady now temporary_channel_id counterparty_node_id value script id
  | ChannelPending channel_id _ former counterparty_node_id vout =>
      handle_ChannelPending now channel_id former counterparty_node_id vout
  | ChannelReady channel_id user_channel_id counterparty_node_id =>
      handle_ChannelReady now channel_id user_channel_id counterparty_node_id
  | ChannelClosed channel_id reason user_channel_id =>
      handle_ChannelClosed now channel_id reason user_channel_id
  | DiscardFunding channel_id transaction => handle_DiscardFunding now channel_id transaction
  | OpenChannelRequest => cmd_panic "internal error: entered unreachable code"
  | PaymentClaimable _ purpose _ => handle_PaymentClaimable purpose
  | PaymentClaimed hash purpose amount => handle_PaymentClaimed random now hash purpose amount
  | PaymentSent id preimage hash fee => handle_PaymentSent id preimage hash fee
  | PaymentPathSuccessful _ => cmd_ret ()
  | PaymentPathFailed _ failure => handle_PaymentPathFailed failure
  | PaymentFailed id _ reason => handle_PaymentFailed id reason
  | PaymentForwarded prev next fee _ amount =>
      handle_PaymentForwarded random now prev next fee amount
  | ProbeSuccessful | ProbeFailed => cmd_ret ()
  | HTLCHandlingFailed prev d => handle_HTLCHandlingFailed random now prev d
  | PendingHTLCsForwardable _ => cmd_ret ()
  | SpendableOutputs outputs channel_id => handle_SpendableOutputs now outputs channel_id
  | HTLCIntercepted id scid hash amount => handle_HTLCIntercepted id scid hash amount
  | InvoiceRequestFailed _ => cmd_ret ()
  | BumpTransaction => cmd_panic "internal error: entered unreachable code"
  | ConnectionNeeded _ => cmd_ret ()
  end.

(** What [process_events_async] does with an event: an error is logged and the event is gone, a
    panic ends the task, after which no event is handled. The result says whether it goes on. *)
Definition process_event (now : Z) (random : bytes) (event : Event) (n : node) : bool * node :=
  match handle_event_async now random event n with
  | (Panic _, n') => (false, n')
  | (_, n') => (true, n')
  end.
End Handler.
