(* ===== verification/Protocol.v ===== *)
(** * API calls and events together

    The API calls that wait for an event (controller.rs) run while the background task handles
    events (event_handler.rs); the requests in [AsyncAPIRequests] connect them. [run] puts one
    payment call, the event task and everything else together as a step relation, and the
    theorems say what the call returns in every interleaving. *)

From S2P Require Import Prelude Text Sql Ldk Payment LdkDatabase Fees AsyncRequests Wallet Node Controller EventHandler.

(** ** Commands that leave a part of the node alone *)

Section Keeps.
Context {LT : LdkTypes} {FR : BdkFeeRate} {B : Bdk} {BB : BdkBuilder} {LN : Lightning}.
Context {X : Type} (f : node → X).

Definition keeps {E A} (m : cmd node E A) : Prop := ∀ n, f (snd (m n)) = f n.

Lemma keeps_ret {E A} (a : A) : keeps (E:=E) (cmd_ret a).
Proof. done. Qed.
Lemma keeps_err {E A} (e : E) : keeps (A:=A) (cmd_err e).
Proof. done. Qed.
Lemma keeps_panic {E A} w : keeps (E:=E) (A:=A) (cmd_panic w).
Proof. done. Qed.
Lemma keeps_lift {E A} (r : result E A) : keeps (cmd_lift r).
Proof. done. Qed.
Lemma keeps_ask_world {A} (g : World → A) : keeps (ask_world g).
Proof. done. Qed.

Lemma keeps_bind {E A C} (m : cmd node E A) (k : A → cmd node E C) :
  keeps m → (∀ a, keeps (k a)) → keeps (cmd_bind m k).
Proof.
  intros Hm Hk n. unfold cmd_bind. specialize (Hm n). destruct (m n) as [[a|e|w] n']; try done.
  simpl in *. by rewrite Hk.
Qed.

Lemma keeps_same {E F A C} (m : cmd node E A) (m' : cmd node F C) :
  (∀ n, snd (m' n) = snd (m n)) → keeps m → keeps m'.
Proof. intros Heq Hm n. by rewrite Heq. Qed.

Lemma keeps_map_err {E F A} (g : E → F) (m : cmd node E A) : keeps m → keeps (cmd_map_err g m).
Proof. apply keeps_same. intros n. unfold cmd_map_err. by destruct (m n). Qed.
Lemma keeps_logged {A} (m : nodem A) : keeps m → keeps (logged m).
Proof. apply keeps_same. intros n. unfold logged. by destruct (m n) as [[]]. Qed.
Lemma keeps_catch {A} (m : nodem A) : keeps m → keeps (catch m).
Proof. apply keeps_same. intros n. unfold catch. by destruct (m n) as [[]]. Qed.
Lemma keeps_attempt {A} (m : nodem A) : keeps m → keeps (attempt m).
Proof. apply keeps_same. intros n. unfold attempt. by destruct (m n). Qed.
Lemma keeps_forM {E A} (k : A → cmd node E ()) l : (∀ a, keeps (k a)) → keeps (cmd_forM k l).
Proof. intros Hk. induction l; simpl; [done|]. by apply keeps_bind. Qed.

(** Commands on one component keep what does not look at that component. *)
Lemma keeps_in_world {E A} (g : World → result E A * World) err :
  (∀ w n, f (set_world w n) = f n) → keeps (in_world g err).
Proof. intros Hf n. unfold in_world. destruct (g _). apply Hf. Qed.
Lemma keeps_change_world g : (∀ w n, f (set_world w n) = f n) → keeps (change_world g).
Proof. intros Hf n. apply Hf. Qed.
Lemma keeps_in_wallet {A} (m : walletm A) :
  (∀ w n, f (set_wallet w n) = f n) → keeps (in_wallet m).
Proof. intros Hf n. unfold in_wallet. destruct (m _). apply Hf. Qed.
Lemma keeps_in_db {A} (m : ldkm A) : (∀ c n, f (set_database c n) = f n) → keeps (in_db m).
Proof. intros Hf n. unfold in_db. destruct (m _). apply Hf. Qed.
Lemma keeps_spawn m : (∀ n, f (add_spawned m n) = f n) → keeps (spawn_write m).
Proof. intros Hf n. apply Hf. Qed.
Lemma keeps_get_funding k : (∀ s n, f (set_funding s n) = f n) → keeps (get_funding k).
Proof. intros Hf n. unfold get_funding. destruct (get _ _). apply Hf. Qed.
Lemma keeps_send_funding tx rv : (∀ s n, f (set_funding s n) = f n) → keeps (send_funding tx rv).
Proof. intros Hf n. apply Hf. Qed.
Lemma keeps_drop_funding tx : (∀ s n, f (set_funding s n) = f n) → keeps (drop_funding tx).
Proof. intros Hf n. apply Hf. Qed.
Lemma keeps_respond_funding k rv :
  (∀ s n, f (set_funding s n) = f n) → keeps (respond_funding k rv).
Proof. intros Hf n. apply Hf. Qed.
Lemma keeps_get_payment k : (∀ s n, f (set_payment_requests s n) = f n) → keeps (get_payment k).
Proof. intros Hf n. unfold get_payment. destruct (get _ _). apply Hf. Qed.
Lemma keeps_send_payment tx rv :
  (∀ s n, f (set_payment_requests s n) = f n) → keeps (send_payment tx rv).
Proof. intros Hf n. apply Hf. Qed.
End Keeps.

Create HintDb keeps.
#[export] Hint Resolve keeps_ret keeps_err keeps_panic keeps_lift keeps_ask_world keeps_bind
  keeps_map_err keeps_logged keeps_catch keeps_attempt keeps_forM keeps_in_world
  keeps_change_world keeps_in_wallet keeps_in_db keeps_spawn keeps_get_funding
  keeps_send_funding keeps_drop_funding keeps_respond_funding keeps_get_payment
  keeps_send_payment : keeps.

(** Goes through a command; what the hints do not close is left. *)
Ltac solve_keeps :=
  repeat match goal with
  | |- ∀ _, _ => intros
  | |- keeps _ (match ?x with _ => _ end) => destruct x
  | |- keeps _ (let '_ := ?x in _) => destruct x
  | |- keeps _ (ask_client _) => unfold ask_client
  | |- keeps _ (cmd_bind _ _) => apply keeps_bind
  | |- keeps _ (cmd_forM _ _) => apply keeps_forM
  | |- keeps _ (logged _) => apply keeps_logged
  | |- keeps _ (catch _) => apply keeps_catch
  | |- keeps _ (attempt _) => apply keeps_attempt
  | |- keeps _ (cmd_map_err _ _) => apply keeps_map_err
  | _ => solve [eauto 2 with keeps nocore]
  | _ => progress (first [apply keeps_in_world | apply keeps_change_world | apply keeps_in_wallet
                         | apply keeps_in_db | apply keeps_spawn | apply keeps_get_funding
                         | apply keeps_send_funding | apply keeps_drop_funding
                         | apply keeps_respond_funding | apply keeps_get_payment
                         | apply keeps_send_payment]; [by intros|..])
  end.

(** ** What an event does to the requests for payments *)

Section Outcomes.
Context {LT : LdkTypes} {FR : BdkFeeRate} {B : Bdk} {BB : BdkBuilder} {LN : Lightning}
  {D : Driver} {DC : DescriptorCodec}.
Variable settings : Settings.

(** The payment an event decides, and how. *)
Definition outcome (event : Event) : option (bytes * (Payment → Payment)) :=
  match event with
  | PaymentSent (Some id) preimage hash fee => Some (id, succeeded hash preimage fee)
  | PaymentFailed id _ reason => Some (id, failed reason)
  | _ => None
  end.

(** A request for [id] is taken out and answered with its payment after [g]. *)
Definition answer (id : bytes) (g : Payment → Payment)
    (s : senders bytes Payment (result error Payment)) : senders bytes Payment (result error Payment) :=
  match hm_get id (entries s) with
  | Some (payment, tx) => respond id (Ok (g payment)) s
  | None => s
  end.

Lemma handle_payments now random event n :
  payment_requests (snd (handle_event_async settings now random event n)) =
    match outcome event with
    | Some (id, g) => answer id g (payment_requests n)
    | None => payment_requests n
    end.
Proof.
  assert (∀ id (g : Payment → Payment) m,
    payment_requests (snd ((let* found := get_payment id in
       let* (payment, respond) := cmd_lift (ok_or m found) in
       send_payment respond (Ok (g payment))) n)) = answer id g (payment_requests n)) as Hans.
  { intros id g m. unfold cmd_bind, get_payment, get, answer, respond.
    destruct (hm_get id (entries (payment_requests n))) as [[payment tx]|] eqn:Hg; done. }
  destruct event; simpl; try done;
    try (match goal with |- payment_requests (snd (?m n)) = _ =>
           assert (keeps payment_requests m) as Hk; [|exact (Hk n)] end).
  all: try (unfold handle_FundingGenerationReady, handle_ChannelPending, handle_ChannelReady,
    broadcast_node_announcement_from_settings,
    handle_ChannelClosed, handle_DiscardFunding, handle_PaymentClaimable, handle_PaymentClaimed,
    handle_PaymentPathFailed, handle_PaymentForwarded, handle_HTLCHandlingFailed,
    handle_SpendableOutputs, persist_outputs, handle_HTLCIntercepted; solve_keeps; fail).
  - destruct payment_id as [id|]; [apply Hans|done].
Qed.
End Outcomes.

(** ** A payment call among everything else *)

Section Payments.
Context {LT : LdkTypes} {FR : BdkFeeRate} {B : Bdk} {BB : BdkBuilder} {LN : Lightning}
  {D : Driver} {DC : DescriptorCodec}.
Variable settings : Settings.

(** The end of [pay_invoice] and [keysend_payment], from the registration on. *)
Definition finish_payment (payment : Payment) : thread Payment :=
  let! _ := act (in_db (persist_payment payment)) in Done (Ok payment).
Definition wait_payment (receiver : nat) : thread Payment :=
  let! payment := await_payment receiver in finish_payment payment.
Definition register_payment (id : bytes) (payment : Payment) : thread Payment :=
  let! receiver := act (insert_payment id payment) in wait_payment receiver.

Record system := mk_system {
  (** The task that handles events still runs. *)
  handling : bool;
  the_node : node;
  call : thread Payment;
}.

Inductive label := Handled (event : Event) | Called | Environment.

(** What else can happen: anything, to everything but this call's request; other calls register
    under ids of their own. *)
Inductive environment (id : bytes) (n n' : node) : Prop :=
| env_same : payment_requests n' = payment_requests n → environment id n n'
| env_insert k v : k ≠ id → payment_requests n' = snd (insert k v (payment_requests n)) →
    environment id n n'.

Inductive step (id : bytes) : label → system → system → Prop :=
| step_event now random event n t b n' :
    process_event settings now random event n = (b, n') →
    step id (Handled event) (mk_system true n t) (mk_system b n' t)
| step_call b n t n' t' :
    thread_step t n t' n' → step id Called (mk_system b n t) (mk_system b n' t')
| step_environment b n n' t :
    environment id n n' → step id Environment (mk_system b n t) (mk_system b n' t).

Inductive run (id : bytes) : list label → system → system → Prop :=
| run_nil s : run id [] s s
| run_snoc tr l s s' s'' : run id tr s s' → step id l s' s'' → run id (tr ++ [l]) s s''.

(** What the events of a trace decide about a payment first. *)
Fixpoint first_outcome (id : bytes) (tr : list label) : option (Payment → Payment) :=
  match tr with
  | [] => None
  | Handled event :: tr =>
      match outcome event with
      | Some (k, g) => if decide (k = id) then Some g else first_outcome id tr
      | None => first_outcome id tr
      end
  | _ :: tr => first_outcome id tr
  end.

Lemma first_outcome_app id tr tr' :
  first_outcome id (tr ++ tr') =
    match first_outcome id tr with Some g => Some g | None => first_outcome id tr' end.
Proof.
  induction tr as [|l tr IH]; [done|]. destruct l as [event| |]; simpl; try done.
  destruct (outcome event) as [[k g]|]; [|done]. by case_decide.
Qed.

Lemma process_event_payments now random event n :
  payment_requests (snd (process_event settings now random event n)) =
    match outcome event with
    | Some (id, g) => answer id g (payment_requests n)
    | None => payment_requests n
    end.
Proof.
  rewrite <- (handle_payments settings now random event n). unfold process_event.
  by destruct (handle_event_async _ _ _ _ _) as [[]].
Qed.

Lemma answer_wf k g s : senders_wf s → senders_wf (answer k g s).
Proof. intros Hs. unfold answer. destruct (hm_get k _) as [[]|]; [by apply respond_wf|done]. Qed.

Lemma settled_insert {K V RV} `{EqDecision K} k (v : V) (s : senders K V RV) rx rv :
  senders_wf s → receiver rx s = Value rv → receiver rx (snd (insert k v s)) = Value rv.
Proof.
  intros Hs. unfold receiver, insert. simpl. intros Hrx.
  destruct (chans s !! rx) as [c|] eqn:Hc; [|done]. simpl in Hrx. subst c.
  destruct (hm_get k (entries s)) as [[v' tx]|] eqn:Hk.
  - erewrite lookup_app_l_Some; [done|]. rewrite lookup_drop, Hc. by case_decide.
  - by erewrite lookup_app_l_Some.
Qed.

Lemma settled_answer k g s rx rv :
  receiver rx s = Value rv → receiver rx (answer k g s) = Value rv.
Proof.
  unfold answer, respond, receiver. intros Hrx.
  destruct (hm_get k (entries s)) as [[v tx]|]; [|done]. simpl.
  destruct (chans s !! rx) as [c|] eqn:Hc; [|done]. simpl in Hrx. subst c.
  by rewrite (send_settled tx _ _ _ _ Hc).
Qed.

Lemma registered_insert {K V RV} `{EqDecision K} k k' (v v' : V) (s : senders K V RV) tx :
  k' ≠ k → hm_get k (entries s) = Some (v, tx) →
  hm_get k (entries (snd (insert k' v' s))) = Some (v, tx).
Proof. intros Hne Hk. simpl. by rewrite hm_get_insert_ne. Qed.

(** *** The invariant of a registered call *)

(** The request of a call that registered [payment] and waits on [rx], given what the events
    decided since: it is registered, or its answer is there. *)
Definition slot (id : bytes) (payment : Payment) (rx : nat) (o : option (Payment → Payment))
    (n : node) : Prop :=
  match o with
  | None => hm_get id (entries (payment_requests n)) = Some (payment, rx)
  | Some g => receiver rx (payment_requests n) = Value (Ok (g payment))
  end.

(** What the caller can have seen, given what the events decided so far. *)
Definition seen (id : bytes) (payment : Payment) (rx : nat) (o : option (Payment → Payment))
    (s : system) : Prop :=
  match o with
  | None => call s = wait_payment rx ∧ slot id payment rx o (the_node s)
  | Some g =>
      (call s = wait_payment rx ∧ slot id payment rx o (the_node s)) ∨
      call s = finish_payment (g payment) ∨
      call s = Done (Ok (g payment)) ∨
      (∃ e, call s = Done (Err (DbError e))) ∨ (∃ m, call s = Done (Panic m))
  end.

Lemma slot_same id payment rx o n n' :
  payment_requests n' = payment_requests n → slot id payment rx o n → slot id payment rx o n'.
Proof. unfold slot. by intros ->. Qed.

Lemma slot_event id payment rx o now random event n :
  let n' := snd (process_event settings now random event n) in
  senders_wf (payment_requests n) → slot id payment rx o n →
  senders_wf (payment_requests n') ∧
  slot id payment rx (match o with Some g => Some g | None => first_outcome id [Handled event] end) n'.
Proof.
  intros n' Hwf Hslot. unfold slot in *.
  pose proof (process_event_payments now random event n) as Hpay. fold n' in Hpay. rewrite Hpay.
  split; [destruct (outcome event) as [[]|]; [by apply answer_wf|done]|].
  destruct o as [g|]; simpl.
  - destruct (outcome event) as [[k h]|]; [by apply settled_answer|done].
  - destruct (outcome event) as [[k h]|]; [|done]. case_decide as Hid.
    + subst k. unfold answer. rewrite Hslot. by eapply respond_delivers.
    + unfold answer. destruct (hm_get k (entries (payment_requests n))) as [[v tx]|]; [|done].
      by apply (respond_other id k payment rx).
Qed.

Lemma slot_environment id payment rx o n n' :
  environment id n n' → senders_wf (payment_requests n) → slot id payment rx o n →
  senders_wf (payment_requests n') ∧ slot id payment rx o n'.
Proof.
  intros [He|k v Hne He] Hwf Hslot; [split; [by rewrite He|by eapply slot_same]|].
  unfold slot in *. rewrite He. split; [by apply insert_wf|].
  destruct o as [g|]; [by apply settled_insert|by apply registered_insert].
Qed.

(** Nothing is received before an event decided; then the decided payment is. *)
Lemma slot_received id payment rx o n v :
  senders_wf (payment_requests n) → slot id payment rx o n →
  received (receiver rx (payment_requests n)) = Some v → ∃ g, o = Some g ∧ v = Ok (Ok (g payment)).
Proof.
  intros Hwf Hslot. destruct o as [g|]; simpl in Hslot.
  - rewrite Hslot. intros [= <-]. by exists g.
  - unfold receiver. by rewrite (wf_waiting _ Hwf _ _ _ Hslot).
Qed.

(** Waiting is the only step of [wait_payment]. *)
Lemma wait_step rx n t' n' :
  thread_step (wait_payment rx) n t' n' →
  n' = n ∧ ∃ v, received (receiver rx (payment_requests n)) = Some v ∧
    t' = tbind (Done (let? v := v in v)) finish_payment.
Proof. intros Hs. inversion Hs; subst. by eauto. Qed.

Lemma finish_step p n t' n' :
  thread_step (finish_payment p) n t' n' →
  payment_requests n' = payment_requests n ∧
  (t' = Done (Ok p) ∨ (∃ e, t' = Done (Err (DbError e))) ∨ ∃ m, t' = Done (Panic m)).
Proof.
  intros Hs. inversion Hs as [m ? ? ? Hm| |]; subst. revert Hm.
  unfold in_db. destruct (persist_payment p (database n)) as [[[]|e|m] c]; intros [= <- <-];
    (split; [done|]); simpl; eauto 10.
Qed.

Lemma done_step {A} (r : result error A) n t' n' : ¬ thread_step (Done r) n t' n'.
Proof. inversion 1. Qed.

Lemma seen_step id payment rx o l s s' :
  senders_wf (payment_requests (the_node s)) → seen id payment rx o s → step id l s s' →
  senders_wf (payment_requests (the_node s')) ∧
  seen id payment rx (match o with Some g => Some g | None => first_outcome id [l] end) s'.
Proof.
  intros Hwf Hseen Hstep. destruct Hstep as [now random event n t b n' Hp|b n t n' t' Hs|b n n' t He];
    simpl in *.
  - assert (senders_wf (payment_requests n') ∧ (slot id payment rx o n → slot id payment rx
      (match o with Some g => Some g | None => first_outcome id [Handled event] end) n')) as [Hwf' Hgo].
    { pose proof (λ x o', slot_event id x rx o' now random event n Hwf) as H. rewrite Hp in H.
      split; [|by intros Hs; apply H]. pose proof (process_event_payments now random event n) as Hpay.
      rewrite Hp in Hpay. simpl in Hpay. rewrite Hpay.
      destruct (outcome event) as [[]|]; [by apply answer_wf|done]. }
    split; [done|]. destruct o as [g|]; simpl in *.
    + destruct Hseen as [[Hc Hrx]|Hrest]; [left; auto|by right].
    + destruct Hseen as [Hc Hk]. specialize (Hgo Hk). simpl in Hgo.
      destruct (match outcome event with Some _ => _ | None => _ end); [left|]; by split.
  - destruct o as [g|]; simpl in *.
    + destruct Hseen as [[-> Hrx]|[->|[->|[[e ->]|[m ->]]]]]; try by apply done_step in Hs.
      * apply wait_step in Hs as (-> & v & Hv & ->). split; [done|].
        destruct (slot_received id payment rx (Some g) n v Hwf Hrx Hv) as (? & [= <-] & ->).
        right. by left.
      * apply finish_step in Hs as [-> Ht]. split; [done|]. right. right.
        destruct Ht as [?|[?|?]]; eauto.
    + destruct Hseen as [-> Hk]. apply wait_step in Hs as (-> & v & Hv & ->).
      destruct (slot_received id payment rx None n v Hwf Hk Hv) as (? & ? & _). done.
  - destruct o as [g|]; simpl in *.
    + destruct Hseen as [[Hc Hrx]|Hrest].
      * destruct (slot_environment id payment rx (Some g) n n' He Hwf Hrx). split; [done|left; auto].
      * split; [|by right]. destruct He as [He|k v Hne He]; rewrite He; [done|by apply insert_wf].
    + destruct Hseen as [Hc Hk]. by destruct (slot_environment id payment rx None n n' He Hwf Hk).
Qed.

Lemma seen_run id payment rx tr s0 s :
  senders_wf (payment_requests (the_node s0)) → seen id payment rx None s0 → run id tr s0 s →
  senders_wf (payment_requests (the_node s)) ∧ seen id payment rx (first_outcome id tr) s.
Proof.
  intros Hwf Hseen Hrun. induction Hrun as [|tr l s0 s' s'' _ IH Hstep]; [done|].
  destruct (IH Hwf Hseen) as [Hwf' Hseen']. rewrite first_outcome_app.
  eapply seen_step in Hstep; [|done..]. destruct (first_outcome id tr); exact Hstep.
Qed.

(** ** Theorems on a payment call *)

(** The part of a trace after the call's next step. *)
Fixpoint after_called (tr : list label) : option (list label) :=
  match tr with
  | [] => None
  | Called :: tr => Some tr
  | _ :: tr => after_called tr
  end.

Lemma after_called_snoc tr l :
  after_called (tr ++ [l]) =
    match after_called tr with
    | Some tr' => Some (tr' ++ [l])
    | None => match l with Called => Some [] | _ => None end
    end.
Proof. induction tr as [|[]]; [by destruct l|done..]. Qed.

Lemma wf_step id l s s' :
  senders_wf (payment_requests (the_node s)) → l ≠ Called → step id l s s' →
  senders_wf (payment_requests (the_node s')) ∧ call s' = call s.
Proof.
  intros Hwf Hl Hs. destruct Hs as [now random event n t b n' Hp|?|b n n' t [He|k v _ He]]; simpl in *;
    [|done|by rewrite He|by split; [rewrite He; apply insert_wf|]].
  pose proof (process_event_payments now random event n) as Hpay. rewrite Hp in Hpay. simpl in Hpay.
  split; [rewrite Hpay|done]. destruct (outcome event) as [[]|]; [by apply answer_wf|done].
Qed.

(** What a payment call returns, in every interleaving with the event task, the other
    calls and the environment. It counts from the step in which the call registers its request:
    until an event after that step decides the payment, the call waits; afterwards it returns
    the payment changed by the first deciding event, or the error of the database write, and
    nothing else, whatever later events say. *)
Theorem payment_call_returns_first_outcome id payment tr s0 s :
  senders_wf (payment_requests (the_node s0)) → call s0 = register_payment id payment →
  run id tr s0 s →
  match after_called tr with
  | None => call s = register_payment id payment
  | Some tr' => ∃ rx, seen id payment rx (first_outcome id tr') s
  end.
Proof.
  intros Hwf Hc Hrun.
  cut (senders_wf (payment_requests (the_node s)) ∧
    match after_called tr with
    | None => call s = register_payment id payment
    | Some tr' => ∃ rx, seen id payment rx (first_outcome id tr') s
    end); [tauto|].
  induction Hrun as [|tr l s0 s' s'' _ IH Hstep]; [done|].
  destruct (IH Hwf Hc) as [Hwf' Hs']. rewrite after_called_snoc.
  destruct (after_called tr) as [tr'|].
  - destruct Hs' as [rx Hs']. rewrite first_outcome_app.
    destruct (seen_step _ _ _ _ _ _ _ Hwf' Hs' Hstep) as [? Hseen]. split; [done|]. exists rx.
    destruct (first_outcome id tr'); exact Hseen.
  - assert (l = Called ∨ l ≠ Called) as [->|Hl] by (destruct l; [right|left|right]; done).
    + inversion Hstep as [|b n t n' t' Ht|]; subst. simpl in *. subst t.
      inversion Ht as [m ? ? ? Hm| |]; subst. unfold insert_payment in Hm.
      injection Hm as <- <-. split; [exact (insert_wf id payment _ Hwf')|].
      eexists. split; [done|]. apply hm_get_insert_eq.
    + destruct (wf_step _ _ _ _ Hwf' Hl Hstep) as [? Hcall]. split; [done|].
      destruct l; [by rewrite Hcall| done |by rewrite Hcall].
Qed.
End Payments.

(** ** Paying an invoice from end to end *)

Section PayInvoice.
Context {LT : LdkTypes} {FR : BdkFeeRate} {B : Bdk} {BB : BdkBuilder} {LN : Lightning}
  {D : Driver} {DL : DriverLaws} {DC : DescriptorCodec}.
Variable settings : Settings.
Variables (random : bytes) (now : Z) (invoice : Invoice) (plabel : option string).

Let payment : Payment := of_invoice_outbound random now invoice plabel.

(** LDK accepts the payment, the database works, no other invoice has the label and the random
    id is not in use. *)
Record payable (amount : Z) (w : World) (n : node) : Prop := {
  payable_online : online (database n);
  payable_amount : inv_amount invoice = Some amount;
  payable_send : cm_send_payment (world n) (payment_hash_of (inv_bolt11 invoice))
    (payment_secret_of (inv_bolt11 invoice)) random (inv_payee_pub_key invoice) amount = (Ok (), w);
  payable_label : label_taken (row_of_invoice invoice) (invoices (tables (database n))) = false;
  payable_fresh : hm_get random (entries (payment_requests n)) = None;
  payable_wf : senders_wf (payment_requests n);
}.

(** The node when the invoice and the pending payment are stored. *)
Definition stored (w : World) (n : node) : node :=
  let t := tables (database n) in
  let i := row_of_invoice invoice in
  let t1 := set_invoices (upsert (has_key iv_payment_hash (iv_payment_hash i)) i (invoices t)) t in
  let t2 := set_payments (upsert (has_key pr_id random) (row_of_payment payment) (payments t)) t1 in
  set_database (set_tables t2 (set_tables t1 (database n))) (set_world w n).

Lemma step_act' id b m n t n' :
  m n = (t, n') → step settings id Called (mk_system b n (Act m)) (mk_system b n' t).
Proof. intros Hm. apply step_call. by apply step_act. Qed.

Lemma run_one id tr l s s' s'' :
  run settings id tr s s' → step settings id l s' s'' → run settings id (tr ++ [l]) s s''.
Proof. apply run_snoc. Qed.

Lemma persist_payment_run p c :
  online c → persist_payment p c =
    (Ok (), set_tables (set_payments (upsert (has_key pr_id (pay_id p)) (row_of_payment p)
                          (payments (tables c))) (tables c)) c).
Proof. intros Hc. by apply db_execute_run. Qed.

Lemma persist_invoice_run c :
  online c → label_taken (row_of_invoice invoice) (invoices (tables c)) = false →
  persist_invoice invoice c =
    (Ok (), set_tables (set_invoices (upsert (has_key iv_payment_hash (inv_payment_hash invoice))
                          (row_of_invoice invoice) (invoices (tables c))) (tables c)) c).
Proof. intros Hc Hl. apply db_execute_run; [done|]. by rewrite Hl. Qed.

Lemma find_persisted (p : Payment) l :
  pk_find pr_id (pay_id p) (upsert (has_key pr_id (pay_id p)) (row_of_payment p) l) =
    Some (row_of_payment p).
Proof.
  change (pay_id p) with (pr_id (row_of_payment p)). rewrite pk_find_upsert. by rewrite decide_True.
Qed.

Lemma pay_invoice_registers id amount w n :
  payable amount w n →
  run settings id [Called; Called; Called; Called; Called]
    (mk_system true n (pay_invoice random now invoice plabel))
    (mk_system true (stored w n) (register_payment random payment)).
Proof.
  intros [Hon Ham Hsend Hlabel _ _].
  change [Called; Called; Called; Called; Called]
    with ((((([] ++ [Called]) ++ [Called]) ++ [Called]) ++ [Called]) ++ [Called]).
  eapply run_snoc; [eapply run_snoc; [eapply run_snoc; [eapply run_snoc;
    [eapply run_snoc; [apply run_nil|]|]|]|]|]; apply step_act'.
  - unfold cmd_lift. rewrite Ham. reflexivity.
  - reflexivity.
  - unfold in_world. simpl. rewrite Hsend. reflexivity.
  - unfold in_db. rewrite persist_invoice_run by done. reflexivity.
  - unfold in_db. rewrite persist_payment_run by done. reflexivity.
Qed.

Lemma decided_event now' random' event g n :
  outcome event = Some (random, g) →
  process_event settings now' random' event n =
    (true, set_payment_requests (answer random g (payment_requests n)) n).
Proof.
  intros Ho. destruct event; simpl in Ho; try done; [destruct payment_id; [|done]|]; simplify_eq;
    unfold process_event; simpl;
    unfold handle_PaymentSent, handle_PaymentFailed, cmd_bind, cmd_lift, get_payment, get, answer,
      respond; simpl;
    destruct (hm_get random (entries (payment_requests n))) as [[p tx]|]; done.
Qed.

Lemma outcome_keeps_id event g p : outcome event = Some (random, g) → pay_id (g p) = pay_id p.
Proof. destruct event; simpl; try done; [destruct payment_id; [|done]|]; by intros [= <- <-]. Qed.

(** [C10] A payment whose deciding event is handled after the call registered: the call returns
    the payment as the event decided it, and that is what the database then holds of it. *)
Theorem pay_invoice_stores_the_outcome amount w n event g :
  payable amount w n → outcome event = Some (random, g) →
  ∃ s, run settings random [Called; Called; Called; Called; Called; Called; Handled event;
                            Called; Called]
         (mk_system true n (pay_invoice random now invoice plabel)) s ∧
    call s = Done (Ok (g payment)) ∧
    pk_find pr_id random (payments (tables (database (the_node s)))) =
      Some (row_of_payment (g payment)).
Proof.
  intros Hp Ho. pose proof (pay_invoice_registers random amount w n Hp) as Hrun.
  destruct Hp as [Hon _ _ _ Hfresh Hwf].
  set (n1 := stored w n) in *.
  set (rx := length (chans (payment_requests n1))).
  set (n2 := set_payment_requests (snd (insert random payment (payment_requests n1))) n1).
  set (n3 := set_payment_requests (answer random g (payment_requests n2)) n2).
  assert (receiver rx (payment_requests n3) = Value (Ok (g payment))) as Hrx.
  { unfold n3, answer. simpl. rewrite hm_get_insert_eq.
    eapply respond_delivers; [by apply insert_wf|apply hm_get_insert_eq]. }
  assert (received (receiver rx (payment_requests n3)) = Some (Ok (Ok (g payment)))) as Hrecv
    by by rewrite Hrx.
  eexists. split; [|split].
  - change [Called; Called; Called; Called; Called; Called; Handled event; Called; Called]
      with (((([Called; Called; Called; Called; Called] ++ [Called]) ++ [Handled event]) ++
             [Called]) ++ [Called]).
    eapply run_snoc; [eapply run_snoc; [eapply run_snoc; [eapply run_snoc; [exact Hrun|]|]|]|].
    + by apply (step_act' _ _ _ _ (wait_payment rx) n2).
    + apply (step_event _ _ now random). by apply decided_event.
    + apply step_call. exact (step_payment _ _ _ _ Hrecv).
    + apply step_act'. unfold in_db. rewrite persist_payment_run by done. reflexivity.
  - reflexivity.
  - pose proof (find_persisted (g payment)) as Hf.
    rewrite (outcome_keeps_id event g payment Ho : _ = random) in Hf. simpl.
    rewrite (outcome_keeps_id event g payment Ho : _ = random). apply Hf.
Qed.

(** [C19] The same event handled after LDK accepted the payment and before the call registered:
    the handler reports an error and the event is gone. The call then waits, with the payment
    stored as pending, and in every continuation without another event that decides this
    payment it makes no step again. *)
Theorem outcome_before_registration_is_lost amount w n event g :
  payable amount w n → outcome event = Some (random, g) →
  ∃ s rx, run settings random [Called; Called; Called; Called; Called; Handled event; Called]
         (mk_system true n (pay_invoice random now invoice plabel)) s ∧
    pk_find pr_id random (payments (tables (database (the_node s)))) =
      Some (row_of_payment payment) ∧ pay_status payment = Pending ∧
    ∀ tr s', run settings random tr s s' → first_outcome random tr = None →
      call s' = wait_payment rx ∧ ∀ s'', ¬ step settings random Called s' s''.
Proof.
  intros Hp Ho. pose proof (pay_invoice_registers random amount w n Hp) as Hrun.
  destruct Hp as [Hon _ _ _ Hfresh Hwf].
  set (n1 := stored w n) in *.
  set (n2 := set_payment_requests (snd (insert random payment (payment_requests n1))) n1).
  exists (mk_system true n2 (wait_payment (length (chans (payment_requests n1))))),
    (length (chans (payment_requests n1))).
  split; [|split; [|split; [done|]]].
  - change [Called; Called; Called; Called; Called; Handled event; Called]
      with (([Called; Called; Called; Called; Called] ++ [Handled event]) ++ [Called]).
    eapply run_snoc; [eapply run_snoc; [exact Hrun|]|].
    + apply (step_event _ _ now random). rewrite (decided_event _ _ _ g _ Ho).
      unfold answer. change (payment_requests n1) with (payment_requests n). rewrite Hfresh.
      reflexivity.
    + by apply step_act'.
  - apply (find_persisted payment).
  - intros tr s' Hrun' Hno.
    eapply (seen_run settings random payment) in Hrun' as [Hwf' Hseen];
      [|by apply insert_wf|split; [reflexivity|apply hm_get_insert_eq]].
    rewrite Hno in Hseen. destruct Hseen as [Hc Hk]. split; [done|]. intros s'' Hs.
    inversion Hs as [|b n' t n'' t' Ht|]; subst. simpl in *. subst t.
    apply wait_step in Ht as (_ & v & Hv & _). unfold receiver in Hv.
    by rewrite (wf_waiting _ Hwf' _ _ _ Hk) in Hv.
Qed.
End PayInvoice.

(** ** Instances of the properties *)

Section Instances.
#[local] Existing Instance insertion_order.
#[local] Existing Instance insertion_order_laws.
#[local] Existing Instance example_ldk.
#[local] Existing Instance example_ldk_laws.
#[local] Existing Instance example_rate.
#[local] Existing Instance example_bdk.
#[local] Existing Instance example_builder.
#[local] Existing Instance example_lightning.
#[local] Existing Instance example_descriptors.

Definition example_settings : Settings := mk_settings example_ldk "kld"%string "6e2cf7"%string [] Bitcoin.
Definition example_id : bytes := id_bytes true.
Definition sent_event : Event := PaymentSent (Some example_id) (id_bytes false) (id_bytes true) (Some 5).

Definition example_world : @World example_ldk example_rate example_bdk example_lightning := 1%nat.

Lemma example_payable : payable example_id example_invoice 1000 example_world example_node.
Proof. split; try reflexivity; [split; reflexivity|apply new_senders_wf]. Defined.

Lemma pay_invoice_stores_the_outcome_witness :
  ∃ s, run example_settings example_id [Called; Called; Called; Called; Called; Called;
                                        Handled sent_event; Called; Called]
         (mk_system true example_node (pay_invoice example_id 7 example_invoice None)) s ∧
    ∃ row, pk_find pr_id example_id (payments (tables (database (the_node s)))) = Some row ∧
      pr_status row = Succeeded.
Proof.
  destruct (pay_invoice_stores_the_outcome example_settings example_id 7 example_invoice None 1000
              example_world example_node sent_event _ example_payable eq_refl) as (s & Hrun & _ & Hf).
  exists s. split; [exact Hrun|]. eexists. split; [exact Hf|reflexivity].
Defined.

Lemma outcome_before_registration_is_lost_witness :
  ∃ s rx, run example_settings example_id [Called; Called; Called; Called; Called;
                                        Handled sent_event; Called]
         (mk_system true example_node (pay_invoice example_id 7 example_invoice None)) s ∧
    call s = wait_payment rx ∧ ∀ s', ¬ step example_settings example_id Called s s'.
Proof.
  destruct (outcome_before_registration_is_lost example_settings example_id 7 example_invoice None
              1000 example_world example_node sent_event _ example_payable eq_refl)
    as (s & rx & Hrun & _ & _ & Hall).
  exists s, rx. split; [exact Hrun|]. exact (Hall [] s (run_nil _ _ s) eq_refl).
Defined.

Lemma payment_call_returns_first_outcome_witness :
  ∃ s, run example_settings example_id [Called; Handled sent_event]
         (mk_system true example_node (register_payment example_id example_payment)) s ∧
    ∃ rx, seen example_id example_payment rx
            (Some (succeeded (id_bytes true) (id_bytes false) (Some 5))) s.
Proof.
  assert (∃ s, run example_settings example_id [Called; Handled sent_event]
         (mk_system true example_node (register_payment example_id example_payment)) s) as [s Hrun].
  { eexists. eapply (run_snoc _ _ [Called]); [eapply (run_snoc _ _ []); [apply run_nil|]|].
    - apply step_act'. reflexivity.
    - apply (step_event _ _ 0 [x00]). reflexivity. }
  exists s. split; [exact Hrun|].
  exact (payment_call_returns_first_outcome example_settings example_id example_payment
           [Called; Handled sent_event]
           (mk_system true example_node (register_payment example_id example_payment)) s
           (new_senders_wf : senders_wf (payment_requests example_node)) eq_refl Hrun).
Defined.
End Instances.
