(* ===== verification/Events.v ===== *)
(** * What the event handler does

    Theorems on the arms of the event handler one by one: opening a channel, claimed and
    forwarded payments, swept outputs, the node announcement, the ids of just-in-time
    channels. *)

From S2P Require Import Prelude Text Sql Ldk Payment LdkDatabase Fees AsyncRequests Wallet Node Controller EventHandler Protocol.

Section Events.
Context {LT : LdkTypes} {FR : BdkFeeRate} {B : Bdk} {BB : BdkBuilder} {LN : Lightning}
  {D : Driver} {DL : DriverLaws} {DC : DescriptorCodec}.
Variable settings : Settings.

#[local] Arguments update_initializing_channel : simpl never.

(** ** Opening a channel *)

Lemma receiver_send {K V RV} `{EqDecision K} (s : senders K V RV) k v tx rv (es : list (K * (V * nat))) :
  senders_wf s → hm_get k (entries s) = Some (v, tx) →
  receiver tx (call_respond tx rv (mk_senders es (chans s))) = Value rv.
Proof.
  intros Hs Hk. unfold receiver. simpl.
  rewrite lookup_send, decide_True by done. by rewrite (wf_waiting _ Hs _ _ _ Hk).
Qed.
Lemma receiver_drop {K V RV} `{EqDecision K} (s : senders K V RV) k v tx (es : list (K * (V * nat))) :
  senders_wf s → hm_get k (entries s) = Some (v, tx) →
  receiver tx (drop_respond tx (mk_senders es (chans s))) = Closed.
Proof.
  intros Hs Hk. unfold receiver. simpl.
  rewrite lookup_drop, decide_True by done. by rewrite (wf_waiting _ Hs _ _ _ Hk).
Qed.

Lemma execute_no_panic s (c : conn ldk_tables) m :
  (∀ t, ∃ t', s t = Ok t') → fst (db_execute s c) ≠ Panic m.
Proof.
  intros Hs. unfold db_execute, cmd_map_err, execute, statement, result_map.
  destruct (Hs (tables c)) as [t' ->]. by destruct (faults c) as [|[]]; simpl; try destruct (aborted c).
Qed.

Lemma update_initializing_no_panic now id status c m :
  fst (update_initializing_channel now id None status c) ≠ Panic m.
Proof. destruct status; [apply execute_no_panic; by eexists|done]. Qed.

(** What became of a funding request: it is no longer registered and its caller sees [c]. *)
Definition funding_answered (key : Z) (rx : nat) (c : oneshot (result error Transaction))
    (n : node) : Prop :=
  hm_get key (entries (funding_transactions n)) = None ∧ receiver rx (funding_transactions n) = c.

(** [C21] LDK asks for a funding transaction. If no call registered the channel, the handler
    fails and changes nothing: nobody funds the channel. Otherwise the caller that registered
    gets an answer in every case: the wallet's transaction, once LDK has taken it (even if the
    status cannot be written), or what went wrong with the wallet or with LDK, or a closed
    channel when the wallet panics. LDK sees a transaction only if the wallet made one. *)
Theorem funding_request_is_answered now tmp peer value script id n :
  senders_wf (funding_transactions n) →
  let key := as_u64 id in
  let '(r, n') := handle_FundingGenerationReady now tmp peer value script id n in
  match hm_get key (entries (funding_transactions n)) with
  | None => (∃ e, r = Err e) ∧ n' = n
  | Some (rate, rx) =>
      match fst (fund_tx script value rate (node_wallet n)) with
      | Ok tx =>
          let '(taken, w) := cm_funding_transaction_generated (world n) tmp peer tx in
          world n' = w ∧
          match taken with
          | Ok _ => r = Ok () ∧ funding_answered key rx (Value (Ok tx)) n'
          | Err e => (∃ e', r = Err e') ∧ ∃ m, funding_answered key rx (Value (Err m)) n'
          | Panic m => r = Panic m ∧ funding_answered key rx Closed n'
          end
      | Err e => (∃ e', r = Err e') ∧ (∃ m, funding_answered key rx (Value (Err m)) n') ∧
                 world n' = world n
      | Panic m => r = Panic m ∧ funding_answered key rx Closed n' ∧ world n' = world n
      end
  end.
Proof.
  intros Hwf key. unfold handle_FundingGenerationReady, cmd_bind, cmd_lift, get_funding, get.
  fold key. destruct (hm_get key (entries (funding_transactions n))) as [[rate rx]|] eqn:Hk; simpl;
    [|split; [by eexists|by destruct n]].
  assert (∀ rv n', funding_transactions n' = mk_senders (hm_remove key (entries (funding_transactions n)))
    (chans (funding_transactions n)) → funding_answered key rx (Value rv)
      (set_funding (call_respond rx rv (funding_transactions n')) n')) as Hsend.
  { intros rv n' ->. split; simpl; [apply hm_get_remove_eq|by eapply receiver_send]. }
  assert (∀ n', funding_transactions n' = mk_senders (hm_remove key (entries (funding_transactions n)))
    (chans (funding_transactions n)) → funding_answered key rx Closed
      (set_funding (drop_respond rx (funding_transactions n')) n')) as Hdrop.
  { intros n' ->. split; simpl; [apply hm_get_remove_eq|by eapply receiver_drop]. }
  unfold attempt, in_wallet at 1. simpl.
  destruct (fund_tx script value rate (node_wallet n)) as [[tx|e|m] wal] eqn:Hf; simpl.
  - unfold in_world. simpl. destruct (cm_funding_transaction_generated (world n) tmp peer tx)
      as [[[]|e|m] w] eqn:Hg; simpl.
    + unfold logged, in_db. simpl.
      destruct (update_initializing_channel _ _ _ _ (database n)) as [[[]|e|m] c] eqn:Hu; simpl;
        [split; [done|]; split; [done|]; by apply Hsend..|].
      destruct (update_initializing_no_panic now tmp (Some ("Channel with user channel id " +:+
        print_nat id +:+ " has been funded")%string) (database n) m). by rewrite Hu.
    + split; [done|]. split; [by eexists|]. eexists. by apply Hsend.
    + split; [done|]. split; [done|]. by apply Hdrop.
  - split; [by eexists|]. split; [|done]. eexists. by apply Hsend.
  - split; [done|]. split; [|done]. by apply Hdrop.
Qed.

(** ** Payments that were received *)

(** A command on the database that leaves a part [g] of the tables alone. *)
Definition db_keeps {X} (g : ldk_tables → X) {A} (m : ldkm A) : Prop :=
  ∀ c, g (tables (snd (m c))) = g (tables c).

Definition in_tables {X} (g : ldk_tables → X) (n : node) : X := g (tables (database n)).

Section DbKeeps.
Context {X : Type} (g : ldk_tables → X).

Lemma keeps_tables {A} (m : ldkm A) : db_keeps g m → keeps (in_tables g) (in_db m).
Proof.
  intros Hm n. unfold in_db, in_tables. specialize (Hm (database n)). by destruct (m _).
Qed.

Lemma db_execute_keeps s : (∀ t t', s t = Ok t' → g t' = g t) → db_keeps g (db_execute s).
Proof.
  intros Hs c. unfold db_execute, cmd_map_err. destruct (execute s c) as [r c'] eqn:He.
  destruct (execute_atomic s c r c' He) as [[_ Ht]|[_ Ht]]; simpl; [by apply Hs|by rewrite Ht].
Qed.

Hypothesis g_initializing : ∀ l t, g (set_initializing l t) = g t.
Hypothesis g_channels : ∀ l t, g (set_channels l t) = g t.
Hypothesis g_outputs : ∀ l t, g (set_outputs l t) = g t.

Lemma update_initializing_keeps now i v st : db_keeps g (update_initializing_channel now i v st).
Proof.
  unfold update_initializing_channel.
  destruct v as [[]|]; [|destruct st; [|done]]; apply db_execute_keeps; by intros t t' [= <-].
Qed.
Lemma create_channel_keeps now i p k : db_keeps g (create_channel now i p k).
Proof.
  apply db_execute_keeps. intros t t'. unfold insert_pk. destruct (existsb _ _); [done|].
  by intros [= <-].
Qed.
Lemma persist_channel_keeps now d : db_keeps g (persist_channel now d).
Proof.
  unfold persist_channel. destruct (cd_short_channel_id d); apply db_execute_keeps;
    by intros t t' [= <-].
Qed.
Lemma close_channel_keeps now i r : db_keeps g (LdkDatabase.close_channel now i r).
Proof. apply db_execute_keeps. by intros t t' [= <-]. Qed.
Lemma persist_output_keeps now o i b : db_keeps g (persist_spendable_output now o i b).
Proof.
  intros c. unfold persist_spendable_output. destruct (descriptor_parts o) as [[txid index] value].
  unfold cmd_bind, cmd_lift. destruct (text (descriptor_write o)); [|done..].
  destruct i; apply db_execute_keeps; by intros t t' [= <-].
Qed.

(** Apart from a claimed payment, no event changes what [g] sees. *)
Lemma event_keeps now random event :
  (∀ hash purpose amount, event = PaymentClaimed hash purpose amount →
     db_keeps g (persist_payment (claimed_payment random now hash purpose amount))) →
  keeps (in_tables g) (handle_event_async settings now random event).
Proof.
  intros Hclaim. destruct event; simpl; try apply keeps_ret; try apply keeps_panic.
  all: unfold handle_FundingGenerationReady, handle_ChannelPending, handle_ChannelReady,
    broadcast_node_announcement_from_settings, handle_ChannelClosed, handle_DiscardFunding,
    handle_PaymentClaimable, handle_PaymentClaimed, handle_PaymentSent, handle_PaymentFailed,
    handle_PaymentPathFailed, handle_PaymentForwarded, handle_HTLCHandlingFailed,
    handle_SpendableOutputs, persist_outputs, handle_HTLCIntercepted.
  all: try solve [solve_keeps; apply keeps_tables; auto using update_initializing_keeps,
    create_channel_keeps, persist_channel_keeps, close_channel_keeps, persist_output_keeps].
Qed.
End DbKeeps.

(** The events that the background task handles, with the clock and the random ids, up to one
    that panics. *)
Fixpoint process_events (l : list (Z * bytes * Event)) (n : node) : bool * node :=
  match l with
  | [] => (true, n)
  | (now, random, event) :: l =>
      match process_event settings now random event n with
      | (true, n') => process_events l n'
      | r => r
      end
  end.

Lemma process_event_snd now random event n :
  snd (process_event settings now random event n) =
  snd (handle_event_async settings now random event n).
Proof. unfold process_event. by destruct (handle_event_async _ _ _ _ _) as [[]]. Qed.

Lemma process_events_keep {X} (f : node → X) l n :
  (∀ now random event, (now, random, event) ∈ l →
     keeps f (handle_event_async settings now random event)) →
  f (snd (process_events l n)) = f n.
Proof.
  revert n. induction l as [|[[now random] event] l IH]; intros n Hl; [done|]. simpl.
  pose proof (process_event_snd now random event n) as Hsnd.
  assert (f (snd (process_event settings now random event n)) = f n) as Hf.
  { rewrite Hsnd. apply (Hl now random event). by left. }
  destruct (process_event settings now random event n) as [[] n'']; [|done].
  rewrite IH; [done|]. intros ? ? ? ?. apply Hl. by right.
Qed.

Lemma persist_payment_keeps id p :
  pay_id p ≠ id → db_keeps (λ t, pk_find pr_id id (payments t)) (persist_payment p).
Proof.
  intros Hne. apply db_execute_keeps. intros t t' [= <-]. simpl.
  by rewrite (pk_find_upsert pr_id id (row_of_payment p)), decide_False.
Qed.

(** [C36] A claimed payment is recorded under its new id with the amount received, for an
    invoice as succeeded and for a spontaneous payment as pending, and no later event ever
    changes that record: a spontaneous payment that was received stays pending. *)
Theorem claimed_payment_record now random hash purpose amount later n :
  online (database n) → (∀ e, e ∈ later → e.1.2 ≠ random) →
  let n' := snd (process_events ((now, random, PaymentClaimed hash purpose amount) :: later) n) in
  ∃ row, pk_find pr_id random (payments (tables (database n'))) = Some row ∧
    pr_hash row = Some hash ∧ pr_amount row = as_i64 amount ∧ pr_direction row = Inbound ∧
    pr_status row = match purpose with
                    | InvoicePayment _ _ => Succeeded
                    | SpontaneousPayment _ => Pending
                    end.
Proof.
  intros Hon Hlater. simpl. set (p := claimed_payment random now hash purpose amount).
  exists (row_of_payment p). split; [|by destruct purpose].
  assert (pay_id p = random) as Hid by (unfold p; by destruct purpose).
  set (g t := pk_find pr_id random (payments t)).
  unfold process_event. simpl. unfold handle_PaymentClaimed, cmd_map_err, in_db. fold p.
  rewrite persist_payment_run by done. simpl.
  match goal with |- context [process_events later ?n1] =>
    change (in_tables g (snd (process_events later n1)) = Some (row_of_payment p));
    rewrite (process_events_keep (in_tables g) later n1) end.
  - unfold in_tables, g. simpl. rewrite <- Hid. apply find_persisted.
  - intros now' random' event Hin. apply event_keeps; try done.
    intros hash' purpose' amount' _. apply persist_payment_keeps.
    assert (random' ≠ random) by apply (Hlater _ Hin). by destruct purpose'.
Qed.

(** ** Forwarded payments *)

(** What an event says about a forward. *)
Definition forward_of (now : Z) (uuid : bytes) (event : Event) : option Forward :=
  match event with
  | PaymentForwarded (Some inbound) (Some outbound) (Some fee) _ (Some amount) =>
      Some (forward_success uuid now inbound outbound amount fee)
  | HTLCHandlingFailed inbound d => Some (forward_failure uuid now inbound d)
  | _ => None
  end.
Definition forwards_of (l : list (Z * bytes * Event)) : list Forward :=
  omap (λ '(now, uuid, event), forward_of now uuid event) l.

Lemma event_spawns now random event n :
  fst (process_event settings now random event n) = true →
  spawned (snd (process_event settings now random event n)) =
    spawned n ++ (persist_forward <$> option_list (forward_of now random event)).
Proof.
  intros Hgo. rewrite process_event_snd.
  assert (∀ m : nodem (), keeps spawned m → spawned (snd (m n)) = spawned n ++ []) as Hnone
    by (intros m Hm; by rewrite Hm, app_nil_r).
  destruct event; simpl; try (apply (Hnone (cmd_ret ())); apply keeps_ret);
    try (apply (Hnone (cmd_panic _)); apply keeps_panic).
  all: try (apply Hnone;
    unfold handle_FundingGenerationReady, handle_ChannelPending, handle_ChannelReady,
    broadcast_node_announcement_from_settings, handle_ChannelClosed, handle_DiscardFunding,
    handle_PaymentClaimable, handle_PaymentClaimed, handle_PaymentSent, handle_PaymentFailed,
    handle_PaymentPathFailed, 
    handle_SpendableOutputs, persist_outputs, handle_HTLCIntercepted; solve_keeps; fail).
  - revert Hgo. unfold process_event. simpl.
    unfold handle_PaymentForwarded, cmd_bind, logged, in_world, spawn_write.
    destruct next_channel_id as [next|]; simpl; [destruct (lsps_payment_forwarded _ _) as [[] w]|];
      simpl; try done; intros _; destruct prev_channel_id, outbound_amount_forwarded_msat,
      fee_earned_msat; simpl; by rewrite ?app_nil_r.
  - revert Hgo. unfold process_event. simpl.
    unfold handle_HTLCHandlingFailed, cmd_bind, logged, in_world, spawn_write.
    by destruct (lsps_htlc_handling_failed _ _) as [[] w].
Qed.

Lemma events_spawn l : ∀ n n',
  process_events l n = (true, n') → spawned n' = spawned n ++ (persist_forward <$> forwards_of l).
Proof.
  induction l as [|[[now random] event] l IH]; intros n n' Hl; simpl in *.
  { injection Hl as <-. by rewrite app_nil_r. }
  pose proof (event_spawns now random event n) as Hs.
  destruct (process_event settings now random event n) as [[] n1]; [|done].
  simpl in Hs. rewrite (IH _ _ Hl), (Hs eq_refl). simpl. rewrite <- app_assoc. f_equal.
  unfold forwards_of. simpl. by destruct (forward_of now random event).
Qed.

(** The spawned writes run one after the other. *)
Definition run_writes (ts : list (ldkm ())) (c : conn ldk_tables) : conn ldk_tables :=
  fold_left (λ c m, snd (m c)) ts c.

Lemma persist_new_forward f c :
  online c → fw_id f ∉ fr_id <$> forwards (tables c) →
  persist_forward f c =
    (Ok (), set_tables (set_forwards (forwards (tables c) ++ [row_of_forward f]) (tables c)) c).
Proof.
  intros Hon Hnew. unfold persist_forward. erewrite db_execute_run by done. do 3 f_equal.
  unfold upsert, upsert_with. destruct (existsb _ _) eqn:He; [|done].
  by apply existsb_has_key in He.
Qed.

Lemma run_forwards fs : ∀ c,
  online c → NoDup ((fw_id <$> fs) ++ (fr_id <$> forwards (tables c))) →
  let c' := run_writes (persist_forward <$> fs) c in
  online c' ∧ forwards (tables c') = forwards (tables c) ++ (row_of_forward <$> fs).
Proof.
  induction fs as [|f fs IH]; intros c Hon Hnd; [by rewrite app_nil_r|].
  change (run_writes (persist_forward <$> f :: fs) c)
    with (run_writes (persist_forward <$> fs) (snd (persist_forward f c))).
  rewrite fmap_cons in Hnd. simpl in Hnd. apply NoDup_cons in Hnd as [Hni Hnd].
  rewrite persist_new_forward; [|done|set_solver]. simpl.
  match goal with |- context [run_writes _ ?c1] => destruct (IH c1) as [Hon' Hf] end; [done|..].
  - simpl. rewrite fmap_app. simpl. rewrite app_assoc.
    rewrite <- Permutation_cons_append. by apply NoDup_cons.
  - split; [exact Hon'|]. rewrite Hf. simpl. by rewrite <- app_assoc.
Qed.

(** The forwards that succeeded. *)
Definition successes (fs : list Forward) : list Forward :=
  where_ (λ f, bool_decide (fw_status f = ForwardSucceeded)) fs.
Definition total (g : Forward → option Z) (fs : list Forward) : Z :=
  foldr (λ f acc, default 0 (g f) + acc) 0 (successes fs).

Lemma total_cons g f fs :
  total g (f :: fs) = (if bool_decide (fw_status f = ForwardSucceeded) then default 0 (g f) else 0)
                      + total g fs.
Proof. unfold total, successes, where_. simpl. by case_bool_decide. Qed.

Lemma total_perm g fs fs' : fs ≡ₚ fs' → total g fs = total g fs'.
Proof. induction 1; rewrite ?total_cons; lia. Qed.

Lemma successes_perm fs fs' : fs ≡ₚ fs' → length (successes fs) = length (successes fs').
Proof.
  unfold successes, where_. induction 1; simpl; repeat case_bool_decide; simpl; congruence.
Qed.

Lemma total_nonneg g fs : (∀ f, f ∈ fs → 0 ≤ default 0 (g f)) → 0 ≤ total g fs.
Proof.
  induction fs as [|f fs IH]; intros Hf; [done|]. rewrite total_cons.
  assert (0 ≤ default 0 (g f)) by (apply Hf; by left).
  assert (0 ≤ total g fs) by (apply IH; intros; apply Hf; by right). case_bool_decide; lia.
Qed.

Lemma sql_sum_total (col : forward_row → option Z) g fs :
  (∀ f, col (row_of_forward f) = as_i64 <$> g f) →
  (∀ f, f ∈ fs → 0 ≤ default 0 (g f)) → total g fs < 2 ^ 63 →
  sql_sum (col <$> where_ (λ r, bool_decide (fr_status r = ForwardSucceeded)) (row_of_forward <$> fs))
    = total g fs.
Proof.
  intros Hcol. induction fs as [|f fs IH]; intros Hf Ht; [done|]. rewrite total_cons in *.
  assert (0 ≤ default 0 (g f)) as Hpos by (apply Hf; by left).
  assert (∀ f, f ∈ fs → 0 ≤ default 0 (g f)) as Hf' by (intros; apply Hf; by right).
  pose proof (total_nonneg g fs Hf') as Hnn. unfold where_ in *. rewrite fmap_cons. simpl.
  change (fr_status (row_of_forward f)) with (fw_status f).
  case_bool_decide; [|by apply IH].
  rewrite fmap_cons. simpl. rewrite IH by (done || lia). f_equal. rewrite Hcol.
  destruct (g f) as [z|]; [|done]. simpl in *. apply wrap_signed_id; [|lia].
  unfold in_signed. lia.
Qed.

Lemma where_rows fs :
  length (where_ (λ r, bool_decide (fr_status r = ForwardSucceeded)) (row_of_forward <$> fs))
    = length (successes fs).
Proof.
  induction fs as [|f fs IH]; [done|]. unfold successes, where_ in *. rewrite fmap_cons. simpl.
  change (fr_status (row_of_forward f)) with (fw_status f). case_bool_decide; simpl; by rewrite IH.
Qed.

(** [C29] Whatever events were handled, and in whatever order the spawned writes ran: the totals
    that [fetch_total_forwards] reports are the number of forwards that LDK reported complete,
    the sum of the amounts it sent on and the sum of the fees it earned. HTLCs that failed do
    not count. *)
Theorem forwards_are_totalled l n n' ts :
  process_events l n = (true, n') → spawned n = [] → forwards (tables (database n')) = [] →
  online (database n') → ts ≡ₚ spawned n' →
  let fs := forwards_of l in
  NoDup (fw_id <$> fs) →
  (∀ f, f ∈ fs → 0 ≤ default 0 (fw_amount f) ∧ 0 ≤ default 0 (fw_fee f)) →
  total fw_amount fs < 2 ^ 63 → total fw_fee fs < 2 ^ 63 →
  Z.of_nat (length (successes fs)) < 2 ^ 63 →
  fst (fetch_total_forwards (run_writes ts (database n'))) =
    Ok (mk_total (Z.of_nat (length (successes fs))) (total fw_amount fs) (total fw_fee fs)).
Proof.
  intros Hl Hsp Hfw Hon Hts fs Hnd Hpos Ha Hfee Hlen.
  rewrite (events_spawn _ _ _ Hl), Hsp in Hts. simpl in Hts.
  apply Permutation_map_inv in Hts as (fs' & -> & Hp). fold fs in Hp.
  change (map persist_forward fs') with (persist_forward <$> fs').
  destruct (run_forwards fs' (database n')) as [Hon' Hrows]; [done| |].
  { rewrite Hfw, app_nil_r. by rewrite <- Hp. }
  rewrite Hfw in Hrows. simpl in Hrows.
  assert (∀ f, f ∈ fs' → 0 ≤ default 0 (fw_amount f) ∧ 0 ≤ default 0 (fw_fee f)) as Hpos'
    by (intros f Hf; apply Hpos; by rewrite Hp).
  assert (∀ f, f ∈ fs' → 0 ≤ default 0 (fw_amount f)) as Hpa by (intros f Hf; by apply Hpos').
  assert (∀ f, f ∈ fs' → 0 ≤ default 0 (fw_fee f)) as Hpf by (intros f Hf; by apply Hpos').
  pose proof (total_nonneg _ _ Hpa). pose proof (total_nonneg _ _ Hpf).
  rewrite !(total_perm _ _ _ Hp), (successes_perm _ _ Hp) in *.
  unfold fetch_total_forwards, cmd_map_err.
  erewrite statement_online; [|exact Hon'|].
  2:{ cbv beta zeta. rewrite Hrows.
      rewrite (sql_sum_total fr_amount fw_amount), (sql_sum_total fr_fee fw_fee), where_rows by done.
      unfold cast_int. rewrite !bool_decide_eq_true_2 by (unfold in_signed; lia). reflexivity. }
  simpl. unfold total_forwards_from. by rewrite !wrap_unsigned_id by (unfold in_unsigned; lia).
Qed.

(** ** Outputs that are swept *)

Definition output_flag (o : SpendableOutputDescriptor) (n : node) : option bool :=
  let '(txid, index, _) := descriptor_parts o in
  ou_is_spent <$> pk_find output_key (txid, as_i16 index) (spendable_outputs (tables (database n))).

Lemma persist_output_run now o cid b c data :
  online c → descriptor_write o = Ok data →
  let '(txid, index, _) := descriptor_parts o in
  ∃ c', persist_spendable_output now o cid b c = (Ok (), c') ∧ online c' ∧
    ∀ k, ou_is_spent <$> pk_find output_key k (spendable_outputs (tables c')) =
      if decide (k = (txid, as_i16 index)) then Some b
      else ou_is_spent <$> pk_find output_key k (spendable_outputs (tables c)).
Proof.
  intros Hon Hw. unfold persist_spendable_output.
  destruct (descriptor_parts o) as [[txid index] value]. rewrite (cmd_bind_lift _ _ data)
    by by rewrite Hw. cbv zeta.
  set (r := mk_output txid (as_i16 index) (as_i64 value) cid data b now).
  change (txid, as_i16 index) with (output_key r).
  assert (∀ upd, (∀ x, output_key (upd x) = output_key x) → (∀ x, ou_is_spent (upd x) = b) →
    ∀ k l, ou_is_spent <$> pk_find output_key k (upsert_with (has_key output_key (output_key r)) upd r l)
      = if decide (k = output_key r) then Some b else ou_is_spent <$> pk_find output_key k l) as Hup.
  { intros upd Hk Hs k l. case_decide as Hd.
    - subst k. rewrite pk_find_upsert_with_eq by (intros x Hx; by rewrite Hk). simpl.
      f_equal. by destruct (pk_find _ _ _).
    - by rewrite pk_find_upsert_with_ne by (done || intros x Hx; by rewrite Hk). }
  destruct cid; (erewrite db_execute_run by done; eexists; split; [done|]; split; [exact Hon|]);
    intros k; simpl; by apply Hup.
Qed.

(** Descriptors are written to memory, which does not fail. *)
Definition writable (o : SpendableOutputDescriptor) : Prop := ∃ data, descriptor_write o = Ok data.

Lemma persist_output_dead now o cid b : stays_dead (persist_spendable_output now o cid b).
Proof.
  unfold persist_spendable_output. destruct (descriptor_parts o) as [[txid index] value].
  apply dead_bind; [apply dead_lift|]. intros data. cbv zeta.
  destruct cid; apply dead_map_err, dead_statement.
Qed.

(** A write that fails is logged. *)
Lemma persist_output_logged now o cid b n : writable o →
  ∃ c', logged (in_db (persist_spendable_output now o cid b)) n = (Ok (), set_database c' n) ∧
    c' = snd (persist_spendable_output now o cid b (database n)).
Proof.
  intros [data Hw]. exists (snd (persist_spendable_output now o cid b (database n))). split; [|done].
  unfold logged, in_db. destruct (persist_spendable_output now o cid b (database n)) as [r c'] eqn:Hr.
  destruct r as [[]|e|w]; [done..|]. exfalso. revert Hr. unfold persist_spendable_output.
  destruct (descriptor_parts o) as [[txid index] value]. rewrite (cmd_bind_lift _ _ data)
    by by rewrite Hw. cbv zeta. unfold db_execute, cmd_map_err, execute, statement.
  destruct cid, (faults (database n)) as [|[e|] fs], (aborted (database n)); done.
Qed.

Lemma persist_outputs_run now cid b outs : ∀ n, (∀ o, o ∈ outs → writable o) →
  ∃ c', persist_outputs now cid b outs n = (Ok (), set_database c' n) ∧
    (online (database n) → online c' ∧
       ∀ o, o ∈ outs ∨ output_flag o n = Some b → output_flag o (set_database c' n) = Some b) ∧
    (dead (database n) → dead c' ∧ tables c' = tables (database n)).
Proof.
  induction outs as [|o outs IH]; intros n Hwr.
  { exists (database n). split; [by destruct n|]. split; [|done]. intros Hon. split; [done|].
    intros o [?%elem_of_nil|Ho]; [done|]. by destruct n. }
  assert (writable o) as Ho by (apply Hwr; by left).
  destruct (persist_output_logged now o cid b n Ho) as (c1 & Hlog & Hc1).
  destruct (IH (set_database c1 n)) as (c' & Hrest & Hon' & Hdead); [intros; apply Hwr; by right|].
  exists c'. split; [|split].
  - unfold persist_outputs in *. simpl. unfold cmd_bind at 1. rewrite Hlog. exact Hrest.
  - intros Hon. destruct Ho as [data Hw].
    pose proof (persist_output_run now o cid b (database n) data Hon Hw) as Hrun.
    destruct (descriptor_parts o) as [[txid index] value] eqn:Hparts.
    destruct Hrun as (c2 & Hrun & Hon1 & Hk). rewrite Hrun in Hc1. simpl in Hc1. subst c2.
    destruct (Hon' Hon1) as [Hon2 Hall]. split; [exact Hon2|]. intros o' Ho'. apply Hall.
    assert (o' = o ∨ output_flag o' n = Some b → output_flag o' (set_database c1 n) = Some b) as Hfl.
    { intros Hcase. unfold output_flag in *. simpl.
      destruct (descriptor_parts o') as [[txid' index'] value'] eqn:Hparts'. rewrite Hk.
      case_decide; [done|]. destruct Hcase as [->|Hcase]; [|done]. rewrite Hparts in Hparts'.
      by simplify_eq. }
    rewrite elem_of_cons in Ho'. naive_solver.
  - intros Hd. destruct (persist_output_dead now o cid b (database n) Hd) as [Hd1 Ht1].
    rewrite <- Hc1 in Hd1, Ht1. destruct (Hdead Hd1) as [Hd2 Ht2]. split; [done|]. by rewrite Ht2.
Qed.

(** Between the two records: the transaction and its broadcast. *)
Definition sweep_transaction (outs : list SpendableOutputDescriptor) (n : node) (tx : Transaction) : Prop :=
  ∃ addr lock, fst (new_internal_address (node_wallet n)) = Ok addr ∧
    spend_spendable_outputs (world n) outs (script_of addr)
      (get_est_sat_per_1000_weight (priorities (bitcoind_client (node_wallet n))) OnChainSweep)
      lock = Some tx.

(** [C39] Outputs LDK hands back, with descriptors that can be written (to memory: [writable]).
    Whatever becomes of the records, the sweep either succeeds, and broadcasts one transaction
    built from exactly these outputs, paying to a new address of the wallet; or a step fails (no address, no answer from bitcoind, LDK cannot build the
    transaction), and nothing is broadcast and nothing tries again. On a working connection the
    outputs are recorded as spent in the first case and as not spent in the second. A write that
    fails is only logged: in an aborted batch of the shared session, no output is recorded at
    all, although the transaction may go out. *)
Theorem sweep_is_recorded now outs cid n r n' :
  (∀ o, o ∈ outs → writable o) → handle_SpendableOutputs now outs cid n = (r, n') →
  let sent n := broadcast (bitcoind_client (node_wallet n)) in
  ((r = Ok () ∧ ∃ tx, sweep_transaction outs n tx ∧ sent n' = sent n ++ [tx]) ∨
   (r ≠ Ok () ∧ sent n' = sent n)) ∧
  (online (database n) → ∀ o, o ∈ outs →
     output_flag o n' = Some (match r with Ok _ => true | _ => false end)) ∧
  (dead (database n) → tables (database n') = tables (database n)).
Proof.
  intros Hwr. unfold handle_SpendableOutputs, cmd_bind at 1.
  destruct (persist_outputs_run now cid false outs n Hwr) as (c1 & -> & Hon1 & Hdead1).
  set (n1 := set_database c1 n).
  assert (∀ w r' w', new_internal_address w = (r', w') → bitcoind_client w' = bitcoind_client w)
    as Haddr.
  { intros w r' w'. unfold new_internal_address, lock_unwrap, locked, in_bdk, cmd_panic.
    destruct (wallet_lock w); [| |by intros [= <- <-]];
      destruct (last_unused_internal (bdk w)) as [[]]; by intros [= <- <-]. }
  unfold cmd_bind, in_wallet, ask_client, ask_world, ask, cmd_lift.
  destruct (new_internal_address (node_wallet n1)) as [ra w1] eqn:Ha.
  pose proof (Haddr _ _ _ Ha) as Hb. change (node_wallet n1) with (node_wallet n) in *.
  assert (∀ (r0 : result error ()) w, match r0 with Ok _ => False | _ => True end →
    bitcoind_client w = bitcoind_client (node_wallet n) →
    let sent n := broadcast (bitcoind_client (node_wallet n)) in
    ((r0 = Ok () ∧ ∃ tx, sweep_transaction outs n tx ∧ sent (set_wallet w n1) = sent n ++ [tx]) ∨
     (r0 ≠ Ok () ∧ sent (set_wallet w n1) = sent n)) ∧
    (online (database n) → ∀ o, o ∈ outs → output_flag o (set_wallet w n1) =
       Some (match r0 with Ok _ => true | _ => false end)) ∧
    (dead (database n) → tables (database (set_wallet w n1)) = tables (database n))) as Hfail.
  { intros r0 w Hr0 Hw. split; [right; split; [by intros ->|simpl; by rewrite Hw]|]. split.
    - intros Hon o Ho. destruct r0; [done|..]; apply (Hon1 Hon); by left.
    - intros Hd. by apply Hdead1. }
  destruct ra as [addr|e|m]; simpl; [|intros [= <- <-]; by apply Hfail..].
  destruct (blockchain_info (bitcoind_client w1)) as [info|e|m]; simpl;
    [|intros [= <- <-]; by apply Hfail..].
  destruct (locktime_from_height (as_u32 (blocks info))) as [lock|e|m]; simpl;
    [|intros [= <- <-]; by apply Hfail..].
  destruct (spend_spendable_outputs _ _ _ _ _) as [tx|] eqn:Htx; simpl;
    [|intros [= <- <-]; by apply Hfail].
  set (n2 := set_wallet (set_client (broadcast_transactions [tx] (bitcoind_client w1)) w1) n1).
  destruct (persist_outputs_run now cid true outs n2 Hwr) as (c2 & Hrun & Hon2 & Hdead2).
  intros Hr. pose proof (eq_trans (eq_sym Hr) Hrun) as [= -> ->].
  split; [left; split; [done|]|split].
  - exists tx. split; [|simpl; by rewrite Hb]. exists addr, lock. rewrite Ha, <- Hb. done.
  - intros Hon o Ho. apply (Hon2 (proj1 (Hon1 Hon))). by left.
  - intros Hd. destruct (Hdead1 Hd) as [Hd1 Ht1]. destruct (Hdead2 Hd1) as [_ Ht2]. simpl.
    by rewrite Ht2.
Qed.

(** ** The node announcement *)

(** A channel becomes ready: the channel is stored, or closed in the database when LDK does
    not list it, and if that works the node announces itself. The alias of the settings is
    copied into 32 bytes, so with a longer alias the handler panics and the task that handles
    events ends: no event is handled after the first channel that becomes ready. *)
Theorem channel_ready_needs_a_short_alias now random channel_id id peer n :
  online (database n) → (∀ w m, fst (lsps_channel_ready w id channel_id peer) ≠ Panic m) →
  let '(goes_on, n') := process_event settings now random (ChannelReady channel_id id peer) n in
  goes_on = bool_decide (length (String.list_byte_of_string (node_alias settings)) ≤ 32)%nat ∧
  let w := if bool_decide (id > jit_threshold)
           then snd (lsps_channel_ready (world n) id channel_id peer) else world n in
  tables (database n') =
    tables (snd (match find_channel channel_id w with
                 | Some d => persist_channel now d (database n)
                 | None => LdkDatabase.close_channel now channel_id
                             "Channel detail missing when receiving ChannelReady" (database n)
                 end)).
Proof.
  intros Hon Hnp. unfold process_event. simpl.
  set (w := if bool_decide (id > jit_threshold)
            then snd (lsps_channel_ready (world n) id channel_id peer) else world n).
  unfold handle_ChannelReady.
  rewrite (cmd_bind_ok _ _ n () (set_world w n)).
  2:{ unfold w. case_bool_decide; [|by destruct n]. unfold logged, in_world.
      specialize (Hnp (world n)). destruct (lsps_channel_ready _ _ _ _) as [[|e|msg] w1]; try done.
      by destruct (Hnp msg). }
  rewrite (cmd_bind_ok _ _ _ (find_channel channel_id w) (set_world w n)) by done.
  set (m := match find_channel channel_id w with
            | Some d => persist_channel now d
            | None => LdkDatabase.close_channel now channel_id
                        "Channel detail missing when receiving ChannelReady"
            end).
  assert (∃ t, m (database n) = (Ok (), set_tables t (database n))) as [t Ht].
  { unfold m. destruct (find_channel _ _) as [d|]; [|eexists; by apply db_execute_run].
    unfold persist_channel. destruct (cd_short_channel_id d); eexists; by apply db_execute_run. }
  assert (snd (match find_channel channel_id w with
               | Some d => persist_channel now d (database n)
               | None => LdkDatabase.close_channel now channel_id
                           "Channel detail missing when receiving ChannelReady" (database n)
               end) = set_tables t (database n)) as Hw
    by (unfold m in Ht; destruct (find_channel channel_id w); by rewrite Ht).
  rewrite Hw.
  rewrite (cmd_bind_ok _ _ _ () (set_database (set_tables t (database n)) (set_world w n))).
  2:{ unfold m in Ht. destruct (find_channel channel_id w); unfold in_db; simpl; by rewrite Ht. }
  unfold broadcast_node_announcement_from_settings, alias_bytes, cmd_bind, cmd_lift.
  by case_bool_decide.
Qed.

(** ** Just-in-time channels *)

(** The ids that [open_channel] gives a channel and those given to just-in-time channels
    are disjoint ranges of 64-bit numbers. [ChannelReady] tells the liquidity service about a
    channel exactly when its id is above the threshold: never for the first kind, and for the
    second kind always but for the id equal to the threshold, which random values 0 and 1
    give. *)
Theorem jit_channel_ids random random' size :
  u64 random → u64 random' →
  random / 2 < jit_threshold ∧
  match lsps_buy_request random' size with
  | InvoiceParameters _ _ id =>
      jit_threshold ≤ id < 2 ^ 64 ∧ (id > jit_threshold ↔ 2 ≤ random') ∧
      (size = None ∨ ∃ s, size = Some s ∧ s ≤ 1000001)
  | answer => answer = NoAnswer ∧ ∃ s, size = Some s ∧ 1000001 < s
  end.
Proof.
  intros Hr Hr'. unfold in_unsigned, jit_threshold in *.
  assert (random / 2 < 9223372036854775808) by (apply Z.div_lt_upper_bound; lia).
  split; [done|]. unfold lsps_buy_request, option_le, jit_threshold.
  assert (0 ≤ random' / 2 < 9223372036854775808)
    by (split; [apply Z.div_pos; lia|apply Z.div_lt_upper_bound; lia]).
  assert (0 < random' / 2 ↔ 2 ≤ random').
  { pose proof (Z.div_mod random' 2). pose proof (Z.mod_pos_bound random' 2). lia. }
  destruct size as [s|]; [case_bool_decide|]; simpl.
  - split; [lia|]. split; [lia|]. right. by exists s.
  - split; [done|]. exists s. split; [done|lia].
  - split; [lia|]. split; [lia|]. by left.
Qed.
End Events.

(** ** Instances of the properties *)

Section Instances.
#[local] Existing Instance insertion_order.
#[local] Existing Instance insertion_order_laws.
#[local] Existing Instance example_ldk.
#[local] Existing Instance example_ldk_laws.
#[local] Existing Instance example_rate.
#[local] Existing Instance example_bdk.
#[local] Existing Instance example_builder.
#[local] Existing Instance example_lightning.
#[local] Existing Instance example_descriptors.

Definition peer : @PublicKey example_ldk := true.
Definition script : @Script example_rate example_bdk := Bitcoin.
Definition destination : @HTLCDestination example_ldk := true.

Definition opening_node : node := snd (insert_funding 12 Urgent example_node).

Lemma funding_request_is_answered_witness :
  funding_answered 12 0 (Value (Ok (3%nat : @Transaction example_rate example_bdk)))
    (snd (handle_FundingGenerationReady 5 (id_bytes false) peer 1000 script (2 ^ 64 + 12)
            opening_node)).
Proof.
  assert (senders_wf (funding_transactions opening_node)) as Hwf
    by exact (insert_wf 12 Urgent new_senders new_senders_wf).
  exact (proj2 (proj2 (funding_request_is_answered 5 (id_bytes false) peer 1000 script
                         (2 ^ 64 + 12) opening_node Hwf))).
Defined.

Lemma claimed_payment_record_witness :
  ∃ row, pk_find pr_id example_id (payments (tables (database (snd (process_events example_settings
      [(4, example_id, PaymentClaimed (id_bytes true) (SpontaneousPayment (id_bytes false)) 700);
       (5, id_bytes false, ChannelReady (id_bytes true) 12 peer)] example_node))))) = Some row ∧
    pr_status row = Pending.
Proof.
  destruct (claimed_payment_record example_settings 4 example_id (id_bytes true)
    (SpontaneousPayment (id_bytes false)) 700 [(5, id_bytes false, ChannelReady (id_bytes true) 12 peer)]
    example_node (conj eq_refl eq_refl)) as (row & Hrow & _ & _ & _ & Hs).
  - intros e He. apply list_elem_of_singleton in He as ->. discriminate.
  - exists row. split; [exact Hrow|exact Hs].
Defined.

Definition forward_events : list (Z * bytes * Event) :=
  [(1, id_bytes false, PaymentForwarded (Some (id_bytes false)) (Some (id_bytes true)) (Some 7)
                         false (Some 1000));
   (2, id_bytes true, HTLCHandlingFailed (id_bytes false) destination)].

Lemma forwards_are_totalled_witness :
  let n' := snd (process_events example_settings forward_events example_node) in
  fst (fetch_total_forwards (run_writes (rev (spawned n')) (database n'))) = Ok (mk_total 1 1000 7).
Proof.
  refine (forwards_are_totalled example_settings forward_events example_node _ _ eq_refl eq_refl
            eq_refl (conj eq_refl eq_refl) _ _ _ _ _ _).
  - apply Permutation_sym, Permutation_rev.
  - apply (bool_decide_unpack _). reflexivity.
  - intros f Hf. simpl in Hf. rewrite !elem_of_cons in Hf.
    destruct Hf as [->|[->|Hf]]; [simpl; lia..|by apply elem_of_nil in Hf].
  - reflexivity.
  - reflexivity.
  - reflexivity.
Defined.

Definition example_output : SpendableOutputDescriptor := StaticOutput (id_bytes true) 40000 9 (false : @DescriptorRest example_ldk).

Lemma sweep_is_recorded_witness :
  output_flag example_output (snd (handle_SpendableOutputs 6 [example_output] None example_node))
    = Some true.
Proof.
  refine (proj1 (proj2 (sweep_is_recorded 6 [example_output] None example_node (Ok ())
      (snd (handle_SpendableOutputs 6 [example_output] None example_node)) _ eq_refl))
    (conj eq_refl eq_refl) example_output _).
  - intros o _. exists [x01]. reflexivity.
  - by left.
Defined.

Lemma channel_ready_needs_a_short_alias_witness :
  fst (process_event (mk_settings example_ldk "a name with more than thirty-two letters" "" [] Bitcoin)
         8 [x00] (ChannelReady (id_bytes true) 12 peer) example_node) = false.
Proof.
  refine (proj1 (channel_ready_needs_a_short_alias
    (mk_settings example_ldk "a name with more than thirty-two letters" "" [] Bitcoin)
    8 [x00] (id_bytes true) 12 peer example_node (conj eq_refl eq_refl) _)).
  intros w m. discriminate.
Defined.

Lemma jit_channel_ids_witness :
  lsps_buy_request 1 None = InvoiceParameters 9 true jit_threshold ∧ 18446744073709551615 / 2 < jit_threshold.
Proof.
  split; [reflexivity|]. apply (jit_channel_ids 18446744073709551615 1 None); split; lia.
Defined.
End Instances.
