(* ===== verification/Auth.v ===== *)
(** * Macaroons and routes (src/kld/src/api/macaroon_auth.rs, routes.rs, mod.rs)

    Every route of the REST API asks for a macaroon with a role, [readonly] or [admin]. Two
    macaroons are minted when the node starts; their holders can add caveats. The [macaroon]
    crate is the class [Macaroons] with its documented behaviour [MacaroonLaws]. *)

From S2P Require Import Prelude RustStd.

(** ** Roles *)

Definition bar : Ascii.ascii := Ascii.ascii_of_N 124.

Definition verify_role (caveat expected_role : string) : bool :=
  match strip_prefix "roles = " caveat with
  | None => false
  | Some roles =>
      if from_utf8_ok caveat
      then existsb (λ r, bool_decide (r = expected_role)) (split_char bar roles)
      else false
  end.

(** ** Macaroons *)

Class Macaroons := {
  Macaroon : Type;
  MacaroonKey : Type;
  mac_create : MacaroonKey → string → Macaroon;
  mac_add_first_party_caveat : Macaroon → string → Macaroon;
  (** [Verifier::verify] with one [satisfy_general] and no discharge macaroons. *)
  mac_verify : Macaroon → MacaroonKey → (string → bool) → bool;
  mac_deserialize : string → option Macaroon;
  mac_deserialize_hex : string → option Macaroon;
}.

(** The caveats of a macaroon are all checked; adding one keeps the others. *)
Class MacaroonLaws `{Macaroons} := {
  verify_create k id f : mac_verify (mac_create k id) k f = true;
  verify_add m c k f :
    mac_verify (mac_add_first_party_caveat m c) k f = mac_verify m k f && f c;
}.

Section Auth.
Context `{Macaroons}.

Definition verify_admin_macaroon (key : MacaroonKey) (m : Macaroon) : bool :=
  mac_verify m key (λ caveat, verify_role caveat "admin").
Definition verify_readonly_macaroon (key : MacaroonKey) (m : Macaroon) : bool :=
  mac_verify m key (λ caveat, verify_role caveat "readonly").

Definition admin_macaroon (key : MacaroonKey) : Macaroon :=
  mac_add_first_party_caveat (mac_create key "admin") "roles = admin|readonly".
Definition readonly_macaroon (key : MacaroonKey) : Macaroon :=
  mac_add_first_party_caveat (mac_create key "readonly") "roles = readonly".

(** The headers of a request: absent, or a value that may not be visible ASCII. *)
Definition headers : Type := string → option (option string).

(** [KldMacaroon::from_request_parts]: the text of the macaroon, base64 or hex. *)
Definition from_request_parts (h : headers) : result string Macaroon :=
  let unable := "Unable to deserialize macaroon"%string in
  let? value :=
    match h "sec-websocket-protocol" with
    | Some value =>
        let? value := ok_or unable value in
        Ok (match split_once (Ascii.ascii_of_N 44) value with
            | Some (v, _) => v
            | None => EmptyString
            end)
    | None =>
        match (match h "macaroon" with Some v => Some v | None => h "grpc-metadata-macaroon" end) with
        | Some value => ok_or unable value
        | None => Err "Missing macaroon header"%string
        end
    end in
  match mac_deserialize value with
  | Some m => Ok m
  | None => ok_or unable (mac_deserialize_hex value)
  end.

(** ** Routes *)

Inductive method := GET | POST | DELETE.
#[export] Instance method_eq_dec : EqDecision method.
Proof. solve_decision. Defined.
Inductive access := Readonly | Admin.

(** The layer around a group of routes: [readonly_auth] or [admin_auth]. *)
Definition authorized (key : MacaroonKey) (a : access) (m : Macaroon) : bool :=
  match a with
  | Readonly => verify_readonly_macaroon key m
  | Admin => verify_admin_macaroon key m
  end.

Definition readonly_routes : list (string * method) := [
  ("/", GET); ("/v1/getinfo", GET); ("/v1/estimateChannelLiquidity", GET); ("/v1/getBalance", GET);
  ("/v1/listFunds", GET); ("/v1/channel/listPeerChannels", GET); ("/v1/peer/listPeers", GET);
  ("/v1/network/listNode/:id", GET); ("/v1/network/listNode", GET);
  ("/v1/network/listChannel/:id", GET); ("/v1/network/listChannel", GET);
  ("/v1/network/feeRates/:style", GET); ("/v1/invoice/listInvoices", GET);
  ("/v1/pay/listPayments", GET); ("/v1/channel/localremotebal", GET); ("/v1/getFees", GET);
  ("/v1/channel/listForwards", GET); ("/v1/channel/history", GET); ("/kld/channels", GET);
  ("/v1/utility/decode/:invoice", GET); ("/kld/scorer", GET)]%string.

Definition admin_routes : list (string * method) := [
  ("/v1/utility/signMessage", POST); ("/v1/channel/openChannel", POST);
  ("/v1/channel/setChannelFee", POST); ("/v1/channel/closeChannel/:id", DELETE);
  ("/v1/channel/closeChannel/:id/:fee_rate", DELETE);
  ("/v1/channel/forceCloseChannelWithBoradCast/:id", DELETE);
  ("/v1/channel/forceCloseChannelWithoutBoradCast/:id", DELETE); ("/v1/newaddr", GET);
  ("/v1/withdraw", POST); ("/v1/peer/connect", POST); ("/v1/peer/disconnect/:id", DELETE);
  ("/v1/pay/keysend", POST); ("/v1/invoice/genInvoice", POST); ("/v1/pay", POST);
  ("/v1/ws", GET)]%string.
End Auth.

(** ** What a macaroon allows *)

Section Properties.
Context `{ML : MacaroonLaws}.
Variable key : MacaroonKey.

(** A macaroon that somebody made out of [m] by adding caveats. *)
Inductive attenuated (m : Macaroon) : list string → Macaroon → Prop :=
| att_same : attenuated m [] m
| att_add cs m' c : attenuated m cs m' → attenuated m (cs ++ [c]) (mac_add_first_party_caveat m' c).

Lemma attenuated_verify m cs m' f :
  attenuated m cs m' → mac_verify m' key f = mac_verify m key f && forallb f cs.
Proof.
  induction 1 as [|cs m' c _ IH]; [by rewrite andb_true_r|].
  rewrite verify_add, IH, forallb_app. simpl. by rewrite andb_true_r, andb_assoc.
Qed.

(** The two macaroons and everything derived from them by adding caveats: the readonly
    macaroon opens the readonly routes and never an admin route, whatever is added; the admin
    macaroon opens both; an added caveat opens nothing that was closed, and the derived
    macaroon opens the routes of a role exactly when each added caveat is a list of roles that
    contains it. *)
Theorem macaroon_roles cs m :
  (attenuated (readonly_macaroon key) cs m →
     authorized key Admin m = false ∧
     authorized key Readonly m = forallb (λ c, verify_role c "readonly") cs) ∧
  (attenuated (admin_macaroon key) cs m →
     authorized key Admin m = forallb (λ c, verify_role c "admin") cs ∧
     authorized key Readonly m = forallb (λ c, verify_role c "readonly") cs).
Proof.
  unfold authorized, verify_admin_macaroon, verify_readonly_macaroon.
  split; intros Hm; rewrite !(attenuated_verify _ _ _ _ Hm);
    unfold readonly_macaroon, admin_macaroon; by rewrite !verify_add, !verify_create.
Qed.
End Properties.

(** ** A small instance *)

Definition example_macaroons : Macaroons := {|
  Macaroon := list string; MacaroonKey := ();
  mac_create _ _ := []; mac_add_first_party_caveat m c := m ++ [c];
  mac_verify m _ f := forallb f m;
  mac_deserialize s := if bool_decide (s = "admin"%string) then Some ["roles = admin|readonly"%string]
                       else if bool_decide (s = "readonly"%string) then Some ["roles = readonly"%string]
                       else None;
  mac_deserialize_hex _ := None;
|}.
Lemma example_macaroon_laws : @MacaroonLaws example_macaroons.
Proof. split; [done|]. intros m c k f. simpl. rewrite forallb_app. simpl. by rewrite andb_true_r. Qed.

Lemma macaroon_roles_witness :
  authorized (H:=example_macaroons) () Readonly
    (mac_add_first_party_caveat (readonly_macaroon (H:=example_macaroons) ()) "roles = x|readonly")
    = true.
Proof.
  apply (proj1 (macaroon_roles (ML:=example_macaroon_laws) () ["roles = x|readonly"%string] _)).
  apply (att_add (H:=example_macaroons) _ []). apply att_same.
Defined.
