(* ===== verification/Keys.v ===== *)
(** * The seed and the macaroons made from it

    src/kld/src/key_generator.rs, [MacaroonAuth::init] of src/kld/src/api/macaroon_auth.rs and
    [generate_mnemonic_and_macaroons] of src/mgr/src/secrets.rs: the node and the deployment
    manager each derive the key of the macaroons from the mnemonic and write the macaroons to
    files. Random words are an argument. *)

From Stdlib Require Import Ascii.
From stdpp Require Import gmap.
From S2P Require Import Prelude RustStd Files Auth.

#[local] Open Scope string_scope.

(** [bip39], [bitcoin::hashes::sha256] and the rest of the [macaroon] crate. *)
Class Seeds `{MC : Macaroons} := {
  Mnemonic : Type;
  mnemonic_parse : string → result string Mnemonic;
  mnemonic_to_string : Mnemonic → string;
  mnemonic_to_seed : Mnemonic → string → string;
  sha256 : string → string;
  macaroon_initialize : result string ();
  macaroon_key_generate : string → MacaroonKey;
  mac_serialize : Macaroon → result string string;
  url_safe_decode : string → result string string;
}.
(** What is written can be read. *)
Class SeedLaws `{Seeds} := {
  mnemonic_roundtrip m : mnemonic_parse (mnemonic_to_string m) = Ok m;
  mnemonic_utf8 m : from_utf8_ok (mnemonic_to_string m) = true;
  mac_roundtrip m text : mac_serialize m = Ok text → mac_deserialize text = Some m;
}.

Section Operations.
Context {OS : Os} {MC : Macaroons} {SD : Seeds}.

Definition lib {A} (r : result string A) : filem A := cmd_lift (map_err LibraryError r).

(** ** KeyGenerator *)

Definition KeyGenerator_init (mnemonic_path : string) (fresh : result string Mnemonic) :
    filem Mnemonic := λ s,
  match fs_read_to_string mnemonic_path s with
  | (Ok words, s) => lib (mnemonic_parse words) s
  | (Panic w, s) => (Panic w, s)
  | (Err _, s) =>
      (let* mnemonic := lib (map_err (λ _, "Mnemonic generation error") fresh) in
       let* _ := context ("Cannot write to " +:+ mnemonic_path)
                   (fs_write mnemonic_path (mnemonic_to_string mnemonic)) in
       cmd_ret mnemonic) s
  end.
Definition generate_key (m : Mnemonic) (extra_input : string) : string :=
  sha256 (mnemonic_to_seed m "" +:+ extra_input).
Definition wallet_seed (m : Mnemonic) : string := generate_key m "".
Definition lightning_seed (m : Mnemonic) : string := generate_key m "lightning/0".
Definition macaroon_seed (m : Mnemonic) : string := generate_key m "macaroon/0".
Definition promise_seed (m : Mnemonic) : string := generate_key m "promise_seed".

(** ** Macaroons as files *)

(** The three files, in the order in which they are written. *)
Definition write_macaroons (key : MacaroonKey) (access admin readonly : string)
    (create_dir : filem ()) : filem () :=
  let* base64 := lib (mac_serialize (admin_macaroon key)) in
  let* buf := lib (url_safe_decode base64) in
  let* _ := create_dir in
  let* _ := fs_write access buf in
  let* text := lib (mac_serialize (admin_macaroon key)) in
  let* _ := fs_write admin text in
  let* text := lib (mac_serialize (readonly_macaroon key)) in
  fs_write readonly text.

(** [MacaroonAuth::init], which gives the key. *)
Definition MacaroonAuth_init (seed data_dir : string) : filem MacaroonKey :=
  let* _ := lib macaroon_initialize in
  let key := macaroon_key_generate seed in
  let dir := data_dir +:+ "/macaroons" in
  let* _ := write_macaroons key (dir +:+ "/access.macaroon") (dir +:+ "/admin.macaroon")
              (dir +:+ "/readonly.macaroon") (create_dir_all dir) in
  cmd_ret key.

(** [generate_mnemonic_and_macaroons] of the deployment manager. *)
Definition generate_mnemonic_and_macaroons (secret_directory : string)
    (fresh : result string Mnemonic) : filem () :=
  let mnemonic_path := path_join secret_directory "mnemonic" in
  let* exists_ := fs_exists mnemonic_path in
  let* mnemonic := (if negb exists_ then
                      let* m := lib fresh in
                      let* _ := context ("Cannot write to " +:+ mnemonic_path)
                                  (fs_write mnemonic_path (mnemonic_to_string m)) in
                      cmd_ret m
                    else λ s,
                      match fs_read_to_string mnemonic_path s with
                      | (Ok words, s) => lib (mnemonic_parse words) s
                      | (_, s) => (Panic "mnemonic is incorrect", s)
                      end) in
  let seed := sha256 (mnemonic_to_seed mnemonic "" +:+ "macaroon/0") in
  write_macaroons (macaroon_key_generate seed) (path_join secret_directory "access.macaroon")
    (path_join secret_directory "admin.macaroon")
    (path_join secret_directory "readonly.macaroon") (cmd_ret ()).
End Operations.

(** ** The node accepts the macaroons of the manager *)

Section Theorems.
Context {OS : Os} {MC : Macaroons} {ML : MacaroonLaws} {SD : Seeds} {SL : SeedLaws}.

Lemma lib_inv {A} (r : result string A) s a s' : lib r s = (Ok a, s') → r = Ok a ∧ s' = s.
Proof. unfold lib, cmd_lift. destruct r; simpl; intros [= <- <-]; done. Qed.

Lemma fs_write_inv p c s u s' : fs_write p c s = (Ok u, s') → s' = <[p := c]> s.
Proof. unfold fs_write. destruct (write_ok s p); congruence. Qed.

Lemma fs_read_to_string_inv p s words s' :
  fs_read_to_string p s = (Ok words, s') → s' = s ∧ s !! p = Some words ∧ from_utf8_ok words = true.
Proof.
  unfold fs_read_to_string, fs_read, cmd_bind. destruct (read_ok s p); [|done].
  destruct (s !! p) as [c|]; [|done]. simpl. unfold from_utf8, cmd_lift.
  destruct (from_utf8_ok c) eqn:Hu; [|done]. simpl. by intros [= -> <-].
Qed.

Lemma fs_read_to_string_run p s words : s !! p = Some words → read_ok s p = true →
  from_utf8_ok words = true → fs_read_to_string p s = (Ok words, s).
Proof.
  intros Hs Hr Hu. unfold fs_read_to_string, fs_read, cmd_bind. rewrite Hr, Hs. simpl.
  unfold from_utf8. by rewrite Hu.
Qed.

(** The mnemonic that [KeyGenerator::init] gives is in the file, and is read from there. *)
Lemma KeyGenerator_init_inv path fresh s m s' : KeyGenerator_init path fresh s = (Ok m, s') →
  ∃ words, s' !! path = Some words ∧ from_utf8_ok words = true ∧ mnemonic_parse words = Ok m.
Proof.
  unfold KeyGenerator_init.
  destruct (fs_read_to_string path s) as [[words|e|w] s1] eqn:Hr; [| |done].
  - apply fs_read_to_string_inv in Hr as (-> & Hs & Hu). intros [Hp ->]%lib_inv. eauto.
  - intros (m' & s2 & [_ ->]%lib_inv & (u & s3 & ->%context_inv%fs_write_inv & [= <- <-])%cmd_bind_inv)%cmd_bind_inv.
    exists (mnemonic_to_string m'). rewrite lookup_insert_eq.
    split_and!; [done|apply mnemonic_utf8|apply mnemonic_roundtrip].
Qed.

Lemma KeyGenerator_init_run path fresh s words m : s !! path = Some words →
  read_ok s path = true → from_utf8_ok words = true → mnemonic_parse words = Ok m →
  KeyGenerator_init path fresh s = (Ok m, s).
Proof.
  intros Hs Hr Hu Hp. unfold KeyGenerator_init. rewrite (fs_read_to_string_run _ _ words) by done.
  unfold lib, cmd_lift. by rewrite Hp.
Qed.

(** A file with a macaroon as text. *)
Definition stored (s : FS) (p : string) (m : Macaroon) : Prop :=
  ∃ text, s !! p = Some text ∧ mac_serialize m = Ok text ∧ mac_deserialize text = Some m.

Lemma write_macaroons_inv key access admin readonly dir s u s' :
  write_macaroons key access admin readonly dir s = (Ok u, s') →
  access ≠ admin → access ≠ readonly → admin ≠ readonly → keeps_files (λ _, false) dir →
  stored s' admin (admin_macaroon key) ∧ stored s' readonly (readonly_macaroon key) ∧
  ∃ s1, dir s = (Ok (), s1) ∧
    ∀ p, p ≠ access → p ≠ admin → p ≠ readonly → s' !! p = s1 !! p.
Proof.
  intros (base64 & s1 & [Hb ->]%lib_inv & H)%cmd_bind_inv Hne1 Hne2 Hne3 Hdir.
  apply cmd_bind_inv in H as (buf & s2 & [Hbuf ->]%lib_inv & H).
  apply cmd_bind_inv in H as ([] & s3 & Hd & H).
  apply cmd_bind_inv in H as (? & s4 & ->%fs_write_inv & H).
  apply cmd_bind_inv in H as (text1 & s5 & [Ht1 ->]%lib_inv & H).
  apply cmd_bind_inv in H as (? & s6 & ->%fs_write_inv & H).
  apply cmd_bind_inv in H as (text2 & s7 & [Ht2 ->]%lib_inv & ->%fs_write_inv).
  split_and!.
  - exists text1. rewrite lookup_insert_ne, lookup_insert_eq by done. split_and!; [done..|by apply mac_roundtrip].
  - exists text2. rewrite lookup_insert_eq. split_and!; [done..|by apply mac_roundtrip].
  - exists s3. split; [done|]. intros p ???. by rewrite !lookup_insert_ne.
Qed.

(** The macaroons that the manager writes are those of the key that a node derives from the
    mnemonic. *)
Lemma manager_macaroons dir fresh s u s' :
  generate_mnemonic_and_macaroons dir fresh s = (Ok u, s') →
  ∃ words m, s' !! path_join dir "mnemonic" = Some words ∧
  (∀ node path fresh', node !! path = Some words → read_ok node path = true →
     KeyGenerator_init path fresh' node = (Ok m, node)) ∧
  let key := macaroon_key_generate (macaroon_seed m) in
  stored s' (path_join dir "admin.macaroon") (admin_macaroon key) ∧
  stored s' (path_join dir "readonly.macaroon") (readonly_macaroon key).
Proof.
  unfold generate_mnemonic_and_macaroons.
  intros (ex & s1 & Hex & (m & s2 & Hm & H)%cmd_bind_inv)%cmd_bind_inv.
  assert (∃ words, s2 !! path_join dir "mnemonic" = Some words ∧ from_utf8_ok words = true ∧
            mnemonic_parse words = Ok m) as (words & Hw & Hutf & Hparse).
  { injection Hex as Hex <-. destruct ex; simpl in Hm.
    - destruct (fs_read_to_string _ s) as [[words| |] s3] eqn:Hr; [|done..].
      apply fs_read_to_string_inv in Hr as (-> & Hs & Hu). apply lib_inv in Hm as [Hp ->].
      by exists words.
    - apply cmd_bind_inv in Hm as (m' & s3 & [_ ->]%lib_inv & Hm).
      apply cmd_bind_inv in Hm as (? & s4 & Hw%context_inv%fs_write_inv & Hm).
      injection Hm as -> <-. subst s4. exists (mnemonic_to_string m). rewrite lookup_insert_eq.
      split_and!; [done|apply mnemonic_utf8|apply mnemonic_roundtrip]. }
  assert (∀ p q, is_relative p = true → is_relative q = true → p ≠ q →
            path_join dir p ≠ path_join dir q) as Hne.
  { intros p q Hp Hq Hpq Heq. by apply path_join_inj in Heq. }
  apply write_macaroons_inv in H as (Hadmin & Hread & s3 & [= <-] & Hsame);
    [|by apply Hne..|apply leaves_ret].
  exists words, m. split; [by rewrite Hsame by by apply Hne|]. split; [|done].
  intros node path fresh' Hnode Hok. by apply (KeyGenerator_init_run _ _ _ words m).
Qed.

Lemma admin_opens key a : authorized key a (admin_macaroon key) = true.
Proof.
  destruct a; simpl; unfold verify_admin_macaroon, verify_readonly_macaroon, admin_macaroon;
    by rewrite verify_add, verify_create.
Qed.
Lemma readonly_opens key a :
  authorized key a (readonly_macaroon key) = match a with Readonly => true | Admin => false end.
Proof.
  destruct a; simpl; unfold verify_admin_macaroon, verify_readonly_macaroon, readonly_macaroon;
    by rewrite verify_add, verify_create.
Qed.

(** [C25] The manager and the node agree on the macaroons: whatever node is started later with
    the mnemonic file that [generate_mnemonic_and_macaroons] left (generated or found there)
    derives a key under which the admin macaroon that the manager wrote opens every route and
    the readonly macaroon the readonly routes only. *)
Theorem manager_macaroons_open_the_node dir fresh s u s' :
  generate_mnemonic_and_macaroons dir fresh s = (Ok u, s') →
  ∃ words, s' !! path_join dir "mnemonic" = Some words ∧
  ∀ node path fresh' m node', node !! path = Some words → read_ok node path = true →
    KeyGenerator_init path fresh' node = (Ok m, node') →
    let key := macaroon_key_generate (macaroon_seed m) in
    (∃ text a, s' !! path_join dir "admin.macaroon" = Some text ∧
       mac_deserialize text = Some a ∧
       authorized key Admin a = true ∧ authorized key Readonly a = true) ∧
    (∃ text r, s' !! path_join dir "readonly.macaroon" = Some text ∧
       mac_deserialize text = Some r ∧
       authorized key Admin r = false ∧ authorized key Readonly r = true).
Proof.
  intros (words & m & Hw & Hinit & (t1 & Ht1 & _ & Hd1) & t2 & Ht2 & _ & Hd2)%manager_macaroons.
  exists words. split; [done|]. intros node path fresh' m' node' Hnode Hok Hm'.
  rewrite Hinit in Hm' by done. injection Hm' as <- _. split.
  - exists t1. eexists. by rewrite !admin_opens.
  - exists t2. eexists. by rewrite !readonly_opens.
Qed.

(** The node takes any failure to read the mnemonic for its absence: a file that is there but
    is not UTF-8 is replaced by new words. *)
Lemma unreadable_mnemonic_is_replaced s path content m :
  s !! path = Some content → read_ok s path = true → write_ok s path = true →
  from_utf8_ok content = false →
  KeyGenerator_init path (Ok m) s = (Ok m, <[path := mnemonic_to_string m]> s).
Proof.
  intros Hs Hr Hw Hu. unfold KeyGenerator_init, fs_read_to_string, fs_read, cmd_bind.
  rewrite Hr, Hs. simpl. unfold from_utf8. rewrite Hu. simpl.
  unfold context, cmd_map_err, fs_write. by rewrite Hw.
Qed.
End Theorems.

(** ** Concrete inputs *)

Section Instances.

Definition example_seeds : Seeds (MC := example_macaroons) :=
  {| Mnemonic := bool; mnemonic_parse s := Ok (bool_decide (s = "abandon")) : result string bool;
     mnemonic_to_string (m : bool) := if m then "abandon" else "zoo";
     mnemonic_to_seed (m : bool) _ := if m then "1" else "0"; sha256 s := s;
     macaroon_initialize := Ok (); macaroon_key_generate _ := () : @MacaroonKey example_macaroons;
     mac_serialize (m : @Macaroon example_macaroons) :=
       if bool_decide (m = ["roles = admin|readonly"]) then Ok "admin"
       else if bool_decide (m = ["roles = readonly"]) then Ok "readonly" else Err "serialize";
     url_safe_decode s := Ok s |}.
#[local] Existing Instance example_os.
#[local] Existing Instance example_macaroons.
#[local] Existing Instance example_seeds.

Lemma example_seed_laws : SeedLaws.
Proof.
  split; [by intros []|by intros []|]. intros m text. simpl.
  repeat case_bool_decide; intros [= <-]; by subst.
Qed.

Definition example_files : result failure () * FS :=
  generate_mnemonic_and_macaroons "/s" (Ok (false : @Mnemonic _ example_seeds)) ∅.

Lemma example_files_ok : example_files.1 = Ok ().
Proof. vm_compute. reflexivity. Qed.

Lemma manager_macaroons_open_the_node_witness :
  ∃ words, example_files.2 !! "/s/mnemonic" = Some words.
Proof.
  destruct (manager_macaroons_open_the_node (ML := example_macaroon_laws) (SL := example_seed_laws)
    "/s" (Ok (false : @Mnemonic _ example_seeds)) ∅ () example_files.2) as (words & Hw & _).
  - rewrite <- example_files_ok. apply surjective_pairing.
  - exists words. exact Hw.
Defined.
End Instances.
