(* ===== verification/Deploy.v ===== *)
(** * What the deployment manager does with a configuration

    src/mgr/src: the certificates (certs/cockroachdb.rs, certs/lightning.rs), the keys
    (secrets.rs, ssh.rs), the steps of an installation before the hosts are touched (main.rs),
    the files that are uploaded to a host ([Host::secrets], [Secrets::new]), the flake
    (flake.rs). Programs are run through [Files.run]. *)

From Stdlib Require Import Ascii.
From stdpp Require Import gmap.
From S2P Require Import Prelude Text RustStd Patterns Files Config Auth Keys.

#[local] Open Scope string_scope.
#[local] Open Scope Z_scope.

Abbreviation newline := (of_codes [10%nat]).
Abbreviation quote := (of_codes [34%nat]).

(** [x509_parser]: the IP addresses among the alternative names of the certificates of a PEM
    file, as bytes. [toml::to_string] of a host. *)
Class DeployLib `{MT : MgrTypes} := {
  pem_ip_names : string → result string (list (list Z));
  host_to_toml : Host → result string string;
}.

Section Operations.
Context {MT : MgrTypes} {OS : Os} {DL : DeployLib} {MC : Macaroons} {SD : Seeds}.

(** ** certs/cockroachdb.rs *)

(** [p.exists() && q.exists()]. *)
Definition both_exist (p q : string) : filem bool :=
  let* first := fs_exists p in
  if first : bool then fs_exists q else cmd_ret false.

Definition cockroach (args : list string) : filem () := run_checked "cockroach" args.

Definition create_ca (certs_dir : string) : filem () :=
  let ca_key_path := path_join certs_dir "ca.key" in
  let ca_crt_path := path_join certs_dir "ca.crt" in
  let* ca_key_exists := fs_exists ca_key_path in
  let* crt_exists := if ca_key_exists : bool then fs_exists ca_crt_path else cmd_ret false in
  if ca_key_exists && crt_exists : bool then cmd_ret ()
  else
    let* _ := if ca_key_exists : bool then
        let old_key_path := path_join certs_dir "ca.key.old" in
        context ("failed to rename old ca key from " +:+ ca_key_path +:+ " to " +:+ old_key_path)
          (fs_rename ca_key_path old_key_path)
      else cmd_ret () in
    context "failed to create ca key"
      (cockroach ["cert"; "create-ca"; "--certs-dir"; certs_dir; "--ca-key"; ca_key_path;
                  "--lifetime"; "262800h"; "--overwrite"]).

Definition create_client_cert (certs_dir username : string) : filem () :=
  let client_key_path := path_join certs_dir ("client." +:+ username +:+ ".key") in
  let client_crt_path := path_join certs_dir ("client." +:+ username +:+ ".crt") in
  let* present := both_exist client_key_path client_crt_path in
  if present : bool then cmd_ret ()
  else
    context ("failed to create client cert for " +:+ username)
      (cockroach ["cert"; "create-client"; username; "--certs-dir"; certs_dir; "--ca-key";
                  path_join certs_dir "ca.key"; "--lifetime"; "262799h"; "--overwrite"]).

Definition create_node_cert (certs_dir : string) (host : Host) : filem () :=
  let node_key_path := path_join certs_dir (h_name host +:+ ".node.key") in
  let node_crt_path := path_join certs_dir (h_name host +:+ ".node.crt") in
  let* present := both_exist node_key_path node_crt_path in
  if present : bool then cmd_ret ()
  else
    let* _ := context ("failed to create node cert for " +:+ h_name host)
      (cockroach ["cert"; "create-node"; h_name host; "localhost"; "--certs-dir"; certs_dir;
                  "--ca-key"; path_join certs_dir "ca.key"; "--lifetime"; "262799h";
                  "--overwrite"]) in
    let* _ := context ("failed to rename node cert for " +:+ h_name host)
      (fs_rename (path_join certs_dir "node.crt") node_crt_path) in
    context ("failed to rename node key for " +:+ h_name host)
      (fs_rename (path_join certs_dir "node.key") node_key_path).

Definition create_cockroachdb_certs (certs_dir : string) (hosts : gmap string Host) : filem () :=
  let* _ := create_ca certs_dir in
  let* _ := create_client_cert certs_dir "root" in
  let* _ := create_client_cert certs_dir "kld" in
  cmd_forM (create_node_cert certs_dir) (btree_iter hosts).*2.

(** ** certs/lightning.rs *)

Definition openssl (args : list string) : filem () := run_checked "openssl" args.

Definition create_tls_key (ca_key_path : string) : filem () :=
  context "Failed to create TLS key"
    (openssl ["ecparam"; "-genkey"; "-name"; "secp384r1"; "-out"; ca_key_path]).

Definition create_ca_cert (ca_cert_path ca_key_path : string) : filem () :=
  let* cert_exists := fs_exists ca_cert_path in
  if negb cert_exists then
    context "Failed to create CA certificate"
      (openssl ["req"; "-new"; "-x509"; "-days"; "10950"; "-key"; ca_key_path; "-out";
                ca_cert_path; "-subj"; "/CN=Kld CA"])
  else cmd_ret ().

(** [IpAddr::from] of four or sixteen bytes; other lengths are skipped. *)
Fixpoint groups_of_bytes (l : list Z) : list Z :=
  match l with a :: b :: l => (a * 256 + b) :: groups_of_bytes l | _ => [] end.
Definition ip_of_bytes (l : list Z) : option IpAddr :=
  match l with
  | [a; b; c; d] => Some (V4 a b c d)
  | _ => if bool_decide (length l = 16)%nat then Some (V6 (groups_of_bytes l)) else None
  end.
(** A file that cannot be read has no names. *)
Definition san_from_cert (cert_path : string) : filem (list IpAddr) := λ s,
  match fs_read cert_path s with
  | (Ok data, s) => lib (let? names := pem_ip_names data in Ok (omap ip_of_bytes names)) s
  | (_, s) => (Ok [], s)
  end.

Definition has_new_ip (host : Host) (current_san : list IpAddr) (address : option IpAddr) : bool :=
  match address with
  | Some ip => negb (bool_decide (ip ∈ current_san)) &&
               negb (bool_decide (h_api_ip_access_list host = []))
  | None => false
  end.

Definition cert_conf (host : Host) : string :=
  let conf := join newline
    ["[req]"; "req_extensions = v3_req"; "distinguished_name = req_distinguished_name";
     "[req_distinguished_name]"; "[ v3_req ]"; "basicConstraints = CA:FALSE";
     "keyUsage = nonRepudiation, digitalSignature, keyEncipherment";
     "subjectAltName = @alt_names"; "[alt_names]"; "DNS.1 = localhost"; "IP.1 = 127.0.0.1";
     "IP.2 = ::1"; ""] in
  let line n ip := "IP." +:+ print_nat n +:+ " = " +:+ ip +:+ newline in
  let '(conf, n) := match h_ipv4_address host with
                    | Some ip => (conf +:+ line 3 (print_ip ip), 4) | None => (conf, 3) end in
  let '(conf, n) := match h_ipv6_address host with
                    | Some ip => (conf +:+ line n (print_ip ip), n + 1) | None => (conf, n) end in
  if bool_decide (is_Some (parse_ip (h_hostname host))) then conf +:+ line n (h_hostname host)
  else conf +:+ "DNS.2 = " +:+ h_hostname host +:+ newline.

(** The second look at the addresses is at [ipv4_address] again, as in the source. *)
Definition create_cert (cert_dir ca_key_path ca_cert_path : string) (host : Host) : filem () :=
  let key_path := path_join cert_dir (h_name host +:+ ".key") in
  let cert_path := path_join cert_dir (h_name host +:+ ".pem") in
  let* current_san := san_from_cert cert_path in
  let has_new_ip := has_new_ip host current_san (h_ipv4_address host) ||
                    has_new_ip host current_san (h_ipv4_address host) in
  let* key_exists := fs_exists key_path in
  let* _ := if negb key_exists then
      context ("Failed to create key for lightning certificate: " +:+ h_name host)
        (create_tls_key key_path)
    else cmd_ret () in
  let* cert_exists := if negb has_new_ip then fs_exists cert_path else cmd_ret false in
  if negb has_new_ip && cert_exists then cmd_ret ()
  else
    let conf_path := path_join cert_dir "cert.conf" in
    let* _ := fs_write conf_path (cert_conf host) in
    let* _ := context "Failed to create certificate request"
      (openssl ["req"; "-new"; "-key"; key_path; "-out"; cert_path; "-config"; conf_path;
                "-subj"; "/CN=localhost"]) in
    context "Failed to create certificate"
      (openssl ["x509"; "-req"; "-days"; "10950"; "-in"; cert_path; "-CA"; ca_cert_path; "-CAkey";
                ca_key_path; "-set_serial"; "01"; "-out"; cert_path; "-extensions"; "v3_req";
                "-extfile"; conf_path]).

Definition create_lightning_certs (cert_dir : string) (hosts : gmap string Host) : filem () :=
  let* _ := context ("Failed to create directory for lightning certificates: " +:+ cert_dir)
              (create_dir_all cert_dir) in
  let ca_key_path := path_join cert_dir "ca.key" in
  let ca_cert_path := path_join cert_dir "ca.pem" in
  let* key_exists := fs_exists ca_key_path in
  let* _ := if negb key_exists then
      context ("Failed to create key for lightning CA certificate: " +:+ ca_key_path)
        (create_tls_key ca_key_path)
    else cmd_ret () in
  let* _ := context ("Failed to create lightning CA certificate: " +:+ ca_cert_path)
              (create_ca_cert ca_cert_path ca_key_path) in
  cmd_forM (λ h, context ("Failed to create lightning certificate: " +:+ h_name h)
                   (create_cert cert_dir ca_key_path ca_cert_path h)) (btree_iter hosts).*2.

(** ** Keys *)

(** The exit code of the program is not looked at. *)
Definition create_deploy_key (secret_directory : string) : filem () :=
  let ssh_dir := path_join secret_directory "ssh" in
  let* _ := create_dir_all ssh_dir in
  let* _ := run_output "ssh-keygen" ["-q"; "-t"; "ed25519"; "-C"; "deploy_key"; "-N"; ""; "-f";
                                     ssh_dir +:+ "/id_ed25519"] in
  cmd_ret ().

Definition generate_key_pair (key_path : string) : filem () :=
  run_checked "ssh-keygen" ["-N"; ""; "-f"; key_path; "-C"; "kld-mgr"].

(** [secret]: 32 random letters and digits. *)
Definition generate_disk_encryption_key (key secret : string) : filem () := fs_write key secret.

(** ** main.rs *)

(** The arm of [Command::Install] between loading the configuration and generating the flake. *)
Definition prepare_install (config : Config) (generate_secret_on_remote : bool)
    (disk_secret : string) (fresh : result string Mnemonic) : filem () :=
  let dir := secret_directory (global config) in
  let* _ := create_deploy_key dir in
  let* _ := context "failed to create or update lightning certificates"
              (create_lightning_certs (path_join dir "lightning") (hosts config)) in
  let* _ := context "failed to create or update cockroachdb certificates"
              (create_cockroachdb_certs (path_join dir "cockroachdb") (hosts config)) in
  let sshd_dir := path_join dir "sshd" in
  let* _ := create_dir_all sshd_dir in
  let* _ := cmd_forM (λ name,
      let p := path_join sshd_dir name in
      let* key_exists := fs_exists p in
      if negb key_exists then generate_key_pair p else cmd_ret ()) (btree_iter (hosts config)).*1 in
  let disk_encryption_key := path_join dir "disk_encryption_key" in
  let* key_exists := fs_exists disk_encryption_key in
  let* _ := if negb key_exists then generate_disk_encryption_key disk_encryption_key disk_secret
            else cmd_ret () in
  if negb generate_secret_on_remote then generate_mnemonic_and_macaroons dir fresh else cmd_ret ().

Definition filter_hosts (host_spec : string) (hosts : gmap string Host) : result string (list Host) :=
  if bool_decide (host_spec = "") then Ok (btree_iter hosts).*2
  else result_mapM (λ name, ok_or ("no host named '" +:+ name +:+ "' found in configuration")
                              (hosts !! name)) (split_char "," host_spec).

(** ** The files that are uploaded: config.rs, [Host::secrets]; secrets.rs, [Secrets::new] *)

(** Where the content of an uploaded file comes from. *)
Inductive source :=
| FromFile (path what : string)
| Literal (content : string).

Definition read_source (src : source) : filem string :=
  match src with
  | FromFile path what => context ("failed to read " +:+ what) (fs_read path)
  | Literal content => cmd_ret content
  end.
Fixpoint read_sources (l : list (string * source * Z)) : filem (list (string * string * Z)) :=
  match l with
  | [] => cmd_ret []
  | (target, src, mode) :: l =>
      let* content := read_source src in
      let* rest := read_sources l in
      cmd_ret ((target, content, mode) :: rest)
  end.

(** Modes: 0o600 and 0o644. *)
Definition private : Z := 384.
Definition public : Z := 420.

Definition secret_sources (h : Host) (secrets_dir access_tokens : string) :
    list (string * source * Z) :=
  let lightning := path_join secrets_dir "lightning" in
  let cockroachdb := path_join secrets_dir "cockroachdb" in
  let ssh := path_join secrets_dir "ssh" in
  [("/var/lib/secrets/kld/ca.pem", FromFile (path_join lightning "ca.pem") "ca.pem", private);
   ("/var/lib/secrets/kld/kld.pem",
     FromFile (path_join lightning (h_name h +:+ ".pem")) "kld.pem", private);
   ("/var/lib/secrets/kld/kld.key",
     FromFile (path_join lightning (h_name h +:+ ".key")) "kld.key", private);
   ("/var/lib/secrets/kld/client.kld.crt",
     FromFile (path_join cockroachdb "client.kld.crt") "client.kld.crt", private);
   ("/var/lib/secrets/kld/client.kld.key",
     FromFile (path_join cockroachdb "client.kld.key") "client.kld.key", private);
   ("/var/lib/secrets/cockroachdb/ca.crt",
     FromFile (path_join cockroachdb "ca.crt") "ca.crt", private);
   ("/var/lib/secrets/cockroachdb/client.root.crt",
     FromFile (path_join cockroachdb "client.root.crt") "client.root.crt", private);
   ("/var/lib/secrets/cockroachdb/client.root.key",
     FromFile (path_join cockroachdb "client.root.key") "client.root.key", private);
   ("/var/lib/secrets/cockroachdb/node.crt",
     FromFile (path_join cockroachdb (h_name h +:+ ".node.crt")) "node.crt", private);
   ("/var/lib/secrets/cockroachdb/node.key",
     FromFile (path_join cockroachdb (h_name h +:+ ".node.key")) "node.key", private);
   ("/root/.ssh/id_ed25519", FromFile (path_join ssh "id_ed25519") "deploy key", private);
   ("/root/.ssh/id_ed25519.pub",
     FromFile (path_join ssh "id_ed25519.pub") "deploy pub key", public);
   ("/var/lib/secrets/sshd_key",
     FromFile (path_join (path_join secrets_dir "sshd") (h_name h)) "sshd server key", private);
   ("/var/lib/secrets/access-tokens", Literal ("ACCESS_TOKENS=" +:+ access_tokens), private);
   ("/var/lib/secrets/disk_encryption_key",
     FromFile (path_join secrets_dir "disk_encryption_key") "disk_encrypted_key", private)].

Definition telegraf_secret (t : TelegrafConfig) : string :=
  "MONITORING_URL=" +:+
    default "https://mimir.monitoring-00-cluster.kuutamo.computer/api/v1/push"
      (url_to_string <$> tg_url t) +:+ newline +:+
  "MONITORING_USERNAME=" +:+ tg_username t +:+ newline +:+
  "MONITORING_PASSWORD=" +:+ tg_password t.
Definition monitor_sources (h : Host) : list (string * source * Z) :=
  match h_kmonitor_config h with
  | Some k =>
      (match telegraf k with
       | Some t => [("/var/lib/secrets/telegraf", Literal (telegraf_secret t), private)]
       | None => []
       end ++
       match promtail k with
       | Some client => [("/var/lib/secrets/promtail", Literal ("CLIENT_URL=" +:+ client), private)]
       | None => []
       end)%list
  | None => []
  end.

(** The temporary directory of the secrets: contents and modes. A file is opened without being
    truncated, and gets its mode when it is created. *)
Abbreviation TmpDir := (gmap string (string * Z)).
Definition overwrite (old new : string) : string :=
  new +:+ String.substring (String.length new) (String.length old - String.length new) old.
Definition write_secret (tmp : TmpDir) (f : string * string * Z) : TmpDir :=
  let '(to, content, mode) := f in
  let p := default to (strip_prefix "/" to) in
  match tmp !! p with
  | Some (old, m) => <[p := (overwrite old content, m)]> tmp
  | None => <[p := (content, mode)]> tmp
  end.
(** [tmp_ok]: the system lets the file be created and written. *)
Definition Secrets_new (tmp_ok : string → bool) (secrets : list (string * string * Z)) :
    result failure TmpDir :=
  foldl (λ r f, let? tmp := r in
           if tmp_ok f.1.1 then Ok (write_secret tmp f) else Err (IoError f.1.1)) (Ok ∅) secrets.

Definition host_secrets (h : Host) (secrets_dir access_tokens : string) (tmp_ok : string → bool) :
    filem TmpDir :=
  let mnemonic := path_join secrets_dir "mnemonic" in
  let* secret_files := read_sources (secret_sources h secrets_dir access_tokens) in
  let* mnemonic_exists := fs_exists mnemonic in
  let* words := (if mnemonic_exists : bool
                 then read_sources [("/var/lib/secrets/mnemonic", FromFile mnemonic "mnemonic", private)]
                 else cmd_ret []) in
  let* monitor := read_sources (monitor_sources h) in
  context "failed to prepare uploading secrets"
    (cmd_lift (Secrets_new tmp_ok (secret_files ++ words ++ monitor)%list)).

(** ** flake.rs *)

Definition config_line (key value : string) : string := key +:+ " = " +:+ value +:+ newline.
Definition quoted (s : string) : string := quote +:+ s +:+ quote.

(** [host.nixos_module = "kld-test"]. *)
Definition set_nixos_module (m : string) (h : Host) : Host :=
  {| h_name := h_name h; h_nixos_module := m; h_extra_nixos_modules := h_extra_nixos_modules h;
     h_mac_address := h_mac_address h; h_ipv4_address := h_ipv4_address h;
     h_ipv4_cidr := h_ipv4_cidr h; h_ipv4_gateway := h_ipv4_gateway h;
     h_ipv6_address := h_ipv6_address h; h_ipv6_cidr := h_ipv6_cidr h;
     h_ipv6_gateway := h_ipv6_gateway h; h_install_ssh_user := h_install_ssh_user h;
     h_hostname := h_hostname h; h_public_ssh_keys := h_public_ssh_keys h; h_disks := h_disks h;
     h_bitcoind_disks := h_bitcoind_disks h; h_cockroach_peers := h_cockroach_peers h;
     h_kld_node_alias := h_kld_node_alias h; h_kld_node_alias_color := h_kld_node_alias_color h;
     h_kld_log_level := h_kld_log_level h; h_kmonitor_config := h_kmonitor_config h;
     h_rest_api_port := h_rest_api_port h; h_api_ip_access_list := h_api_ip_access_list h;
     h_telegraf_has_monitoring := h_telegraf_has_monitoring h;
     h_promtail_has_client := h_promtail_has_client h;
     h_monitor_config_hash := h_monitor_config_hash h;
     h_network_interface := h_network_interface h;
     h_kld_preset_mnemonic := h_kld_preset_mnemonic h;
     h_upgrade_schedule := h_upgrade_schedule h; h_probe_interval := h_probe_interval h;
     h_probe_amt_msat := h_probe_amt_msat h; h_probe_targets := h_probe_targets h;
     h_shutdown_graceful_sec := h_shutdown_graceful_sec h |}.

(** The environment of the process: whether [FLAKE_CHECK] and [DEBUG] are set. *)
Record flake_env := mk_flake_env { flake_check : bool; debug : bool }.

(** The host as it is written, and the lines before it. *)
Definition flake_host (env : flake_env) (h : Host) : Host :=
  if flake_check env then h
  else if debug env && bool_decide (h_nixos_module h = "kld-node")
  then set_nixos_module "kld-test" h else h.
Definition global_fields (env : flake_env) (g : Global) (order : nat) : string :=
  config_line "deployment_flake" (quoted (deployment_flake g)) +:+
  config_line "upgrade_order" (print_nat (Z.of_nat order)) +:+
  (if flake_check env || debug env then config_line "keep_root" "true" else "").

Definition nixos_configuration (name : string) (h : Host) : string :=
  let module m := "      lightning-knd.nixosModules." +:+ quoted m in
  let modules := join newline (module <$> h_nixos_module h :: h_extra_nixos_modules h) in
  join newline
    ["  nixosConfigurations." +:+ quoted name +:+ " = lightning-knd.inputs.nixpkgs.lib.nixosSystem {";
     "    system = " +:+ quoted "x86_64-linux" +:+ ";";
     "    modules = [";
     modules;
     "      { kuutamo.deployConfig = builtins.fromTOML (builtins.readFile (builtins.path { name = "
       +:+ quoted "node.toml" +:+ "; path = ./" +:+ name +:+ ".toml; })); }";
     "    ];";
     "  };"].
Definition configurations_nix (hosts : list (string * Host)) : string :=
  "{ lightning-knd, ... }: {" +:+ newline +:+
  join newline ((λ p, nixos_configuration p.1 p.2) <$> hosts) +:+ newline +:+ "}" +:+ newline.
Definition flake_nix (knd_flake : string) : string :=
  join newline
    ["{"; "  inputs.lightning-knd.url = " +:+ quoted knd_flake +:+ ";"; "";
     "  nixConfig.extra-substituters = ["; "    " +:+ quoted "https://cache.garnix.io"; "  ];"; "";
     "  nixConfig.extra-trusted-public-keys = [";
     "    " +:+ quoted "cache.garnix.io:CTFPyKSLcx5RMJKfLo5EEPUObbA78b0YQ2DTCJXqr9g="; "  ];"; "";
     "  outputs = inputs: import ./configurations.nix inputs;"; "}"; ""].

(** [tmp]: the path of the fresh temporary directory. *)
Definition generate_nixos_flake (config : Config) (env : flake_env) (tmp : string) : filem () :=
  let hosts := (λ p, (p.1, flake_host env p.2)) <$> btree_iter (hosts config) in
  let* _ := cmd_forM (λ '(order, (name, h)),
      let host_path := path_join tmp (name +:+ ".toml") in
      let* _ := context ("could not create " +:+ host_path) (fs_write host_path "") in
      let* toml := context ("cannot serialize " +:+ name +:+ " to toml") (lib (host_to_toml h)) in
      context ("Cannot write " +:+ host_path)
        (fs_write host_path (global_fields env (global config) order +:+ toml)))
    (imap pair hosts) in
  let configuration_path := path_join tmp "configurations.nix" in
  let* _ := context "could not create configurations.nix" (fs_write configuration_path "") in
  let* _ := context "could not write configurations.nix"
              (fs_write configuration_path (configurations_nix hosts)) in
  let flake_path := path_join tmp "flake.nix" in
  let* _ := context "could not create flake.nix" (fs_write flake_path "") in
  context "could not write flake.nix" (fs_write flake_path (flake_nix (knd_flake (global config)))).
End Operations.

(** ** What the programs do *)

(** The programs remove no files; one that exits with 0 has made the files it is asked for. *)
Class ToolLaws `{OS : Os} := {
  tool_keeps command args s st s' :
    run command args s = (st, s') → ∀ p, is_Some (s !! p) → is_Some (s' !! p);
  openssl_out before p after s s' :
    run "openssl" (before ++ "-out" :: p :: after)%list s = (Exited 0, s') → is_Some (s' !! p);
  keygen_out before p after s s' :
    run "ssh-keygen" (before ++ "-f" :: p :: after)%list s = (Exited 0, s') → is_Some (s' !! p);
  cockroach_ca d key rest s s' :
    run "cockroach" ("cert" :: "create-ca" :: "--certs-dir" :: d :: "--ca-key" :: key :: rest) s
      = (Exited 0, s') →
    is_Some (s' !! path_join d "ca.crt") ∧ is_Some (s' !! key);
  cockroach_client user d rest s s' :
    run "cockroach" ("cert" :: "create-client" :: user :: "--certs-dir" :: d :: rest) s
      = (Exited 0, s') →
    is_Some (s' !! path_join d ("client." +:+ user +:+ ".crt")) ∧
    is_Some (s' !! path_join d ("client." +:+ user +:+ ".key"));
}.

Section Prepared.
Context {MT : MgrTypes} {OS : Os} {TL : ToolLaws} {DL : DeployLib}.
Context {MC : Macaroons} {SD : Seeds}.

Lemma run_checked_inv c args s u s' :
  run_checked c args s = (Ok u, s') → run c args s = (Exited 0, s').
Proof.
  unfold run_checked, run_status, cmd_bind. destruct (run c args s) as [st s1].
  unfold cmd_lift, status_to_pretty_err. destruct st as [|[]|]; try done. by intros [= _ <-].
Qed.

Lemma keeps_run temp c args : keeps_files temp (run_checked c args).
Proof. intros s u s' H%run_checked_inv p _. by eapply tool_keeps. Qed.

Lemma keeps_output temp c args : keeps_files temp (run_output c args).
Proof.
  unfold run_output, run_status. intros s st s' (st' & s1 & H & H2)%cmd_bind_inv.
  destruct (run c args s) as [st2 s2] eqn:Hr. injection H as <- <-.
  case_bool_decide; [done|]. injection H2 as _ <-. intros p _. by eapply tool_keeps.
Qed.

(** A renaming keeps the other files. *)
Lemma keeps_rename_other temp p q : keeps_files (λ r, temp r || bool_decide (r = p)) (fs_rename p q).
Proof. apply keeps_rename. by rewrite bool_decide_eq_true_2, orb_true_r. Qed.
End Prepared.

Create HintDb files.
#[export] Hint Resolve leaves_ret leaves_err leaves_panic leaves_lift keeps_exists keeps_read
  keeps_create_dir keeps_write keeps_run keeps_output : files.
Ltac keeps_step :=
  first
    [ solve [eauto with files]
    | match goal with |- keeps_files _ (cmd_bind _ _) => apply leaves_bind; [|intros ?] end
    | match goal with |- keeps_files _ (context _ _) => apply keeps_context end
    | match goal with |- keeps_files _ (cmd_map_err _ _) => apply leaves_map_err end
    | match goal with |- keeps_files _ (cmd_forM _ _) => apply leaves_forM; intros ? end
    | match goal with |- keeps_files _ (if ?c then _ else _) => apply keeps_if end
    | match goal with |- keeps_files _ (let _ := _ in _) => cbv zeta end ].
Ltac keeps_tac := repeat keeps_step.

Section Prepare.
Context {MT : MgrTypes} {OS : Os} {TL : ToolLaws} {DL : DeployLib}.
Context {MC : Macaroons} {SD : Seeds}.
Implicit Types temp : string → bool.

Lemma fs_exists_inv p s b s' : fs_exists p s = (Ok b, s') → s' = s ∧ (b = true → is_Some (s !! p)).
Proof. intros [= <- <-]. split; [done|]. rewrite andb_true_iff, bool_decide_eq_true. tauto. Qed.

Lemma both_exist_inv p q s b s' :
  both_exist p q s = (Ok b, s') → s' = s ∧ (b = true → is_Some (s !! p) ∧ is_Some (s !! q)).
Proof.
  intros ([] & s1 & [-> H1]%fs_exists_inv & H2)%cmd_bind_inv.
  - apply fs_exists_inv in H2 as [-> H2]. auto.
  - by injection H2 as <- <-.
Qed.

Lemma keeps_both_exist temp p q : keeps_files temp (both_exist p q).
Proof. by intros s b s' [-> _]%both_exist_inv. Qed.

Lemma keeps_san temp p : keeps_files temp (san_from_cert p).
Proof.
  intros s l s'. unfold san_from_cert, fs_read. destruct (read_ok s p); [|by intros [= _ <-]].
  destruct (s !! p); simpl; [|by intros [= _ <-]]. by intros [_ ->]%lib_inv.
Qed.
#[local] Hint Resolve keeps_both_exist keeps_san : files.

Lemma keeps_create_client_cert temp d u : keeps_files temp (create_client_cert d u).
Proof. unfold create_client_cert, cockroach. keeps_tac. Qed.
Lemma keeps_create_cert temp d k c h : keeps_files temp (create_cert d k c h).
Proof. unfold create_cert, create_tls_key, openssl. keeps_tac. Qed.
#[local] Hint Resolve keeps_create_cert : files.
Lemma keeps_create_lightning_certs temp d hs : keeps_files temp (create_lightning_certs d hs).
Proof.
  unfold create_lightning_certs, create_ca_cert, create_tls_key, openssl. keeps_tac.
Qed.
Lemma keeps_create_deploy_key temp d : keeps_files temp (create_deploy_key d).
Proof. unfold create_deploy_key. keeps_tac. Qed.
Lemma keeps_write_macaroons temp k a b c d :
  keeps_files temp d → keeps_files temp (write_macaroons k a b c d).
Proof. intros Hd. unfold write_macaroons, lib. keeps_tac. Qed.
Lemma keeps_generate_mnemonic temp d fresh :
  keeps_files temp (generate_mnemonic_and_macaroons d fresh).
Proof.
  unfold generate_mnemonic_and_macaroons, lib. apply leaves_bind; [auto with files|].
  intros ex. apply leaves_bind; [|intros m; apply keeps_write_macaroons; auto with files].
  destruct ex; simpl; [|keeps_tac]. intros s m s'. unfold fs_read_to_string, fs_read, cmd_bind.
  destruct (read_ok _ _); [|done]. destruct (s !! _); [|done]. simpl.
  destruct (from_utf8 _); [|done]. by intros [_ ->]%lib_inv.
Qed.

(** *** The certificates of the database *)

Lemma cockroach_inv args s u s' :
  cockroach args s = (Ok u, s') → run "cockroach" args s = (Exited 0, s').
Proof. apply run_checked_inv. Qed.

Lemma create_ca_leaves d s u s' :
  create_ca d s = (Ok u, s') →
  is_Some (s' !! path_join d "ca.crt") ∧ is_Some (s' !! path_join d "ca.key").
Proof.
  intros (ex & s1 & [-> Hex]%fs_exists_inv & (cex & s2 & Hc & H)%cmd_bind_inv)%cmd_bind_inv.
  destruct (ex && cex) eqn:Hb.
  - apply andb_true_iff in Hb as [-> ->]. apply fs_exists_inv in Hc as [-> Hc].
    injection H as _ <-. auto.
  - apply cmd_bind_inv in H as ([] & s3 & _ & H%context_inv%cockroach_inv).
    by eapply cockroach_ca.
Qed.

Lemma keeps_create_ca temp d : keeps_files temp (create_ca d).
Proof.
  intros s u s' H p Hp Hs. destruct (decide (p = path_join d "ca.key")) as [->|Hne].
  { by eapply create_ca_leaves. }
  assert (keeps_files (λ r, temp r || bool_decide (r = path_join d "ca.key")) (create_ca d)) as Hk.
  { pose proof (keeps_rename_other temp (path_join d "ca.key")). unfold create_ca, cockroach. keeps_tac. }
  apply (Hk _ _ _ H p); [|done]. by rewrite Hp, bool_decide_eq_false_2.
Qed.

Lemma create_client_cert_leaves d u s r s' :
  create_client_cert d u s = (Ok r, s') →
  is_Some (s' !! path_join d ("client." +:+ u +:+ ".crt")) ∧
  is_Some (s' !! path_join d ("client." +:+ u +:+ ".key")).
Proof.
  intros (b & s1 & [-> Hb]%both_exist_inv & H)%cmd_bind_inv. destruct b.
  - injection H as _ <-. split; by apply Hb.
  - apply context_inv, cockroach_inv in H. by eapply cockroach_client.
Qed.

(** What is only there until it is renamed. *)
Definition temporary (d p : string) : bool :=
  bool_decide (p = path_join d "node.crt") || bool_decide (p = path_join d "node.key").

Lemma keeps_create_node_cert d h : keeps_files (temporary d) (create_node_cert d h).
Proof.
  assert (∀ q, keeps_files (temporary d) (fs_rename (path_join d "node.crt") q)) as H1.
  { intros q. apply keeps_rename. unfold temporary. by rewrite bool_decide_eq_true_2. }
  assert (∀ q, keeps_files (temporary d) (fs_rename (path_join d "node.key") q)) as H2.
  { intros q. apply keeps_rename. unfold temporary. by rewrite orb_true_iff, !bool_decide_eq_true; right. }
  unfold create_node_cert, cockroach. keeps_tac.
Qed.

Lemma fs_rename_leaves p q s u s' : fs_rename p q s = (Ok u, s') → is_Some (s' !! q).
Proof.
  unfold fs_rename. destruct (_ && _); [|done]. destruct (s !! p); [|done]. intros [= _ <-].
  rewrite lookup_insert_eq. by eexists.
Qed.

Lemma create_node_cert_leaves d h s u s' :
  create_node_cert d h s = (Ok u, s') → temporary d (path_join d (h_name h +:+ ".node.crt")) = false →
  is_Some (s' !! path_join d (h_name h +:+ ".node.crt")) ∧
  is_Some (s' !! path_join d (h_name h +:+ ".node.key")).
Proof.
  intros (b & s1 & [-> Hb]%both_exist_inv & H)%cmd_bind_inv Ht. destruct b.
  - injection H as _ <-. split; by apply Hb.
  - apply cmd_bind_inv in H as (u1 & s2 & _ & H).
    apply cmd_bind_inv in H as (u2 & s3 & H1%context_inv & H2%context_inv).
    split; [|by eapply fs_rename_leaves].
    eapply (keeps_rename (temporary d) (path_join d "node.key")); [|done|done|by eapply fs_rename_leaves].
    unfold temporary. by rewrite orb_true_iff, !bool_decide_eq_true; right.
Qed.

Lemma keeps_create_cockroachdb_certs d hs : keeps_files (temporary d) (create_cockroachdb_certs d hs).
Proof.
  apply leaves_bind; [apply keeps_create_ca|intros ?].
  apply leaves_bind; [apply keeps_create_client_cert|intros ?].
  apply leaves_bind; [apply keeps_create_client_cert|intros ?].
  apply leaves_forM, keeps_create_node_cert.
Qed.

Lemma create_cockroachdb_certs_leaves d hs s u s' name h :
  create_cockroachdb_certs d hs s = (Ok u, s') → hs !! name = Some h →
  (∀ f, f ∈ ["ca.crt"; "client.root.crt"; "client.root.key"; "client.kld.crt"; "client.kld.key";
             h_name h +:+ ".node.crt"; h_name h +:+ ".node.key"] →
        temporary d (path_join d f) = false) →
  ∀ f, f ∈ ["ca.crt"; "client.root.crt"; "client.root.key"; "client.kld.crt"; "client.kld.key";
            h_name h +:+ ".node.crt"; h_name h +:+ ".node.key"] → is_Some (s' !! path_join d f).
Proof.
  intros (u1 & s1 & H1 & (u2 & s2 & H2 & (u3 & s3 & H3 & H4)%cmd_bind_inv)%cmd_bind_inv)%cmd_bind_inv
    Hh Ht f Hf. specialize (Ht f Hf) as Htf.
  destruct (forM_step (temporary d) _ _ h _ _ _ (keeps_create_node_cert d) H4) as
    (s4 & u4 & s5 & Hnode & Hg5).
  { apply list_elem_of_fmap. exists (name, h). split; [done|]. by apply elem_of_btree_iter. }
  apply create_node_cert_leaves in Hnode as [Hcrt Hkey]; [|apply Ht; set_solver].
  assert (grows (temporary d) s3 s') as Hg3 by (eapply leaves_forM; [apply keeps_create_node_cert|done]).
  assert (grows (temporary d) s2 s') as Hg2 by (etrans; [by eapply keeps_create_client_cert|done]).
  assert (grows (temporary d) s1 s') as Hg1 by (etrans; [by eapply keeps_create_client_cert|done]).
  apply create_ca_leaves in H1 as [Hca _]. apply create_client_cert_leaves in H2 as [Hr1 Hr2].
  apply create_client_cert_leaves in H3 as [Hk1 Hk2].
  repeat (apply elem_of_cons in Hf as [->|Hf]); try by apply elem_of_nil in Hf.
  all: first [apply Hg1; done | apply Hg2; done | apply Hg3; done | apply Hg5; done].
Qed.

(** *** The certificates of the API *)

Lemma openssl_inv before p after s u s' :
  openssl (before ++ "-out" :: p :: after)%list s = (Ok u, s') → is_Some (s' !! p).
Proof. intros H%run_checked_inv. by eapply openssl_out. Qed.

Lemma create_if_absent p (m : filem ()) s b u s1 s' temp :
  fs_exists p s = (Ok b, s1) → (if negb b then m else cmd_ret ()) s1 = (Ok u, s') →
  (∀ s u s', m s = (Ok u, s') → is_Some (s' !! p)) → temp p = false → is_Some (s' !! p).
Proof.
  intros [-> Hb]%fs_exists_inv H Hm Ht. destruct b; simpl in H; [|by eapply Hm].
  injection H as _ <-. auto.
Qed.

Lemma create_cert_leaves d k c h s u s' :
  create_cert d k c h s = (Ok u, s') →
  is_Some (s' !! path_join d (h_name h +:+ ".key")) ∧
  is_Some (s' !! path_join d (h_name h +:+ ".pem")).
Proof.
  intros (san & s1 & _ & H)%cmd_bind_inv. apply cmd_bind_inv in H as (b & s2 & Hb & H).
  apply cmd_bind_inv in H as (u1 & s3 & H1 & H).
  assert (is_Some (s3 !! path_join d (h_name h +:+ ".key"))) as Hkey.
  { eapply (create_if_absent _ _ _ _ _ _ _ (λ _, false)); [done..| |done].
    intros ??? Hm%context_inv%context_inv. exact (openssl_inv ["ecparam"; "-genkey"; "-name"; "secp384r1"] _ [] _ _ _ Hm). }
  clear H1 Hb. apply cmd_bind_inv in H as (ce & s4 & Hc & H).
  assert (s4 = s3) as ->.
  { destruct (negb _) in Hc; [by apply fs_exists_inv in Hc as [-> _]|by injection Hc]. }
  destruct (_ && ce) eqn:Hn.
  - injection H as _ <-. apply andb_true_iff in Hn as [Hn ->]. rewrite Hn in Hc.
    apply fs_exists_inv in Hc as [_ Hc]. auto.
  - apply cmd_bind_inv in H as (u2 & s5 & H1 & H). apply cmd_bind_inv in H as (u3 & s6 & H2 & H3).
    split; [|apply context_inv in H3; exact (openssl_inv
      ["x509"; "-req"; "-days"; "10950"; "-in"; _; "-CA"; _; "-CAkey"; _; "-set_serial"; "01"]
      _ ["-extensions"; "v3_req"; "-extfile"; _] _ _ _ H3)].
    eapply (keeps_context (λ _, false)); [apply keeps_run|exact H3|done|].
    eapply (keeps_context (λ _, false)); [apply keeps_run|exact H2|done|].
    eapply (keeps_write (λ _, false)); [exact H1|done|done].
Qed.

Lemma create_lightning_certs_leaves d hs s u s' name h :
  create_lightning_certs d hs s = (Ok u, s') → hs !! name = Some h →
  is_Some (s' !! path_join d "ca.pem") ∧
  is_Some (s' !! path_join d (h_name h +:+ ".key")) ∧
  is_Some (s' !! path_join d (h_name h +:+ ".pem")).
Proof.
  intros (u1 & s1 & _ & H)%cmd_bind_inv Hh. apply cmd_bind_inv in H as (b & s2 & _ & H).
  apply cmd_bind_inv in H as (u2 & s3 & _ & (u3 & s4 & H4%context_inv & H5)%cmd_bind_inv).
  assert (∀ h, keeps_files (λ _, false) (context ("Failed to create lightning certificate: " +:+ h_name h)
    (create_cert d (path_join d "ca.key") (path_join d "ca.pem") h))) as Hk.
  { intros h'. apply keeps_context, keeps_create_cert. }
  destruct (forM_step (λ _, false) _ _ h _ _ _ Hk H5) as (s5 & u5 & s6 & Hc%context_inv & Hg6).
  { apply list_elem_of_fmap. exists (name, h). split; [done|]. by apply elem_of_btree_iter. }
  apply create_cert_leaves in Hc as [Hkey Hpem]. split; [|split; by apply Hg6].
  apply (leaves_forM (λ _, false) _ _ Hk _ _ _ H5 _ eq_refl).
  unfold create_ca_cert in H4. apply cmd_bind_inv in H4 as (b2 & s7 & Hb2 & H4).
  eapply (create_if_absent _ _ _ _ _ _ _ (λ _, false)); [done..| |done].
  intros ??? Hm%context_inv.
  exact (openssl_inv ["req"; "-new"; "-x509"; "-days"; "10950"; "-key"; _] _
    ["-subj"; "/CN=Kld CA"] _ _ _ Hm).
Qed.

(** *** Paths *)

Lemma label_relative n x : host_label n = true → is_relative (n +:+ x) = true.
Proof.
  unfold host_label. destruct n as [|c n]; [done|]. simpl. rewrite !andb_true_iff. intros [[Hc _] _].
  unfold is_relative. change (String c n +:+ x) with (String c (n +:+ x)).
  unfold starts_with. cbn [strip_prefix]. by destruct (Ascii.eqb_spec "/" c) as [<-|].
Qed.

Lemma temporary_false dir x :
  is_relative x = true → x ≠ "cockroachdb/node.crt" → x ≠ "cockroachdb/node.key" →
  temporary (path_join dir "cockroachdb") (path_join dir x) = false.
Proof.
  intros Hx H1 H2. unfold temporary. rewrite !path_join_join by done.
  apply orb_false_iff. split; apply bool_decide_eq_false_2; intros Heq;
    by apply path_join_inj in Heq.
Qed.

Lemma temporary_file dir sub f :
  bool_decide (sub ∈ ["lightning"; "sshd"; "ssh"]) = true → is_relative f = true →
  temporary (path_join dir "cockroachdb") (path_join (path_join dir sub) f) = false.
Proof.
  intros Hsub%bool_decide_eq_true Hf.
  assert (is_relative sub = true ∧ sub ≠ "" ∧ ends_with "/" sub = false ∧
    ∀ x y, sub +:+ "/" +:+ x ≠ "cockroachdb/" +:+ y) as (H1 & H2 & H3 & H4).
  { repeat (apply elem_of_cons in Hsub as [->|Hsub]); [done..|]. by apply elem_of_nil in Hsub. }
  rewrite path_join_join by done. apply temporary_false.
  - unfold is_relative in *. rewrite strip_prefix_app_l; [done|]. destruct sub; simpl; [done|lia].
  - apply (H4 f "node.crt").
  - apply (H4 f "node.key").
Qed.

Lemma temporary_cockroach dir h f :
  host_label (h_name h) = true →
  f ∈ ["ca.crt"; "client.root.crt"; "client.root.key"; "client.kld.crt"; "client.kld.key";
       h_name h +:+ ".node.crt"; h_name h +:+ ".node.key"] →
  temporary (path_join dir "cockroachdb") (path_join (path_join dir "cockroachdb") f) = false.
Proof.
  intros Hl Hf.
  assert (is_relative f = true ∧ f ≠ "node.crt" ∧ f ≠ "node.key") as (Hr & H1 & H2).
  { assert (∀ x y, (String.length y < String.length x)%nat → h_name h +:+ x ≠ y) as Hlen.
    { intros x y Hxy <-. rewrite string_length_app in Hxy. lia. }
    repeat (apply elem_of_cons in Hf as [->|Hf]); try done; [| |by apply elem_of_nil in Hf].
    all: split; [by apply label_relative|split; apply Hlen; simpl; lia]. }
  rewrite path_join_join by done. apply temporary_false; [done|..];
    intros Heq%(inj (String.append "cockroachdb/")); done.
Qed.

(** *** The upload *)

Definition source_ready (s : FS) (src : source) : Prop :=
  match src with FromFile p _ => is_Some (s !! p) ∧ read_ok s p = true | Literal _ => True end.

Lemma read_sources_ready l s :
  (∀ f, f ∈ l → source_ready s f.1.2) →
  ∃ l', read_sources l s = (Ok l', s) ∧
    (λ f, (f.1.1, f.2)) <$> l' = (λ f, (f.1.1, f.2)) <$> l.
Proof.
  induction l as [|[[to src] mode] l IH]; intros Hl; [by exists []|].
  destruct IH as (l' & Hl' & Heq); [intros f Hf; apply Hl; by right|].
  assert (∃ content, read_source src s = (Ok content, s)) as [content Hc].
  { specialize (Hl _ ltac:(by left)). destruct src as [p w|c]; simpl in *; [|by eexists].
    destruct Hl as [[c Hc] Hr]. exists c. unfold context, cmd_map_err, fs_read.
    by rewrite Hr, Hc. }
  exists ((to, content, mode) :: l'). cbn [read_sources].
  rewrite (cmd_bind_ok _ _ _ _ _ Hc), (cmd_bind_ok _ _ _ _ _ Hl'). split; [done|].
  rewrite !fmap_cons, Heq. done.
Qed.

(** A list of sources that could be read has all its files. *)
Lemma read_sources_inv l s l' s' : read_sources l s = (Ok l', s') →
  ∀ to path what mode, (to, FromFile path what, mode) ∈ l → is_Some (s !! path).
Proof.
  revert s l' s'. induction l as [|[[to src] mode] l IH]; intros s l' s' H to' path what mode' Hin;
    [by apply elem_of_nil in Hin|].
  cbn [read_sources] in H. apply cmd_bind_inv in H as (content & s1 & Hc & H).
  apply cmd_bind_inv in H as (rest & s2 & Hr & _).
  assert (s1 = s) as ->.
  { destruct src; [|by injection Hc as _ <-]. apply context_inv in Hc. unfold fs_read in Hc.
    by destruct (read_ok s path0), (s !! path0); injection Hc as _ <-. }
  apply elem_of_cons in Hin as [[= <- <- <-]|Hin]; [|by eapply IH].
  apply context_inv in Hc. unfold fs_read in Hc. destruct (s !! path); [done|].
  by destruct (read_ok s path).
Qed.

(** The mode of a file is the mode it is listed with. *)
Lemma Secrets_new_modes tmp_ok l :
  (∀ p, tmp_ok p = true) →
  ∃ tmp, Secrets_new tmp_ok l = Ok tmp ∧ ∀ p content mode, tmp !! p = Some (content, mode) →
    ∃ to, (to, mode) ∈ ((λ f, (f.1.1, f.2)) <$> l) ∧ p = default to (strip_prefix "/" to).
Proof.
  intros Hok. induction l as [|[[to content] mode] l IH] using rev_ind; [by exists ∅|].
  destruct IH as (tmp & Htmp & Hmodes). unfold Secrets_new in *. rewrite foldl_app, Htmp. simpl.
  rewrite Hok. eexists. split; [done|]. intros p content' mode' Hp. rewrite fmap_app.
  assert (tmp !! p = Some (content', mode') ∨ (∃ c m, tmp !! p = Some (c, m) ∧ m = mode') ∨
          mode' = mode ∧ p = default to (strip_prefix "/" to)) as [H|[(c & m & H & ->)|[-> ->]]].
  { revert Hp. destruct (tmp !! default to _) as [[old m]|] eqn:Hold;
      intros [[<- [= <- <-]]|[_ ?]]%lookup_insert_Some; eauto 8. }
  - apply Hmodes in H as (to' & Hin & ->). exists to'. split; [|done]. apply elem_of_app. by left.
  - apply Hmodes in H as (to' & Hin & ->). exists to'. split; [|done]. apply elem_of_app. by left.
  - exists to. split; [|done]. apply elem_of_app. right. simpl. by left.
Qed.

(** The loop over the hosts leaves the key of each. *)
Definition sshd_key (dir name : string) : filem () :=
  let p := path_join (path_join dir "sshd") name in
  let* key_exists := fs_exists p in
  if negb key_exists then generate_key_pair p else cmd_ret ().
Lemma sshd_keys_leave t dir l name s u s' :
  cmd_forM (sshd_key dir) l s = (Ok u, s') → name ∈ l →
  t (path_join (path_join dir "sshd") name) = false →
  grows t s s' ∧ is_Some (s' !! path_join (path_join dir "sshd") name).
Proof.
  intros H Hl Ht.
  assert (∀ n, keeps_files t (sshd_key dir n)) as Hk
    by (intros n; unfold sshd_key, generate_key_pair; keeps_tac).
  split; [exact (leaves_forM t _ _ Hk _ _ _ H)|].
  destruct (forM_step t _ _ name _ _ _ Hk H Hl) as (s1 & u1 & s2 & Hs & G). apply G; [done|].
  apply cmd_bind_inv in Hs as (b & s3 & Hb & Hs).
  eapply (create_if_absent _ _ _ _ _ _ _ (λ _, false)); [done..| |done].
  intros ??? Hm%run_checked_inv. exact (keygen_out ["-N"; ""] _ ["-C"; "kld-mgr"] _ _ Hm).
Qed.

(** What is there after the steps of an installation. *)
Lemma prepare_install_leaves config remote disk fresh s u s' name h :
  prepare_install config remote disk fresh s = (Ok u, s') →
  hosts config !! name = Some h → h_name h = name → host_label (h_name h) = true →
  let dir := secret_directory (global config) in
  is_Some (s' !! path_join dir "disk_encryption_key") ∧
  is_Some (s' !! path_join (path_join dir "sshd") (h_name h)) ∧
  (∀ f, f ∈ ["ca.pem"; h_name h +:+ ".key"; h_name h +:+ ".pem"] →
     is_Some (s' !! path_join (path_join dir "lightning") f)) ∧
  (∀ f, f ∈ ["ca.crt"; "client.root.crt"; "client.root.key"; "client.kld.crt"; "client.kld.key";
             h_name h +:+ ".node.crt"; h_name h +:+ ".node.key"] →
     is_Some (s' !! path_join (path_join dir "cockroachdb") f)).
Proof.
  intros H Hh Hname Hl dir. set (t := temporary (path_join dir "cockroachdb")).
  apply cmd_bind_inv in H as (u1 & s1 & _ & H).
  apply cmd_bind_inv in H as (u2 & s2 & H2%context_inv & H).
  apply cmd_bind_inv in H as (u3 & s3 & H3%context_inv & H).
  apply cmd_bind_inv in H as (u4 & s4 & H4 & H).
  apply cmd_bind_inv in H as (u5 & s5 & H5 & H).
  apply cmd_bind_inv in H as (b & s6 & H6 & H).
  apply cmd_bind_inv in H as (u7 & s7 & H7 & H8).
  assert (grows t s7 s') as G7.
  { eapply keeps_if; [apply keeps_generate_mnemonic|apply leaves_ret|exact H8]. }
  assert (is_Some (s7 !! path_join dir "disk_encryption_key")) as Hdisk.
  { eapply (create_if_absent _ _ _ _ _ _ _ (λ _, false)); [done..| |done].
    intros ??? ->%fs_write_inv. rewrite lookup_insert_eq. by eexists. }
  assert (grows t s5 s7) as G5.
  { apply fs_exists_inv in H6 as [-> _]. eapply keeps_if; [apply keeps_write|apply leaves_ret|exact H7]. }
  assert (t (path_join (path_join dir "sshd") name) = false) as Ht.
  { apply temporary_file; [done|]. rewrite <- (append_nil_r name), <- Hname. by apply label_relative. }
  destruct (sshd_keys_leave t dir _ name _ _ _ H5) as [G4 Hsshd]; [|done|].
  { apply list_elem_of_fmap. exists (name, h). split; [done|]. by apply elem_of_btree_iter. }
  assert (grows t s3 s5) as G3.
  { etrans; [by eapply keeps_create_dir|exact G4]. }
  assert (grows t s2 s3) as G2.
  { exact (keeps_create_cockroachdb_certs _ _ _ _ _ H3). }
  assert (grows t s3 s') as G3' by (etrans; [exact G3|by etrans]).
  split_and!.
  - apply G7; [|done]. by apply temporary_false.
  - rewrite Hname. auto.
  - destruct (create_lightning_certs_leaves _ _ _ _ _ _ _ H2 Hh) as (Ha & Hb & Hc).
    intros f Hf. apply G3'; [|apply G2].
    1,2: apply temporary_file; [done|]; repeat (apply elem_of_cons in Hf as [->|Hf]);
      [done|by apply label_relative..|by apply elem_of_nil in Hf].
    repeat (apply elem_of_cons in Hf as [->|Hf]); [done..|by apply elem_of_nil in Hf].
  - intros f Hf. apply G3'; [by eapply temporary_cockroach|].
    eapply create_cockroachdb_certs_leaves; [done..| |done]. intros f'. by apply temporary_cockroach.
Qed.
End Prepare.

(** ** Installations *)

Section Properties.
Context {HO : HashOrder} {HOL : HashOrderLaws} {MT : MgrTypes} {MG : Manager} {RL : RegexLaws}.
Context {OS : Os} {TL : ToolLaws} {DL : DeployLib} {MC : Macaroons} {SD : Seeds}.

(** The upload, once the deploy key is there. *)
Lemma upload_assembled content wd preset chk config remote disk fresh s u s' name h tokens tmp_ok :
  parse_config content wd preset chk = Ok config →
  prepare_install config remote disk fresh s = (Ok u, s') →
  hosts config !! name = Some h →
  let dir := secret_directory (global config) in
  is_Some (s' !! path_join (path_join dir "ssh") "id_ed25519") →
  is_Some (s' !! path_join (path_join dir "ssh") "id_ed25519.pub") →
  (∀ p, read_ok s' p = true) → (∀ p, tmp_ok p = true) →
  ∃ tmp, host_secrets h dir tokens tmp_ok s' = (Ok tmp, s') ∧
    ∀ p content mode, tmp !! p = Some (content, mode) →
      mode = private ∨ p = "root/.ssh/id_ed25519.pub".
Proof.
  intros Hc Hprep Hh dir Hssh Hpub Hread Htmp.
  destruct (parse_config_hosts _ _ _ _ _ _ _ Hc Hh) as [Hname Hwf].
  destruct (prepare_install_leaves _ _ _ _ _ _ _ _ _ Hprep Hh Hname (wf_name _ Hwf))
    as (Hdisk & Hsshd & Hlight & Hcock). fold dir in Hdisk, Hsshd, Hlight, Hcock.
  destruct (read_sources_ready (secret_sources h dir tokens) s') as (l1 & Hl1 & Hm1).
  { intros f Hf. unfold secret_sources in Hf.
    repeat (apply elem_of_cons in Hf as [->|Hf]); try by apply elem_of_nil in Hf.
    all: simpl; try (split; [|by apply Hread]); first [done | apply Hlight | apply Hcock].
    all: repeat (first [by left | right]). }
  destruct (read_sources_ready (monitor_sources h) s') as (l3 & Hl3 & Hm3).
  { intros f. unfold monitor_sources. destruct (h_kmonitor_config h) as [[[t|] [c|]]|]; simpl;
      intros Hf; repeat (apply elem_of_cons in Hf as [->|Hf]); simpl; done || by apply elem_of_nil in Hf. }
  set (mnemonic := path_join dir "mnemonic").
  set (words := [("/var/lib/secrets/mnemonic", FromFile mnemonic "mnemonic", private)]).
  set (b := bool_decide (is_Some (s' !! mnemonic)) && stat_ok s' mnemonic).
  assert (∃ l2, (if b then read_sources words else cmd_ret []) s' = (Ok l2, s') ∧
    Forall (λ x, x.2 = private ∨ x.1 = "/root/.ssh/id_ed25519.pub") ((λ f, (f.1.1, f.2)) <$> l2))
    as (l2 & Hl2 & Hm2).
  { destruct b eqn:Hb; [|by exists []]. apply andb_true_iff in Hb as [Hb _].
    apply bool_decide_eq_true in Hb. destruct (read_sources_ready words s') as (l2 & Hl2 & Hm).
    - intros f [->|Hf%elem_of_nil]%elem_of_cons; [|done]. simpl. auto.
    - exists l2. split; [done|]. rewrite Hm. repeat constructor. }
  destruct (Secrets_new_modes tmp_ok (l1 ++ l2 ++ l3)%list Htmp) as (tmp & Ht & Hmodes).
  exists tmp. split.
  - unfold host_secrets. rewrite (cmd_bind_ok _ _ _ _ _ Hl1). fold mnemonic.
    assert (fs_exists mnemonic s' = (Ok b, s')) as Hf by done.
    rewrite (cmd_bind_ok _ _ _ _ _ Hf), (cmd_bind_ok _ _ _ _ _ Hl2), (cmd_bind_ok _ _ _ _ _ Hl3).
    unfold context, cmd_map_err, cmd_lift. by rewrite Ht.
  - intros p c m Hp. apply Hmodes in Hp as (to & Hin & ->).
    assert (m = private ∨ to = "/root/.ssh/id_ed25519.pub") as [->| ->]; [|by left|by right].
    assert (Forall (λ x, x.2 = private ∨ x.1 = "/root/.ssh/id_ed25519.pub")
      ((λ f, (f.1.1, f.2)) <$> (l1 ++ l2 ++ l3)%list)) as Hall.
    { rewrite !fmap_app, Hm1, Hm3, !Forall_app. split_and!; [|done|].
      - unfold secret_sources. rewrite !fmap_cons. repeat constructor; try (by left); by right.
      - unfold monitor_sources. destruct (h_kmonitor_config h) as [[[t|] [c'|]]|]; simpl;
          repeat constructor; by left. }
    rewrite Forall_forall in Hall. apply (Hall _ Hin).
Qed.

(** [C13] A preparation of an installation that succeeds, on an accepted configuration, makes
    everything that [Host::secrets] reads for a host but the deploy key: its certificate and
    key, those of the database, its sshd key, the disk key. The exit code of the [ssh-keygen]
    that makes the deploy key is not looked at. So, if files can be read and the upload written,
    the upload of a host is assembled exactly when both files of the deploy key are there;
    without them [Host::secrets] fails after the successful preparation. Every file of an
    assembled upload is private to its owner but the public deploy key. *)
Theorem installed_hosts_get_their_secrets content wd preset chk config remote disk fresh s u s'
    name h tokens tmp_ok :
  parse_config content wd preset chk = Ok config →
  prepare_install config remote disk fresh s = (Ok u, s') →
  hosts config !! name = Some h →
  (∀ p, read_ok s' p = true) → (∀ p, tmp_ok p = true) →
  let dir := secret_directory (global config) in
  ((∃ tmp, host_secrets h dir tokens tmp_ok s' = (Ok tmp, s')) ↔
   is_Some (s' !! path_join (path_join dir "ssh") "id_ed25519") ∧
   is_Some (s' !! path_join (path_join dir "ssh") "id_ed25519.pub")) ∧
  ∀ tmp, host_secrets h dir tokens tmp_ok s' = (Ok tmp, s') →
    ∀ p content mode, tmp !! p = Some (content, mode) →
      mode = private ∨ p = "root/.ssh/id_ed25519.pub".
Proof.
  intros Hc Hprep Hh Hread Htmp dir.
  assert (∀ tmp, host_secrets h dir tokens tmp_ok s' = (Ok tmp, s') →
    is_Some (s' !! path_join (path_join dir "ssh") "id_ed25519") ∧
    is_Some (s' !! path_join (path_join dir "ssh") "id_ed25519.pub")) as Hkeys.
  { unfold host_secrets. intros tmp (l & s1 & Hl & _)%cmd_bind_inv.
    split; eapply (read_sources_inv _ _ _ _ Hl); unfold secret_sources;
      [do 10 right; by left|do 11 right; by left]. }
  assert (∀ tmp, host_secrets h dir tokens tmp_ok s' = (Ok tmp, s') → ∃ tmp',
    host_secrets h dir tokens tmp_ok s' = (Ok tmp', s') ∧
    ∀ p content mode, tmp' !! p = Some (content, mode) →
      mode = private ∨ p = "root/.ssh/id_ed25519.pub") as Hmodes.
  { intros tmp [H1 H2]%Hkeys. by eapply upload_assembled. }
  split; [split|].
  - by intros [tmp Ht%Hkeys].
  - intros [H1 H2]. destruct (upload_assembled _ _ _ _ _ _ _ _ _ _ _ _ _ tokens tmp_ok Hc Hprep Hh
      H1 H2 Hread Htmp) as (tmp & Ht & _). by exists tmp.
  - intros tmp Ht. destruct (Hmodes tmp Ht) as (tmp' & Ht' & Hm). rewrite Ht in Ht'.
    by injection Ht' as <-.
Qed.

(** A certificate of the API follows a new IPv4 address but not a new IPv6 address: with the
    key and the certificate there and the host's IPv4 address (if any) among the names of the
    certificate, [create_cert] does nothing, although the API is open to other machines and the
    host's IPv6 address is not among the names. With a new IPv4 address, a successful run has
    asked [openssl] for a new certificate. *)
Theorem new_ipv6_address_is_overlooked d k c h s san ip :
  let cert := path_join d (h_name h +:+ ".pem") in
  let key := path_join d (h_name h +:+ ".key") in
  is_Some (s !! key) → is_Some (s !! cert) → stat_ok s key = true → stat_ok s cert = true →
  san_from_cert cert s = (Ok san, s) → h_api_ip_access_list h ≠ [] →
  (h_ipv6_address h = Some ip → ip ∉ san → (∀ ip4, h_ipv4_address h = Some ip4 → ip4 ∈ san) →
     create_cert d k c h s = (Ok (), s)) ∧
  (h_ipv4_address h = Some ip → ip ∉ san → ∀ u s', create_cert d k c h s = (Ok u, s') →
     ∃ args s1, run "openssl" args s1 = (Exited 0, s')).
Proof.
  intros cert key Hk Hc Hsk Hsc Hsan Hlist.
  assert (fs_exists key s = (Ok true, s)) as Hek.
  { unfold fs_exists. by rewrite bool_decide_eq_true_2, Hsk. }
  assert (fs_exists cert s = (Ok true, s)) as Hec.
  { unfold fs_exists. by rewrite bool_decide_eq_true_2, Hsc. }
  unfold create_cert. fold cert key. rewrite (cmd_bind_ok _ _ _ _ _ Hsan). split.
  - intros Hip6 Hnew Hin.
    assert (has_new_ip h san (h_ipv4_address h) = false) as Hold.
    { unfold has_new_ip. destruct (h_ipv4_address h) as [ip4|]; [|done].
      by rewrite bool_decide_eq_true_2 by by apply Hin. }
    rewrite Hold. cbv zeta. rewrite (cmd_bind_ok _ _ _ _ _ Hek). simpl. rewrite cmd_bind_ret.
    by rewrite (cmd_bind_ok _ _ _ _ _ Hec).
  - intros Hip4 Hnew u s'.
    assert (has_new_ip h san (h_ipv4_address h) = true) as Hold.
    { rewrite Hip4. simpl. by rewrite !bool_decide_eq_false_2. }
    rewrite Hold. cbv zeta. rewrite (cmd_bind_ok _ _ _ _ _ Hek). simpl. rewrite !cmd_bind_ret.
    intros (u1 & s1 & _ & (u2 & s2 & _ & H%context_inv%run_checked_inv)%cmd_bind_inv)%cmd_bind_inv.
    eauto.
Qed.

(** A host may be called [ca]; it is then given the key of the certificate authority. *)
Lemma host_called_ca dir tokens h :
  h_name h = "ca" →
  host_label (h_name h) = true ∧
  ("/var/lib/secrets/kld/kld.key", FromFile (path_join (path_join dir "lightning") "ca.key") "kld.key",
    private) ∈ secret_sources h dir tokens.
Proof. intros Hn. unfold secret_sources. rewrite Hn. split; [done|]. do 2 right. by left. Qed.

(** ** The flake and the choice of hosts *)

(** [filter_hosts]: all hosts in the order of their names, or the named ones in the order given. *)
Lemma filter_hosts_named spec hs l :
  filter_hosts spec hs = Ok l → spec ≠ "" →
  Forall2 (λ name h, hs !! name = Some h) (split_char "," spec) l.
Proof.
  unfold filter_hosts. intros H Hs. rewrite bool_decide_eq_false_2 in H by done.
  apply result_mapM_Forall2 in H. eapply Forall2_impl; [done|]. by intros name h ?%ok_or_ok.
Qed.
End Properties.

(** ** Concrete inputs *)

Section Instances.

(** Programs that make every file they are told of, and those that [cockroach] documents. *)
Definition example_outputs (args : list string) : list string :=
  (args ++ ((λ a, a +:+ ".pub") <$> args) ++
   match args with
   | "cert" :: "create-ca" :: _ :: d :: _ => [path_join d "ca.crt"]
   | "cert" :: "create-client" :: u :: _ :: d :: _ =>
       [path_join d ("client." +:+ u +:+ ".crt"); path_join d ("client." +:+ u +:+ ".key")]
   | "cert" :: "create-node" :: _ :: _ :: _ :: d :: _ => [path_join d "node.crt"; path_join d "node.key"]
   | _ => []
   end)%list.
Definition add_files (l : list string) (s : FS) : FS := foldr (λ p, <[p := "made"]>) s l.
Definition example_tools : Os :=
  {| stat_ok _ _ := true; read_ok _ _ := true; write_ok _ _ := true;
     run _ args s := (Exited 0, add_files (example_outputs args) s) |}.

Lemma add_files_spec l s p : is_Some (add_files l s !! p) ↔ p ∈ l ∨ is_Some (s !! p).
Proof.
  induction l as [|q l IH]; simpl; [rewrite elem_of_nil; tauto|].
  rewrite lookup_insert_is_Some', IH, elem_of_cons. intuition congruence.
Qed.

Lemma example_tool_laws : @ToolLaws example_tools.
Proof.
  assert (∀ c args s s', run (Os := example_tools) c args s = (Exited 0, s') →
    ∀ p, p ∈ example_outputs args → is_Some (s' !! p)) as Hrun.
  { intros c args s s' [= <-] p Hp. apply add_files_spec. by left. }
  split.
  - intros c args s st s' [= _ <-] p Hp. apply add_files_spec. by right.
  - intros before p after s s' H. apply (Hrun _ _ _ _ H). unfold example_outputs.
    apply elem_of_app. left. apply elem_of_app. right. right. by left.
  - intros before p after s s' H. apply (Hrun _ _ _ _ H). unfold example_outputs.
    apply elem_of_app. left. apply elem_of_app. right. right. by left.
  - intros d key rest s s' H. split; apply (Hrun _ _ _ _ H); unfold example_outputs;
      rewrite !elem_of_app; [right; right; by left|left; do 5 right; by left].
  - intros u d rest s s' H. split; apply (Hrun _ _ _ _ H); unfold example_outputs;
      rewrite !elem_of_app; right; right; [by left|right; by left].
Qed.

#[local] Existing Instance example_mgr_types.
#[local] Existing Instance example_manager.
#[local] Existing Instance list_order.
#[local] Existing Instance example_tools.
#[local] Existing Instance example_macaroons.
#[local] Existing Instance example_seeds.
Definition example_deploy_lib : DeployLib :=
  {| pem_ip_names _ := Ok [[199; 127; 64; 2]]; host_to_toml h := Ok (h_name h) |}.
#[local] Existing Instance example_deploy_lib.

Definition example_install : result failure () * FS :=
  prepare_install example_config false "secret" (Ok (true : @Mnemonic _ example_seeds)) ∅.

Lemma example_install_ok : example_install.1 = Ok ().
Proof. vm_compute. reflexivity. Qed.

Definition example_kld : Host :=
  default (mk_host "" "" [] None None None None None None None "" "" [] [] [] [] None None None
    None None [] false false "" None None None None None [] None) (hosts example_config !! "kld-00").

Lemma example_kld_lookup : hosts example_config !! "kld-00" = Some example_kld.
Proof. vm_compute. reflexivity. Qed.

Lemma installed_hosts_get_their_secrets_witness :
  ∃ tmp, host_secrets example_kld (secret_directory (global example_config)) "t" (λ _, true)
           example_install.2 = (Ok tmp, example_install.2).
Proof.
  destruct (installed_hosts_get_their_secrets (HOL := list_order_laws) (MG := example_manager) (RL := backtrack_laws)
    (TL := example_tool_laws) "kld.toml" "/" false true example_config false "secret"
    (Ok (true : @Mnemonic _ example_seeds)) ∅ () example_install.2 "kld-00" example_kld "t" (λ _, true))
    as [Hiff _].
  - exact example_config_ok.
  - rewrite <- example_install_ok. apply surjective_pairing.
  - exact example_kld_lookup.
  - done.
  - done.
  - apply Hiff. split; vm_compute; by eexists.
Defined.

(** A host with an access list whose IPv6 address is not in the certificate. *)
Definition example_open : Host :=
  mk_host "kld" "kld-node" [] None (Some (V4 199 127 64 2)) None None (Some (V6 [1; 0; 0; 0; 0; 0; 0; 2]))
    None None "root" "kld" [] [] [] [] None None None None None [V4 1 1 1 1] false false "" None None
    None None None [] None.

Lemma new_ipv6_address_is_overlooked_witness :
  create_cert "/c" "/c/ca.key" "/c/ca.pem" example_open {["/c/kld.key" := "k"; "/c/kld.pem" := "p"]} =
    (Ok (), {["/c/kld.key" := "k"; "/c/kld.pem" := "p"]}).
Proof.
  apply (proj1 (new_ipv6_address_is_overlooked (OS := example_tools) "/c" "/c/ca.key" "/c/ca.pem"
    example_open {["/c/kld.key" := "k"; "/c/kld.pem" := "p"]} [V4 199 127 64 2]
    (V6 [1; 0; 0; 0; 0; 0; 0; 2]) ltac:(by eexists) ltac:(by eexists) eq_refl eq_refl
    ltac:(reflexivity) ltac:(done))).
  - done.
  - refine (bool_decide_unpack _ _). done.
  - intros ip4 [= <-]. refine (bool_decide_unpack _ _). done.
Defined.

Example flake_example :
  (generate_nixos_flake example_config (mk_flake_env false true) "/tmp/f" ∅).2 !! "/tmp/f/kld-00.toml" =
  Some ("deployment_flake = " +:+ quoted "github:kuutamolabs/test-env-one" +:+ newline +:+
        "upgrade_order = 2" +:+ newline +:+ "keep_root = true" +:+ newline +:+ "kld-00").
Proof. vm_compute. reflexivity. Qed.

Example filter_hosts_unknown :
  filter_hosts "kld-00,x" (hosts example_config) = Err "no host named 'x' found in configuration".
Proof. vm_compute. reflexivity. Qed.
End Instances.
