(* ===== verification/Hosts.v ===== *)
(** * The commands of the deployment manager on hosts

    src/mgr/src: install.rs, nixos_rebuild.rs, reboot.rs, ssh.rs, utils.rs, generate_config.rs and
    the commands of main.rs. The state is the files and the programs that were started, with
    their arguments; what a program does is the class [Files.Os], and what one that is talked to
    through its pipes answers is the class [Remote]. *)

From Stdlib Require Import Ascii.
From stdpp Require Import gmap.
From S2P Require Import Prelude Text RustStd Patterns Files Config Auth Keys Deploy.

#[local] Open Scope string_scope.
#[local] Open Scope Z_scope.

(** ** State *)

Record call := mk_call { program : string; arguments : list string }.
#[export] Instance call_eq_dec : EqDecision call.
Proof. solve_decision. Defined.

Record Operator := mk_operator { files : FS; issued : list call }.

(** [StillWaiting]: a loop of the code that has no bound has taken as many rounds as it was
    given here. *)
Inductive trouble :=
| Failed (f : failure)
| BadConfig (e : ConfigError)
| BadHosts (e : string)
| StillWaiting.

Abbreviation hostm := (cmd Operator trouble).

(** [spawn]: nothing when the program does not start; otherwise whether it took what was written
    to it, and what it wrote until it closed its output, if that is text. [read_dir]: the names
    in a directory. *)
Class Remote := {
  spawn : string → list string → string → FS → option (bool * option string) * FS;
  read_dir : FS → string → option (list string);
  macos : bool;
}.

Section Operations.
Context {HO : HashOrder} {MT : MgrTypes} {MG : Manager} {OS : Os} {DL : DeployLib}.
Context {MC : Macaroons} {SD : Seeds} {RE : Remote}.

Definition in_files {A} (m : filem A) : hostm A := λ o,
  let '(r, s) := m (files o) in (map_err Failed r, mk_operator s (issued o)).
Definition fail_with {A} (f : failure) : hostm A := cmd_err (Failed f).

(** [Command::new(..).args(..).status()]. *)
Definition issue (command : string) (args : list string) : hostm Status := λ o,
  let '(st, s) := run command args (files o) in
  (Ok st, mk_operator s (issued o ++ [mk_call command args])).
Definition issue_checked (command : string) (args : list string) : hostm () :=
  let* st := issue command args in cmd_lift (map_err Failed (status_to_pretty_err st command args)).
(** [.status().context(..)?], [.output().context(..)?]. *)
Definition issue_started (what command : string) (args : list string) : hostm Status :=
  let* st := issue command args in
  if bool_decide (st = NotStarted) then fail_with (WithContext what (CommandFailed command args st))
  else cmd_ret st.

(** ** utils.rs *)

Definition timeout_ssh (h : Host) (command : list string) (learn_known_host_key : bool) :
    hostm Status :=
  issue_started "Failed to run ssh..." "ssh"
    (["-o"; "ConnectTimeout=10"; "-o"; "StrictHostKeyChecking=no"] ++
     (if negb learn_known_host_key then ["-o"; "UserKnownHostsFile=/dev/null"] else []) ++
     [deploy_ssh_target h; "--"] ++ command)%list.

Definition unlock_args (h : Host) : list string :=
  ["-p"; "2222"; "-o"; "ConnectTimeout=10"; "-o"; "StrictHostKeyChecking=no";
   deploy_ssh_target h; "cryptsetup-askpass"].
Definition unlock_over_ssh (h : Host) (key_file : string) : hostm () :=
  let* key := in_files (fs_read key_file) in
  λ o,
    let '(answer, s) := spawn "ssh" (unlock_args h) (key +:+ newline) (files o) in
    (match answer with
     | None => Err (Failed (CommandFailed "ssh" (unlock_args h) NotStarted))
     | Some (false, _) => Err (Failed (LibraryError "failed to enter password"))
     | Some (true, Some output) =>
         if starts_with "Passphrase for" output then Ok ()
         else Err (Failed (LibraryError "sshd response unexpected"))
     | Some (true, None) => Err (Failed (LibraryError "sshd response unexpected"))
     end, mk_operator s (issued o ++ [mk_call "ssh" (unlock_args h)])).

(** [if let Ok(..)]: a failure of the first attempt is the same as a host that does not answer. *)
Definition attempt_hosts {A} (m : hostm A) : hostm (option A) := λ o,
  match m o with
  | (Ok a, o) => (Ok (Some a), o)
  | (Err _, o) => (Ok None, o)
  | (Panic w, o) => (Panic w, o)
  end.
Definition try_unlock_over_ssh (h : Host) (key_file : string) : hostm () :=
  let* result := attempt_hosts (timeout_ssh h ["exit"] true) in
  if bool_decide (result = Some (Exited 0)) then cmd_ret () else unlock_over_ssh h key_file.

(** ** install.rs *)

(** A loop that ends when its body says so. *)
Fixpoint wait_until (fuel : nat) (m : hostm bool) : hostm () :=
  match fuel with
  | O => cmd_err StillWaiting
  | S fuel => let* done := m in if done : bool then cmd_ret () else wait_until fuel m
  end.

Record InstallArgs := mk_install_args {
  kexec_url : string; install_debug : bool; no_reboot : bool; generate_secret_on_remote : bool;
}.
Definition connection_string (h : Host) : string :=
  if bool_decide (h_install_ssh_user h = "") then h_hostname h
  else h_install_ssh_user h +:+ "@" +:+ h_hostname h.

(** The paths of the temporary directories are arguments; [tmp_ok] says what can be written there. *)
Definition nixos_anywhere_args (a : InstallArgs) (flake secrets_dir secrets_path : string) (h : Host) :
    list string :=
  (["--extra-files"; secrets_path; "--disk-encryption-keys"; "/var/lib/disk_encryption_key";
    path_join secrets_dir "disk_encryption_key"; "--kexec"; kexec_url a; "--flake";
    flake_uri h flake; "--option"; "accept-flake-config"; "true"] ++
   (if macos then ["--build-on-remote"] else []) ++
   (if install_debug a then ["--debug"] else []) ++
   (if no_reboot a then ["--no-reboot"] else []) ++ [connection_string h])%list.

Definition install_host (fuel : nat) (env : flake_env) (a : InstallArgs)
    (flake secrets_dir access_tokens secrets_path : string) (tmp_ok : string → bool) (h : Host) :
    hostm () :=
  let disk_encryption_key := path_join secrets_dir "disk_encryption_key" in
  let* _ := in_files (context "Failed to get secrets"
                        (host_secrets h secrets_dir access_tokens tmp_ok)) in
  let* _ := issue_checked "nixos-anywhere"
              (nixos_anywhere_args a flake secrets_dir secrets_path h) in
  if no_reboot a then cmd_ret () else
  let* _ := wait_until fuel
              (let* unlocked := attempt_hosts (try_unlock_over_ssh h disk_encryption_key) in
               cmd_ret (bool_decide (is_Some unlocked))) in
  let* _ := issue_started "Failed to run ssh-keygen to remove old keys..." "ssh-keygen"
              ["-R"; h_hostname h] in
  if flake_check env || debug env
  then wait_until fuel (let* st := timeout_ssh h ["exit"; "0"] true in
                        cmd_ret (bool_decide (st = Exited 0)))
  else cmd_ret ().

Definition flake_show (flake : string) : hostm () := λ o,
  let '(r, o) := issue_checked "nix" ["flake"; "show"; "--extra-experimental-features";
                                      "flakes nix-command"; flake] o in
  (map_err (λ t, match t with Failed f => Failed (WithContext "cannot show flake" f) | t => t end) r, o).

Definition install (fuel : nat) (env : flake_env) (a : InstallArgs)
    (flake secrets_dir access_tokens secrets_path : string) (tmp_ok : string → bool)
    (hosts : list Host) : hostm () :=
  let* _ := flake_show flake in
  cmd_forM (install_host fuel env a flake secrets_dir access_tokens secrets_path tmp_ok) hosts.

(** ** ssh.rs, reboot.rs, nixos_rebuild.rs *)

Definition ssh_host (command : list string) (h : Host) : hostm () :=
  issue_checked "ssh" (deploy_ssh_target h :: "--" :: command).
Definition ssh (hosts : list Host) (command : list string) : hostm () :=
  cmd_forM (ssh_host command) hosts.
Definition reboot (hosts : list Host) : hostm () := ssh hosts ["nohup reboot &>/dev/null & exit"].

Definition upload (secrets_path ssh_target : string) : hostm () :=
  issue_checked "rsync" ["-vrlF"; "-e"; "ssh"; secrets_path +:+ "/"; ssh_target +:+ ":/"].

Definition rebuild_args (action : string) (h : Host) (flake : string) : list string :=
  ([if bool_decide (action = "rollback") then "switch" else action;
    "--flake"; flake_uri h flake; "--option"; "accept-flake-config"; "true"; "--target-host";
    deploy_ssh_target h; "--build-host"; (if macos then deploy_ssh_target h else "");
    "--use-substitutes"; "--fast"] ++
   (if bool_decide (action = "rollback") then ["--rollback"] else []))%list.

(** [for i in 1..3]: the second failure is returned. *)
Definition rebuild_twice (args : list string) : hostm () := λ o,
  match issue_checked "nixos-rebuild" args o with
  | (Err _, o) => issue_checked "nixos-rebuild" args o
  | r => r
  end.

Definition nixos_rebuild (action : string) (h : Host) (flake secrets_dir access_tokens : string)
    (secrets_path : string) (tmp_ok : string → bool) (collect_garbage : bool) : hostm () :=
  let* _ := in_files (host_secrets h secrets_dir access_tokens tmp_ok) in
  let target := deploy_ssh_target h in
  let* _ := (λ o, let '(r, o) := upload secrets_path target o in
               (map_err (λ t, match t with
                              | Failed f => Failed (WithContext "Failed to upload secrets" f)
                              | t => t end) r, o)) in
  let* _ := rebuild_twice (rebuild_args action h flake) in
  if collect_garbage then
    let* _ := issue "ssh" [target; "--"; "nix-collect-garbage"; "--delete-older-than"; "14d"] in
    cmd_ret ()
  else cmd_ret ().

(** ** generate_config.rs *)

(** Only the files of the directory itself. *)
Definition copy_dir_all (src dst : string) : filem () :=
  let* _ := context ("Cannot creating target directory '" +:+ dst +:+ "'") (create_dir_all dst) in
  let* names := (λ s, (ok_or (IoError src) (read_dir s src), s)) in
  cmd_forM (λ name, let* content := fs_read (path_join src name) in
                    fs_write (path_join dst name) content) names.
Definition generate_config (directory flake : string) : hostm () :=
  in_files (context "failed to copy flake" (copy_dir_all flake directory)).

(** ** main.rs *)

Inductive Command :=
| GenerateConfig (directory : string)
| GenerateExample
| Install (spec : string) (a : InstallArgs)
| Ssh (spec : string) (command : option (list string))
| Reboot (spec : string)
| SystemInfo (spec : string)
| Unlock (spec : string) (key_file : option string).

(** [ask_yes_no]; [line]: what is read from the terminal, if it can be. *)
Definition ask_yes_no (line : option string) : bool :=
  match line with
  | Some line =>
      let normalized := to_ascii_lowercase (trim_end_of [newline] line) in
      bool_decide (normalized = "y") || bool_decide (normalized = "yes")
  | None => false
  end.

(** What the process is given: the options, the line on the terminal, the environment, the random
    values and the paths of its temporary directories. *)
Record Invocation := mk_invocation {
  inv_config : string; inv_yes : bool; inv_line : option string; inv_env : flake_env;
  inv_disk_secret : string; inv_fresh : result string Mnemonic;
  inv_flake : string; inv_secrets : string; inv_tmp_ok : string → bool;
}.

Definition config_of (i : Invocation) (preset check : bool) : hostm Config :=
  cmd_lift (map_err BadConfig (load_configuration (inv_config i) preset check)).
Definition selected (spec : string) (config : Config) : hostm (list Host) :=
  cmd_lift (map_err BadHosts (filter_hosts spec (hosts config))).

Definition print_host_info (h : Host) : hostm () :=
  let* _ := issue "ssh" [deploy_ssh_target h; "--"; "kld-ctl"; "system-info"] in cmd_ret ().

Definition run_install (fuel : nat) (i : Invocation) (spec : string) (a : InstallArgs)
    (config : Config) : hostm () :=
  let* hs := selected spec config in
  if negb (inv_yes i) && negb (ask_yes_no (inv_line i)) then cmd_ret () else
  install fuel (inv_env i) a (inv_flake i) (secret_directory (global config))
    (access_tokens (global config)) (inv_secrets i) (inv_tmp_ok i) hs.

Definition run_unlock (spec : string) (key_file : option string) (config : Config) : hostm () :=
  let disk_encryption_key :=
    default (path_join (secret_directory (global config)) "disk_encryption_key") key_file in
  let* hs := selected spec config in
  cmd_forM (λ h, try_unlock_over_ssh h disk_encryption_key) hs.

Definition mgr_main (fuel : nat) (i : Invocation) (action : Command) : hostm () :=
  match action with
  | GenerateExample => cmd_ret ()
  | Install spec a =>
      let* config := config_of i (negb (generate_secret_on_remote a)) true in
      let* _ := in_files (prepare_install config (generate_secret_on_remote a) (inv_disk_secret i)
                            (inv_fresh i)) in
      let* _ := in_files (context "failed to generate flake"
                            (generate_nixos_flake config (inv_env i) (inv_flake i))) in
      run_install fuel i spec a config
  | Unlock spec key_file =>
      let* config := config_of i false false in run_unlock spec key_file config
  | _ =>
      let* config := config_of i false false in
      let* _ := in_files (context "failed to generate flake"
                            (generate_nixos_flake config (inv_env i) (inv_flake i))) in
      match action with
      | GenerateConfig directory => generate_config directory (inv_flake i)
      | Ssh spec command =>
          let* hs := selected spec config in ssh hs (default [] command)
      | Reboot spec => let* hs := selected spec config in reboot hs
      | SystemInfo spec => let* hs := selected spec config in cmd_forM print_host_info hs
      | _ => cmd_panic "internal error: entered unreachable code"
      end
  end.
End Operations.

(** ** Whom a command contacts *)

(** The host that a call goes to: the first argument of [ssh] that is no option, the last of
    [nixos-anywhere]. *)
Fixpoint ssh_destination (args : list string) : option string :=
  match args with
  | a :: ((_ :: l) as rest) =>
      if bool_decide (a ∈ ["-o"; "-p"]) then ssh_destination l else Some a
  | a :: [] => Some a
  | [] => None
  end.
Definition destination (c : call) : option string :=
  if bool_decide (program c = "ssh") then ssh_destination (arguments c)
  else if bool_decide (program c = "nixos-anywhere") then last (arguments c)
  else None.

(** Every call that [m] makes is one of [P]. *)
Definition calls_only {A} (P : call → Prop) (m : hostm A) : Prop :=
  ∀ o r o', m o = (r, o') → ∀ c, c ∈ issued o' → c ∈ issued o ∨ P c.

Section Calls.
Context {HO : HashOrder} {MT : MgrTypes} {MG : Manager} {OS : Os} {DL : DeployLib}.
Context {MC : Macaroons} {SD : Seeds} {RE : Remote}.
Context (P : call → Prop).

Lemma calls_ret {A} (a : A) : calls_only P (cmd_ret a : hostm A).
Proof. intros o r o' [= _ <-]. by left. Qed.
Lemma calls_lift {A} (x : result trouble A) : calls_only P (cmd_lift x : hostm A).
Proof. intros o r o' [= _ <-]. by left. Qed.
Lemma calls_err {A} e : calls_only P (cmd_err e : hostm A).
Proof. intros o r o' [= _ <-]. by left. Qed.
Lemma calls_panic {A} w : calls_only P (cmd_panic w : hostm A).
Proof. intros o r o' [= _ <-]. by left. Qed.
Lemma calls_bind {A B} (m : hostm A) (f : A → hostm B) :
  calls_only P m → (∀ a, calls_only P (f a)) → calls_only P (cmd_bind m f).
Proof.
  intros Hm Hf o r o'. unfold cmd_bind. destruct (m o) as [[a|e|w] o1] eqn:Ho.
  - intros H c Hc. destruct (Hf a o1 r o' H c Hc) as [Hc1|]; [|by right].
    exact (Hm o _ o1 Ho c Hc1).
  - intros [= <- <-]. exact (Hm o _ o1 Ho).
  - intros [= <- <-]. exact (Hm o _ o1 Ho).
Qed.
Lemma calls_files {A} (m : filem A) : calls_only P (in_files m).
Proof.
  intros o r o'. unfold in_files. destruct (m (files o)) as [x s]. intros [= _ <-]. by left.
Qed.
Lemma calls_forM {A} (f : A → hostm ()) l :
  (∀ a, a ∈ l → calls_only P (f a)) → calls_only P (cmd_forM f l).
Proof.
  induction l as [|a l IH]; intros Hf; simpl; [apply calls_ret|]. apply calls_bind.
  - apply Hf. by left.
  - intros _. apply IH. intros b Hb. apply Hf. by right.
Qed.
Lemma calls_issue command args : P (mk_call command args) → calls_only P (issue command args).
Proof.
  intros HP o r o'. unfold issue. destruct (run _ _ _) as [st s]. intros [= _ <-] c. simpl.
  rewrite elem_of_app, list_elem_of_singleton. intros [Hc| ->]; [by left|by right].
Qed.
Lemma calls_checked command args : P (mk_call command args) → calls_only P (issue_checked command args).
Proof. intros HP. apply calls_bind; [by apply calls_issue|intros; apply calls_lift]. Qed.
Lemma calls_started what command args : P (mk_call command args) →
  calls_only P (issue_started what command args).
Proof.
  intros HP. apply calls_bind; [by apply calls_issue|intros st].
  case_bool_decide; [apply calls_err|apply calls_ret].
Qed.
Lemma calls_map {A} (m : hostm A) f :
  calls_only P m → calls_only P (λ o, let '(r, o) := m o in (map_err f r, o)).
Proof. intros Hm o r o'. destruct (m o) as [x o1] eqn:Ho. intros [= _ <-]. exact (Hm o _ o1 Ho). Qed.
Lemma calls_attempt {A} (m : hostm A) : calls_only P m → calls_only P (attempt_hosts m).
Proof.
  intros Hm o r o'. unfold attempt_hosts. destruct (m o) as [[a|e|w] o1] eqn:Ho;
    intros [= _ <-]; exact (Hm o _ o1 Ho).
Qed.
Lemma calls_wait fuel m : calls_only P m → calls_only P (wait_until fuel m).
Proof.
  intros Hm. induction fuel as [|fuel IH]; simpl; [apply calls_err|].
  apply calls_bind; [done|]. intros []; [apply calls_ret|done].
Qed.
End Calls.

Create HintDb calls.
#[export] Hint Resolve calls_ret calls_lift calls_err calls_panic calls_files : calls.

(** The calls that go to one of [hs], or to no host. *)
Definition goes_to `{MgrTypes} (hs : list Host) (c : call) : Prop :=
  destination c = None ∨
  ∃ h, h ∈ hs ∧ (destination c = Some (deploy_ssh_target h) ∨
                 destination c = Some (connection_string h)).

Definition spec_of (action : Command) : string :=
  match action with
  | Install spec _ | Ssh spec _ | Reboot spec | SystemInfo spec | Unlock spec _ => spec
  | GenerateConfig _ | GenerateExample => ""
  end.

Section Contacts.
Context {HO : HashOrder} {MT : MgrTypes} {MG : Manager} {OS : Os} {DL : DeployLib}.
Context {MC : Macaroons} {SD : Seeds} {RE : Remote}.

Lemma ssh_goes_to (h : Host) l :
  destination (mk_call "ssh" (deploy_ssh_target h :: "--" :: l)) = Some (deploy_ssh_target h).
Proof. reflexivity. Qed.
Lemma goes_to_ssh h hs l : h ∈ hs → goes_to hs (mk_call "ssh" (deploy_ssh_target h :: "--" :: l)).
Proof. intros Hh. right. exists h. split; [done|left]. apply ssh_goes_to. Qed.

Lemma timeout_ssh_calls h hs command learn : h ∈ hs → calls_only (goes_to hs) (timeout_ssh h command learn).
Proof.
  intros Hh. apply calls_started. right. exists h. split; [done|left]. destruct learn.
  - exact (ssh_goes_to h command).
  - exact (ssh_goes_to h command).
Qed.
Lemma unlock_calls h hs key : h ∈ hs → calls_only (goes_to hs) (unlock_over_ssh h key).
Proof.
  intros Hh. apply calls_bind; [apply calls_files|]. intros k o r o'.
  destruct (spawn _ _ _ _) as [x s]. intros [= _ <-] c. simpl.
  rewrite elem_of_app, list_elem_of_singleton. intros [Hc| ->]; [by left|right].
  right. exists h. split; [done|left]. reflexivity.
Qed.
Lemma try_unlock_calls h hs key : h ∈ hs → calls_only (goes_to hs) (try_unlock_over_ssh h key).
Proof.
  intros Hh. apply calls_bind; [by apply calls_attempt, timeout_ssh_calls|]. intros r.
  case_bool_decide; [apply calls_ret|by apply unlock_calls].
Qed.

Lemma install_host_calls h hs fuel env a flake sd at_ sp ok : h ∈ hs →
  calls_only (goes_to hs) (install_host fuel env a flake sd at_ sp ok h).
Proof.
  intros Hh. unfold install_host. apply calls_bind; [apply calls_files|intros _].
  apply calls_bind.
  { apply calls_checked. right. exists h. split; [done|right]. unfold destination.
    rewrite bool_decide_eq_false_2, bool_decide_eq_true_2 by done.
    simpl arguments. unfold nixos_anywhere_args. rewrite !app_assoc. apply last_snoc. }
  intros _. destruct (no_reboot a); [apply calls_ret|].
  apply calls_bind.
  { apply calls_wait, calls_bind; [by apply calls_attempt, try_unlock_calls|].
    intros; apply calls_ret. }
  intros _. apply calls_bind; [apply calls_started; by left|intros _].
  destruct (flake_check env || debug env); [|apply calls_ret].
  apply calls_wait, calls_bind; [by apply timeout_ssh_calls|intros; apply calls_ret].
Qed.
Lemma flake_show_calls P flake :
  P (mk_call "nix" ["flake"; "show"; "--extra-experimental-features"; "flakes nix-command"; flake]) →
  calls_only P (flake_show flake).
Proof. intros HP. apply calls_map. by apply calls_checked. Qed.
Lemma install_calls hs fuel env a flake sd at_ sp ok :
  calls_only (goes_to hs) (install fuel env a flake sd at_ sp ok hs).
Proof.
  apply calls_bind; [apply flake_show_calls; by left|intros _]. apply calls_forM.
  intros h Hh. by apply install_host_calls.
Qed.

(** What a command may call: nothing that goes to a host before the hosts are selected. *)
Definition contacts (config_path : string) (spec : string) (c : call) : Prop :=
  destination c = None ∨
  ∃ config hs, (∃ preset check, load_configuration config_path preset check = Ok config) ∧
    filter_hosts spec (hosts config) = Ok hs ∧ goes_to hs c.

Lemma calls_only_impl {A} (P Q : call → Prop) (m : hostm A) :
  (∀ c, P c → Q c) → calls_only P m → calls_only Q m.
Proof. intros H Hm o r o' Ho c Hc. destruct (Hm o r o' Ho c Hc); auto. Qed.

Lemma calls_selected {A} i spec config preset check (k : list Host → hostm A) :
  load_configuration (inv_config i) preset check = Ok config →
  (∀ hs, calls_only (goes_to hs) (k hs)) →
  calls_only (contacts (inv_config i) spec) (let* hs := selected spec config in k hs).
Proof.
  intros Hc Hk o r o'. unfold selected, cmd_bind, cmd_lift.
  destruct (filter_hosts spec (hosts config)) as [hs|e|w] eqn:Hf; simpl;
    [|intros [= _ <-]; by left..].
  intros H c Hin. destruct (Hk hs o r o' H c Hin) as [|Hg]; [by left|]. right. right.
  exists config, hs. split; [by eexists _, _|done].
Qed.
Lemma calls_config {A} P i preset check (k : Config → hostm A) :
  (∀ config, load_configuration (inv_config i) preset check = Ok config → calls_only P (k config)) →
  calls_only P (let* config := config_of i preset check in k config).
Proof.
  intros Hk o r o'. unfold config_of, cmd_bind, cmd_lift.
  destruct (load_configuration _ _ _) as [config|e|w] eqn:Hc; simpl; [|intros [= _ <-]; by left..].
  by apply Hk.
Qed.

(** [C18] Only the hosts that were asked for are contacted: whatever the programs do and however
    far a command comes, every call of [ssh] and [nixos-anywhere] goes to a host of the
    configuration that the list of hosts on the command line names, and with a name that is not
    in the configuration, or an installation that is not confirmed, to none at all. *)
Theorem only_named_hosts_are_contacted fuel i action o r o' :
  mgr_main fuel i action o = (r, o') →
  (∀ c, c ∈ issued o' → c ∈ issued o ∨ contacts (inv_config i) (spec_of action) c) ∧
  (∀ spec a, action = Install spec a → inv_yes i = false → ask_yes_no (inv_line i) = false →
     ∀ c, c ∈ issued o' → c ∈ issued o).
Proof.
  intros Hm. split.
  - revert o r o' Hm. change (calls_only (contacts (inv_config i) (spec_of action))
                                (mgr_main fuel i action)).
    destruct action as [dir| |spec a|spec command|spec|spec|spec key]; simpl.
    all: try (apply calls_config; intros config Hc; apply calls_bind; [apply calls_files|intros _]).
    + apply calls_files.
    + apply calls_ret.
    + apply calls_bind; [apply calls_files|intros _]. eapply calls_selected; [exact Hc|]. intros hs.
      destruct (negb _ && _); [apply calls_ret|apply install_calls].
    + eapply calls_selected; [exact Hc|]. intros hs. apply calls_forM. intros h Hh.
      apply calls_checked. by apply goes_to_ssh.
    + eapply calls_selected; [exact Hc|]. intros hs. apply calls_forM. intros h Hh.
      apply calls_checked. by apply goes_to_ssh.
    + eapply calls_selected; [exact Hc|]. intros hs. apply calls_forM. intros h Hh.
      apply calls_bind; [apply calls_issue; by apply goes_to_ssh|intros; apply calls_ret].
    + apply calls_config. intros config Hc. eapply calls_selected; [exact Hc|]. intros hs.
      apply calls_forM. intros h Hh. by apply try_unlock_calls.
  - intros spec a -> Hy Hl c Hc.
    assert (calls_only (λ _, False) (mgr_main fuel i (Install spec a))) as Hnone.
    { simpl. apply calls_config. intros config _. apply calls_bind; [apply calls_files|intros _].
      apply calls_bind; [apply calls_files|intros _]. apply calls_bind; [apply calls_lift|intros hs].
      rewrite Hy, Hl. apply calls_ret. }
    by destruct (Hnone o r o' Hm c Hc).
Qed.

(** ** Order, and the end of waiting *)

(** A command on hosts runs on one after the other until one fails. *)
Lemma ssh_stops_at_failure hs command o r o' : ssh hs command o = (r, o') →
  ∃ done rest, hs = (done ++ rest)%list ∧
    issued o' = (issued o ++
      ((λ h, mk_call "ssh" (deploy_ssh_target h :: "--" :: command)) <$> done))%list ∧
    (r = Ok () ∧ rest = [] ∨
     ∃ pre h st, done = (pre ++ [h])%list ∧ st ≠ Exited 0 ∧
       r = Err (Failed (CommandFailed "ssh" (deploy_ssh_target h :: "--" :: command) st))).
Proof.
  revert o. unfold ssh. induction hs as [|h hs IH]; intros o; cbn [cmd_forM].
  - intros [= <- <-]. exists [], []. split_and!; [done|by rewrite app_nil_r|by left].
  - unfold cmd_bind at 1, ssh_host, issue_checked, cmd_bind at 1, issue.
    destruct (run _ _ _) as [st s]. unfold cmd_lift.
    destruct (decide (st = Exited 0)) as [->|Hst]; cbn [status_to_pretty_err map_err].
    + intros H. apply IH in H as (d & rest & -> & Hi & Hr). exists (h :: d), rest.
      split; [done|]. split; [by rewrite Hi; simpl; rewrite <- app_assoc|].
      destruct Hr as [Hr|(pre & h' & st & -> & Hr)]; [by left|right].
      by exists (h :: pre), h', st.
    + assert (status_to_pretty_err st "ssh" (deploy_ssh_target h :: "--" :: command) =
              Err (CommandFailed "ssh" (deploy_ssh_target h :: "--" :: command) st)) as ->
        by (by destruct st as [|[]|]).
      cbn [map_err]. intros [= <- <-]. exists [h], hs. split; [done|]. split; [done|].
      right. by exists [], h, st.
Qed.

(** Waiting longer gives the same result once the wait has ended. *)
Lemma wait_until_more fuel k m o r o' : wait_until fuel m o = (r, o') → r ≠ Err StillWaiting →
  (∀ o, (m o).1 ≠ Err StillWaiting) → wait_until (fuel + k) m o = (r, o').
Proof.
  intros Hw Hr Hm. revert o Hw. induction fuel as [|fuel IH]; intros o Hw; cbn in *.
  - injection Hw as <- _. by destruct Hr.
  - unfold cmd_bind in *. destruct (m o) as [[[]|e|w] o1]; [done|by apply IH|done..].
Qed.
End Contacts.

(** ** Concrete inputs *)

Section Instances.
#[local] Existing Instance example_mgr_types.
#[local] Existing Instance list_order.
#[local] Existing Instance example_tools.
#[local] Existing Instance example_macaroons.
#[local] Existing Instance example_seeds.
#[local] Existing Instance example_deploy_lib.

Definition reading_manager : Manager :=
  {| mgr_regex := backtrack; toml_from_str := toml_from_str (Manager := example_manager);
     hex_colour := hex_colour (Manager := example_manager);
     is_public_key := is_public_key (Manager := example_manager);
     base64_decode := base64_decode (Manager := example_manager);
     default_hash := default_hash (Manager := example_manager);
     read_to_string s := Some s; parent s := Some "/"; env_var s := None;
     monitoring_status u p := None; nix_flake_show t f := Some true |}.
#[local] Existing Instance reading_manager.
(** A host that asks for the passphrase whatever it is given. *)
Definition example_remote : Remote :=
  {| spawn _ _ _ s := (Some (true, Some "Passphrase for /dev/sda: "), s);
     read_dir _ _ := None; macos := false |}.
#[local] Existing Instance example_remote.

Definition example_invocation (yes : bool) : Invocation :=
  mk_invocation "kld.toml" yes (Some "n") (mk_flake_env false false) "secret"
    (Ok (true : @Mnemonic _ example_seeds)) "/tmp/flake" "/tmp/secrets" (λ _, true).
Definition run_example (yes : bool) (action : Command) : result trouble () * Operator :=
  mgr_main 5 (example_invocation yes) action (mk_operator ∅ []).

Lemma only_named_hosts_are_contacted_witness :
  issued (run_example false (Reboot "kld-00")).2 =
    [mk_call "ssh" ["root@199.127.64.2"; "--"; "nohup reboot &>/dev/null & exit"]] ∧
  (∀ c, c ∈ issued (run_example false (Reboot "kld-00")).2 → c ∈ [] ∨ contacts "kld.toml" "kld-00" c).
Proof.
  split; [vm_compute; reflexivity|].
  exact (proj1 (only_named_hosts_are_contacted 5 (example_invocation false) (Reboot "kld-00")
                  (mk_operator ∅ []) _ _ (surjective_pairing _))).
Defined.

(** A host that is still locked: nothing answers on the usual port. Whatever key it is given, the
    prompt is taken for success. *)
Definition locked_tools : Os :=
  {| stat_ok _ _ := true; read_ok _ _ := true; write_ok _ _ := true;
     run _ args s := (Exited 255, s) |}.
Example any_key_unlocks :
  (mgr_main (OS := locked_tools) 5 (example_invocation true) (Unlock "kld-00" (Some "/key"))
     (mk_operator {["/key" := "not the key"]} [])).1 = Ok ().
Proof. vm_compute. reflexivity. Qed.
End Instances.
