(* ===== verification/Ctl.v ===== *)
(** * What a host says of itself

    src/ctl: [kld-ctl system-info], which the deployment manager asks for over ssh
    ([Hosts.print_host_info]) and which an upgrade writes into the log of the host. The file of
    the system, the TOML parser and the programs that are asked for their version are the class
    [CtlHost]. *)

From Stdlib Require Import Ascii.
From stdpp Require Import list.
From S2P Require Import Prelude Text RustStd.

#[local] Open Scope string_scope.
#[local] Open Scope Z_scope.

Record SystemInfo := mk_system_info {
  git_sha : string;
  git_commit_date : string;
  deployment_flake : option string;
  upgrade_time : option string;
}.

(** [output]: nothing when the program does not start, otherwise whether it succeeded and what
    it wrote. *)
Class CtlHost := {
  file : string → option string;
  toml_system_info : string → option SystemInfo;
  output : string → list string → option (bool * string);
}.

Section Operations.
Context {CH : CtlHost}.

Definition read_system_info : result string SystemInfo :=
  let? content := ok_or "fail to read /etc/system-info.toml"
                    (file "/etc/system-info.toml" ≫= from_utf8) in
  ok_or "toml" (toml_system_info content).

(** The text after the first [separator] of the first line, and before the next one. *)
Definition version_in (separator stdout : string) : option string :=
  head (split_char "010"%char stdout) ≫= λ line, split_str separator line !! 1%nat.

Definition version_of (command : string) (args : list string) (separator missing failed : string) :
    result string string :=
  let? out := ok_or failed (output command args) in
  let? stdout := ok_or "utf8" (from_utf8 (snd out)) in
  ok_or missing (version_in separator stdout).

Definition bitcoind_version : result string string :=
  version_of "bitcoind" ["--version"] "Bitcoin Core version "
    "failed to parse version from bitcoind command output" "could not run bitcoind command".
Definition cockroach_version : result string string :=
  version_of "cockroach" ["version"] "Build Tag:        "
    "failed to parse version from cockroach output" "could not run cockroach command".
Definition kld_cli_version : result string string :=
  version_of "kld-cli" ["-V"] "kld "
    "failed to parse version from kld-cli command output" "could not run kld-cli command".

Definition disk_encrypted_status : result string bool :=
  let? out := ok_or "could not get disk encrypted status"
                (output "cryptsetup" ["isLuks"; "/dev/md/root"]) in
  Ok (fst out).

(** [if let Ok(..)] pushes an entry. *)
Definition entry (name : string) (r : result string string) : list (string * string) :=
  match r with Ok v => [(name, v)] | _ => [] end.
Definition entry_some (name : string) (o : option string) : list (string * string) :=
  match o with Some v => [(name, v)] | None => [] end.

Definition info : list (string * string) :=
  ([("kld-ctl version", "0.1.0");
    ("disk encrypted", match disk_encrypted_status with
                       | Ok b => if b : bool then "true" else "false"
                       | _ => "unknown"
                       end)] ++
   match read_system_info with
   | Ok s =>
       ("git sha", git_sha s) :: ("git commit date", git_commit_date s) ::
       entry_some "deployment flake" (deployment_flake s) ++
       entry_some "upgrade time" (upgrade_time s)
   | _ => []
   end ++
   entry "bitcoind version" bitcoind_version ++
   entry "cockroach version" cockroach_version ++
   entry "kld-cli version" kld_cli_version)%list.

(** The text that is printed, without the last line break. *)
Definition system_info (inline : bool) : string :=
  if inline
  then join " " ((λ i, replace " " "-" i.1 +:+ "=" +:+ i.2) <$> info)
  else join (String "010"%char "") ((λ i, i.1 +:+ ": " +:+ i.2) <$> info).

(** ** What is listed *)

Definition names : list string :=
  ["kld-ctl version"; "disk encrypted"; "git sha"; "git commit date"; "deployment flake";
   "upgrade time"; "bitcoind version"; "cockroach version"; "kld-cli version"].

Lemma entry_names name r : (entry name r).*1 = [name] ∨ (entry name r).*1 = [].
Proof. destruct r; auto. Qed.
Lemma entry_some_names name o : (entry_some name o).*1 = [name] ∨ (entry_some name o).*1 = [].
Proof. destruct o; auto. Qed.

(** Whatever the host answers, there is a report: no entry twice, in this order. *)
Theorem info_names : info.*1 `sublist_of` names.
Proof.
  unfold info, names. rewrite !fmap_app. cbn [fmap list_fmap app].
  do 2 apply sublist_skip.
  assert (∀ l, l `sublist_of` ["bitcoind version"; "cockroach version"; "kld-cli version"] →
    (match read_system_info with
     | Ok s => ("git sha", git_sha s) :: ("git commit date", git_commit_date s) ::
         entry_some "deployment flake" (deployment_flake s) ++
         entry_some "upgrade time" (upgrade_time s)
     | _ => []
     end).*1 ++ l `sublist_of` ["git sha"; "git commit date"; "deployment flake"; "upgrade time"] ++
       ["bitcoind version"; "cockroach version"; "kld-cli version"])%list as H.
  { intros l Hl. apply sublist_app; [|done]. destruct read_system_info; [|apply sublist_nil_l..].
    rewrite !fmap_cons, fmap_app. do 2 apply sublist_skip.
    destruct (entry_some_names "deployment flake" (deployment_flake a)) as [-> | ->],
      (entry_some_names "upgrade time" (upgrade_time a)) as [-> | ->]; simpl;
      repeat constructor. }
  apply H. destruct (entry_names "bitcoind version" bitcoind_version) as [-> | ->],
    (entry_names "cockroach version" cockroach_version) as [-> | ->],
    (entry_names "kld-cli version" kld_cli_version) as [-> | ->]; simpl; repeat constructor.
Qed.

(** ** Versions *)

(** A program that writes its name, the separator and its version on its first line. *)
Theorem version_read (sep pre v rest : string) c s : sep = String c s →
  over (λ a, a ≠ "010"%char) (pre +:+ sep +:+ v) → over (λ a, a ≠ c) pre → over (λ a, a ≠ c) v →
  version_in sep (pre +:+ sep +:+ v +:+ String "010"%char rest) = Some v ∧
  version_in sep (pre +:+ sep +:+ v) = Some v.
Proof.
  intros Hsep Hline Hpre Hv.
  assert (∀ u, over (λ a, a ≠ c) u → over (λ a, ∀ q, strip_prefix sep (String a q) = None) u) as Hno.
  { intros u. apply over_impl. intros a Ha q. rewrite Hsep. simpl.
    by destruct (Ascii.eqb_spec c a); [congruence|]. }
  assert (split_str sep (pre +:+ sep +:+ v) !! 1%nat = Some v) as Hs.
  { unfold split_str. rewrite !string_length_app.
    replace (String.length pre + _)%nat
      with (S (String.length pre + String.length s + String.length v)) by (rewrite Hsep; simpl; lia).
    cbn [split_str_fuel]. rewrite split_once_str_here; [|by apply Hno|].
    2: { rewrite strip_prefix_app. by eexists. }
    destruct (_ + _)%nat; cbn [split_str_fuel]; [done|].
    rewrite split_once_str_not; [done|by apply Hno|by rewrite Hsep]. }
  unfold version_in. split.
  - replace (pre +:+ sep +:+ v +:+ String "010"%char rest)
      with ((pre +:+ sep +:+ v) +:+ String "010"%char rest) by (by rewrite !append_assoc).
    rewrite split_char_app, split_char_over by done. done.
  - by rewrite split_char_over.
Qed.

(** ** The line of an upgrade is read back *)

Lemma names_inline n : n ∈ names →
  over (λ a, a ≠ " "%char) (replace " " "-" n) ∧ over (λ a, a ≠ "="%char) (replace " " "-" n).
Proof.
  intros Hn. repeat (apply elem_of_cons in Hn as [->|Hn]); [..|by apply elem_of_nil in Hn].
  all: split; refine (bool_decide_unpack _ _); vm_compute; exact I.
Qed.

(** Cut at the spaces and then at the first equals sign, the line has every entry, when no
    value has a space. *)
Theorem inline_is_read_back :
  (∀ n v, (n, v) ∈ info → over (λ a, a ≠ " "%char) v) →
  split_once "="%char <$> split_char " "%char (system_info true) =
    (λ i, Some (replace " " "-" i.1, i.2)) <$> info.
Proof.
  intros Hv.
  assert (∀ i, i ∈ info → i.1 ∈ names) as Hn.
  { intros i Hi. eapply elem_of_sublist; [|exact info_names]. by apply list_elem_of_fmap_2. }
  unfold system_info. rewrite split_char_join.
  - rewrite <- list_fmap_compose. apply list_fmap_ext. intros k i Hi%list_elem_of_lookup_2. simpl.
    change ("=" +:+ i.2) with (String "="%char i.2). apply split_once_over. by apply names_inline, Hn.
  - done.
  - apply Forall_fmap, Forall_forall. intros [n v] Hi. simpl.
    apply over_app. split; [by apply (names_inline n), (Hn (n, v))|].
    apply over_app. split; [by repeat constructor|by eapply Hv].
Qed.
End Operations.

(** ** A host of an installation *)

Section Instances.
#[local] Instance example_host : CtlHost := {|
  file p := if bool_decide (p = "/etc/system-info.toml") then Some "" else None;
  toml_system_info _ := Some (mk_system_info "abc" "20240601" None (Some "12:00"));
  output command _ :=
    if bool_decide (command = "bitcoind")
    then Some (true, "Bitcoin Core version v26.0.0" +:+ String "010"%char "Copyright")
    else if bool_decide (command = "cryptsetup") then Some (false, "") else None;
|}.

Example host_line : system_info true =
  "kld-ctl-version=0.1.0 disk-encrypted=false git-sha=abc git-commit-date=20240601 upgrade-time=12:00 bitcoind-version=v26.0.0".
Proof. vm_compute. reflexivity. Qed.

Lemma inline_is_read_back_witness :
  split_once "="%char <$> split_char " "%char (system_info true) =
    (λ i, Some (replace " " "-" i.1, i.2)) <$> info.
Proof.
  apply inline_is_read_back. intros n v Hi.
  assert (Forall (λ i, over (λ a, a ≠ " "%char) i.2) info) as H
    by (refine (bool_decide_unpack _ _); vm_compute; exact I).
  exact (proj1 (Forall_forall _ _) H (n, v) Hi).
Defined.
End Instances.
