(* ===== verification/Api.v ===== *)
(** * The REST API: errors and the requests about channels (src/kld/src/api/mod.rs, channels.rs)

    A handler turns a request into calls of the controller and their results into a response. A
    handler that does not wait is a command on the node with [api_error]s; fields of a response
    that copy a field of LDK's channel details as it is are represented by the details
    themselves. The Rust types of the responses are generated from spec.yaml. *)

From S2P Require Import NetAddress Prelude Text RustStd Sql Ldk Payment LdkDatabase Fees AsyncRequests Wallet Node Controller EventHandler.

(** ** Errors (api/mod.rs) *)

Inductive api_error :=
| Unauthorized
| NotFound (s : string)
| BadRequest (e : string)
| InternalServerError (e : string).

Definition status_code (e : api_error) : Z :=
  match e with
  | Unauthorized => 401 | NotFound _ => 404 | BadRequest _ => 400 | InternalServerError _ => 500
  end.
Definition error_detail (e : api_error) : string :=
  match e with
  | Unauthorized => "Failed to verify macaroon"
  | NotFound s => s
  | BadRequest e => e
  | InternalServerError e => e
  end.

(** ** Text *)

Definition format_features (channel_type : string) : list string :=
  omap (λ feature, match split_once_str ": " feature with
                   | Some (k, v) =>
                       if bool_decide (v = "supported"%string) then Some ("supported " +:+ k)
                       else if bool_decide (v = "required"%string) then Some ("required " +:+ k)
                       else None
                   | None => None
                   end) (split_str ", " channel_type).

(** ** The parts of LDK's types the handlers read *)

Inductive MaxDustHTLCExposure := FixedLimitMsat (x : Z) | FeeRateMultiplier (x : Z).
Record ChannelConfig := mk_config {
  forwarding_fee_proportional_millionths : Z;
  forwarding_fee_base_msat : Z;
  max_dust_htlc_exposure : MaxDustHTLCExposure;
}.
Record channel_fields := mk_fields {
  cf_config : option ChannelConfig;
  (** The text of the channel type features. *)
  cf_channel_type : option string;
  cf_funding_txo : option (bytes * Z);
  cf_channel_value_satoshis : Z;
  cf_balance_msat : Z;
  cf_is_outbound : bool;
  cf_user_channel_id : Z;
  cf_unspendable_punishment_reserve : option Z;
  cf_counterparty_unspendable_punishment_reserve : Z;
  cf_inbound_capacity_msat : Z;
  cf_outbound_capacity_msat : Z;
}.
Inductive destination_view :=
| NextHopChannel (channel_id : bytes)
| UnknownNextHop (requested_forward_scid : Z)
| InvalidForward (requested_forward_scid : Z)
| FailedPayment (payment_hash : bytes).

Class ApiTypes {LT : LdkTypes} {FR : BdkFeeRate} {B : Bdk} {LN : Lightning} := {
  cd_fields : ChannelDetails → channel_fields;
  htlc_view : HTLCDestination → destination_view;
  pk_from_str : string → result string PublicKey;
  addresses :: LdkAddresses;
  (** The default configuration of the channel manager, and with [announced_channel] set. *)
  cm_user_config : World → UserConfig;
  set_announced : bool → UserConfig → UserConfig;
}.

Section Channels.
Context {LT : LdkTypes} {FR : BdkFeeRate} {B : Bdk} {BB : BdkBuilder} {LN : Lightning}
  {D : Driver} {DC : DescriptorCodec} {HO : HashOrder} {AT : ApiTypes} {BU : Build}.
Context `{EqDecision PublicKey}.

Definition apim (A : Type) : Type := cmd node api_error A.

(** [.map_err(internal_server)] and [.map_err(bad_request)]. *)
Definition internal_server {A} (m : nodem A) : apim A :=
  cmd_map_err (λ e, InternalServerError (anyhow_text e)) m.
Definition bad_request {A} (r : result string A) : apim A := cmd_lift (map_err BadRequest r).
Definition ask_api {A} (m : nodem A) : apim A := internal_server m.
Definition arith_api (z : Z) : apim Z := cmd_lift (arith 64 z).

(** A handler that waits for an event. *)
Definition apit (A : Type) : Type := thread (result api_error A).

Definition of_apim {A} (m : apim A) : apit A := Act (λ n, let '(r, n') := m n in
  (Done (match r with
         | Ok a => Ok (Ok a)
         | Err e => Ok (Err e)
         | Panic w => Panic w
         end), n')).
Definition abind {A C} (t : apit A) (f : A → apit C) : apit C :=
  tbind t (λ r, match r with
                | Ok a => f a
                | Err e => Done (Ok (Err e))
                | Panic w => Done (Panic w)
                end).
Local Notation "'let^' p ':=' m 'in' k" := (abind m (λ p, k))
  (at level 10, p as pattern, m at level 100, k at level 200).

(** A call of the controller that waits; its error becomes an internal server error. *)
Fixpoint call_internal {A} (t : thread A) : apit A :=
  match t with
  | Done (Ok a) => Done (Ok (Ok a))
  | Done (Err e) => Done (Ok (Err (InternalServerError (anyhow_text e))))
  | Done (Panic w) => Done (Panic w)
  | Act m => Act (λ n, let '(t', n') := m n in (call_internal t', n'))
  | AwaitFunding rx k => AwaitFunding rx (λ v, call_internal (k v))
  | AwaitPayment rx k => AwaitPayment rx (λ v, call_internal (k v))
  end.

(** ** The channels of the node *)

Record channel_item := mk_item {
  ci_channel_id : string;
  ci_counterparty_node_id : string;
  ci_detail : option ChannelDetails;
  ci_features : list string;
  ci_has_monitor : bool;
  ci_open_timestamp : Z;
  ci_update_timestamp : Z;
  ci_closure_reason : option string;
}.

Definition features_of (d : ChannelDetails) : list string :=
  default [] (format_features <$> cf_channel_type (cd_fields d)).
Definition item_of_detail (d : ChannelDetails) (has_monitor : bool) (open update : Z)
    (reason : option string) : channel_item :=
  mk_item (hex_encode (cd_channel_id d)) (pk_to_string (cd_node_id d)) (Some d) (features_of d)
    has_monitor open update reason.

(** The position of the last channel with an id. *)
Fixpoint last_index (id : bytes) (l : list ChannelDetails) : option nat :=
  match l with
  | [] => None
  | c :: l => match last_index id l with
              | Some i => Some (S i)
              | None => if bool_decide (cd_channel_id c = id) then Some 0%nat else None
              end
  end.

(** One record; [in_mem] are the channels of the channel manager not yet matched. *)
Definition record_item (in_mem : list ChannelDetails) (r : ChannelRecord) :
    list ChannelDetails * channel_item :=
  let open := unix_timestamp (cr_open_timestamp r) in
  let update := unix_timestamp (cr_update_timestamp r) in
  match cr_detail r with
  | Some detail =>
      match last_index (cd_channel_id detail) in_mem with
      | Some i =>
          match in_mem !! i with
          | Some d => (delete i in_mem, item_of_detail d true open update (cr_closure_reason r))
          | None => (in_mem, item_of_detail detail false open update (cr_closure_reason r))
          end
      | None => (in_mem, item_of_detail detail false open update (cr_closure_reason r))
      end
  | None =>
      (in_mem, mk_item (cr_channel_id r) (cr_counterparty r) None [] false open update
                 (cr_closure_reason r))
  end.
Fixpoint record_items (in_mem : list ChannelDetails) (rs : list ChannelRecord) :
    list ChannelDetails * list channel_item :=
  match rs with
  | [] => (in_mem, [])
  | r :: rs =>
      let '(in_mem, item) := record_item in_mem r in
      let '(in_mem, items) := record_items in_mem rs in
      (in_mem, item :: items)
  end.
Definition missing_item (d : ChannelDetails) : channel_item :=
  item_of_detail d true 0 0 (Some "** Invalid Channel Record **"%string).

Definition list_channels_response (in_mem : list ChannelDetails) (in_db : list ChannelRecord) :
    list channel_item :=
  let '(unmatched, items) := record_items in_mem in_db in items ++ (missing_item <$> unmatched).

Definition list_channels (now : Z) : apim (list channel_item) :=
  let* channels_in_mem := ask_api list_active_channels in
  let* fetched := ask_api (catch Controller.list_channels) in
  let* channels_in_db := match fetched with
                         | Ok channels => cmd_ret channels
                         | _ => let* _ := ask_api (update_channels now channels_in_mem) in
                                cmd_ret []
                         end in
  cmd_ret (list_channels_response channels_in_mem channels_in_db).

(** ** Channels with peers *)

Record peer_channel := mk_peer_channel {
  pc_alias : string;
  pc_detail : ChannelDetails;
  pc_dust_limit_msat : Z;
  pc_features : list string;
  pc_fee_base_msat : Z;
  pc_fee_proportional_millionths : Z;
  pc_opener_local : bool;
  pc_peer_connected : bool;
  pc_private : bool;
  pc_normal : bool;
  pc_our_reserve_msat : option Z;
  pc_their_reserve_msat : Z;
  pc_to_us_msat : Z;
  pc_to_them_msat : Z;
  pc_total_msat : Z;
}.

Definition connected_to (peers : list PeerInfo) (k : PublicKey) : bool :=
  match head (where_ (λ p, bool_decide (pi_public_key p = k)) peers) with
  | Some p => match pi_status p with Connected => true | Disconnected => false end
  | None => false
  end.

Fixpoint peer_channels (peers : list PeerInfo) (l : list ChannelDetails) : apim (list peer_channel) :=
  match l with
  | [] => cmd_ret []
  | channel :: l =>
      let f := cd_fields channel in
      let* config := cmd_lift (ok_or (InternalServerError "expected channel config")
                                 (cf_config f)) in
      let* alias := ask_api (alias_of (cd_node_id channel)) in
      let* our_reserve := match cf_unspendable_punishment_reserve f with
                          | Some x => cmd_map Some (arith_api (x * 1000))
                          | None => cmd_ret None
                          end in
      let* their_reserve := arith_api (cf_counterparty_unspendable_punishment_reserve f * 1000) in
      let* total := arith_api (cf_channel_value_satoshis f * 1000) in
      let* to_them := arith_api (total - cf_balance_msat f) in
      let item := mk_peer_channel (default ""%string alias) channel
        (match max_dust_htlc_exposure config with FixedLimitMsat x | FeeRateMultiplier x => x end)
        (features_of channel) (forwarding_fee_base_msat config)
        (forwarding_fee_proportional_millionths config) (cf_is_outbound f)
        (connected_to peers (cd_node_id channel)) (negb (cd_is_public channel))
        (cd_is_usable channel) our_reserve their_reserve (cf_balance_msat f) to_them total in
      let* rest := peer_channels peers l in
      cmd_ret (item :: rest)
  end.

Definition list_peer_channels : apim (list peer_channel) :=
  let* peers := internal_server list_peers in
  let* channels := ask_api list_active_channels in
  peer_channels peers channels.

(** ** Opening, fees, closing *)

Record FundChannel := mk_fund_channel {
  fc_id : string;
  fc_satoshis : string;
  fc_fee_rate : option FeeRate;
  fc_announce : option bool;
  fc_push_msat : option string;
}.
Record FundChannelResponse := mk_fund_response {
  fcr_tx : Transaction;
  fcr_txid : string;
  fcr_channel_id : string;
}.

Definition at_sign : Ascii.ascii := Ascii.ascii_of_N 64.

(** "public_key@address", or a public key alone. *)
Definition parse_peer (id : string) : result string (PublicKey * option SocketAddress) :=
  match split_once at_sign id with
  | Some (public_key, net_address) =>
      let? public_key := pk_from_str public_key in
      let? address := result_map addr_make (NetAddress.from_str net_address) in
      Ok (public_key, Some address)
  | None => let? public_key := pk_from_str id in Ok (public_key, None)
  end.

(** [s.parse::<u64>()]. *)
Definition parse_u64 (s : string) : result string Z :=
  ok_or "invalid digit found in string"%string (parse_unsigned 64 s).

Definition open_channel (random now : Z) (fund_channel : FundChannel) : apit FundChannelResponse :=
  let^ (public_key, net_address) := of_apim (bad_request (parse_peer (fc_id fund_channel))) in
  let^ _ := of_apim (internal_server (connect_peer public_key net_address)) in
  let^ value := of_apim (bad_request (parse_u64 (fc_satoshis fund_channel))) in
  let^ push_msat := of_apim (bad_request (match fc_push_msat fund_channel with
                                          | Some x => result_map Some (parse_u64 x)
                                          | None => Ok None
                                          end)) in
  let^ user_config := of_apim (ask_api (ask_world cm_user_config)) in
  let user_config := match fc_announce fund_channel with
                     | Some announce => set_announced announce user_config
                     | None => user_config
                     end in
  let^ result := call_internal (Controller.open_channel random now public_key value push_msat
                                  (fc_fee_rate fund_channel) (Some user_config)) in
  Done (Ok (Ok (mk_fund_response (opened_transaction result)
                  (txid_to_string (opened_txid result))
                  (hex_encode (opened_channel_id result))))).

(** The first channel that an id in a request names: by its channel id, or by its short channel
    id, which counts as 0 while there is none. *)
Definition names_channel (id : string) (c : ChannelDetails) : bool :=
  bool_decide (hex_encode (cd_channel_id c) = id) ||
  bool_decide (print_nat (default 0 (cd_short_channel_id c)) = id).
Definition named_channel (id : string) : apim ChannelDetails :=
  let* channels := ask_api list_active_channels in
  cmd_lift (ok_or (NotFound id) (head (where_ (names_channel id) channels))).

Record ChannelFee := mk_channel_fee {
  cfee_id : string; cfee_base : option Z; cfee_ppm : option Z;
}.
Record SetChannelFee := mk_set_fee {
  sf_base : Z; sf_ppm : Z; sf_peer_id : string; sf_channel_id : string;
  sf_short_channel_id : string;
}.

Definition set_fee_item (base ppm : Z) (node_id : PublicKey) (c : ChannelDetails) : SetChannelFee :=
  mk_set_fee base ppm (pk_to_string node_id) (hex_encode (cd_channel_id c))
    (match cd_short_channel_id c with Some x => print_nat x | None => EmptyString end).

(** The channels grouped by their peer. *)
Fixpoint group_by_peer (l : list ChannelDetails) (m : list (PublicKey * list ChannelDetails)) :
    list (PublicKey * list ChannelDetails) :=
  match l with
  | [] => m
  | c :: l =>
      let group := default [] (hm_get (cd_node_id c) m) in
      group_by_peer l (hm_insert (cd_node_id c) (group ++ [c]) m)
  end.

Fixpoint set_fee_groups (fee : ChannelFee) (groups : list (PublicKey * list ChannelDetails)) :
    apim (list SetChannelFee) :=
  match groups with
  | [] => cmd_ret []
  | (node_id, channels) :: groups =>
      let* (base, ppm) := internal_server (Controller.set_channel_fee node_id
                            (cd_channel_id <$> channels) (cfee_ppm fee) (cfee_base fee)) in
      let* rest := set_fee_groups fee groups in
      cmd_ret ((set_fee_item base ppm node_id <$> channels) ++ rest)
  end.

Definition set_channel_fee (fee : ChannelFee) : apim (list SetChannelFee) :=
  if bool_decide (cfee_id fee = "all"%string) then
    let* channels := ask_api list_active_channels in
    set_fee_groups fee (hash_order (group_by_peer channels []))
  else
    let* channel := named_channel (cfee_id fee) in
    set_fee_groups fee [(cd_node_id channel, [channel])].

Definition close_channel (now : Z) (channel_id : string) : apim () :=
  let* channel := named_channel channel_id in
  internal_server (Controller.close_channel now (cd_channel_id channel) (cd_node_id channel) None).
Definition close_channel_with_fee (now : Z) (channel_id : string) (fee_rate : Z) : apim () :=
  let* channel := named_channel channel_id in
  internal_server (Controller.close_channel now (cd_channel_id channel) (cd_node_id channel)
                     (Some fee_rate)).
Definition force_close_channel (now : Z) (with_broadcast : bool) (channel_id : string) : apim () :=
  let* channel := named_channel channel_id in
  internal_server (Controller.force_close_channel now (cd_channel_id channel) (cd_node_id channel)
                     with_broadcast).
Definition force_close_channel_with_broadcast (now : Z) := force_close_channel now true.
Definition force_close_channel_without_broadcast (now : Z) := force_close_channel now false.

(** ** Balances, forwards, history *)

Record balances := mk_balances {
  local_balance : Z; remote_balance : Z; inactive_balance : Z; pending_balance : Z;
}.

Fixpoint add_balances (l : list ChannelDetails) (local remote inactive pending : Z) :
    apim balances :=
  match l with
  | [] => cmd_ret (mk_balances (local / 1000) (remote / 1000) (inactive / 1000) (pending / 1000))
  | c :: l =>
      let f := cd_fields c in
      if cd_is_usable c then
        let* local := arith_api (local + cf_balance_msat f) in
        let* value := arith_api (cf_channel_value_satoshis f * 1000) in
        let* theirs := arith_api (value - cf_balance_msat f) in
        let* remote := arith_api (remote + theirs) in
        add_balances l local remote inactive pending
      else if cd_is_channel_ready c then
        let* inactive := arith_api (inactive + cf_balance_msat f) in
        add_balances l local remote inactive pending
      else
        let* pending := arith_api (pending + cf_balance_msat f) in
        add_balances l local remote inactive pending
  end.
Definition local_remote_balance : apim balances :=
  let* channels := ask_api list_active_channels in add_balances channels 0 0 0 0.

Inductive forward_item_status := Offered | Settled | LocalFailed | FailedStatus.
Record forward_item := mk_forward_item {
  fi_failcode : option string;
  fi_failreason : option string;
  fi_fee_msat : option Z;
  fi_in_channel : string;
  fi_in_msat : option Z;
  fi_out_channel : option string;
  fi_out_msat : option Z;
  fi_payment_hash : option string;
  fi_received_timestamp : Z;
  fi_resolved_timestamp : option Z;
  fi_status : forward_item_status;
}.

Definition forward_filter (status : option forward_item_status) : option ForwardStatus :=
  match status with
  | None => None
  | Some Settled | Some Offered => Some ForwardSucceeded
  | _ => Some ForwardFailed
  end.

(** [htlc_destination_to_string] of ldk/mod.rs. *)
Definition htlc_destination_to_string (d : HTLCDestination) : string :=
  match htlc_view d with
  | NextHopChannel channel_id => "Next hop channel ID " +:+ hex_encode channel_id
  | UnknownNextHop scid => "Unknown next hop to requested SCID " +:+ print_nat scid
  | InvalidForward scid => "Invalid forward to requested SCID " +:+ print_nat scid
  | FailedPayment hash => "Failed payment with hash " +:+ hex_encode hash
  end.

(** The amount that is reported as sent on: a subtraction of [u64]s. *)
Definition out_msat (amount fee : option Z) : apim (option Z) :=
  match amount, fee with
  | Some a, Some f => cmd_map Some (arith_api (a - f))
  | _, _ => cmd_ret None
  end.

Definition forward_item_of (forward : Forward) : apim forward_item :=
  let view := htlc_view <$> fw_htlc_destination forward in
  let* out := out_msat (fw_amount forward) (fw_fee forward) in
  cmd_ret (mk_forward_item
    (match view with
     | Some (NextHopChannel _) => Some "NextHopChannel"%string
     | Some (UnknownNextHop _) => Some "UnknownNextHop"%string
     | Some (InvalidForward _) => Some "InvalidFormat"%string
     | Some (FailedPayment _) => Some "FailedPayment"%string
     | None => None
     end)
    (htlc_destination_to_string <$> fw_htlc_destination forward) (fw_fee forward)
    (hex_encode (fw_inbound_channel_id forward)) (fw_amount forward)
    (hex_encode <$> fw_outbound_channel_id forward) out
    (match view with Some (FailedPayment hash) => Some (hex_encode hash) | _ => None end)
    (unix_timestamp (fw_timestamp forward)) (Some (unix_timestamp (fw_timestamp forward)))
    (match fw_status forward with ForwardSucceeded => Settled | ForwardFailed => FailedStatus end)).

Fixpoint forward_items (l : list Forward) : apim (list forward_item) :=
  match l with
  | [] => cmd_ret []
  | forward :: l =>
      let* item := forward_item_of forward in
      let* rest := forward_items l in
      cmd_ret (item :: rest)
  end.

Definition list_forwards (status : option forward_item_status) : apim (list forward_item) :=
  let* forwards := internal_server (forwards_list (forward_filter status)) in
  forward_items forwards.

Record history_item := mk_history {
  hi_close_timestamp : Z;
  hi_closure_reason : string;
  hi_detail : ChannelDetails;
  hi_id : string;
  hi_counterparty : string;
  hi_open_timestamp : Z;
  hi_scid : Z;
}.
Definition history_items (rs : list ChannelRecord) : list history_item :=
  omap (λ r, match cr_detail r with
             | Some d => Some (mk_history (unix_timestamp (cr_update_timestamp r))
                                 (default EmptyString (cr_closure_reason r)) d
                                 (hex_encode (cd_channel_id d)) (pk_to_string (cd_node_id d))
                                 (unix_timestamp (cr_open_timestamp r)) (default 0 (cd_short_channel_id d)))
             | None => None
             end) rs.
Definition channel_history : apim (list history_item) :=
  let* rs := internal_server Controller.channel_history in cmd_ret (history_items rs).
End Channels.

Notation "'let^' p ':=' m 'in' k" := (abind m (λ p, k))
  (at level 10, p as pattern, m at level 100, k at level 200) : kld_scope.

(** ** The list of channels is a join *)

Section Join.
Context {LT : LdkTypes} {LL : LdkLaws} {FR : BdkFeeRate} {B : Bdk} {BB : BdkBuilder} {LN : Lightning}
  {D : Driver} {DC : DescriptorCodec} {HO : HashOrder} {AT : ApiTypes}.
Implicit Types (l : list ChannelDetails) (r : ChannelRecord).

Lemma last_index_none id l : last_index id l = None ↔ pk_find cd_channel_id id l = None.
Proof.
  rewrite pk_find_None. induction l as [|c l IH]; simpl; [done|].
  unfold has_key in *. destruct (last_index id l); simpl.
  - rewrite orb_false_iff. naive_solver.
  - destruct (bool_decide (cd_channel_id c = id)); simpl; [done|]. by rewrite IH.
Qed.

(** The loop finds the channel with the id, and removing it is deleting by id. *)
Lemma last_index_found id l i :
  pk cd_channel_id l → last_index id l = Some i →
  l !! i = pk_find cd_channel_id id l ∧ is_Some (l !! i) ∧
  delete i l = delete_where (has_key cd_channel_id id) l.
Proof.
  unfold pk. revert i. induction l as [|c l IH]; intros i; [done|]. cbn [last_index fmap list_fmap].
  intros [Hc Hl]%NoDup_cons Hi. destruct (last_index id l) as [j|] eqn:Hj.
  - injection Hi as <-. destruct (IH j Hl eq_refl) as (Hf & Hs & Hd).
    assert (has_key cd_channel_id id c = false) as Hne.
    { apply bool_decide_eq_false. intros <-. apply Hc. destruct Hs as [c' Hs].
      rewrite Hs in Hf. symmetry in Hf. apply pk_find_key in Hf as [Hk Hin].
      apply list_elem_of_fmap. by exists c'. }
    unfold pk_find, delete_where in *. simpl. rewrite Hne. simpl. split_and!; [done|done|].
    by rewrite Hd.
  - destruct (bool_decide (cd_channel_id c = id)) eqn:Hb; [|done]. injection Hi as <-.
    apply last_index_none in Hj.
    change (has_key cd_channel_id id c = true) in Hb.
    unfold pk_find at 1. unfold delete_where. simpl. rewrite Hb. simpl.
    split_and!; [done|by eexists|]. symmetry. by apply pk_find_None_delete.
Qed.

Lemma filter_filter {A} (f g : A → bool) (l : list A) :
  List.filter f (List.filter g l) = List.filter (λ x, g x && f x) l.
Proof. induction l as [|x l IH]; simpl; [done|]. destruct (g x); simpl; by rewrite IH. Qed.

(** What the list shows for a record: the channel of the channel manager when it has one with
    the record's id, otherwise the details that were stored. *)
Definition joined_item l r : channel_item :=
  let open := unix_timestamp (cr_open_timestamp r) in
  let update := unix_timestamp (cr_update_timestamp r) in
  match cr_detail r with
  | Some detail =>
      match pk_find cd_channel_id (cd_channel_id detail) l with
      | Some d => item_of_detail d true open update (cr_closure_reason r)
      | None => item_of_detail detail false open update (cr_closure_reason r)
      end
  | None =>
      mk_item (cr_channel_id r) (cr_counterparty r) None [] false open update (cr_closure_reason r)
  end.
Definition record_id r : option bytes := cd_channel_id <$> cr_detail r.
Definition unrecorded l (rs : list ChannelRecord) : list ChannelDetails :=
  where_ (λ c, negb (existsb (λ r, bool_decide (record_id r = Some (cd_channel_id c))) rs)) l.

Lemma record_item_join l r l' item :
  pk cd_channel_id l → record_item l r = (l', item) →
  item = joined_item l r ∧
  l' = match record_id r with Some id => delete_where (has_key cd_channel_id id) l | None => l end.
Proof.
  unfold record_item, joined_item, record_id. intros Hl.
  destruct (cr_detail r) as [d|]; simpl; [|by intros [= <- <-]].
  destruct (last_index _ l) as [i|] eqn:Hi.
  - destruct (last_index_found _ _ _ Hl Hi) as (Hf & [c Hc] & Hd). rewrite Hc in *. rewrite <- Hf.
    intros [= <- <-]. done.
  - apply last_index_none in Hi. rewrite Hi. intros [= <- <-].
    split; [done|]. symmetry. by apply pk_find_None_delete.
Qed.

Lemma unrecorded_cons l r rs :
  unrecorded l (r :: rs) =
    unrecorded (match record_id r with Some id => delete_where (has_key cd_channel_id id) l
                                     | None => l end) rs.
Proof.
  unfold unrecorded, where_, delete_where. destruct (record_id r) as [id|] eqn:Hid.
  - rewrite filter_filter. apply filter_ext. intros c. simpl. rewrite Hid, negb_orb. f_equal.
    f_equal. unfold has_key. apply bool_decide_ext. naive_solver.
  - apply filter_ext. intros c. simpl. by rewrite Hid.
Qed.

Lemma record_items_join l rs :
  pk cd_channel_id l → NoDup (omap record_id rs) →
  record_items l rs = (unrecorded l rs, joined_item l <$> rs).
Proof.
  revert l. induction rs as [|r rs IH]; intros l Hl Hrs; simpl.
  - unfold unrecorded, where_. simpl. by rewrite filter_true.
  - destruct (record_item l r) as [l' item] eqn:Hr.
    destruct (record_item_join _ _ _ _ Hl Hr) as [-> ->]. rewrite unrecorded_cons.
    simpl in Hrs. destruct (record_id r) as [id|] eqn:Hid.
    + apply NoDup_cons in Hrs as [Hn Hrs]. rewrite IH by eauto using pk_delete.
      f_equal. f_equal. apply list_fmap_ext. intros i r' Hr'%list_elem_of_lookup_2.
      unfold joined_item. destruct (cr_detail r') as [d'|] eqn:Hd'; [|done].
      rewrite pk_find_delete, decide_False; [done|]. intros Heq. apply Hn.
      apply list_elem_of_omap. exists r'. split; [done|]. unfold record_id. by rewrite Hd', <- Heq.
    + by rewrite IH.
Qed.

(** The channel of the channel manager that an item shows. *)
Definition monitored (i : channel_item) : option ChannelDetails :=
  if ci_has_monitor i then ci_detail i else None.

Lemma list_channels_response_monitored l rs :
  omap monitored (list_channels_response l rs) ≡ₚ l.
Proof.
  unfold list_channels_response. destruct (record_items l rs) as [rest items] eqn:Hr.
  rewrite omap_app. assert (omap monitored (missing_item <$> rest) = rest) as ->.
  { clear. induction rest as [|c k IH]; [done|]. csimpl. by rewrite IH. }
  revert l rest items Hr. induction rs as [|r rs IH]; intros l rest items; simpl.
  { by intros [= <- <-]. }
  destruct (record_item l r) as [l1 item] eqn:Hi, (record_items l1 rs) as [l2 items'] eqn:Hrs.
  intros [= <- <-]. specialize (IH _ _ _ Hrs). simpl. unfold record_item in Hi.
  destruct (cr_detail r) as [d|]; [|by simplify_eq/=].
  destruct (last_index _ l) as [i|]; [|by simplify_eq/=].
  destruct (l !! i) as [c|] eqn:Hc; simplify_eq/=; [|done].
  rewrite IH. symmetry. by apply delete_Permutation.
Qed.

Lemma logged_update_ok now l n :
  fst (update_channels now l n) = Ok () ∧ world (snd (update_channels now l n)) = world n.
Proof.
  unfold update_channels. revert n. induction l as [|c l IH]; intros n; [done|].
  assert (∃ n1, logged (in_db (persist_channel now c)) n = (Ok (), n1) ∧ world n1 = world n)
    as (n1 & Hp & Hw).
  { unfold logged, in_db, persist_channel, db_execute, cmd_map_err, execute, statement.
    destruct (cd_short_channel_id c), (faults (database n)) as [|[e|] fs]; simpl;
      try (destruct (aborted (database n)); simpl); by eexists. }
  cbn [cmd_forM]. rewrite (cmd_bind_ok _ _ _ _ _ Hp), <- Hw. apply IH.
Qed.

(** [C38] The list of channels joins the channels of the channel manager with the stored records:
    it has every channel of the channel manager exactly once, marked as monitored and with its
    current details; with ids that identify channels and records it is the records in their
    order, each with the details of the channel manager where it has the channel and the stored
    ones otherwise, followed by the channels without a record. When the records cannot be read
    the request still succeeds with the channels of the channel manager alone. *)
Theorem list_channels_joins now n :
  let live := cm_list_channels (world n) in
  let r := fst (list_channels now n) in
  match fst (in_db fetch_channels n) with
  | Panic _ => ∃ w, r = Panic w
  | Err _ => r = Ok (missing_item <$> live)
  | Ok records =>
      ∃ items, r = Ok items ∧
      omap monitored items ≡ₚ live ∧
      (pk cd_channel_id live → NoDup (omap record_id records) →
       items = (joined_item live <$> records) ++ (missing_item <$> unrecorded live records))
  end.
Proof.
  intros live r. unfold r, list_channels, ask_api, internal_server, catch, Controller.list_channels.
  unfold cmd_bind, cmd_map_err, list_active_channels, ask_world. simpl.
  destruct (in_db fetch_channels n) as [[records|e|w] n1] eqn:Hf; simpl; [..|by eexists].
  - eexists. split; [done|]. split; [apply list_channels_response_monitored|]. intros Hl Hrs.
    unfold list_channels_response. by rewrite record_items_join.
  - destruct (logged_update_ok now (cm_list_channels (world n)) n1) as [Hok _].
    destruct (update_channels now _ n1) as [r1 n2]. simpl in Hok. by subst r1.
Qed.
End Join.

(** ** Balances, amounts and names *)

Section Numbers.
Context {LT : LdkTypes} {FR : BdkFeeRate} {B : Bdk} {BB : BdkBuilder} {LN : Lightning}
  {D : Driver} {DC : DescriptorCodec} {HO : HashOrder} {AT : ApiTypes} {BU : Build}.
Implicit Types (l : list ChannelDetails) (c : ChannelDetails).

Definition sum_over (f : ChannelDetails → Z) l : Z := foldr (λ c s, f c + s) 0 l.
Definition ours c : Z := cf_balance_msat (cd_fields c).
Definition value_msat c : Z := cf_channel_value_satoshis (cd_fields c) * 1000.
Definition theirs c : Z := value_msat c - ours c.
Definition inactive c : bool := negb (cd_is_usable c) && cd_is_channel_ready c.
Definition pending c : bool := negb (cd_is_usable c) && negb (cd_is_channel_ready c).

Lemma sum_over_nonneg f l : (∀ c, c ∈ l → 0 ≤ f c) → 0 ≤ sum_over f l.
Proof.
  induction l as [|c l IH]; intros Hf; simpl; [done|].
  pose proof (Hf c ltac:(by left)). specialize (IH ltac:(intros; apply Hf; by right)). lia.
Qed.

Lemma add_balances_ok l local remote ina pend n :
  0 ≤ local → 0 ≤ remote → 0 ≤ ina → 0 ≤ pend →
  (∀ c, c ∈ l → 0 ≤ ours c ≤ value_msat c) →
  local + remote + ina + pend + sum_over value_msat l < 2 ^ 64 →
  add_balances l local remote ina pend n =
    (Ok (mk_balances ((local + sum_over ours (where_ cd_is_usable l)) / 1000)
           ((remote + sum_over theirs (where_ cd_is_usable l)) / 1000)
           ((ina + sum_over ours (where_ inactive l)) / 1000)
           ((pend + sum_over ours (where_ pending l)) / 1000)), n).
Proof.
  revert local remote ina pend. induction l as [|c l IH]; intros local remote ina pend Hl Hr Hi Hp Hin Hs.
  { simpl. by rewrite !Z.add_0_r. }
  pose proof (Hin c ltac:(by left)) as Hc.
  pose proof (sum_over_nonneg value_msat l) as Hpos.
  assert (∀ c, c ∈ l → 0 ≤ ours c ≤ value_msat c) as Hin' by (intros; apply Hin; by right).
  specialize (Hpos ltac:(intros c' Hc'; specialize (Hin' c' Hc'); lia)).
  cbn [sum_over foldr] in Hs. fold (sum_over value_msat l) in Hs.
  assert (∀ z, 0 ≤ z ≤ local + remote + ina + pend + value_msat c →
    arith_api z = cmd_ret z) as Hz.
  { intros z Hz. unfold arith_api. rewrite arith_ok; [done|]. unfold in_unsigned. lia. }
  unfold ours, theirs, value_msat in Hc, Hs, Hz. cbn [add_balances].
  unfold where_, inactive, pending. cbn [List.filter].
  destruct (cd_is_usable c), (cd_is_channel_ready c); cbn [negb andb];
    repeat (rewrite Hz, cmd_bind_ret by lia); rewrite IH; try done;
    unfold ours, theirs, value_msat in *; try lia;
    unfold where_; cbn [sum_over foldr];
    do 2 f_equal; f_equal; f_equal; unfold sum_over, inactive, pending, ours, theirs, value_msat; lia.
Qed.

(** The balance request sums the channels of the channel manager: with what LDK reports
    (no balance above its channel's value, and values that fit 64 bits together) no sum
    overflows on any build, the usable channels are split into our side and theirs, a channel
    that is not usable counts once, as inactive or as pending, and nothing is changed. *)
Theorem local_remote_balance_sums n :
  let l := cm_list_channels (world n) in
  (∀ c, c ∈ l → 0 ≤ ours c ≤ value_msat c) → sum_over value_msat l < 2 ^ 64 →
  local_remote_balance n =
    (Ok (mk_balances (sum_over ours (where_ cd_is_usable l) / 1000)
           (sum_over theirs (where_ cd_is_usable l) / 1000)
           (sum_over ours (where_ inactive l) / 1000)
           (sum_over ours (where_ pending l) / 1000)), n).
Proof.
  intros l Hl Hs. unfold local_remote_balance, ask_api, internal_server, cmd_map_err, cmd_bind.
  simpl. by rewrite add_balances_ok.
Qed.

(** ** Forwards *)

Definition fee_within (f : Forward) : Prop :=
  match fw_amount f, fw_fee f with
  | Some a, Some fee => 0 ≤ fee ≤ a ∧ u64 a
  | _, _ => True
  end.

Lemma forward_item_ok f n :
  fee_within f → ∃ item, forward_item_of f n = (Ok item, n) ∧
    fi_in_msat item = fw_amount f ∧ fi_fee_msat item = fw_fee f ∧
    fi_out_msat item = match fw_amount f, fw_fee f with
                       | Some a, Some fee => Some (a - fee)
                       | _, _ => None
                       end.
Proof.
  unfold fee_within, forward_item_of, out_msat, arith_api. intros Hf.
  destruct (fw_amount f) as [a|], (fw_fee f) as [fee|]; try by eexists.
  rewrite arith_ok; [by eexists|]. unfold in_unsigned in *. lia.
Qed.

Lemma forward_items_ok (l : list Forward) n :
  (∀ f, f ∈ l → fee_within f) →
  ∃ items, forward_items l n = (Ok items, n) ∧ (fi_in_msat <$> items) = (fw_amount <$> l).
Proof.
  induction l as [|f l IH]; intros Hl; [by eexists|]. cbn [forward_items].
  destruct (forward_item_ok f n) as (item & Hi & Ha & _); [by apply Hl; left|].
  destruct IH as (items & Hs & Hm); [intros; apply Hl; by right|].
  rewrite (cmd_bind_ok _ _ _ _ _ Hi), (cmd_bind_ok _ _ _ _ _ Hs).
  eexists. split; [done|]. rewrite !fmap_cons. by f_equal.
Qed.

(** A forward whose fee is above its amount: the subtraction of the item overflows. *)
Lemma forward_item_overflows f a fee n :
  fw_amount f = Some a → fw_fee f = Some fee → 0 ≤ a → a < fee →
  if overflow_checks then ∃ w, forward_item_of f n = (Panic w, n)
  else ∃ item, forward_item_of f n = (Ok item, n) ∧ fi_in_msat item = Some a ∧
         fi_out_msat item = Some (wrap_unsigned 64 (a - fee)).
Proof.
  intros Ha Hf H0 Hlt. unfold forward_item_of, out_msat, arith_api, arith. rewrite Ha, Hf.
  rewrite bool_decide_eq_false_2 by (unfold in_unsigned; lia).
  destruct overflow_checks; by eexists.
Qed.

Lemma forward_items_panic (l : list Forward) f a fee n :
  overflow_checks = true → f ∈ l →
  fw_amount f = Some a → fw_fee f = Some fee → 0 ≤ a → a < fee →
  ∃ w, fst (forward_items l n) = Panic w.
Proof.
  intros Ho Hin Ha Hf H0 Hlt. induction l as [|f' l IH]; [by apply elem_of_nil in Hin|].
  cbn [forward_items]. unfold cmd_bind.
  assert ((∃ w, forward_item_of f' n = (Panic w, n)) ∨ ∃ item, forward_item_of f' n = (Ok item, n))
    as [[w ->]|[item Hi]].
  { unfold forward_item_of, out_msat, arith_api, arith.
    destruct (fw_amount f') as [a'|], (fw_fee f') as [fee'|]; [|right; by eexists..].
    destruct (bool_decide (in_unsigned 64 (a' - fee'))); [right; by eexists|].
    destruct overflow_checks; [left|right]; by eexists. }
  { by eexists. }
  rewrite Hi. apply elem_of_cons in Hin as [->|Hin].
  - pose proof (forward_item_overflows f' a fee n Ha Hf H0 Hlt) as Hw. rewrite Ho in Hw.
    destruct Hw as [w Hw]. congruence.
  - destruct (IH Hin) as [w Hw]. destruct (forward_items l n) as [[]]; simplify_eq/=. by eexists.
Qed.

(** The amounts in the list of forwards. The node stores the amount it sent on and the fee
    it kept; the list reports the amount sent on as the amount received, and that amount less
    the fee as the amount sent on. While no fee is above its amount the whole list is returned.
    One forward of an amount below its fee (a small payment over a channel with a base fee) makes
    a build with overflow checks panic on every request that lists it, and a build without them
    report about [2^64] millisatoshis sent on. *)
Theorem forward_amounts uuid now inbound outbound sent fee status records n n' :
  u64 sent → u64 fee →
  forwards_list (forward_filter status) n = (Ok records, n') →
  forward_success uuid now inbound outbound sent fee ∈ records →
  let r := fst (list_forwards status n) in
  ((∀ f, f ∈ records → fee_within f) → ∃ items, r = Ok items ∧
     (fi_in_msat <$> items) = (fw_amount <$> records)) ∧
  if bool_decide (fee ≤ sent) then
    ∃ item, forward_item_of (forward_success uuid now inbound outbound sent fee) n' = (Ok item, n') ∧
      fi_in_msat item = Some sent ∧ fi_out_msat item = Some (sent - fee)
  else if overflow_checks then ∃ w, r = Panic w
  else ∃ item, forward_item_of (forward_success uuid now inbound outbound sent fee) n' = (Ok item, n') ∧
         fi_in_msat item = Some sent ∧ fi_out_msat item = Some (2 ^ 64 + sent - fee).
Proof.
  intros [Hs0 Hs1] [Hf0 Hf1] Hl Hin r. set (f := forward_success uuid now inbound outbound sent fee) in *.
  assert (r = fst (forward_items records n')) as ->.
  { unfold r, list_forwards, internal_server, cmd_bind, cmd_map_err. by rewrite Hl. }
  split.
  { intros Hall. destruct (forward_items_ok records n' Hall) as (items & -> & Hm). by exists items. }
  case_bool_decide as Hle.
  - destruct (forward_item_ok f n') as (item & Hi & Ha & _ & Ho); [by unfold fee_within; simpl; unfold in_unsigned; lia|].
    by exists item.
  - pose proof (forward_item_overflows f sent fee n' eq_refl eq_refl Hs0 ltac:(lia)) as Hw.
    destruct overflow_checks eqn:Ho; [by eapply (forward_items_panic _ f); try done; lia|].
    destruct Hw as (item & Hi & Ha & Hout). exists item. split_and!; [done..|].
    rewrite Hout. f_equal. unfold wrap_unsigned.
    replace (sent - fee) with (2 ^ 64 + sent - fee + -1 * 2 ^ 64) by lia.
    rewrite Z.mod_add by lia. apply Z.mod_small. lia.
Qed.
End Numbers.

(** ** Which channel a request names *)

Section Names.
Context {LT : LdkTypes} {FR : BdkFeeRate} {B : Bdk} {BB : BdkBuilder} {LN : Lightning}
  {D : Driver} {DC : DescriptorCodec} {HO : HashOrder} {AT : ApiTypes} {BU : Build}.
Implicit Types (l : list ChannelDetails) (c : ChannelDetails).

Definition scid_or_zero c : Z := default 0 (cd_short_channel_id c).
(** No channel id reads as the number, and short channel ids are unsigned. *)
Definition numbers_are_scids l (s : Z) : Prop :=
  0 ≤ s ∧ ∀ c, c ∈ l → hex_encode (cd_channel_id c) ≠ print_nat s ∧ 0 ≤ scid_or_zero c.

Lemma named_by_number l s :
  numbers_are_scids l s →
  where_ (names_channel (print_nat s)) l = where_ (λ c, bool_decide (scid_or_zero c = s)) l.
Proof.
  intros [H0 Hl]. apply filter_ext_in. intros c Hc%list_elem_of_In. destruct (Hl c Hc) as [Hh Hs].
  unfold names_channel. rewrite (bool_decide_eq_false_2 _ Hh). simpl. apply bool_decide_ext.
  unfold scid_or_zero in *. split; [intros Heq; by apply print_inj in Heq|by intros ->].
Qed.

Lemma head_where_unique {A} (p : A → bool) (l : list A) x :
  x ∈ l → p x = true → (∀ y, y ∈ l → p y = true → y = x) → head (where_ p l) = Some x.
Proof.
  intros Hx Hp Hu. induction l as [|y l IH]; [by apply elem_of_nil in Hx|]. simpl.
  destruct (p y) eqn:Hy; simpl.
  - f_equal. apply Hu; [by left|done].
  - apply IH; [|intros z Hz; apply Hu; by right].
    apply elem_of_cons in Hx as [->|Hx]; [congruence|done].
Qed.

Lemma head_where_app {A} (p : A → bool) (l1 l2 : list A) x :
  (∀ y, y ∈ l1 → p y = false) → p x = true → head (where_ p (l1 ++ x :: l2)) = Some x.
Proof.
  intros Hl Hx. induction l1 as [|y l1 IH]; simpl; [by rewrite Hx|].
  rewrite Hl by (by left). apply IH. intros z Hz. apply Hl. by right.
Qed.

Lemma where_none {A} (p : A → bool) (l : list A) : (∀ y, y ∈ l → p y = false) → where_ p l = [].
Proof.
  induction l as [|y l IH]; intros Hl; simpl; [done|]. rewrite Hl by (by left). apply IH.
  intros z Hz. apply Hl. by right.
Qed.

(** The close requests of a channel that was found. *)
Lemma close_named now id n c :
  head (where_ (names_channel id) (cm_list_channels (world n))) = Some c →
  close_channel now id n =
    internal_server (Controller.close_channel now (cd_channel_id c) (cd_node_id c) None) n ∧
  ∀ b, force_close_channel now b id n =
    internal_server (Controller.force_close_channel now (cd_channel_id c) (cd_node_id c) b) n.
Proof.
  intros Hc. assert (named_channel id n = (Ok c, n)) as Hn.
  { unfold named_channel, cmd_bind, ask_api, internal_server, cmd_map_err. simpl. by rewrite Hc. }
  unfold close_channel, force_close_channel. split; intros; by rewrite (cmd_bind_ok _ _ _ _ _ Hn).
Qed.

(** The channel that a request to close or force-close names by a number. A short channel id
    other than 0 closes the channel that has it, and no other; a number that no channel has is
    reported as not found and nothing is closed. A channel that has no short channel id yet
    counts as 0: the number 0 closes the first such channel, whichever it is. *)
Theorem close_by_number now s n :
  let live := cm_list_channels (world n) in
  numbers_are_scids live s →
  (∀ c, c ∈ live → cd_short_channel_id c = Some s → s ≠ 0 →
     (∀ c', c' ∈ live → cd_short_channel_id c' = Some s → c' = c) →
     close_channel now (print_nat s) n =
       internal_server (Controller.close_channel now (cd_channel_id c) (cd_node_id c) None) n ∧
     ∀ b, force_close_channel now b (print_nat s) n =
       internal_server (Controller.force_close_channel now (cd_channel_id c) (cd_node_id c) b) n) ∧
  ((∀ c, c ∈ live → scid_or_zero c ≠ s) →
     close_channel now (print_nat s) n = (Err (NotFound (print_nat s)), n) ∧
     ∀ b, force_close_channel now b (print_nat s) n = (Err (NotFound (print_nat s)), n)) ∧
  (∀ l1 c l2, live = l1 ++ c :: l2 → cd_short_channel_id c = None → s = 0 →
     (∀ c', c' ∈ l1 → scid_or_zero c' ≠ 0) →
     close_channel now "0" n =
       internal_server (Controller.close_channel now (cd_channel_id c) (cd_node_id c) None) n).
Proof.
  intros live Hs. pose proof (named_by_number _ _ Hs) as Hw. split_and!.
  - intros c Hc Hcs Hne Hu. apply close_named. fold live. rewrite Hw.
    apply head_where_unique; [done|by apply bool_decide_eq_true_2; unfold scid_or_zero; rewrite Hcs|].
    intros c' Hc' Hb%bool_decide_eq_true. apply Hu; [done|]. unfold scid_or_zero in Hb.
    destruct (cd_short_channel_id c'); simpl in Hb; congruence.
  - intros Hno. assert (named_channel (print_nat s) n = (Err (NotFound (print_nat s)), n)) as Hn.
    { unfold named_channel, cmd_bind, ask_api, internal_server, cmd_map_err. simpl. fold live.
      rewrite Hw, where_none; [done|]. intros c Hc. by apply bool_decide_eq_false_2, Hno. }
    unfold close_channel, force_close_channel.
    split; intros; by rewrite (cmd_bind_err _ _ _ _ _ Hn).
  - intros l1 c l2 Hl Hc -> Hl1. eapply (close_named now "0" n). fold live.
    change "0"%string with (print_nat 0). rewrite Hw, Hl. apply head_where_app.
    + intros c' Hc'. by apply bool_decide_eq_false_2, Hl1.
    + apply bool_decide_eq_true_2. unfold scid_or_zero. by rewrite Hc.
Qed.
End Names.

(** ** Concrete instances *)

Section Instances.
#[local] Existing Instance example_ldk.
#[local] Existing Instance example_ldk_laws.
#[local] Existing Instance example_rate.
#[local] Existing Instance example_bdk.
#[local] Existing Instance example_builder.
#[local] Existing Instance example_lightning.
#[local] Existing Instance example_descriptors.
#[local] Existing Instance insertion_order.
#[local] Existing Instance list_order.

Definition example_api : @ApiTypes example_ldk example_rate example_bdk example_lightning := {|
  cd_fields := λ c, mk_fields None (Some "A: supported, B: unknown"%string) None 1000 250000 true 5
                      (Some 10) 10 0 0;
  htlc_view := λ d, if (d : bool) then UnknownNextHop 7 else FailedPayment (id_bytes true);
  pk_from_str := λ s, if bool_decide (s = "02bb"%string) then Ok (true : @PublicKey example_ldk)
                      else if bool_decide (s = "02aa"%string) then Ok (false : @PublicKey example_ldk)
                      else Err "malformed public key"%string;
  addresses := example_addresses;
  cm_user_config := λ _, (false : @UserConfig _ _ _ example_lightning);
  set_announced := λ b _, (b : @UserConfig _ _ _ example_lightning);
|}.
#[local] Existing Instance example_api.
Definition checked : Build := {| overflow_checks := true |}.
#[local] Existing Instance checked.

Definition node_with_channels : node := set_world (7%nat : World) example_node.
Definition usable_channel : ChannelDetails := ((true, true, true) : @ChannelDetails example_ldk).
Definition opening_channel : ChannelDetails := ((false, false, false) : @ChannelDetails example_ldk).

Lemma two_channels c :
  c ∈ cm_list_channels (world node_with_channels) → c = usable_channel ∨ c = opening_channel.
Proof. intros [->|[->|[]%elem_of_nil]%elem_of_cons]%elem_of_cons; [by left|by right]. Qed.

Example features_example :
  format_features "A: supported, B: unknown, C: required" = ["supported A"; "required C"]%string.
Proof. reflexivity. Qed.

Lemma local_remote_balance_sums_witness :
  local_remote_balance node_with_channels = (Ok (mk_balances 250 750 250 0), node_with_channels).
Proof.
  refine (local_remote_balance_sums node_with_channels _ _).
  - intros c _. vm_compute. by split.
  - reflexivity.
Defined.

Lemma close_by_number_witness :
  close_channel 0 "7" node_with_channels =
    internal_server (Controller.close_channel 0 (id_bytes true) (false : @PublicKey example_ldk) None)
      node_with_channels ∧
  close_channel 0 "0" node_with_channels =
    internal_server (Controller.close_channel 0 (id_bytes false) (false : @PublicKey example_ldk) None)
      node_with_channels.
Proof.
  assert (∀ s, 0 ≤ s → print_nat s ≠ "0202"%string →
    numbers_are_scids (cm_list_channels (world node_with_channels)) s) as Hn.
  { intros s Hs Hp. split; [done|]. intros c [->| ->]%two_channels; by split; [apply not_eq_sym|]. }
  split.
  - apply (proj1 (close_by_number 0 7 node_with_channels (Hn 7 ltac:(done) ltac:(by vm_compute)))
             usable_channel); try done; [by left|].
    by intros c [->| ->]%two_channels.
  - apply (proj2 (proj2 (close_by_number 0 0 node_with_channels
             (Hn 0 ltac:(done) ltac:(by vm_compute)))) [usable_channel] opening_channel []); try done.
    by intros c ->%list_elem_of_singleton.
Defined.

(** A payment of 500 millisatoshis was forwarded for a fee of 1000. *)
Definition small_forward : Forward :=
  forward_success (id_bytes true) 5 (id_bytes true) (id_bytes false) 500 1000.
Definition node_with_forward : node :=
  set_database (mk_conn (set_forwards [row_of_forward small_forward] empty_ldk) [] None false) example_node.

Lemma forward_amounts_witness : ∃ w, fst (list_forwards None node_with_forward) = Panic w.
Proof.
  assert (forwards_list (forward_filter None) node_with_forward =
    (Ok [small_forward], node_with_forward)) as Hl by reflexivity.
  assert (u64 500 ∧ u64 1000) as [Hs Hf] by (unfold in_unsigned; lia).
  destruct (forward_amounts (id_bytes true) 5 (id_bytes true) (id_bytes false) 500 1000 None
    [small_forward] node_with_forward node_with_forward Hs Hf Hl) as [_ Hp]; [by left|].
  rewrite bool_decide_eq_false_2 in Hp by lia. exact Hp.
Defined.
End Instances.
