(* ===== verification/ApiNode.v ===== *)
(** * The REST API: invoices, payments, peers, the wallet, the network (src/kld/src/api)

    The handlers of invoices.rs, payments.rs, peers.rs, wallet.rs, utility.rs and network.rs as
    translations between requests and the controller or the wallet. Texts that a library outside
    src/ makes of its own types are functions of [ApiText]; the network graph is [ApiGraph]. *)

From S2P Require Import Addresses NetAddress Prelude Text RustStd Sql Ldk Payment LdkDatabase Fees AsyncRequests Wallet Node Controller EventHandler Api.
From Stdlib Require SpecFloat.

(** ** The parts of the libraries' types the handlers read *)

Inductive description_view := Direct (d : string) | HashOf (h : bytes).

Class ApiText {LT : LdkTypes} {FR : BdkFeeRate} {B : Bdk} := {
  bolt11_description : Bolt11Invoice → description_view;
  (** [expires_at()] in seconds. *)
  expires_at : Bolt11Invoice → option Z;
  currency_to_string : Bolt11Invoice → string;
  min_final_cltv_expiry_delta : Bolt11Invoice → Z;
  payee_pub_key : Bolt11Invoice → option PublicKey;
  signature_to_string : Bolt11Invoice → string;

  address_from_str : string → result string UncheckedAddress;
  address_to_string : AddressInfo → string;
  serialize_hex : Transaction → string;
  details_txid : TransactionDetails → string;
  (** The height of [confirmation_time]. *)
  confirmation_height : TransactionDetails → option Z;
  (** [untrusted_pending], [trusted_pending] and [confirmed]. *)
  balance_parts : Balance → Z * Z * Z;
  utxo_txid : LocalUtxo → string;
  utxo_vout : LocalUtxo → Z;
  utxo_value : LocalUtxo → Z;
  utxo_address : LocalUtxo → Network → result string string;
  utxo_script : LocalUtxo → string;
}.

Record NodeAnnouncement := mk_announcement {
  na_alias : string; na_color : string; na_last_update : Z; na_features : string;
  na_addresses : list string;
}.
Record ChannelUpdateInfo := mk_update_info {
  (** The flags of [last_update_message]. *)
  cu_flags : option Z;
  cu_enabled : bool; cu_last_update : Z; cu_base_msat : Z; cu_proportional_millionths : Z;
  cu_cltv_expiry_delta : Z; cu_htlc_minimum_msat : Z; cu_htlc_maximum_msat : Z;
}.
Record ChannelInfo (NodeId : Type) := mk_channel_info {
  cin_node_one : NodeId; cin_node_two : NodeId; cin_capacity_sats : option Z;
  cin_one_to_two : option ChannelUpdateInfo; cin_two_to_one : option ChannelUpdateInfo;
}.
Arguments cin_node_one {NodeId} c.
Arguments cin_node_two {NodeId} c.
Arguments cin_capacity_sats {NodeId} c.
Arguments cin_one_to_two {NodeId} c.
Arguments cin_two_to_one {NodeId} c.

Class ApiGraph {LT : LdkTypes} {FR : BdkFeeRate} {B : Bdk} {LN : Lightning} := {
  NodeId : Type;
  node_id_from_str : string → option NodeId;
  node_id_from_pubkey : PublicKey → NodeId;
  as_pubkey : NodeId → result string PublicKey;
  node_id_hex : NodeId → string;
  (** A node of the graph has an announcement or not. *)
  graph_nodes : World → list (NodeId * option NodeAnnouncement);
  graph_node : World → NodeId → option (option NodeAnnouncement);
  graph_channels : World → list (Z * ChannelInfo NodeId);
  graph_channel : World → Z → option (ChannelInfo NodeId);
  (** The scorer behind its lock. *)
  liquidity_range : World → Z → NodeId → result string (option (Z * Z));
  sign_message : World → string → result string string;
}.

(** ** Floating point

    [f32] and [f64] with rounding to nearest, from the specification of the standard library;
    [as u32] truncates and saturates, and makes 0 of NaN. *)

Abbreviation float := SpecFloat.spec_float.
Definition f32_of (z : Z) : float := SpecFloat.binary_normalize 24 128 z 0 false.
Definition f32_mul : float → float → float := SpecFloat.SFmul 24 128.
Definition f32_div : float → float → float := SpecFloat.SFdiv 24 128.
Definition f64_of (z : Z) : float := SpecFloat.binary_normalize 53 1024 z 0 false.
Definition f64_mul : float → float → float := SpecFloat.SFmul 53 1024.
Definition float_as_u32 (x : float) : Z :=
  match x with
  | SpecFloat.S754_infinity false => u32_max
  | SpecFloat.S754_finite false m e =>
      Z.min u32_max (if bool_decide (0 ≤ e) then Z.pos m * 2 ^ e else Z.pos m / 2 ^ (- e))
  | _ => 0
  end.

Section Handlers.
Context {LT : LdkTypes} {FR : BdkFeeRate} {B : Bdk} {BB : BdkBuilder} {LN : Lightning}
  {D : Driver} {DC : DescriptorCodec} {HO : HashOrder} {AT : ApiTypes} {TX : ApiText} {AG : ApiGraph}
  {BU : Build}.
Context `{EqDecision PublicKey}.
(** The settings of the node and its key. *)
Variable settings : Settings.
Variable our_node_id : PublicKey.

(** ** Invoices (invoices.rs) *)

Inductive InvoiceStatus := InvoiceUnpaid | InvoicePaid | InvoiceExpired.

Record GenerateInvoice := mk_generate {
  gi_amount : Z; gi_label : string; gi_description : string; gi_expiry : option Z;
}.
Record GenerateInvoiceResponse := mk_generated {
  gr_payment_hash : string; gr_expires_at : Z; gr_bolt11 : string;
}.
Record InvoiceItem := mk_invoice_item {
  ii_label : option string; ii_bolt11 : string; ii_payment_hash : string; ii_description : string;
  ii_status : InvoiceStatus; ii_amount_msat : option Z; ii_amount_received_msat : option Z;
  ii_paid_at : option Z; ii_expires_at : option Z;
}.

Definition label_too_long (label : string) : bool := bool_decide (100 < String.length label)%nat.
Definition label_error : api_error := BadRequest "Label max length is 100 chars".

Definition generate_invoice (request : GenerateInvoice) : apim GenerateInvoiceResponse :=
  if label_too_long (gi_label request) then cmd_err label_error
  else
    let* invoice := internal_server (Controller.generate_invoice (gi_label request)
                      (Some (gi_amount request)) (gi_description request) (gi_expiry request)) in
    let bolt11 := inv_bolt11 invoice in
    let* at_ := cmd_lift (ok_or (BadRequest "expiry is too far in the future") (expires_at bolt11)) in
    cmd_ret (mk_generated (bolt11_to_string bolt11) (as_u32 at_) (bolt11_to_string bolt11)).

(** The sum of the payments' amounts: additions of [u64]s. *)
Fixpoint sum_received (sum : Z) (payments : list Payment) : apim Z :=
  match payments with
  | [] => cmd_ret sum
  | p :: payments => let* sum := arith_api (sum + pay_amount p) in sum_received sum payments
  end.

(** The time the invoice stays valid is compared with the time since the epoch. *)
Definition invoice_status (now : Z) (invoice : Invoice) : InvoiceStatus :=
  match inv_payments invoice with
  | _ :: _ => InvoicePaid
  | [] => if bool_decide (expiry_time_secs (inv_bolt11 invoice) * 1000000 > now) then InvoiceExpired
          else InvoiceUnpaid
  end.

Definition invoice_item (now : Z) (invoice : Invoice) : apim InvoiceItem :=
  let bolt11 := inv_bolt11 invoice in
  let description := match bolt11_description bolt11 with
                     | Direct d => d
                     | HashOf h => hex_encode h
                     end in
  let* received := sum_received 0 (inv_payments invoice) in
  cmd_ret (mk_invoice_item (inv_label invoice) (bolt11_to_string bolt11)
             (hex_encode (payment_hash_of bolt11)) description (invoice_status now invoice)
             (amount_milli_satoshis bolt11)
             (if bool_decide (received > 0) then Some received else None)
             ((λ p, as_u32 (unix_timestamp (pay_timestamp p))) <$> head (inv_payments invoice))
             (expires_at bolt11)).

Fixpoint api_mapM {A C} (f : A → apim C) (l : list A) : apim (list C) :=
  match l with
  | [] => cmd_ret []
  | a :: l => let* c := f a in let* rest := api_mapM f l in cmd_ret (c :: rest)
  end.

(** [empty_string_as_none] on a query parameter. *)
Definition empty_string_as_none (o : option string) : option string :=
  match o with Some EmptyString => None | o => o end.

Definition list_invoices (now : Z) (label : option string) : apim (list InvoiceItem) :=
  let label := empty_string_as_none label in
  let* _ := match label with
            | Some l => if label_too_long l then cmd_err label_error else cmd_ret ()
            | None => cmd_ret ()
            end in
  let* invoices := internal_server (Controller.list_invoices label) in
  api_mapM (invoice_item now) invoices.

Record DecodedInvoice := mk_decoded {
  di_valid : bool; di_amount_msat : option Z; di_created_at : Z; di_currency : string;
  di_description : string; di_expiry : Z; di_min_final_cltv_expiry : Z; di_payee : option string;
  di_payment_hash : string; di_signature : string;
}.
Definition decode_invoice (maybe_invoice : string) : apim DecodedInvoice :=
  match bolt11_from_str maybe_invoice with
  | Ok bolt11 =>
      cmd_ret (mk_decoded (match check_signature bolt11 with Ok _ => true | _ => false end)
        (amount_milli_satoshis bolt11) (unix_timestamp (bolt11_timestamp bolt11))
        (currency_to_string bolt11)
        (match bolt11_description bolt11 with Direct d => d | HashOf h => hex_encode h end)
        (expiry_time_secs bolt11) (min_final_cltv_expiry_delta bolt11)
        (pk_to_string <$> payee_pub_key bolt11) (hex_encode (payment_hash_of bolt11))
        (signature_to_string bolt11))
  | _ => cmd_err (BadRequest "Invoice could not be decoded")
  end.

(** ** Payments (payments.rs) *)

Record PaymentResponse := mk_payment_response {
  py_destination : string; py_payment_hash : string; py_created_at : Z; py_parts : Z;
  py_amount_msat : option Z; py_amount_sent_msat : Z; py_payment_preimage : string;
  py_status : string;
}.

(** [payment.hash.context(..).map_err(internal_server)?] in hex. *)
Definition hash_of (payment : Payment) : apim string :=
  cmd_map hex_encode (cmd_lift (ok_or (InternalServerError "missing payment hash") (pay_hash payment))).
Definition preimage_of (payment : Payment) : string :=
  match pay_preimage payment with Some i => hex_encode i | None => EmptyString end.

Definition keysend (random : bytes) (now : Z) (pubkey : string) (amount : Z) : apit PaymentResponse :=
  let^ node_id := of_apim (cmd_lift (ok_or (BadRequest "node id decode error")
                                       (node_id_from_str pubkey))) in
  let^ payment := call_internal (keysend_payment random now (as_pubkey node_id) amount) in
  let^ payment_hash := of_apim (hash_of payment) in
  let^ amount_sent := of_apim (arith_api (amount * 1000)) in
  Done (Ok (Ok (mk_payment_response pubkey payment_hash
    (as_u64 (unix_timestamp (pay_timestamp payment))) 1 (Some amount) amount_sent
    (preimage_of payment) (payment_status_fmt (pay_status payment))))).

Definition pay_invoice (random : bytes) (now : Z) (invoice : string) (label : option string) :
    apit PaymentResponse :=
  let^ invoice := of_apim (bad_request (invoice_try_from invoice)) in
  let destination := pk_to_string (inv_payee_pub_key invoice) in
  let amount := inv_amount invoice in
  let^ payment := call_internal (Controller.pay_invoice random now invoice label) in
  let^ payment_hash := of_apim (hash_of payment) in
  Done (Ok (Ok (mk_payment_response destination payment_hash
    (as_u64 (unix_timestamp (pay_timestamp payment))) 1 amount (pay_amount payment)
    (preimage_of payment) (payment_status_fmt (pay_status payment))))).

Inductive PaymentItemStatus := ItemPending | ItemComplete | ItemFailed.
Record PaymentItem := mk_payment_item {
  pi_bolt11 : option string; pi_item_status : PaymentItemStatus; pi_payment_preimage : option string;
  pi_amount_sent_msat : Z; pi_amount_msat : option Z; pi_created_at : Z;
  pi_destination : option string; pi_id : string; pi_memo : option string;
  pi_payment_hash : option string;
}.
Definition payment_item (p : Payment) : PaymentItem :=
  mk_payment_item (bolt11_to_string <$> pay_bolt11 p)
    (match pay_status p with Pending => ItemPending | Succeeded => ItemComplete | _ => ItemFailed end)
    (hex_encode <$> pay_preimage p) (pay_amount p) (pay_bolt11 p ≫= amount_milli_satoshis)
    (as_u64 (unix_timestamp (pay_timestamp p)))
    (pay_bolt11 p ≫= λ b, pk_to_string <$> payee_pub_key b) (hex_encode (pay_id p)) (pay_label p)
    (hex_encode <$> pay_hash p).

Definition transpose {A C} (f : A → result string C) (o : option A) : result string (option C) :=
  match o with Some a => result_map Some (f a) | None => Ok None end.

Definition list_payments (invoice direction : option string) : apim (list PaymentItem) :=
  let* invoice := bad_request (transpose invoice_try_from (empty_string_as_none invoice)) in
  let* direction := bad_request (transpose payment_direction_from_str
                                   (empty_string_as_none direction)) in
  cmd_map (fmap payment_item) (internal_server (Controller.list_payments invoice direction)).

(** ** Peers (peers.rs) *)

Record PeerItem := mk_peer_item {
  pe_id : string; pe_connected : bool; pe_netaddr : option string; pe_alias : string;
}.
Definition peer_item (p : PeerInfo) : PeerItem :=
  mk_peer_item (hex_encode (pk_encode (pi_public_key p)))
    (match pi_status p with Connected => true | Disconnected => false end)
    ((λ a, NetAddress.to_string (addr_view a)) <$> pi_net_address p) (pi_alias p).
Definition list_peers : apim (list PeerItem) :=
  cmd_map (fmap peer_item) (internal_server Controller.list_peers).

(** The key of the peer, in hex, with status 201. *)
Definition connect_peer (id : string) : apim string :=
  let* (public_key, net_address) := bad_request (parse_peer id) in
  let* _ := internal_server (Controller.connect_peer public_key net_address) in
  cmd_ret (hex_encode (pk_encode public_key)).
Definition disconnect_peer (id : string) : apim () :=
  let* public_key := bad_request (pk_from_str id) in
  internal_server (Controller.disconnect_peer public_key).

(** ** The on-chain wallet (wallet.rs) *)

Definition wallet_api {A} (m : walletm A) : apim A := internal_server (in_wallet m).

Record WalletBalance := mk_balance { total_balance : Z; conf_balance : Z; unconf_balance : Z }.
Definition get_balance : apim WalletBalance :=
  let* b := wallet_api balance in
  let '(untrusted_pending, trusted_pending, confirmed) := balance_parts b in
  let* unconf := arith_api (untrusted_pending + trusted_pending) in
  let* total := arith_api (unconf + confirmed) in
  cmd_ret (mk_balance total confirmed unconf).

Definition new_address (address_type : option string) : apim string :=
  if match address_type with Some t => negb (bool_decide (t = "bech32"%string)) | None => false end
  then cmd_err (BadRequest "Unsupported address type")
  else cmd_map address_to_string (wallet_api new_external_address).

(** The fields of a transfer request. *)
Record WalletTransfer := mk_transfer {
  wt_address : string; wt_satoshis : string; wt_fee_rate : option FeeRate;
  wt_min_conf : option string; wt_utxos : list string;
}.
(** The transaction and its id; [min_conf] and [utxos] of the request are not passed on. *)
Definition transfer (now : Z) (request : WalletTransfer) : apim (string * string) :=
  let* address := bad_request (address_from_str (wt_address request)) in
  let* amount := if bool_decide (wt_satoshis request = "all"%string) then cmd_ret u64_max
                 else bad_request (parse_u64 (wt_satoshis request)) in
  let* (tx, details) := wallet_api (Wallet.transfer (bitcoin_network settings) (unix_timestamp now)
                                      address amount (wt_fee_rate request) None []) in
  cmd_ret (serialize_hex tx, details_txid details).

Record OutputItem := mk_output_item {
  oi_txid : string; oi_output : Z; oi_amount_msat : Z; oi_address : string; oi_script : string;
  oi_confirmed : bool; oi_block_height : option Z;
}.
Definition output_item (p : LocalUtxo * TransactionDetails) : apim OutputItem :=
  let '(utxo, detail) := p in
  let* amount := arith_api (utxo_value utxo * 1000) in
  let* address := cmd_lift (map_err InternalServerError (utxo_address utxo (bitcoin_network settings))) in
  cmd_ret (mk_output_item (utxo_txid utxo) (utxo_vout utxo) amount address (utxo_script utxo)
             (match confirmation_height detail with Some _ => true | None => false end)
             (confirmation_height detail)).

Inductive ChannelState := ChannelUsable | ChannelReady | ChannelPending.
Record FundsChannel := mk_funds_channel {
  fch_peer_id : string; fch_connected : bool; fch_state : ChannelState;
  fch_short_channel_id : string; fch_channel_sat : Z; fch_our_amount_msat : Z;
  fch_amount_msat : Z; fch_funding_txid : string; fch_funding_output : Z;
}.
Definition channel_state (c : ChannelDetails) : ChannelState :=
  if cd_is_usable c then ChannelUsable
  else if cd_is_channel_ready c then ChannelReady else ChannelPending.

(** A channel without a funding output is left out. *)
Fixpoint funds_channels (peers : list PeerInfo) (l : list ChannelDetails) : apim (list FundsChannel) :=
  match l with
  | [] => cmd_ret []
  | channel :: l =>
      let f := cd_fields channel in
      match cf_funding_txo f with
      | Some (txid, index) =>
          let* amount := arith_api (cf_channel_value_satoshis f * 1000) in
          let item := mk_funds_channel (pk_to_string (cd_node_id channel))
            (connected_to peers (cd_node_id channel)) (channel_state channel)
            (match cd_short_channel_id channel with Some x => print_nat x | None => EmptyString end)
            (cf_channel_value_satoshis f) (cf_balance_msat f) amount (txid_to_string txid) index in
          let* rest := funds_channels peers l in
          cmd_ret (item :: rest)
      | None => funds_channels peers l
      end
  end.

Definition list_funds : apim (list OutputItem * list FundsChannel) :=
  let* utxos := wallet_api list_utxos in
  let* outputs := api_mapM output_item utxos in
  let* peers := internal_server Controller.list_peers in
  let* channels := ask_api list_active_channels in
  let* channels := funds_channels peers channels in
  cmd_ret (outputs, channels).

(** ** The node (utility.rs) *)

Record GetInfo := mk_get_info {
  gf_id : string; gf_alias : string; gf_num_peers : nat; gf_num_pending_channels : nat;
  gf_num_active_channels : nat; gf_num_inactive_channels : nat; gf_block_height : Z;
  gf_synced_to_chain : bool; gf_testnet : bool; gf_address : list string;
  gf_fees_collected_msat : Z;
}.
Definition get_info (now : Z) : apim GetInfo :=
  let* synced_to_chain := ask_api (λ n, (Ok (synced (unix_timestamp now) n), n)) in
  let* total := internal_server forwards_total in
  let* num_pending := ask_api num_pending_channels in
  let* num_active := ask_api num_active_channels in
  let* num_inactive := ask_api num_inactive_channels in
  let* num_peers := ask_api num_peers in
  let* block_height := internal_server (ask_client (λ c, result_map blocks (blockchain_info c))) in
  cmd_ret (mk_get_info (pk_to_string our_node_id) (node_alias settings) num_peers num_pending
             num_active num_inactive block_height synced_to_chain
             (match bitcoin_network settings with Bitcoin => false | _ => true end)
             ((λ a, NetAddress.to_string (addr_view a)) <$> public_addresses settings) (tf_fee total)).

Definition MESSAGE_MAX_LENGTH : Z := 65535.
Definition sign (message : string) : apim string :=
  if bool_decide (MESSAGE_MAX_LENGTH < Z.of_nat (String.length message))
  then cmd_err (BadRequest "Max message length is 65535")
  else ask_api (λ n, (map_err Msg (sign_message (world n) message), n)).

Definition estimate_channel_liquidity_range (scid : Z) (target : string) : apim (Z * Z) :=
  let* node_id := cmd_lift (ok_or (BadRequest "node iddecode error") (node_id_from_str target)) in
  let* range := ask_api (λ n, (map_err Msg (liquidity_range (world n) scid node_id), n)) in
  cmd_lift (ok_or (NotFound (print_nat scid)) range).

Definition get_fees : apim Z := cmd_map tf_fee (internal_server forwards_total).
Definition score : apim bytes := internal_server scorer_binary.

(** ** The network graph (network.rs) *)

Record NetworkNode := mk_network_node { nn_node_id : string; nn_announcement : NodeAnnouncement }.
Definition to_api_node (node_id : NodeId) (info : option NodeAnnouncement) : option NetworkNode :=
  mk_network_node (node_id_hex node_id) <$> info.

Definition list_network_nodes : apim (list NetworkNode) :=
  let* nodes := ask_api (ask_world graph_nodes) in
  cmd_ret (omap (λ '(id, info), to_api_node id info) nodes).

Definition get_network_node (id : string) : apim (list NetworkNode) :=
  let* public_key := bad_request (pk_from_str id) in
  let node_id := node_id_from_pubkey public_key in
  let* info := ask_api (ask_world (λ w, graph_node w node_id)) in
  cmd_lift (ok_or (NotFound id) ((λ n, [n]) <$> (info ≫= to_api_node node_id))).

Record NetworkChannel := mk_network_channel {
  nc_source : string; nc_destination : string; nc_short_channel_id : Z; nc_satoshis : Z;
  nc_amount_msat : Z; nc_channel_flags : Z; nc_active : bool; nc_last_update : Z;
  nc_base_fee_millisatoshi : Z; nc_fee_per_millionth : Z; nc_delay : Z; nc_htlc_minimum_msat : Z;
  nc_htlc_maximum_msat : Z;
}.
Definition make_channel (scid : Z) (info : ChannelInfo NodeId) (one two : NodeId)
    (u : ChannelUpdateInfo) : apim NetworkChannel :=
  let* amount := match cin_capacity_sats info with
                 | Some s => arith_api (s * 1000)
                 | None => cmd_ret 0
                 end in
  cmd_ret (mk_network_channel (node_id_hex one) (node_id_hex two) scid
             (default 0 (cin_capacity_sats info)) amount (default 0 (cu_flags u)) (cu_enabled u)
             (cu_last_update u) (cu_base_msat u) (cu_proportional_millionths u)
             (cu_cltv_expiry_delta u) (cu_htlc_minimum_msat u) (cu_htlc_maximum_msat u)).
(** A direction without an update is left out. *)
Definition to_api_channel (scid : Z) (info : ChannelInfo NodeId) : apim (list NetworkChannel) :=
  let one := cin_node_one info in
  let two := cin_node_two info in
  let* forth := match cin_one_to_two info with
                | Some u => cmd_map (λ c, [c]) (make_channel scid info one two u)
                | None => cmd_ret []
                end in
  let* back := match cin_two_to_one info with
               | Some u => cmd_map (λ c, [c]) (make_channel scid info two one u)
               | None => cmd_ret []
               end in
  cmd_ret (forth ++ back).

Definition get_network_channel (id : string) : apim (list NetworkChannel) :=
  let* scid := bad_request (parse_u64 id) in
  let* info := ask_api (ask_world (λ w, graph_channel w scid)) in
  match info with
  | Some info => to_api_channel scid info
  | None => cmd_err (NotFound id)
  end.
Definition list_network_channels : apim (list NetworkChannel) :=
  let* channels := ask_api (ask_world graph_channels) in
  cmd_map (@concat _) (api_mapM (λ '(scid, info), to_api_channel scid info) channels).

Definition CHANNEL_OPEN_VB : Z := 152.
Definition MUTUAL_CLOSE_VB : Z := 130.
Definition UNILATERAL_CLOSE_VB : Z := 150.

(** [((normal as f32 / 1000.0) * vb as f32 * 4.0) as u32]. *)
Definition onchain_fee (normal vb : Z) : Z :=
  float_as_u32 (f32_mul (f32_mul (f32_div (f32_of normal) (f32_of 1000)) (f32_of vb)) (f32_of 4)).

Record FeeRates := mk_fee_rates {
  fr_urgent : Z; fr_normal : Z; fr_slow : Z; fr_min_acceptable : Z; fr_max_acceptable : Z;
}.
Record FeeRatesResponse := mk_fee_rates_response {
  frr_perkb : option FeeRates; frr_perkw : option FeeRates;
  frr_opening : Z; frr_mutual_close : Z; frr_unilateral_close : Z;
}.
Definition arith_u32 (z : Z) : apim Z := cmd_lift (arith 32 z).

(** [mempool_min_fee] is the answer of bitcoind. *)
Definition fee_rates (mempool_min_fee : result string float) (style : string) :
    apim FeeRatesResponse :=
  let* (urgent, normal, slow) := internal_server (ask_client (λ c, Ok (fee_rates_kw (priorities c)))) in
  let* min_fee := cmd_lift (map_err InternalServerError mempool_min_fee) in
  let response perkb perkw := mk_fee_rates_response perkb perkw (onchain_fee normal CHANNEL_OPEN_VB)
    (onchain_fee normal MUTUAL_CLOSE_VB) (onchain_fee normal UNILATERAL_CLOSE_VB) in
  if bool_decide (style = "perkb"%string) then
    let* u := arith_u32 (urgent * 4) in
    let* n := arith_u32 (normal * 4) in
    let* s := arith_u32 (slow * 4) in
    let* m := arith_u32 (urgent * 4) in
    cmd_ret (response (Some (mk_fee_rates u n s (float_as_u32 (f64_mul min_fee (f64_of 100000000))) m))
               None)
  else if bool_decide (style = "perkw"%string) then
    cmd_ret (response None (Some (mk_fee_rates urgent normal slow
               (float_as_u32 (f64_mul min_fee (f64_of 25000000))) urgent)))
  else cmd_err (BadRequest ("unknown fee style " +:+ style)).
End Handlers.

Example onchain_fee_example : onchain_fee 2000 CHANNEL_OPEN_VB = 1216.
Proof. reflexivity. Qed.

(** ** Invoices in the list *)

Section Invoices.
Context {LT : LdkTypes} {FR : BdkFeeRate} {B : Bdk} {BB : BdkBuilder} {LN : Lightning}
  {D : Driver} {DC : DescriptorCodec} {HO : HashOrder} {AT : ApiTypes} {TX : ApiText} {BU : Build}.

Lemma api_mapM_forall2 {A C} (f : A → apim C) (P : A → C → Prop) l n cs n' :
  (∀ a n c n', a ∈ l → f a n = (Ok c, n') → P a c) →
  api_mapM f l n = (Ok cs, n') → Forall2 P l cs.
Proof.
  revert n cs. induction l as [|a l IH]; intros n cs Hf; cbn [api_mapM]; unfold cmd_bind.
  { intros [= <- _]. constructor. }
  destruct (f a n) as [[c|e|w] n1] eqn:Ha; try done.
  destruct (api_mapM f l n1) as [[rest|e|w] n2] eqn:Hr; try done.
  intros [= <- <-]. constructor; [by eapply Hf, Ha; left|].
  eapply IH, Hr. intros; eapply Hf; [by right|done].
Qed.

(** The instant at which an invoice expires. *)
Definition expiry_instant (i : Invoice) : Z :=
  bolt11_timestamp (inv_bolt11 i) + expiry_time_secs (inv_bolt11 i) * 1000000.

(** The status in the list of invoices. An invoice with any payment is shown as paid, also
    when the payment failed or is pending. An invoice without payments is never shown as expired
    once it has expired: the code compares the time the invoice stays valid, instead of the time
    it expires, with the time since the epoch, so an expired invoice is always shown as unpaid. *)
Theorem expired_invoices_are_shown_unpaid now label invoices n n1 items n2 :
  Controller.list_invoices (empty_string_as_none label) n = (Ok invoices, n1) →
  list_invoices now label n = (Ok items, n2) →
  Forall2 (λ i item,
    ii_bolt11 item = bolt11_to_string (inv_bolt11 i) ∧
    (inv_payments i ≠ [] → ii_status item = InvoicePaid) ∧
    (inv_payments i = [] → 0 ≤ bolt11_timestamp (inv_bolt11 i) → expiry_instant i ≤ now →
     ii_status item = InvoiceUnpaid)) invoices items.
Proof.
  intros Hl. unfold list_invoices, cmd_bind at 1. destruct (empty_string_as_none label) as [l|].
  1: destruct (label_too_long l); [done|]. all: simpl; unfold cmd_bind, internal_server, cmd_map_err.
  all: rewrite Hl; apply api_mapM_forall2; intros i m item m' _; unfold invoice_item, cmd_bind.
  all: destruct (sum_received 0 (inv_payments i) m) as [[r|e|w] m1]; intros [= <- <-].
  all: unfold invoice_status, expiry_instant; simpl; split; [done|].
  all: destruct (inv_payments i); split; try done; intros _ H0 Hnow.
  all: by rewrite bool_decide_eq_false_2 by lia.
Qed.
End Invoices.

(** ** Peers as they are shown *)

(** The hex form of a key is read as that key, and an address is its variant. *)
Class PeerTexts {LT : LdkTypes} {FR : BdkFeeRate} {B : Bdk} {LN : Lightning} {AT : ApiTypes} := {
  key_is_read k : pk_from_str (hex_encode (pk_encode k)) = Ok k;
  key_has_no_at k : over (λ c, c ≠ at_sign) (hex_encode (pk_encode k));
  addr_of_variant a : addr_make (addr_view a) = a;
  addr_variant_ok a : address_ok (addr_view a);
}.

Section Peers.
Context {LT : LdkTypes} {FR : BdkFeeRate} {B : Bdk} {BB : BdkBuilder} {LN : Lightning}
  {D : Driver} {DC : DescriptorCodec} {HO : HashOrder} {AT : ApiTypes} {TX : ApiText} {BU : Build}.
Context {LA : LdkAddressLaws} {PT : PeerTexts} `{EqDecision PublicKey}.

(** [C30] A connected peer is shown with its key and its address. With these two, joined by an at
    sign, a request to connect reaches the controller with the same key and address when it is
    an IPv4 or IPv6 address; an onion address or a host name that is shown is a bad request when
    it is given back. *)
Theorem shown_peers_can_be_connected p a t n :
  pi_net_address p = Some a → pe_netaddr (peer_item p) = Some t →
  connect_peer (pe_id (peer_item p) +:+ String at_sign t) n =
    match to_socket_addr (addr_view a) with
    | Ok _ => cmd_map (λ _, pe_id (peer_item p))
                (internal_server (Controller.connect_peer (pi_public_key p) (Some a))) n
    | _ => (Err (BadRequest (t +:+ " is not a valid socket address")), n)
    end.
Proof.
  intros Ha Ht. unfold peer_item in *. simpl in *. rewrite Ha in Ht. simpl in Ht.
  injection Ht as <-. pose proof (address_text_read (addr_view a) (addr_variant_ok a)) as Hread.
  unfold connect_peer, parse_peer. rewrite split_once_over by apply key_has_no_at.
  rewrite key_is_read. simpl. destruct (to_socket_addr (addr_view a)) as [sa|e|w]; [| |done].
  - destruct Hread as [_ ->]. simpl. by rewrite addr_of_variant.
  - by destruct Hread as [_ ->].
Qed.
End Peers.

(** ** A small instance to compute with *)

Definition example_text : @ApiText example_ldk example_rate example_bdk := {|
  bolt11_description := λ _, Direct "coffee";
  expires_at := λ _, Some 3600;
  currency_to_string := λ _, "bcrt"%string;
  min_final_cltv_expiry_delta := λ _, 18;
  payee_pub_key := λ _, None;
  signature_to_string := λ _, ""%string;
  address_from_str := λ s, if bool_decide (s = "bc1"%string)
    then Ok (Bitcoin : @UncheckedAddress _ example_bdk) else Err "base58"%string;
  address_to_string := λ _, "bc1"%string;
  serialize_hex := λ _, "00"%string;
  details_txid := λ _, "0101"%string;
  confirmation_height := λ _, Some 90;
  balance_parts := λ b, (1, 2, (b : Z));
  utxo_txid := λ _, "0101"%string;
  utxo_vout := λ _, 0;
  utxo_value := λ _, 5000;
  utxo_address := λ _ _, Ok "bc1"%string;
  utxo_script := λ _, ""%string;
|}.

Definition example_graph : @ApiGraph example_ldk example_rate example_bdk example_lightning :=
  @Build_ApiGraph example_ldk example_rate example_bdk example_lightning bool (λ _, Some true)
    (λ k, (k : bool)) (λ k, Ok (k : @PublicKey example_ldk)) (λ _, "02"%string) (λ _, [])
    (λ _ _, None) (λ _, []) (λ _ _, None) (λ _ _ _, Ok None) (λ _ m, Ok m).

Section Instances.
#[local] Existing Instance example_ldk.
#[local] Existing Instance example_ldk_laws.
#[local] Existing Instance example_rate.
#[local] Existing Instance example_bdk.
#[local] Existing Instance example_builder.
#[local] Existing Instance example_lightning.
#[local] Existing Instance example_descriptors.
#[local] Existing Instance insertion_order.
#[local] Existing Instance list_order.
#[local] Existing Instance example_api.
#[local] Existing Instance example_text.
#[local] Existing Instance checked.

(** An invoice of 1970 that was valid for an hour. *)
Definition old_invoice : Invoice :=
  mk_invoice (id_bytes true) None (true : @Bolt11Invoice example_ldk) (false : @PublicKey example_ldk)
    None (Some 1000) 0 [].
Definition node_with_invoice : node :=
  set_database (mk_conn (set_invoices [row_of_invoice old_invoice] empty_ldk) [] None false) example_node.

Definition stored_invoice : Invoice :=
  mk_invoice (id_bytes true) None (true : @Bolt11Invoice example_ldk) (false : @PublicKey example_ldk)
    (Some 3600) (Some 1000) 0 [].
Lemma example_peer_texts : PeerTexts (AT := example_api).
Proof.
  split; [by intros []| |by intros []|].
  - intros k. apply Forall_forall. destruct k; vm_compute; intros c Hc;
      repeat (apply elem_of_cons in Hc as [->|Hc]; [done|]); by apply elem_of_nil in Hc.
  - intros []; (split; [split; [done|]|split; lia]);
      repeat (apply Forall_cons_2; [split; lia|]); by apply Forall_nil_2.
Qed.
Lemma shown_peers_can_be_connected_witness :
  connect_peer "02bb@127.0.0.1:9735" example_node =
    cmd_map (λ _, "02bb"%string) (internal_server
      (Controller.connect_peer (true : @PublicKey example_ldk) (Some (true : @SocketAddress example_ldk)))) example_node.
Proof.
  exact (shown_peers_can_be_connected (LA := example_address_laws) (PT := example_peer_texts)
    (mk_peer_info (true : @PublicKey example_ldk) (Some (true : @SocketAddress example_ldk)) Connected "bob")
    true "127.0.0.1:9735" example_node eq_refl eq_refl).
Defined.

Definition shown_invoice (status : InvoiceStatus) : InvoiceItem :=
  mk_invoice_item None "lnbc1" "0202" "coffee" status (Some 1000) None None (Some 3600).

Lemma expired_invoices_are_shown_unpaid_witness :
  ∃ status, list_invoices (10 ^ 15) None node_with_invoice =
    (Ok [shown_invoice status], node_with_invoice) ∧ status = InvoiceUnpaid.
Proof.
  assert (Controller.list_invoices (empty_string_as_none None) node_with_invoice =
    (Ok [stored_invoice], node_with_invoice)) as Hc by reflexivity.
  assert (list_invoices (10 ^ 15) None node_with_invoice =
    (Ok [shown_invoice InvoiceUnpaid], node_with_invoice)) as Hl by reflexivity.
  exists InvoiceUnpaid. split; [done|].
  pose proof (expired_invoices_are_shown_unpaid (10 ^ 15) None [stored_invoice] node_with_invoice
    node_with_invoice [shown_invoice InvoiceUnpaid] node_with_invoice Hc Hl) as Hall.
  inversion_clear Hall as [|? ? ? ? (_ & _ & Hu) _].
  apply Hu; [done|done|by apply Z.leb_le].
Defined.
End Instances.
