(* ===== verification/ApiRoutes.v ===== *)
(** * Requests and what they may change (src/kld/src/api/mod.rs)

    The readonly routes with their handlers, the guard of the macaroon layer in front of a
    route, and the theorem that ties the two macaroons of [Auth] to the state of the node: the
    holder of a readonly macaroon cannot change anything but the stored details of channels. *)

From S2P Require Import Prelude Text Sql Ldk Payment LdkDatabase Fees AsyncRequests Wallet Node Controller EventHandler Protocol Auth Api ApiNode.

Section Routes.
Context {LT : LdkTypes} {FR : BdkFeeRate} {B : Bdk} {BB : BdkBuilder} {LN : Lightning}
  {D : Driver} {DC : DescriptorCodec} {HO : HashOrder} {AT : ApiTypes} {TX : ApiText} {AG : ApiGraph}
  {BU : Build} {MC : Macaroons}.
Context `{EqDecision PublicKey}.
Variable settings : Settings.
Variable our_node_id : PublicKey.

(** ** Routes and handlers *)

(** A request to a readonly route, with its parameters. *)
Inductive request :=
| QRoot
| QGetInfo
| QEstimateLiquidity (scid : Z) (target : string)
| QGetBalance
| QListFunds
| QListPeerChannels
| QListPeers
| QNetworkNode (id : string)
| QNetworkNodes
| QNetworkChannel (id : string)
| QNetworkChannels
| QFeeRates (style : string)
| QListInvoices (label : option string)
| QListPayments (invoice direction : option string)
| QLocalRemoteBalance
| QGetFees
| QListForwards (status : option forward_item_status)
| QChannelHistory
| QListChannels
| QDecodeInvoice (invoice : string)
| QScorer.

Definition route_of (q : request) : string * method :=
  match q with
  | QRoot => ("/", GET)
  | QGetInfo => ("/v1/getinfo", GET)
  | QEstimateLiquidity _ _ => ("/v1/estimateChannelLiquidity", GET)
  | QGetBalance => ("/v1/getBalance", GET)
  | QListFunds => ("/v1/listFunds", GET)
  | QListPeerChannels => ("/v1/channel/listPeerChannels", GET)
  | QListPeers => ("/v1/peer/listPeers", GET)
  | QNetworkNode _ => ("/v1/network/listNode/:id", GET)
  | QNetworkNodes => ("/v1/network/listNode", GET)
  | QNetworkChannel _ => ("/v1/network/listChannel/:id", GET)
  | QNetworkChannels => ("/v1/network/listChannel", GET)
  | QFeeRates _ => ("/v1/network/feeRates/:style", GET)
  | QListInvoices _ => ("/v1/invoice/listInvoices", GET)
  | QListPayments _ _ => ("/v1/pay/listPayments", GET)
  | QLocalRemoteBalance => ("/v1/channel/localremotebal", GET)
  | QGetFees => ("/v1/getFees", GET)
  | QListForwards _ => ("/v1/channel/listForwards", GET)
  | QChannelHistory => ("/v1/channel/history", GET)
  | QListChannels => ("/kld/channels", GET)
  | QDecodeInvoice _ => ("/v1/utility/decode/:invoice", GET)
  | QScorer => ("/kld/scorer", GET)
  end%string.

(** The handler of a route; [now] is the clock and [mempool_min_fee] an answer of bitcoind. *)
Definition handler (now : Z) (mempool_min_fee : result string float) (q : request) :
    {A : Type & apim A} :=
  match q with
  | QRoot => existT _ (cmd_ret ())
  | QGetInfo => existT _ (get_info settings our_node_id now)
  | QEstimateLiquidity scid target => existT _ (estimate_channel_liquidity_range scid target)
  | QGetBalance => existT _ get_balance
  | QListFunds => existT _ (list_funds settings)
  | QListPeerChannels => existT _ list_peer_channels
  | QListPeers => existT _ ApiNode.list_peers
  | QNetworkNode id => existT _ (get_network_node id)
  | QNetworkNodes => existT _ list_network_nodes
  | QNetworkChannel id => existT _ (get_network_channel id)
  | QNetworkChannels => existT _ list_network_channels
  | QFeeRates style => existT _ (fee_rates mempool_min_fee style)
  | QListInvoices label => existT _ (ApiNode.list_invoices now label)
  | QListPayments invoice direction => existT _ (ApiNode.list_payments invoice direction)
  | QLocalRemoteBalance => existT _ local_remote_balance
  | QGetFees => existT _ get_fees
  | QListForwards status => existT _ (list_forwards status)
  | QChannelHistory => existT _ Api.channel_history
  | QListChannels => existT _ (Api.list_channels now)
  | QDecodeInvoice invoice => existT _ (decode_invoice invoice)
  | QScorer => existT _ score
  end.

(** How the server refuses a request before its handler runs. *)
Inductive rejection :=
| NoMacaroon (detail : string)
| Refused (e : api_error).

(** The macaroon layer: the extractor, then [readonly_auth] or [admin_auth]. *)
Definition guard (key : MacaroonKey) (a : access) (h : headers) : result rejection () :=
  match from_request_parts h with
  | Ok m => if authorized key a m then Ok () else Err (Refused Unauthorized)
  | Err e => Err (NoMacaroon e)
  | Panic w => Panic w
  end.

Definition serve {A} (key : MacaroonKey) (a : access) (h : headers) (m : apim A) :
    cmd node rejection A :=
  let* _ := cmd_lift (guard key a h) in cmd_map_err Refused m.

(** ** Reading *)

(** The state of the node for the statements below, apart from what is to come of its connection
    (its faults) and from whether an open transaction has been aborted: a query that fails aborts
    it, as any statement does. What becomes of that flag is stated where it matters
    ([Exporter.leaves]). *)
Definition contents (n : node) :=
  (world n, node_wallet n, funding_transactions n, payment_requests n, spawned n,
   tables (database n), snapshot (database n)).
(** The same without the table of channels. *)
Definition contents_but_channels (n : node) :=
  (world n, node_wallet n, funding_transactions n, payment_requests n, spawned n,
   set_channels [] (tables (database n)), snapshot (database n)).

Definition db_reads {A} (m : ldkm A) : Prop :=
  ∀ c, tables (snd (m c)) = tables c ∧ snapshot (snd (m c)) = snapshot c.

Lemma db_reads_lift {A} (r : result db_error A) : db_reads (cmd_lift r).
Proof. done. Qed.
Lemma db_reads_ret {A} (a : A) : db_reads (cmd_ret a).
Proof. done. Qed.
Lemma db_reads_bind {A C} (m : ldkm A) (k : A → ldkm C) :
  db_reads m → (∀ a, db_reads (k a)) → db_reads (cmd_bind m k).
Proof.
  intros Hm Hk c. unfold cmd_bind. destruct (Hm c) as [Ht Hs].
  destruct (m c) as [[a|e|w] c']; simpl in *; [|done..]. destruct (Hk a c') as [Ht' Hs'].
  by rewrite Ht', Hs'.
Qed.
Lemma db_reads_query {R} (s : ldk_tables → list R) : db_reads (db_query s).
Proof.
  intros c. unfold db_query, cmd_map_err, query, statement.
  destruct (faults c) as [|[e|] fs]; try done; by destruct (aborted c).
Qed.
Lemma db_reads_totals : db_reads fetch_total_forwards.
Proof.
  intros c. unfold fetch_total_forwards, cmd_map_err, statement.
  destruct (faults c) as [|[e|] fs]; simpl; [|done|]; (destruct (aborted c); [done|]); unfold cast_int;
    repeat (case_bool_decide; simpl; try done).
Qed.

Lemma keeps_reads {A} (m : ldkm A) : db_reads m → keeps contents (in_db m).
Proof.
  intros Hm n. unfold in_db, contents. destruct (Hm (database n)) as [Ht Hs].
  destruct (m (database n)) as [r c]. simpl in *. by rewrite Ht, Hs.
Qed.

Definition wallet_reads {A} (m : walletm A) : Prop := ∀ w, snd (m w) = w.
Lemma keeps_wallet_reads {A} (m : walletm A) : wallet_reads m → keeps contents (in_wallet m).
Proof.
  intros Hm n. unfold in_wallet. specialize (Hm (node_wallet n)).
  destruct (m (node_wallet n)) as [r w]. simpl in *. by subst w.
Qed.
Lemma keeps_ask_client {A} (g : bitcoind → result string A) : keeps contents (ask_client g).
Proof. by apply keeps_wallet_reads. Qed.
Lemma keeps_pure {E A} (g : node → result E A) : keeps contents (λ n, (g n, n)).
Proof. done. Qed.

Lemma balance_reads : wallet_reads balance.
Proof. intros w. unfold balance, try_locked. by destruct (wallet_lock w). Qed.
Lemma list_utxos_reads : wallet_reads list_utxos.
Proof.
  intros w. unfold list_utxos, try_locked. destruct (wallet_lock w); [|done..].
  unfold cmd_bind, ask. destruct (bdk_list_unspent (bdk w)) as [l| |]; [|done..].
  assert (wallet_reads (with_transactions l)) as Hl; [|apply Hl].
  induction l as [|u l IH]; intros w'; [done|]. simpl. unfold cmd_bind, ask.
  destruct (bdk_get_tx (bdk w') u); [|done..]. specialize (IH w').
  by destruct (with_transactions l w') as [[] ?].
Qed.

Lemma keeps_api_mapM {A C} (f : A → apim C) l :
  (∀ a, keeps contents (f a)) → keeps contents (api_mapM f l).
Proof.
  intros Hf. induction l; simpl; [done|]. apply keeps_bind; [done|]. intros c.
  apply keeps_bind; [done|]. intros cs. by apply keeps_ret.
Qed.
End Routes.

#[export] Hint Resolve db_reads_lift db_reads_ret db_reads_query db_reads_totals keeps_ask_client
  keeps_pure balance_reads list_utxos_reads : keeps.

(** Goes through a command that should only read. *)
Ltac solve_reads :=
  repeat match goal with
  | |- ∀ _, _ => intros
  | |- keeps _ (match ?x with _ => _ end) => destruct x
  | |- keeps _ (if ?x then _ else _) => destruct x
  | |- keeps _ (cmd_map _ _) => unfold cmd_map
  | |- keeps _ (internal_server _) => unfold internal_server
  | |- keeps _ (ask_api _) => unfold ask_api
  | |- keeps _ (bad_request _) => unfold bad_request
  | |- keeps _ (arith_api _) => unfold arith_api
  | |- keeps _ (arith_u32 _) => unfold arith_u32
  | |- keeps _ (wallet_api _) => unfold wallet_api
  | |- keeps _ (cmd_bind _ _) => apply keeps_bind
  | |- keeps _ (cmd_map_err _ _) => apply keeps_map_err
  | |- keeps _ (catch _) => apply keeps_catch
  | |- keeps _ (api_mapM _ _) => apply keeps_api_mapM
  | |- keeps _ (in_db _) => apply keeps_reads
  | |- keeps _ (in_wallet _) => apply keeps_wallet_reads
  | |- db_reads (match ?x with _ => _ end) => destruct x
  | |- db_reads (cmd_map _ _) => unfold cmd_map
  | |- db_reads (cmd_bind _ _) => apply db_reads_bind
  | _ => solve [eauto 2 with keeps nocore]
  end.

Section Safety.
Context {LT : LdkTypes} {FR : BdkFeeRate} {B : Bdk} {BB : BdkBuilder} {LN : Lightning}
  {D : Driver} {DC : DescriptorCodec} {HO : HashOrder} {AT : ApiTypes} {TX : ApiText} {AG : ApiGraph}
  {BU : Build} {MC : Macaroons} {ML : MacaroonLaws}.
Context `{EqDecision PublicKey}.
Variable settings : Settings.
Variable our_node_id : PublicKey.

Lemma list_peers_reads : keeps contents Controller.list_peers.
Proof. unfold Controller.list_peers, fetch_peers. solve_reads. Qed.

Lemma peer_channels_reads peers l : keeps contents (peer_channels peers l).
Proof. induction l; simpl; unfold alias_of; solve_reads; done. Qed.
Lemma add_balances_reads l a b c d : keeps contents (add_balances l a b c d).
Proof. revert a b c d. induction l; intros; simpl; solve_reads; done. Qed.
Lemma funds_channels_reads peers l : keeps contents (funds_channels peers l).
Proof. induction l; simpl; solve_reads; done. Qed.
Lemma forward_items_reads l : keeps contents (forward_items l).
Proof. induction l; simpl; unfold forward_item_of, out_msat; solve_reads; done. Qed.
Lemma sum_received_reads l z : keeps contents (sum_received z l).
Proof. revert z. induction l; intros; simpl; solve_reads; done. Qed.
Lemma to_api_channel_reads scid info : keeps contents (to_api_channel scid info).
Proof. unfold to_api_channel, make_channel. solve_reads. Qed.
#[local] Hint Resolve list_peers_reads peer_channels_reads add_balances_reads funds_channels_reads
  forward_items_reads sum_received_reads to_api_channel_reads : keeps.

Lemma handler_reads now fee q :
  q ≠ QListChannels → keeps contents (projT2 (handler settings our_node_id now fee q)).
Proof.
  intros Hq. destruct q; try done; cbn [handler projT2];
    unfold get_info, num_pending_channels, num_active_channels,
      num_inactive_channels, num_peers, estimate_channel_liquidity_range, get_balance, list_funds,
      output_item, list_active_channels, list_peer_channels, ApiNode.list_peers, get_network_node,
      list_network_nodes, get_network_channel, list_network_channels, fee_rates,
      ApiNode.list_invoices, Controller.list_invoices, fetch_invoices, invoice_item,
      ApiNode.list_payments, Controller.list_payments, fetch_payments, local_remote_balance,
      get_fees, forwards_total, list_forwards, forwards_list, fetch_forwards, Api.channel_history,
      Controller.channel_history, fetch_channel_history, decode_invoice, score, scorer_binary,
      fetch_scorer_binary, db_query_one; solve_reads.
Qed.

(** Storing the details of channels changes the table of channels alone. *)
Lemma keeps_update_channels now l : keeps contents_but_channels (update_channels now l).
Proof.
  unfold update_channels. apply keeps_forM. intros c. apply keeps_logged. intros n.
  unfold in_db, contents_but_channels, persist_channel, db_execute, cmd_map_err, execute, statement.
  destruct (cd_short_channel_id c), (faults (database n)) as [|[e|] fs]; try done;
    by destruct (aborted (database n)).
Qed.

Lemma contents_channels n n' : contents n' = contents n → contents_but_channels n' = contents_but_channels n.
Proof. unfold contents, contents_but_channels. by intros [= -> -> -> -> -> -> ->]. Qed.

Lemma list_channels_changes now n :
  let n' := snd (Api.list_channels now n) in
  contents_but_channels n' = contents_but_channels n ∧
  ((∀ e, fst (in_db fetch_channels n) ≠ Err e) → contents n' = contents n).
Proof.
  intros n'. assert (keeps contents (in_db fetch_channels)) as Hf by (unfold fetch_channels; solve_reads).
  specialize (Hf n). unfold n', Api.list_channels, ask_api, internal_server, catch, Controller.list_channels.
  unfold cmd_bind, cmd_map_err, list_active_channels, ask_world. simpl.
  destruct (in_db fetch_channels n) as [[records|e|w] n1] eqn:He; simpl in *.
  - split; [by apply contents_channels|done].
  - pose proof (keeps_update_channels now (cm_list_channels (world n)) n1) as Hu.
    destruct (update_channels now _ n1) as [[]n2]; simpl in *;
      (split; [by rewrite Hu; apply contents_channels|intros He2; by destruct (He2 e)]).
  - split; [by apply contents_channels|done].
Qed.

(** Every handler is behind a readonly route, and every readonly route has one. *)
Lemma route_of_readonly q : route_of q ∈ readonly_routes.
Proof. destruct q; refine (bool_decide_unpack _ _); vm_compute; exact I. Qed.
Lemma readonly_route_handled r : r ∈ readonly_routes → ∃ q, route_of q = r.
Proof.
  assert (Forall (λ r, ∃ q, route_of q = r) readonly_routes) as Hall.
  2:{ intros Hr. by eapply Forall_forall in Hall. }
  repeat constructor.
  all: first [by exists QRoot | by exists QGetInfo | by exists (QEstimateLiquidity 0 "")
    | by exists QGetBalance | by exists QListFunds | by exists QListPeerChannels | by exists QListPeers
    | by exists (QNetworkNode "") | by exists QNetworkNodes | by exists (QNetworkChannel "")
    | by exists QNetworkChannels | by exists (QFeeRates "") | by exists (QListInvoices None)
    | by exists (QListPayments None None) | by exists QLocalRemoteBalance | by exists QGetFees
    | by exists (QListForwards None) | by exists QChannelHistory | by exists QListChannels
    | by exists (QDecodeInvoice "") | by exists QScorer].
Qed.

(** [C2] What the holder of a readonly macaroon, or of one derived from it by adding caveats, can
    do to the node. A request to an admin route is refused before its handler runs. A request to
    a readonly route, whatever its parameters and headers, leaves everything of the node as it
    is (LDK's state, the wallet and its lock, the requests that wait for an event, the spawned
    writes, the tables as they are and as they were when an open transaction began; a query that
    fails inside one aborts it), with one exception: listing the channels stores their details
    when, and only when, the stored records could not be read. *)
Theorem readonly_requests_change_nothing key h cs m {A} (admin : apim A) now fee q n :
  from_request_parts h = Ok m → attenuated (readonly_macaroon key) cs m →
  serve key Admin h admin n = (Err (Refused Unauthorized), n) ∧
  let n' := snd (serve key Readonly h (projT2 (handler settings our_node_id now fee q)) n) in
  contents_but_channels n' = contents_but_channels n ∧
  (q ≠ QListChannels ∨ (∀ e, fst (in_db fetch_channels n) ≠ Err e) → contents n' = contents n).
Proof.
  intros Hm Ha. unfold serve, cmd_bind, cmd_lift, guard. rewrite Hm. split.
  { unfold authorized, verify_admin_macaroon. rewrite (attenuated_verify key _ _ _ _ Ha).
    unfold readonly_macaroon. by rewrite verify_add, verify_create. }
  destruct (authorized key Readonly m); [|done]. unfold cmd_map_err.
  assert (∀ (t : apim (projT1 (handler settings our_node_id now fee q))),
    (contents_but_channels (snd (t n)) = contents_but_channels n ∧
     (q ≠ QListChannels ∨ (∀ e, fst (in_db fetch_channels n) ≠ Err e) → contents (snd (t n)) = contents n)) →
    let n' := snd (let '(r, s') := t n in (map_err Refused r, s')) in
    contents_but_channels n' = contents_but_channels n ∧
    (q ≠ QListChannels ∨ (∀ e, fst (in_db fetch_channels n) ≠ Err e) → contents n' = contents n)) as Hgo.
  { intros t. by destruct (t n). }
  apply Hgo. clear Hgo. destruct (decide ((route_of q).1 = "/kld/channels"%string)) as [Hq|Hq].
  - assert (q = QListChannels) as -> by (by destruct q).
    destruct (list_channels_changes now n) as [H1 H2]. split; [done|]. by intros [|]; [done|apply H2].
  - assert (q ≠ QListChannels) as Hne by (by intros ->).
    pose proof (handler_reads now fee q Hne n) as Hr. split; [by apply contents_channels|done].
Qed.
End Safety.

(** ** A concrete instance *)

Section Instances.
#[local] Existing Instance example_ldk.
#[local] Existing Instance example_ldk_laws.
#[local] Existing Instance example_rate.
#[local] Existing Instance example_bdk.
#[local] Existing Instance example_builder.
#[local] Existing Instance example_lightning.
#[local] Existing Instance example_descriptors.
#[local] Existing Instance insertion_order.
#[local] Existing Instance list_order.
#[local] Existing Instance example_api.
#[local] Existing Instance example_text.
#[local] Existing Instance example_graph.
#[local] Existing Instance checked.
#[local] Existing Instance example_macaroons.
#[local] Existing Instance example_macaroon_laws.

Definition readonly_headers : headers := λ name,
  if bool_decide (name = "macaroon"%string) then Some (Some "readonly"%string) else None.
Definition example_key : @MacaroonKey example_macaroons := ().

Lemma readonly_requests_change_nothing_witness :
  serve example_key Admin readonly_headers (close_channel 0 "7") node_with_channels =
    (Err (Refused Unauthorized), node_with_channels) ∧
  contents (snd (serve example_key Readonly readonly_headers local_remote_balance node_with_channels)) =
    contents node_with_channels.
Proof.
  destruct (readonly_requests_change_nothing example_settings (true : @PublicKey example_ldk)
    example_key readonly_headers [] (readonly_macaroon example_key) (close_channel 0 "7") 0
    (Ok (f64_of 0)) QLocalRemoteBalance node_with_channels eq_refl (att_same _)) as (Ha & _ & Hr).
  split; [exact Ha|]. apply Hr. by left.
Defined.
End Instances.
