(* ===== verification/Waiting.v ===== *)
(** * Threads that wait for an event

    What the three requests of the API that wait have in common: a thread runs, registers a
    request in a table of the node and waits; an event takes the request out and answers it; the
    thread goes on with the answer. The tables are instances of the class [Table], and what the
    events do to one is an instance of [Verdicts]; the theorems follow a thread through every
    interleaving, given that the steps of everything else do not touch its request. *)

From S2P Require Import Prelude Text Sql Ldk Payment LdkDatabase Fees AsyncRequests Wallet Node Controller EventHandler Protocol Events Api.

(** ** Threads whose steps are known

    [guarded R t]: every step of [t], whatever the node is like when it is taken, is in [R]. A
    thread is finite, so this is an induction on what is left of it. *)

Section Guarded.
Context {LT : LdkTypes} {FR : BdkFeeRate} {B : Bdk} {BB : BdkBuilder} {LN : Lightning}.
Variable R : node → node → Prop.
Hypothesis R_refl : ∀ n, R n n.

Inductive guarded {A} : thread A → Prop :=
| guarded_done r : guarded (Done r)
| guarded_Act m : (∀ n, R n (snd (m n))) → (∀ n, guarded (fst (m n))) → guarded (Act m)
| guarded_funding rx k : (∀ v, guarded (k v)) → guarded (AwaitFunding rx k)
| guarded_payment rx k : (∀ v, guarded (k v)) → guarded (AwaitPayment rx k).

Lemma guarded_step {A} (t t' : thread A) n n' :
  guarded t → thread_step t n t' n' → R n n' ∧ guarded t'.
Proof.
  intros Hg Hs. destruct Hs as [m n t' n' Hm|rx k n v _|rx k n v _]; inversion Hg as [|? HR1 HR2| |]; subst.
  - specialize (HR1 n). specialize (HR2 n). rewrite Hm in HR1, HR2. done.
  - by split; [apply R_refl|].
  - by split; [apply R_refl|].
Qed.

Lemma guarded_bind {A C} (t : thread A) (f : A → thread C) :
  guarded t → (∀ a, guarded (f a)) → guarded (tbind t f).
Proof.
  intros Ht Hf. induction Ht as [r|m Hm Hk IH|rx k Hk IH|rx k Hk IH]; simpl.
  - destruct r; [apply Hf|constructor..].
  - constructor; intros n; specialize (Hm n); specialize (IH n); by destruct (m n).
  - by constructor.
  - by constructor.
Qed.
Lemma guarded_act {A} (m : nodem A) : (∀ n, R n (snd (m n))) → guarded (act m).
Proof.
  intros Hm. constructor; intros n; specialize (Hm n); destruct (m n); [done|constructor].
Qed.
Lemma guarded_await_funding rx : guarded (await_funding rx).
Proof. constructor. intros v. constructor. Qed.
Lemma guarded_await_payment rx : guarded (await_payment rx).
Proof. constructor. intros v. constructor. Qed.
Lemma guarded_of_apim {A} (m : cmd node api_error A) : (∀ n, R n (snd (m n))) → guarded (of_apim m).
Proof.
  intros Hm. constructor; intros n; specialize (Hm n); destruct (m n); [done|constructor].
Qed.
Lemma guarded_abind {A C} (t : apit A) (f : A → apit C) :
  guarded t → (∀ a, guarded (f a)) → guarded (abind t f).
Proof. intros Ht Hf. apply guarded_bind; [done|]. intros [a|e|w]; [apply Hf|constructor..]. Qed.
Lemma guarded_call_internal {A} (t : thread A) : guarded t → guarded (call_internal t).
Proof.
  intros Ht. induction Ht as [r|m Hm Hk IH|rx k Hk IH|rx k Hk IH]; simpl; [destruct r; constructor| |by constructor..].
  constructor; intros n; specialize (Hm n); specialize (IH n); by destruct (m n).
Qed.
End Guarded.

Create HintDb guarded.
#[export] Hint Resolve guarded_done guarded_await_funding guarded_await_payment : guarded.
Ltac solve_guarded := repeat match goal with
  | |- ∀ _, _ => intros
  | |- guarded _ (let '_ := ?x in _) => destruct x
  | |- guarded _ (abind _ _) => apply guarded_abind
  | |- guarded _ (tbind _ _) => apply guarded_bind
  | |- guarded _ (act _) => apply guarded_act
  | |- guarded _ (of_apim _) => apply guarded_of_apim
  | |- guarded _ (call_internal _) => apply guarded_call_internal
  | _ => solve [auto with guarded nocore]
  end.

(** ** Tables of requests *)

(** Settles the channel of a request: a value, or the sender is dropped. *)
Definition settle {RV} (rx : nat) (c : oneshot RV) (l : list (oneshot RV)) : list (oneshot RV) :=
  match c with Value rv => send rx rv l | _ => drop_sender rx l end.

Section Settle.
Context {K V RV : Type} `{EqDecision K}.
Implicit Types s : senders K V RV.

(** A request taken out and answered. *)
Definition take (k : K) (c : oneshot RV) (s : senders K V RV) : senders K V RV :=
  match hm_get k (entries s) with
  | Some (_, rx) => mk_senders (hm_remove k (entries s)) (settle rx c (chans s))
  | None => s
  end.

Lemma lookup_settle rx c (l : list (oneshot RV)) i : i ≠ rx → settle rx c l !! i = l !! i.
Proof. intros Hi. destruct c; simpl; rewrite ?lookup_send, ?lookup_drop, decide_False; done. Qed.
Lemma lookup_settled rx c (l : list (oneshot RV)) i c' :
  l !! i = Some c' → settled c' → settle rx c l !! i = Some c'.
Proof.
  intros Hi Hc. destruct c; simpl; rewrite ?lookup_send, ?lookup_drop; case_decide; try done;
    rewrite Hi; by destruct c'.
Qed.
Lemma lookup_settle_here rx c (l : list (oneshot RV)) :
  l !! rx = Some Waiting → settled c → settle rx c l !! rx = Some c.
Proof.
  intros Hl Hc. destruct c; simpl; [done|..]; rewrite ?lookup_send, ?lookup_drop, decide_True, Hl; done.
Qed.

Lemma take_wf k c s : senders_wf s → senders_wf (take k c s).
Proof.
  intros Hs. unfold take. destruct (hm_get k (entries s)) as [[v rx]|] eqn:Hk; [|done].
  destruct c; [|by eapply send_wf|]. all: destruct Hs as [Hw Ho]; split; simpl.
  all: try (intros k1 k2 v1 v2 tx'; rewrite !hm_get_remove; repeat case_decide; try done; apply Ho).
  all: intros k' v' tx'; rewrite hm_get_remove; case_decide as Hne; [done|]; intros Hg;
    rewrite lookup_drop, decide_False; [by eapply Hw|]; intros ->; apply Hne; by eapply Ho.
Qed.
Lemma receiver_take k v rx c s : senders_wf s → hm_get k (entries s) = Some (v, rx) → settled c →
  receiver rx (take k c s) = c.
Proof.
  intros Hs Hk Hc. unfold take, receiver. rewrite Hk. simpl.
  by rewrite lookup_settle_here by (done || by eapply wf_waiting).
Qed.
Lemma receiver_take_settled k c s rx c' :
  receiver rx s = c' → settled c' → chans s !! rx ≠ None → receiver rx (take k c s) = c'.
Proof.
  intros Hr Hc Hn. unfold take, receiver in *. destruct (chans s !! rx) as [c0|] eqn:Hl; [|done].
  simpl in Hr. subst c0. destruct (hm_get k (entries s)) as [[v tx]|]; simpl; [|by rewrite Hl].
  by rewrite (lookup_settled tx c _ rx c').
Qed.
Lemma registered_take k k' c s v rx : k' ≠ k → hm_get k (entries s) = Some (v, rx) →
  hm_get k (entries (take k' c s)) = Some (v, rx).
Proof.
  intros Hne Hk. unfold take. destruct (hm_get k' (entries s)) as [[]|]; [|done]. simpl.
  by rewrite hm_get_remove, decide_False.
Qed.
Lemma receiver_insert k v s rx c : senders_wf s → receiver rx s = c → settled c →
  chans s !! rx ≠ None →
  receiver rx (snd (insert k v s)) = c ∧ chans (snd (insert k v s)) !! rx ≠ None.
Proof.
  intros Hs Hr Hc Hn. unfold receiver, insert in *. simpl.
  destruct (chans s !! rx) as [c0|] eqn:Hl; [|done]. simpl in Hr. subst c0.
  assert (match hm_get k (entries s) with
          | Some (_, tx) => drop_sender tx (chans s)
          | None => chans s
          end !! rx = Some c) as Hd.
  { destruct (hm_get k (entries s)) as [[v' tx]|]; [|done]. by apply (lookup_settled tx Closed). }
  by rewrite (lookup_app_l_Some _ _ _ _ Hd).
Qed.
Lemma chans_take k c s rx : chans s !! rx ≠ None → chans (take k c s) !! rx ≠ None.
Proof.
  unfold take. destruct (hm_get k (entries s)) as [[v tx]|]; [|done]. simpl. intros Hn.
  destruct (decide (rx = tx)) as [->|Hne]; [|by rewrite lookup_settle].
  destruct c; simpl; rewrite ?lookup_send, ?lookup_drop, decide_True by done;
    by destruct (chans s !! tx).
Qed.
End Settle.

Section Tables.
Context {LT : LdkTypes} {FR : BdkFeeRate} {B : Bdk} {BB : BdkBuilder} {LN : Lightning}.

(** A table of requests of the node, and how a thread waits for an answer from it. *)
Class Table (K V W : Type) `{EqDecision K} := {
  table : node → senders K V (result error W);
  set_table : senders K V (result error W) → node → node;
  await : ∀ {A}, nat → (result error (result error W) → thread A) → thread A;
  table_set s n : table (set_table s n) = s;
  await_step {A} rx (k : _ → thread A) n t' n' : thread_step (await rx k) n t' n' ↔
    n' = n ∧ ∃ v, received (receiver rx (table n)) = Some v ∧ t' = k v;
  await_not_done {A} rx (k : _ → thread A) r : await rx k ≠ Done r;
  await_not_act {A} rx (k : _ → thread A) m : await rx k ≠ Act m;
  await_bind {A C} rx k (f : A → thread C) : tbind (await rx k) f = await rx (λ v, tbind (k v) f);
  await_call {A} rx (k : _ → thread A) : call_internal (await rx k) = await rx (λ v, call_internal (k v));
}.

#[export] Program Instance payment_table : Table bytes Payment Payment := {|
  table := payment_requests; set_table := set_payment_requests; await A := AwaitPayment
|}.
Next Obligation. done. Qed.
Next Obligation.
  intros A rx k n t' n'. split.
  - inversion 1; subst. eauto.
  - intros (-> & v & Hv & ->). by apply step_payment.
Qed.
Solve All Obligations with done.

#[export] Program Instance funding_table : Table Z FeeRate Transaction := {|
  table := funding_transactions; set_table := set_funding; await A := AwaitFunding
|}.
Next Obligation. done. Qed.
Next Obligation.
  intros A rx k n t' n'. split.
  - inversion 1; subst. eauto.
  - intros (-> & v & Hv & ->). by apply step_funding.
Qed.
Solve All Obligations with done.

Section Asking.
Context {K V W : Type} `{EqDecision K} {TB : Table K V W}.

(** A step of a thread that registers under the key [own] at most. *)
Definition foreign (own : option K) (n n' : node) : Prop :=
  table n' = table n ∨ ∃ k v, own = Some k ∧ table n' = snd (insert k v (table n)).
Lemma foreign_refl own n : foreign own n n.
Proof. by left. Qed.
Lemma foreign_wf own n n' : foreign own n n' → senders_wf (table n) → senders_wf (table n').
Proof. intros [-> |(k & v & _ & ->)]; [done|apply insert_wf]. Qed.

(** *** What a request does

    Before it registers it leaves the table alone or fails; it registers one value and waits;
    with the answer it goes on without touching the table again. *)

Inductive finishing {A} (Φ : result error A → Prop) : thread A → Prop :=
| finishing_done r : Φ r → finishing Φ (Done r)
| finishing_act m : (∀ n, table (snd (m n)) = table n) →
    (∀ n, finishing Φ (fst (m n))) → finishing Φ (Act m).

Definition registering {A} (k : K) (v : V) (cont : result error (result error W) → thread A)
    (n : node) : thread A * node :=
  (await (length (chans (table n))) cont, set_table (snd (insert k v (table n))) n).

Inductive asking {A} (k : K) (early : result error A → Prop) (Π : V → Prop)
    (Φ : V → oneshot (result error W) → result error A → Prop) : thread A → Prop :=
| asking_done r : early r → asking k early Π Φ (Done r)
| asking_act m : (∀ n, table (snd (m n)) = table n) →
    (∀ n, asking k early Π Φ (fst (m n))) → asking k early Π Φ (Act m)
| asking_register m v cont : Π v → (∀ n, m n = registering k v cont n) →
    (∀ c r, received c = Some r → finishing (Φ v c) (cont r)) → asking k early Π Φ (Act m).

(** A thread that is changed at its ends only. *)
Section Transform.
Context {A C : Type} (h : thread A → thread C).
Hypothesis h_act : ∀ m, h (Act m) = Act (λ n, let '(t, n') := m n in (h t, n')).
Hypothesis h_await : ∀ rx k, h (await rx k) = await rx (λ v, h (k v)).

Lemma finishing_transform Φ Φ' t : (∀ r, Φ r → finishing Φ' (h (Done r))) →
  finishing Φ t → finishing Φ' (h t).
Proof.
  intros Hd. induction 1 as [r Hr|m Hm _ IH]; [by apply Hd|]. rewrite h_act.
  constructor; intros n; specialize (Hm n); specialize (IH n); by destruct (m n).
Qed.
Lemma asking_transform k early early' Π Φ Φ' t :
  (∀ r, early r → asking k early' Π Φ' (h (Done r))) →
  (∀ v c r, Φ v c r → finishing (Φ' v c) (h (Done r))) →
  asking k early Π Φ t → asking k early' Π Φ' (h t).
Proof.
  intros He Hf. induction 1 as [r Hr|m Hm _ IH|m v cont Hv Hm Hk]; [by apply He|..]; rewrite h_act.
  - apply asking_act; intros n; specialize (Hm n); specialize (IH n); by destruct (m n).
  - apply (asking_register _ _ _ _ _ v (λ r, h (cont r))); [done|..].
    + intros n. rewrite Hm. unfold registering. by rewrite h_await.
    + intros c r Hr. by apply (finishing_transform (Φ v c)); [apply Hf|apply Hk].
Qed.
End Transform.

Lemma asking_impl {A} k (early early' : result error A → Prop) (Π Π' : V → Prop) Φ t :
  (∀ r, early r → early' r) → (∀ v, Π v → Π' v) →
  asking k early Π Φ t → asking k early' Π' Φ t.
Proof.
  intros He Hp. induction 1 as [r Hr|m Hm _ IH|m p cont Hpi Hm Hk]; [by apply asking_done, He|..].
  - by apply asking_act.
  - eapply asking_register; eauto.
Qed.

(** *** Composing requests *)

Definition fails {A} (r : result error A) : Prop := ∀ a, r ≠ Ok a.
Lemma fails_err {A} e : fails (Err e : result error A).
Proof. done. Qed.
Lemma fails_panic {A} w : fails (Panic w : result error A).
Proof. done. Qed.

Lemma asking_bind_act {A C} k Π Φ (m : nodem A) (f : A → thread C) :
  (∀ n, table (snd (m n)) = table n) →
  (∀ a, asking k fails Π Φ (f a)) → asking k fails Π Φ (tbind (act m) f).
Proof.
  intros Hm Hf. apply asking_act; intros n; specialize (Hm n); destruct (m n) as [[a|e|w] n']; simpl;
    first [done|apply Hf|by constructor].
Qed.
Lemma finishing_bind_act {A C} (Φ : result error C → Prop) (m : nodem A) (f : A → thread C) :
  (∀ n, table (snd (m n)) = table n) → (∀ r, fails r → Φ r) →
  (∀ a, finishing Φ (f a)) → finishing Φ (tbind (act m) f).
Proof.
  intros Hm He Hf. constructor; intros n; specialize (Hm n); destruct (m n) as [[a|e|w] n']; simpl;
    first [done|apply Hf|by constructor; apply He].
Qed.

(** At the API: an error of the handler is an answer too. *)
Definition refused {A} (r : result error (result api_error A)) : Prop := ∀ a, r ≠ Ok (Ok a).

Lemma finishing_of_apim {A C} (Φ : result error (result api_error C) → Prop) (m : cmd node api_error A)
    (f : A → apit C) :
  (∀ n, table (snd (m n)) = table n) → (∀ r, refused r → Φ r) →
  (∀ n a, fst (m n) = Ok a → finishing Φ (f a)) → finishing Φ (abind (of_apim m) f).
Proof.
  intros Hm He Hf. constructor; intros n; specialize (Hm n); specialize (Hf n);
    destruct (m n) as [[a|e|w] n']; simpl in *; first [done|by apply Hf|by constructor; apply He].
Qed.
Lemma asking_of_apim {A C} k Π Φ (m : cmd node api_error A) (f : A → apit C) :
  (∀ n, table (snd (m n)) = table n) →
  (∀ n a, fst (m n) = Ok a → asking k refused Π Φ (f a)) →
  asking k refused Π Φ (abind (of_apim m) f).
Proof.
  intros Hm Hf. apply asking_act; intros n; specialize (Hm n); specialize (Hf n);
    destruct (m n) as [[a|e|w] n']; simpl in *; first [done|by apply Hf|by apply asking_done].
Qed.
Lemma asking_abind {A C} k Π
    (Φ Φ' : V → oneshot (result error W) → result error (result api_error _) → Prop)
    (t : apit A) (f : A → apit C) :
  (∀ v c r, Φ v c r → finishing (Φ' v c) (abind (Done r) f)) →
  asking k refused Π Φ t → asking k refused Π Φ' (abind t f).
Proof.
  intros Hf. apply (asking_transform (λ t, abind t f)); [done|intros; apply await_bind| |done].
  intros [[a|e|w]|e|w] Hr; [by destruct (Hr a)|by apply asking_done..].
Qed.

(** What a call of the controller returns, as the handler sees it. *)
Definition returned {A} (Φ : V → oneshot (result error W) → result error A → Prop) (v : V)
    (c : oneshot (result error W)) (r : result error (result api_error A)) : Prop :=
  ∃ r', Φ v c r' ∧ call_internal (Done r') = Done r.
Lemma asking_call_internal {A} k Π Φ (t : thread A) :
  asking k fails Π Φ t → asking k refused Π (returned Φ) (call_internal t).
Proof.
  apply (asking_transform call_internal); [done|intros; apply await_call|..].
  - intros [p|e|w] Hr; [by destruct (Hr p)|by apply asking_done..].
  - intros v c r Hr. destruct r; constructor; eexists; (split; [exact Hr|done]).
Qed.
End Asking.
End Tables.

(** ** What happens on the node *)

Section Stages.
Context {LT : LdkTypes} {FR : BdkFeeRate} {B : Bdk} {BB : BdkBuilder} {LN : Lightning}
  {D : Driver} {DC : DescriptorCodec}.

(** A request is accepted, the [i]th one makes a step, an event is handled, or something else
    happens. *)
Inductive action :=
| Accepted
| Ran (i : nat)
| HandledEvent (event : Event)
| Background.

(** What an event does to a table: it is about one key at most, and answers the request that is
    registered under it. *)
Class Verdicts (K V W : Type) {EK : EqDecision K} {TB : Table K V W} := {
  concerned : Event → option K;
  said : Event → node → V → oneshot (result error W) → Prop;
  event_takes settings now random event n :
    let n' := snd (process_event settings now random event n) in
    match concerned event with
    | Some k => ∃ c, settled c ∧ table n' = take k c (table n) ∧
        ∀ v rx, hm_get k (entries (table n)) = Some (v, rx) → said event n v c
    | None => table n' = table n
    end;
}.

Context {K V W A : Type} `{EqDecision K} {TB : Table K V W} {VD : Verdicts K V W}.
(** The nodes that were reached by a trace. *)
Variable reached : list action → node → Prop.

Definition quiet (k : K) (tr : list action) : Prop :=
  Forall (λ a, match a with HandledEvent event => concerned event ≠ Some k | _ => True end) tr.

(** The [i]th thread registered [v], and the first event after that which is about the key said
    [c]. *)
Definition told (k : K) (i : nat) (tr : list action) (v : V) (c : oneshot (result error W)) : Prop :=
  ∃ tr1 tr2 event tr3 n, tr = tr1 ++ Ran i :: tr2 ++ HandledEvent event :: tr3 ∧ quiet k tr2 ∧
    concerned event = Some k ∧ reached (tr1 ++ Ran i :: tr2) n ∧ said event n v c.
(** It registered, and no event was about the key since. *)
Definition untold (k : K) (i : nat) (tr : list action) : Prop :=
  ∃ tr1 tr2, tr = tr1 ++ Ran i :: tr2 ∧ quiet k tr2.

(** How far the [i]th thread has come, which registers under [k]. *)
Inductive stage (k : K) (Π : V → Prop) (Φ : V → oneshot (result error W) → result error (result api_error A) → Prop)
    (i : nat) (tr : list action) (n : node) (t : apit A) : Prop :=
| stage_before : asking k refused Π Φ t → stage k Π Φ i tr n t
| stage_waiting v rx cont : untold k i tr → Π v → t = await rx cont →
    (∀ c r, received c = Some r → finishing (Φ v c) (cont r)) →
    hm_get k (entries (table n)) = Some (v, rx) → stage k Π Φ i tr n t
| stage_told v c rx cont : told k i tr v c → Π v → t = await rx cont →
    (∀ c r, received c = Some r → finishing (Φ v c) (cont r)) →
    settled c → receiver rx (table n) = c → chans (table n) !! rx ≠ None → stage k Π Φ i tr n t
| stage_after v c : told k i tr v c → Π v → finishing (Φ v c) t → stage k Π Φ i tr n t.

Lemma untold_snoc k i tr a : quiet k [a] → untold k i tr → untold k i (tr ++ [a]).
Proof.
  intros Ha (tr1 & tr2 & -> & Hq). exists tr1, (tr2 ++ [a]). split; [by rewrite <- app_assoc|].
  by apply Forall_app.
Qed.
Lemma told_snoc k i tr a v c : told k i tr v c → told k i (tr ++ [a]) v c.
Proof.
  intros (tr1 & tr2 & e & tr3 & n & -> & Hrest). exists tr1, tr2, e, (tr3 ++ [a]), n.
  split; [|done]. rewrite <- app_assoc. simpl. by rewrite <- app_assoc.
Qed.
Lemma untold_told k i tr e n v c : untold k i tr → concerned e = Some k → reached tr n →
  said e n v c → told k i (tr ++ [HandledEvent e]) v c.
Proof.
  intros (tr1 & tr2 & -> & Hq) He Hn Hs. exists tr1, tr2, e, [], n.
  split; [by rewrite <- app_assoc|done].
Qed.

(** A step of something else. *)
Lemma stage_other k Π Φ i tr n t a n' own :
  quiet k [a] → senders_wf (table n) → foreign own n n' → own ≠ Some k →
  stage k Π Φ i tr n t → stage k Π Φ i (tr ++ [a]) n' t.
Proof.
  intros Ha Hwf Hf Hown [Ht|v rx cont Hu Hv Ht Hc Hk|v c rx cont Hu Hv Ht Hc Hs Hr Hn|v c Hu Hv Ht].
  - by apply stage_before.
  - apply (stage_waiting _ _ _ _ _ _ _ v rx cont); auto using untold_snoc.
    destruct Hf as [-> |(k' & v' & -> & ->)]; [done|]. simpl. rewrite hm_get_insert_ne; congruence.
  - apply (stage_told _ _ _ _ _ _ _ v c rx cont); auto using told_snoc;
      (destruct Hf as [-> |(k' & v' & -> & ->)]; [done|]);
      by destruct (receiver_insert k' v' (table n) rx c Hwf Hr Hs Hn).
  - by apply (stage_after _ _ _ _ _ _ _ v c); [apply told_snoc|..].
Qed.

(** An event. *)
Lemma stage_event k Π Φ i tr n t settings now random event :
  senders_wf (table n) → reached tr n → stage k Π Φ i tr n t →
  stage k Π Φ i (tr ++ [HandledEvent event]) (snd (process_event settings now random event n)) t.
Proof.
  intros Hwf Hn Hst. pose proof (event_takes settings now random event n) as Hev.
  cbv zeta in Hev. set (n' := snd (process_event settings now random event n)) in *. clearbody n'.
  destruct (concerned event) as [k'|] eqn:He.
  2: { eapply (stage_other _ _ _ _ _ _ _ _ _ None); [|exact Hwf|by left|done|exact Hst].
       constructor; [by rewrite He|constructor]. }
  destruct Hev as (c & Hc & Hn' & Hsaid).
  destruct Hst as [Ht|v rx cont Hu Hv Ht Hk Hr|v c' rx cont Hu Hv Ht Hk Hs Hr Hnn|v c' Hu Hv Ht].
  - by apply stage_before.
  - destruct (decide (k' = k)) as [->|Hne].
    + apply (stage_told _ _ _ _ _ _ _ v c rx cont); try done.
      * eapply untold_told; [done|done|exact Hn|by eapply Hsaid].
      * rewrite Hn'. by eapply receiver_take.
      * rewrite Hn'. apply chans_take. by rewrite (wf_waiting _ Hwf _ _ _ Hr).
    + apply (stage_waiting _ _ _ _ _ _ _ v rx cont); try done.
      * apply untold_snoc; [|done]. constructor; [rewrite He; congruence|constructor].
      * rewrite Hn'. by apply registered_take.
  - apply (stage_told _ _ _ _ _ _ _ v c' rx cont); auto using told_snoc; rewrite Hn';
      [by apply receiver_take_settled|by apply chans_take].
  - by apply (stage_after _ _ _ _ _ _ _ v c'); [apply told_snoc|..].
Qed.

(** Its own step. *)
Lemma stage_own k Π Φ i tr n t t' n' :
  senders_wf (table n) → thread_step t n t' n' →
  stage k Π Φ i tr n t → stage k Π Φ i (tr ++ [Ran i]) n' t'.
Proof.
  intros Hwf Hs [Ht|v rx cont Hu Hv -> Hc Hk|v c rx cont Hu Hv -> Hc Hst Hr Hn|v c Hu Hv Ht].
  - destruct Ht as [r _|m Hm Ht|m v cont Hv Hm Hc]; [by apply done_step in Hs|..];
      inversion Hs as [? ? ? ? He| |]; subst.
    + apply stage_before. specialize (Ht n). by rewrite He in Ht.
    + rewrite Hm in He. injection He as <- <-.
      apply (stage_waiting _ _ _ _ _ _ _ v (length (chans (table n))) cont); try done.
      * exists tr, []. split; [done|constructor].
      * rewrite table_set. apply hm_get_insert_eq.
  - apply await_step in Hs as (_ & r & Hr & _). unfold receiver in Hr.
    by rewrite (wf_waiting _ Hwf _ _ _ Hk) in Hr.
  - apply await_step in Hs as (-> & r & Hr' & ->). rewrite Hr in Hr'.
    apply (stage_after _ _ _ _ _ _ _ v c); [by apply told_snoc|done|by apply Hc].
  - destruct Ht as [r _|m Hm Ht]; [by apply done_step in Hs|]. inversion Hs as [? ? ? ? He| |]; subst.
    apply (stage_after _ _ _ _ _ _ _ v c); [by apply told_snoc|done|]. specialize (Ht n). by rewrite He in Ht.
Qed.

(** An answer that is not a refusal is made of what the first event said. *)
Lemma stage_answered k Π Φ i tr n a :
  stage k Π Φ i tr n (Done (Ok (Ok a))) → ∃ v c, told k i tr v c ∧ Π v ∧ Φ v c (Ok (Ok a)).
Proof.
  intros [Ht|v rx cont _ _ Ht|v c rx cont _ _ Ht|v c Hu Hv Ht].
  - inversion Ht as [? Hr| |]; subst. by destruct (Hr a).
  - by destruct (await_not_done rx cont (Ok (Ok a))).
  - by destruct (await_not_done rx cont (Ok (Ok a))).
  - inversion Ht; subst. by exists v, c.
Qed.

(** A thread that waits cannot go on before an event told it, and can afterwards. *)
Lemma stage_await k Π Φ i tr n rx cont :
  senders_wf (table n) → stage k Π Φ i tr n (await rx cont) →
  (untold k i tr ∧ ∀ t' n', ¬ thread_step (await rx cont) n t' n') ∨
  ((∃ v c, told k i tr v c) ∧ ∃ t', thread_step (await rx cont) n t' n).
Proof.
  intros Hwf [Ht|v rx' cont' Hu _ Heq _ Hk|v c rx' cont' Hu _ Heq _ Hs Hr _|v c _ _ Ht].
  - inversion Ht as [r Hr Heq|m ? ? Heq|m ? ? ? ? ? Heq]; symmetry in Heq;
      [by apply await_not_done in Heq|by apply await_not_act in Heq..].
  - left. split; [done|]. rewrite Heq. intros t' n' (_ & r & Hr & _)%await_step. unfold receiver in Hr.
    by rewrite (wf_waiting _ Hwf _ _ _ Hk) in Hr.
  - right. split; [by exists v, c|]. rewrite Heq.
    assert (∃ r, received (receiver rx' (table n)) = Some r) as [r Hrec]
      by (rewrite Hr; destruct c; [done|by eexists..]).
    exists (cont' r). apply await_step. eauto.
  - inversion Ht as [r Hr Heq|m ? ? Heq]; symmetry in Heq;
      [by apply await_not_done in Heq|by apply await_not_act in Heq].
Qed.
End Stages.

(** ** What events do to the two tables *)

Section Instances.
Context {LT : LdkTypes} {FR : BdkFeeRate} {B : Bdk} {BB : BdkBuilder} {LN : Lightning}
  {D : Driver} {DC : DescriptorCodec}.

Lemma take_none {K V RV} `{EqDecision K} k c (s : senders K V RV) :
  hm_get k (entries s) = None → take k c s = s.
Proof. intros Hk. unfold take. by rewrite Hk. Qed.
Lemma take_some {K V RV} `{EqDecision K} k c (s : senders K V RV) v rx :
  hm_get k (entries s) = Some (v, rx) →
  take k c s = mk_senders (hm_remove k (entries s)) (settle rx c (chans s)).
Proof. intros Hk. unfold take. by rewrite Hk. Qed.

(** An event that decides a payment answers with the payment as decided. *)
Definition decides (event : Event) (n : node) (p : Payment) (c : oneshot (result error Payment)) : Prop :=
  ∃ k g, outcome event = Some (k, g) ∧ c = Value (Ok (g p)).

Lemma payment_takes settings now random event n :
  let n' := snd (process_event settings now random event n) in
  match fst <$> outcome event with
  | Some k => ∃ c, settled c ∧ payment_requests n' = take k c (payment_requests n) ∧
      ∀ v rx, hm_get k (entries (payment_requests n)) = Some (v, rx) → decides event n v c
  | None => payment_requests n' = payment_requests n
  end.
Proof.
  cbv zeta. rewrite process_event_payments. unfold decides.
  destruct (outcome event) as [[k g]|]; simpl; [|done]. unfold answer, respond.
  destruct (hm_get k (entries (payment_requests n))) as [[p rx]|] eqn:Hk.
  - exists (Value (Ok (g p))). split; [done|]. split; [by erewrite take_some by exact Hk|].
    intros v rx' [= <- <-]. by exists k, g.
  - exists Closed. split; [done|]. by rewrite take_none.
Qed.
#[export] Instance payment_verdicts : Verdicts bytes Payment Payment :=
  {| concerned event := fst <$> outcome event; said := decides; event_takes := payment_takes |}.

#[local] Arguments update_initializing_channel : simpl never.

(** The channels that an event is about while they are being opened. *)
Definition opening (event : Event) : option Z :=
  match event with
  | FundingGenerationReady _ _ _ _ id | ChannelClosed _ _ id => Some (as_u64 id)
  | _ => None
  end.
(** A transaction that an event answers with was made by the wallet at the rate of the request
    and was taken by LDK. *)
Definition funds (event : Event) (n : node) (rate : FeeRate) (tx : Transaction) : Prop :=
  ∃ tmp peer value script id w, event = FundingGenerationReady tmp peer value script id ∧
    fst (fund_tx script value rate (node_wallet n)) = Ok tx ∧
    cm_funding_transaction_generated (world n) tmp peer tx = (Ok (), w).

Lemma funding_generated now tmp peer value script id n :
  let n' := snd (handle_FundingGenerationReady now tmp peer value script id n) in
  ∃ c, settled c ∧ funding_transactions n' = take (as_u64 id) c (funding_transactions n) ∧
    ∀ rate rx, hm_get (as_u64 id) (entries (funding_transactions n)) = Some (rate, rx) →
    ∀ tx, c = Value (Ok tx) → funds (FundingGenerationReady tmp peer value script id) n rate tx.
Proof.
  intros n'. subst n'. unfold handle_FundingGenerationReady, cmd_bind, cmd_lift, get_funding, get.
  destruct (hm_get (as_u64 id) (entries (funding_transactions n))) as [[rate rx]|] eqn:Hk; simpl.
  2: { exists Closed. split; [done|]. by rewrite take_none. }
  unfold attempt, in_wallet at 1. simpl.
  destruct (fund_tx script value rate (node_wallet n)) as [[tx|e|m] wal] eqn:Hf; simpl.
  - unfold in_world. simpl. destruct (cm_funding_transaction_generated (world n) tmp peer tx)
      as [[[]|e|m] w] eqn:Hg; simpl.
    + unfold logged, in_db. simpl.
      destruct (update_initializing_channel _ _ _ _ (database n)) as [[[]|e|m] c] eqn:Hu; simpl.
      1, 2: exists (Value (Ok tx)); split; [done|]; erewrite take_some by exact Hk;
        (split; [done|]); intros ? ? [= <- <-] ? [= <-]; exists tmp, peer, value, script, id, w;
        (split; [reflexivity|]); by rewrite Hf.
      destruct (update_initializing_no_panic now tmp (Some ("Channel with user channel id " +:+
        print_nat id +:+ " has been funded")%string) (database n) m). by rewrite Hu.
    + eexists (Value (Err _)). split; [done|]. by erewrite take_some by exact Hk.
    + exists Closed. split; [done|]. by erewrite take_some by exact Hk.
  - eexists (Value (Err _)). split; [done|]. by erewrite take_some by exact Hk.
  - exists Closed. split; [done|]. by erewrite take_some by exact Hk.
Qed.

Lemma closed_answers now id reason user n :
  funding_transactions (snd (handle_ChannelClosed now id reason user n)) =
    take (as_u64 user) (Value (Err (Msg ("Channel closed due to " +:+ reason)))) (funding_transactions n).
Proof.
  unfold handle_ChannelClosed, cmd_bind, respond_funding, in_db. simpl.
  destruct (LdkDatabase.close_channel _ _ _ _) as [r c]. simpl. unfold respond, take.
  by destruct (hm_get _ _) as [[]|].
Qed.

Lemma handle_other_funding settings now random event n : opening event = None →
  funding_transactions (snd (handle_event_async settings now random event n)) = funding_transactions n.
Proof.
  intros Ho. match goal with |- funding_transactions (snd (?m n)) = _ =>
    assert (keeps funding_transactions m) as Hk; [|exact (Hk n)] end.
  destruct event; try done; cbn [handle_event_async].
  all: unfold handle_ChannelPending, handle_ChannelReady,
    broadcast_node_announcement_from_settings, handle_DiscardFunding, handle_PaymentClaimable,
    handle_PaymentClaimed, handle_PaymentPathFailed, handle_PaymentForwarded,
    handle_HTLCHandlingFailed, handle_SpendableOutputs, persist_outputs, handle_HTLCIntercepted,
    handle_PaymentSent, handle_PaymentFailed; solve_keeps.
Qed.

Definition funded (event : Event) (n : node) (rate : FeeRate) (c : oneshot (result error Transaction)) :
    Prop := ∀ tx, c = Value (Ok tx) → funds event n rate tx.
Lemma funding_takes settings now random event n :
  let n' := snd (process_event settings now random event n) in
  match opening event with
  | Some k => ∃ c, settled c ∧ funding_transactions n' = take k c (funding_transactions n) ∧
      ∀ v rx, hm_get k (entries (funding_transactions n)) = Some (v, rx) → funded event n v c
  | None => funding_transactions n' = funding_transactions n
  end.
Proof.
  intros n'. assert (n' = snd (handle_event_async settings now random event n)) as ->.
  { subst n'. unfold process_event. by destruct (handle_event_async _ _ _ _ _) as [[]]. }
  destruct (opening event) as [k|] eqn:Ho; [|by apply handle_other_funding].
  destruct event; try done; injection Ho as <-; cbn [handle_event_async].
  - apply funding_generated.
  - eexists. split; [|split; [apply closed_answers|done]]. done.
Qed.
#[export] Instance funding_verdicts : Verdicts Z FeeRate Transaction :=
  {| concerned := opening; said := funded; event_takes := funding_takes |}.
End Instances.
