(* ===== verification/Server.v ===== *)
(** * The server: every request and every event on one node

    The handlers of the admin routes (src/kld/src/api/mod.rs), the requests of both groups as
    threads, and the whole node as a step relation: requests arrive behind their guard, the
    threads of the accepted ones take turns in any order with each other, with the task that
    handles events and with everything else that runs in the background. The theorems of
    [Protocol] are about one call in an environment; here the environment is the other requests,
    and that they behave is proved, with the lemmas of [Waiting]. *)

From S2P Require Import Prelude Text Sql Ldk Payment LdkDatabase Fees AsyncRequests Wallet Node Controller EventHandler Protocol Auth Api ApiNode ApiRoutes Waiting.

Section Threads.
Context {LT : LdkTypes} {FR : BdkFeeRate} {B : Bdk} {BB : BdkBuilder} {LN : Lightning}
  {D : Driver} {DC : DescriptorCodec} {HO : HashOrder} {AT : ApiTypes} {TX : ApiText} {AG : ApiGraph}
  {BU : Build} {MC : Macaroons}.
Context `{EqDecision PublicKey}.
Variable settings : Settings.
Variable our_node_id : PublicKey.

(** ** Requests to the admin routes *)

Inductive admin_request :=
| PSign (message : string)
| POpenChannel (body : FundChannel)
| PSetChannelFee (fee : ChannelFee)
| PCloseChannel (id : string)
| PCloseChannelWithFee (id : string) (fee_rate : Z)
| PForceCloseWithBroadcast (id : string)
| PForceCloseWithoutBroadcast (id : string)
| PNewAddress (address_type : option string)
| PWithdraw (transfer : WalletTransfer)
| PConnectPeer (id : string)
| PDisconnectPeer (id : string)
| PKeysend (pubkey : string) (amount : Z)
| PGenerateInvoice (invoice : GenerateInvoice)
| PPayInvoice (invoice : string) (label : option string)
| PWebSocket.

Definition route_of_admin (q : admin_request) : string * method :=
  match q with
  | PSign _ => ("/v1/utility/signMessage", POST)
  | POpenChannel _ => ("/v1/channel/openChannel", POST)
  | PSetChannelFee _ => ("/v1/channel/setChannelFee", POST)
  | PCloseChannel _ => ("/v1/channel/closeChannel/:id", DELETE)
  | PCloseChannelWithFee _ _ => ("/v1/channel/closeChannel/:id/:fee_rate", DELETE)
  | PForceCloseWithBroadcast _ => ("/v1/channel/forceCloseChannelWithBoradCast/:id", DELETE)
  | PForceCloseWithoutBroadcast _ => ("/v1/channel/forceCloseChannelWithoutBoradCast/:id", DELETE)
  | PNewAddress _ => ("/v1/newaddr", GET)
  | PWithdraw _ => ("/v1/withdraw", POST)
  | PConnectPeer _ => ("/v1/peer/connect", POST)
  | PDisconnectPeer _ => ("/v1/peer/disconnect/:id", DELETE)
  | PKeysend _ _ => ("/v1/pay/keysend", POST)
  | PGenerateInvoice _ => ("/v1/invoice/genInvoice", POST)
  | PPayInvoice _ _ => ("/v1/pay", POST)
  | PWebSocket => ("/v1/ws", GET)
  end%string.

Inductive api_request := ReadRequest (q : request) | AdminRequest (q : admin_request).
Definition access_of (q : api_request) : access :=
  match q with ReadRequest _ => Readonly | AdminRequest _ => Admin end.

(** What a handler answers; the answers to requests for reading are those of [ApiRoutes]. *)
Inductive answer :=
| ARead
| AText (s : string)
| AOpened (r : FundChannelResponse)
| AFees (l : list SetChannelFee)
| AEmpty
| ATransfer (tx txid : string)
| APaid (r : PaymentResponse)
| AInvoice (r : GenerateInvoiceResponse)
| AUpgraded.

Definition plain {A} (f : A → answer) (m : apim A) : apit answer := of_apim (cmd_map f m).
Definition answering {A} (f : A → answer) (t : apit A) : apit answer :=
  abind t (λ a, Done (Ok (Ok (f a)))).

(** The clock and the values of the random generator at the arrival of a request. *)
Record arrival := mk_arrival {
  at_ : Z;
  random_id : bytes;
  random_number : Z;
  mempool_min_fee : result string float;
}.

Definition admin_handler (v : arrival) (q : admin_request) : apit answer :=
  match q with
  | PSign message => plain AText (sign message)
  | POpenChannel body => answering AOpened (Api.open_channel (random_number v) (at_ v) body)
  | PSetChannelFee fee => plain AFees (Api.set_channel_fee fee)
  | PCloseChannel id => plain (λ _, AEmpty) (Api.close_channel (at_ v) id)
  | PCloseChannelWithFee id fee_rate =>
      plain (λ _, AEmpty) (close_channel_with_fee (at_ v) id fee_rate)
  | PForceCloseWithBroadcast id => plain (λ _, AEmpty) (force_close_channel_with_broadcast (at_ v) id)
  | PForceCloseWithoutBroadcast id =>
      plain (λ _, AEmpty) (force_close_channel_without_broadcast (at_ v) id)
  | PNewAddress address_type => plain AText (new_address address_type)
  | PWithdraw t => plain (λ r, ATransfer r.1 r.2) (transfer settings (at_ v) t)
  | PConnectPeer id => plain AText (ApiNode.connect_peer id)
  | PDisconnectPeer id => plain (λ _, AEmpty) (ApiNode.disconnect_peer id)
  | PKeysend pubkey amount => answering APaid (keysend (random_id v) (at_ v) pubkey amount)
  | PGenerateInvoice body => plain AInvoice (ApiNode.generate_invoice body)
  | PPayInvoice invoice label =>
      answering APaid (ApiNode.pay_invoice (random_id v) (at_ v) invoice label)
  | PWebSocket => plain (λ _ : (), AUpgraded) (cmd_ret ())
  end.

Definition thread_of (v : arrival) (q : api_request) : apit answer :=
  match q with
  | ReadRequest q => plain (λ _, ARead) (projT2 (handler settings our_node_id (at_ v) (mempool_min_fee v) q))
  | AdminRequest q => admin_handler v q
  end.

(** Every request goes to an admin route, and every admin route has one. *)
Lemma route_of_admin_listed q : route_of_admin q ∈ admin_routes.
Proof. destruct q; refine (bool_decide_unpack _ _); vm_compute; exact I. Qed.

(** ** The node with its threads *)

Record task := mk_task {
  arrived : arrival;
  requested : api_request;
  running : apit answer;
}.

(** The id under which a request waits for its payment, and the key under which it waits for the
    transaction that funds its channel. *)
Definition payment_id (v : arrival) (q : api_request) : option bytes :=
  match q with
  | AdminRequest (PKeysend _ _) | AdminRequest (PPayInvoice _ _) => Some (random_id v)
  | _ => None
  end.
Definition channel_key (v : arrival) (q : api_request) : option Z :=
  match q with AdminRequest (POpenChannel _) => Some (random_number v / 2) | _ => None end.

Record server := mk_server {
  handling_events : bool;
  server_node : node;
  tasks : list task;
}.

(** The requests that wait for an event. *)
Definition waiting_requests (n : node) := (funding_transactions n, payment_requests n).

(** Under no key of [key_of] does another request wait. *)
Definition new_key {K} (key_of : arrival → api_request → option K) (v : arrival) (q : api_request)
    (l : list task) : Prop :=
  ∀ k t, key_of v q = Some k → t ∈ l → key_of (arrived t) (requested t) ≠ Some k.

(** A request that passes its guard becomes a thread; random ids do not repeat. What runs in the
    background (spawned writes, the reconnections of peers, the wallet, LDK) has no access to
    the requests that wait. *)
Inductive server_step (key : MacaroonKey) : action → server → server → Prop :=
| server_accepts h v q b n l :
    guard key (access_of q) h = Ok () → new_key payment_id v q l → new_key channel_key v q l →
    server_step key Accepted (mk_server b n l)
      (mk_server b n (l ++ [mk_task v q (thread_of v q)]))
| server_runs i v q t t' b n n' l :
    l !! i = Some (mk_task v q t) → thread_step t n t' n' →
    server_step key (Ran i) (mk_server b n l) (mk_server b n' (<[i := mk_task v q t']> l))
| server_event now random event b n n' l :
    process_event settings now random event n = (b, n') →
    server_step key (HandledEvent event) (mk_server true n l) (mk_server b n' l)
| server_background b n n' l :
    waiting_requests n' = waiting_requests n →
    server_step key Background (mk_server b n l) (mk_server b n' l).

Inductive server_run (key : MacaroonKey) : list action → server → server → Prop :=
| server_nil s : server_run key [] s s
| server_snoc tr a s s' s'' :
    server_run key tr s s' → server_step key a s' s'' → server_run key (tr ++ [a]) s s''.
End Threads.

(** ** What the requests do to those that wait *)

(** Goes through a command of the API that leaves the requests alone. *)
Ltac api := repeat first
  [ progress unfold internal_server, ask_api, bad_request, arith_api, wallet_api, cmd_map, bail
  | progress solve_keeps ].

Section Guarantee.
Context {LT : LdkTypes} {FR : BdkFeeRate} {B : Bdk} {BB : BdkBuilder} {LN : Lightning}
  {D : Driver} {DC : DescriptorCodec} {HO : HashOrder} {AT : ApiTypes} {TX : ApiText} {AG : ApiGraph}
  {BU : Build} {MC : Macaroons}.
Context `{EqDecision PublicKey}.
Variable settings : Settings.
Variable our_node_id : PublicKey.

(** Commands that leave the requests alone. *)
Lemma keeps_payments {E A} (m : cmd node E A) :
  keeps waiting_requests m → ∀ n, table (snd (m n)) = payment_requests n.
Proof. intros Hm n. exact (f_equal snd (Hm n)). Qed.
Lemma keeps_fundings {E A} (m : cmd node E A) :
  keeps waiting_requests m → ∀ n, table (snd (m n)) = funding_transactions n.
Proof. intros Hm n. exact (f_equal fst (Hm n)). Qed.

Lemma keeps_contents {E A} (m : cmd node E A) : keeps contents m → keeps waiting_requests m.
Proof. intros Hm n. exact (f_equal (λ x, (x.1.1.1.1.2, x.1.1.1.2)) (Hm n)). Qed.

Lemma reading_keeps now fee q : keeps waiting_requests (projT2 (handler settings our_node_id now fee q)).
Proof.
  destruct (decide ((route_of q).1 = "/kld/channels"%string)) as [Hq|Hq].
  - assert (q = QListChannels) as -> by (by destruct q). intros n.
    exact (f_equal (λ x, (x.1.1.1.1.2, x.1.1.1.2)) (proj1 (list_channels_changes now n))).
  - apply keeps_contents, handler_reads. by intros ->.
Qed.

Lemma named_channel_keeps id : keeps waiting_requests (named_channel id).
Proof. unfold named_channel, list_active_channels. api. Qed.
Lemma check_synchronised_keeps now : keeps waiting_requests (check_synchronised now).
Proof. unfold check_synchronised. api. Qed.
Lemma connect_any_keeps key l : keeps waiting_requests (connect_any key l).
Proof. induction l; simpl; unfold pm_connect_peer, connect_socket; api. Qed.
#[local] Hint Resolve named_channel_keeps check_synchronised_keeps connect_any_keeps : keeps.
Lemma connect_peer_keeps key address : keeps waiting_requests (Controller.connect_peer key address).
Proof. unfold Controller.connect_peer, pm_connect_peer, connect_socket. api. Qed.
Lemma set_fee_groups_keeps fee groups : keeps waiting_requests (set_fee_groups fee groups).
Proof. induction groups as [|[]]; simpl; unfold Controller.set_channel_fee; api. Qed.
#[local] Hint Resolve connect_peer_keeps set_fee_groups_keeps : keeps.

(** The requests to the admin routes that do not wait. *)
Lemma sign_keeps m : keeps waiting_requests (sign m).
Proof. unfold sign. api. done. Qed.
Lemma set_channel_fee_keeps fee : keeps waiting_requests (Api.set_channel_fee fee).
Proof. unfold Api.set_channel_fee, list_active_channels. api. Qed.
Lemma closing_keeps now id rate : keeps waiting_requests (
  let* channel := named_channel id in
  internal_server (Controller.close_channel now (cd_channel_id channel) (cd_node_id channel) rate)).
Proof. unfold Controller.close_channel. api. Qed.
Lemma force_closing_keeps now b id : keeps waiting_requests (Api.force_close_channel now b id).
Proof. unfold Api.force_close_channel, Controller.force_close_channel. api. Qed.
Lemma new_address_keeps t : keeps waiting_requests (new_address t).
Proof. unfold new_address. api. Qed.
Lemma transfer_keeps now t : keeps waiting_requests (transfer settings now t).
Proof. unfold transfer. api. Qed.
Lemma api_connect_keeps id : keeps waiting_requests (ApiNode.connect_peer id).
Proof. unfold ApiNode.connect_peer. api. Qed.
Lemma disconnect_keeps id : keeps waiting_requests (ApiNode.disconnect_peer id).
Proof. unfold ApiNode.disconnect_peer, Controller.disconnect_peer. api. Qed.
Lemma generate_invoice_keeps body : keeps waiting_requests (ApiNode.generate_invoice body).
Proof. unfold ApiNode.generate_invoice, Controller.generate_invoice. api. Qed.


(** Every thread of a request leaves what the others wait for alone, in both tables. *)
Ltac registers := right; do 2 eexists; split; reflexivity.
Ltac quietly := left; first [reflexivity | apply keeps_payments; api | apply keeps_fundings; api].

Lemma keysend_send_same `{Table K V W} random route n :
  (∀ w n, table (set_world w n) = table n) →
  table (snd (match cm_send_spontaneous_payment (world n) route random with
    | (Ok _, w) => (Ok (), set_world w n)
    | (Err e, w) =>
        if send_failed e then (Err (payment_send_failure e), set_world w n)
        else (Ok (), set_world w n)
    | (Panic m, w) => (Panic m, set_world w n)
    end : result error () * node)) = table n.
Proof.
  intros Hw. destruct (cm_send_spontaneous_payment _ _ _) as [[|e|] w]; simpl; try apply Hw.
  destruct (send_failed e); apply Hw.
Qed.

Lemma pay_invoice_guarded random now invoice label :
  guarded (foreign (TB := payment_table) (Some random)) (Controller.pay_invoice random now invoice label) ∧
  guarded (foreign (TB := funding_table) None) (Controller.pay_invoice random now invoice label).
Proof.
  unfold Controller.pay_invoice. split; solve_guarded; first [registers|quietly].
Qed.
Lemma keysend_guarded random now payee amount :
  guarded (foreign (TB := payment_table) (Some random)) (keysend_payment random now payee amount) ∧
  guarded (foreign (TB := funding_table) None) (keysend_payment random now payee amount).
Proof.
  unfold keysend_payment.
  split; solve_guarded; first [registers|quietly|left; by apply keysend_send_same].
Qed.
Lemma open_channel_guarded random now key value push rate config :
  guarded (foreign (TB := payment_table) None)
    (Controller.open_channel random now key value push rate config) ∧
  guarded (foreign (TB := funding_table) (Some (random / 2)))
    (Controller.open_channel random now key value push rate config).
Proof. unfold Controller.open_channel. split; solve_guarded; first [registers|quietly]. Qed.

(** A handler that does not wait. *)
Lemma plain_guarded {A} own own' (f : A → answer) (m : apim A) : keeps waiting_requests m →
  guarded (foreign (TB := payment_table) own) (plain f m) ∧
  guarded (foreign (TB := funding_table) own') (plain f m).
Proof.
  intros Hm.
  assert (keeps waiting_requests (cmd_map f m)) as Hk
    by (apply keeps_bind; [done|]; intros a; apply keeps_ret).
  split; apply guarded_of_apim; intros n; left; [by apply keeps_payments|by apply keeps_fundings].
Qed.

Lemma thread_guarded v q :
  guarded (foreign (TB := payment_table) (payment_id v q)) (thread_of settings our_node_id v q) ∧
  guarded (foreign (TB := funding_table) (channel_key v q)) (thread_of settings our_node_id v q).
Proof.
  destruct q as [q|q]; [apply plain_guarded, reading_keeps|]. destruct q; simpl.
  all: try (apply plain_guarded; first
    [ apply sign_keeps | apply set_channel_fee_keeps | apply closing_keeps
    | apply force_closing_keeps | apply new_address_keeps | apply transfer_keeps | apply api_connect_keeps
    | apply disconnect_keeps | apply generate_invoice_keeps | apply keeps_ret ]).
  all: unfold answering, Api.open_channel, keysend, ApiNode.pay_invoice, hash_of;
    split; solve_guarded;
    first [apply pay_invoice_guarded|apply keysend_guarded|apply open_channel_guarded|quietly].
Qed.
End Guarantee.

(** ** What the requests that wait do *)

Section Asks.
Context {LT : LdkTypes} {FR : BdkFeeRate} {B : Bdk} {BB : BdkBuilder} {LN : Lightning}
  {D : Driver} {DC : DescriptorCodec} {HO : HashOrder} {AT : ApiTypes} {TX : ApiText} {AG : ApiGraph}
  {BU : Build} {MC : Macaroons}.
Context `{EqDecision PublicKey}.
Variable settings : Settings.
Variable our_node_id : PublicKey.

#[local] Hint Resolve named_channel_keeps check_synchronised_keeps connect_peer_keeps : keeps.

(** *** Payments *)

(** The call returns the payment with which it was answered, or fails. *)
Definition returns_payment (_ : Payment) (c : oneshot (result error Payment)) (r : result error Payment) :
    Prop := (∃ p, c = Value (Ok p) ∧ r = Ok p) ∨ fails r.

Ltac leaves_payments := first [done | apply keeps_payments; solve [api]].

(** The end of both calls. *)
Lemma payment_answered v c r : received c = Some r →
  finishing (TB := payment_table) (returns_payment v c)
    (tbind (Done (let? x := r in x)) (λ payment, let! _ := act (in_db (persist_payment payment)) in Done (Ok payment))).
Proof.
  destruct c as [|[p|e|w]|]; intros [= <-]; simpl; [|constructor; by right..].
  apply (finishing_bind_act _ (in_db (persist_payment p))); [leaves_payments|by intros; right|].
  intros _. constructor. left. by exists p.
Qed.

Lemma pay_invoice_asks random now invoice label :
  asking (TB := payment_table) random fails (λ p, p = of_invoice_outbound random now invoice label)
    returns_payment (Controller.pay_invoice random now invoice label).
Proof.
  unfold Controller.pay_invoice.
  do 5 (apply asking_bind_act; [leaves_payments|intros ?]).
  by eapply asking_register; [reflexivity|reflexivity|apply payment_answered].
Qed.
Lemma keysend_asks random now payee amount :
  asking (TB := payment_table) random fails (λ p, p = spontaneous_outbound now random amount)
    returns_payment (keysend_payment random now payee amount).
Proof.
  unfold keysend_payment.
  do 2 (apply asking_bind_act; [leaves_payments|intros ?]).
  apply asking_bind_act; [intros n; by apply keysend_send_same|intros ?].
  apply asking_bind_act; [leaves_payments|intros ?].
  by eapply asking_register; [reflexivity|reflexivity|apply payment_answered].
Qed.

(** What a response says of a payment. *)
Definition tells (p : Payment) (r : PaymentResponse) : Prop :=
  (∃ hash, pay_hash p = Some hash ∧ py_payment_hash r = hex_encode hash) ∧
  py_payment_preimage r = preimage_of p ∧
  py_status r = payment_status_fmt (pay_status p) ∧
  py_created_at r = as_u64 (unix_timestamp (pay_timestamp p)).
Definition reports {A} (wrap : PaymentResponse → A) (_ : Payment) (c : oneshot (result error Payment))
    (r : result error (result api_error A)) : Prop :=
  (∃ p resp, c = Value (Ok p) ∧ r = Ok (Ok (wrap resp)) ∧ tells p resp) ∨ refused r.

(** The payment that a request registers. *)
Definition payment_of (v : arrival) (q : api_request) (p : Payment) : Prop :=
  match q with
  | AdminRequest (PPayInvoice text label) =>
      ∃ invoice, invoice_try_from text = Ok invoice ∧
        p = of_invoice_outbound (random_id v) (at_ v) invoice label
  | AdminRequest (PKeysend _ amount) => p = spontaneous_outbound (at_ v) (random_id v) amount
  | _ => False
  end.

(** A call of the controller and the response made of what it returns. *)
Lemma payment_reported {A} (wrap : PaymentResponse → A) k Π (t : thread Payment)
    (f : Payment → string → apit A) :
  asking (TB := payment_table) k fails Π returns_payment t →
  (∀ v p hash, pay_hash p = Some hash →
     finishing (TB := payment_table) (reports wrap v (Value (Ok p))) (f p (hex_encode hash))) →
  asking (TB := payment_table) k refused Π (reports wrap)
    (abind (call_internal t) (λ payment, abind (of_apim (hash_of payment)) (f payment))).
Proof.
  intros Ht Hf. apply asking_call_internal in Ht. revert Ht. apply asking_abind.
  intros v c r (r' & [(p & -> & ->)|Hr] & <-); simpl.
  - apply finishing_of_apim; [leaves_payments|by intros; right|]. intros n hash Hh.
    unfold hash_of, cmd_map, cmd_bind, cmd_lift, cmd_ret in Hh.
    destruct (pay_hash p) as [h|] eqn:Hp; [|done]. injection Hh as <-. by apply Hf.
  - destruct r' as [p|e|w]; [by destruct (Hr p)|..]; constructor; by right.
Qed.

Lemma payment_answering k Π t : asking (TB := payment_table) k refused Π (reports (λ r, r)) t →
  asking (TB := payment_table) k refused Π (reports APaid) (answering APaid t).
Proof.
  apply asking_abind. intros v c r [(p & resp & -> & -> & Ht)|Hr]; simpl.
  - constructor. left. by exists p, resp.
  - destruct r as [[a|e|w]|e|w]; [by destruct (Hr a)|constructor; by right..].
Qed.

Lemma payments_ask v q id : payment_id v q = Some id →
  asking (TB := payment_table) id refused (payment_of v q) (reports APaid)
    (thread_of settings our_node_id v q).
Proof.
  destruct q as [q|q]; [done|]. destruct q; try done; intros [= <-]; apply payment_answering.
  - apply asking_of_apim; [leaves_payments|]. intros n node_id _.
    apply payment_reported; [apply keysend_asks|]. intros r p hash Hh.
    apply finishing_of_apim; [leaves_payments|by intros; right|]. intros _ sent _. constructor. left.
    eexists p, _. split; [done|]. split; [done|]. split_and!; try done. by exists hash.
  - apply asking_of_apim; [leaves_payments|]. intros n i Hi.
    assert (invoice_try_from invoice = Ok i) as Ht.
    { revert Hi. unfold bad_request, cmd_lift. simpl. by destruct (invoice_try_from invoice); intros [= ->]. }
    apply payment_reported.
    + eapply asking_impl, pay_invoice_asks; [done|]. intros p ->. by exists i.
    + intros r p hash Hh. constructor. left. eexists p, _. split; [done|]. split; [done|].
      split_and!; try done. by exists hash.
Qed.

(** A payment without an invoice that failed has no response. *)
Lemma failed_keysend_is_an_error now random amount reason r :
  ¬ tells (failed reason (spontaneous_outbound now random amount)) r.
Proof. intros [(hash & Hh & _) _]. done. Qed.

(** *** Channels *)

Ltac leaves_fundings := first [done | apply keeps_fundings; solve [api]].

Definition returns_channel (_ : FeeRate) (c : oneshot (result error Transaction))
    (r : result error OpenChannelResult) : Prop :=
  (∃ tx channel, c = Value (Ok tx) ∧ r = Ok (mk_opened tx (tx_txid tx) channel)) ∨ fails r.

Lemma open_channel_asks random now key value push rate config :
  asking (TB := funding_table) (random / 2) fails (λ r, r = default fee_rate_default rate)
    returns_channel (Controller.open_channel random now key value push rate config).
Proof.
  unfold Controller.open_channel.
  do 4 (apply asking_bind_act; [leaves_fundings|intros ?]).
  eapply asking_register; [reflexivity|reflexivity|].
  intros [|[tx|e|w]|] r [= <-]; simpl; [|constructor; by right..].
  apply finishing_bind_act; [leaves_fundings|by intros; right|]. intros _. constructor. left. by eexists tx, _.
Qed.

Definition opens (rate : FeeRate) (c : oneshot (result error Transaction))
    (r : result error (result api_error answer)) : Prop :=
  (∃ tx resp, c = Value (Ok tx) ∧ r = Ok (Ok (AOpened resp)) ∧ fcr_tx resp = tx ∧
     fcr_txid resp = txid_to_string (tx_txid tx)) ∨ refused r.
(** The rate that a request registers. *)
Definition rate_of (v : arrival) (q : api_request) (rate : FeeRate) : Prop :=
  match q with
  | AdminRequest (POpenChannel body) => rate = default fee_rate_default (fc_fee_rate body)
  | _ => False
  end.

Lemma channels_ask v q k : channel_key v q = Some k →
  asking (TB := funding_table) k refused (rate_of v q) opens (thread_of settings our_node_id v q).
Proof.
  destruct q as [q|q]; [done|]. destruct q; try done. intros [= <-].
  apply (asking_abind (TB := funding_table) _ _ (λ _ c r, (∃ tx resp, c = Value (Ok tx) ∧
    r = Ok (Ok resp) ∧ fcr_tx resp = tx ∧ fcr_txid resp = txid_to_string (tx_txid tx)) ∨ refused r)).
  { intros rate c r [(tx & resp & -> & -> & Ht)|Hr]; simpl.
    - constructor. left. by exists tx, resp.
    - destruct r as [[a|e|w]|e|w]; [by destruct (Hr a)|constructor; by right..]. }
  unfold Api.open_channel.
  apply asking_of_apim; [leaves_fundings|]. intros n [key address] _.
  do 4 (apply asking_of_apim; [leaves_fundings|]; intros ? ? _).
  eapply asking_abind; [|apply asking_call_internal, open_channel_asks].
  intros rate c r (r' & [(tx & channel & -> & ->)|Hr] & <-); simpl.
  - constructor. left. by eexists tx, _.
  - destruct r' as [o|e|w]; [by destruct (Hr o)|..]; constructor; by right.
Qed.
End Asks.

(** ** Every interleaving *)

Section Interleavings.
Context {LT : LdkTypes} {FR : BdkFeeRate} {B : Bdk} {BB : BdkBuilder} {LN : Lightning}
  {D : Driver} {DC : DescriptorCodec} {HO : HashOrder} {AT : ApiTypes} {TX : ApiText} {AG : ApiGraph}
  {BU : Build} {MC : Macaroons}.
Context `{EqDecision PublicKey}.
Variable settings : Settings.
Variable our_node_id : PublicKey.
Variable key : MacaroonKey.
Variable start : server.

(** The nodes that a trace leads to. *)
Definition reached (tr : list action) (n : node) : Prop :=
  ∃ s, server_run settings our_node_id key tr start s ∧ server_node s = n.

Section OneTable.
Context {K V W : Type} `{EqDecision K} {TB : Table K V W} {VD : Verdicts K V W}.
Variable key_of : arrival → api_request → option K.
Variable Π : arrival → api_request → V → Prop.
Variable Φ : V → oneshot (result error W) → result error (result api_error answer) → Prop.
Hypothesis guards : ∀ v q, guarded (foreign (key_of v q)) (thread_of settings our_node_id v q).
Hypothesis asks : ∀ v q k, key_of v q = Some k →
  asking k refused (Π v q) Φ (thread_of settings our_node_id v q).
Hypothesis fresh : ∀ v q l, new_key payment_id v q l → new_key channel_key v q l → new_key key_of v q l.
Hypothesis background : ∀ n n', waiting_requests n' = waiting_requests n → table n' = table n.

Record consistent (tr : list action) (s : server) : Prop := {
  con_wf : senders_wf (table (server_node s));
  con_guarded i v q t : tasks s !! i = Some (mk_task v q t) → guarded (foreign (key_of v q)) t;
  con_keys i j v q t v' q' t' k : tasks s !! i = Some (mk_task v q t) →
    tasks s !! j = Some (mk_task v' q' t') → key_of v q = Some k → key_of v' q' = Some k → i = j;
  con_stage i v q t k : tasks s !! i = Some (mk_task v q t) → key_of v q = Some k →
    stage reached k (Π v q) Φ i tr (server_node s) t;
}.

Lemma consistent_accepts v q b n l tr : new_key key_of v q l → consistent tr (mk_server b n l) →
  consistent (tr ++ [Accepted])
    (mk_server b n (l ++ [mk_task v q (thread_of settings our_node_id v q)])).
Proof.
  intros Hfresh [Hwf Hg Hid Hst]. simpl in *.
  assert (∀ i t, (l ++ [mk_task v q (thread_of settings our_node_id v q)]) !! i = Some t →
    l !! i = Some t ∨ i = length l ∧ mk_task v q (thread_of settings our_node_id v q) = t) as Hnew.
  { intros i t [H|[Hi H]]%lookup_app_Some; [by left|right].
    apply list_lookup_singleton_Some in H as [? <-]. split; [lia|done]. }
  assert (∀ i v' q' t' k, l !! i = Some (mk_task v' q' t') → key_of v q = Some k →
    key_of v' q' ≠ Some k) as Hother
    by (intros i v' q' t' k Hi Hk; exact (Hfresh k _ Hk (list_elem_of_lookup_2 _ _ _ Hi))).
  split; simpl; [done|..].
  - intros i v' q' t' [H|[-> [= -> -> <-]]]%Hnew; [by eapply Hg|apply guards].
  - intros i j v1 q1 t1 v2 q2 t2 k [H|[-> [= -> -> _]]]%Hnew [H'|[-> [= -> -> _]]]%Hnew Hk Hk';
      [by eapply Hid|exfalso; by eapply Hother..|done].
  - intros i v' q' t' k [H|[-> [= -> -> <-]]]%Hnew Hk.
    + eapply (stage_other _ _ _ _ _ _ _ _ _ _ None); [|exact Hwf|by left|done|by apply Hst].
      by repeat constructor.
    + apply stage_before. by apply asks.
Qed.

Lemma consistent_runs i v q t t' b n n' l tr :
  l !! i = Some (mk_task v q t) → thread_step t n t' n' → consistent tr (mk_server b n l) →
  consistent (tr ++ [Ran i]) (mk_server b n' (<[i := mk_task v q t']> l)).
Proof.
  intros Hi Hs [Hwf Hg Hid Hst]. simpl in *.
  destruct (guarded_step _ (foreign_refl _) t t' n n' (Hg _ _ _ _ Hi) Hs) as [Hf Ht'].
  assert (∀ j u, <[i := mk_task v q t']> l !! j = Some u →
    (i = j ∧ mk_task v q t' = u) ∨ (i ≠ j ∧ l !! j = Some u)) as Hnew.
  { intros j u [(-> & <- & _)|[Hne H]]%list_lookup_insert_Some; [by left|by right]. }
  split; simpl; [by eapply foreign_wf|..].
  - intros j v1 q1 t1 [[<- [= <- <- <-]]|[_ H]]%Hnew; [exact Ht'|by eapply Hg].
  - intros j1 j2 v1 q1 t1 v2 q2 t2 k [[<- [= <- <- _]]|[_ H1]]%Hnew [[<- [= <- <- _]]|[_ H2]]%Hnew Hk Hk';
      [done|by eapply Hid..].
  - intros j v1 q1 t1 k [[<- [= <- <- <-]]|[Hne H]]%Hnew Hk.
    + eapply stage_own; [exact Hwf|exact Hs|]. exact (Hst _ _ _ _ _ Hi Hk).
    + eapply stage_other; [|exact Hwf|exact Hf| |by apply Hst]; [by repeat constructor|].
      intros Heq. apply Hne. by eapply Hid.
Qed.

Lemma consistent_event now random event b n l tr : reached tr n → consistent tr (mk_server true n l) →
  consistent (tr ++ [HandledEvent event])
    (mk_server b (snd (process_event settings now random event n)) l).
Proof.
  intros Hn [Hwf Hg Hid Hst]. simpl in *. split; simpl; try done.
  - pose proof (event_takes settings now random event n) as He. cbv zeta in He.
    destruct (concerned event); [|by rewrite He]. destruct He as (c & _ & -> & _). by apply take_wf.
  - intros i v q t k Hi Hk. apply stage_event; [done..|by eapply Hst].
Qed.

Lemma consistent_background b n n' l tr :
  waiting_requests n' = waiting_requests n → consistent tr (mk_server b n l) →
  consistent (tr ++ [Background]) (mk_server b n' l).
Proof.
  intros He%background [Hwf Hg Hid Hst]. split; simpl in *; [by rewrite He|done..|].
  intros i v q t k Hi Hk.
  eapply (stage_other _ _ _ _ _ _ _ _ _ _ None); [by repeat constructor|exact Hwf|by left|done|].
  by apply Hst.
Qed.

Lemma server_consistent tr s :
  tasks start = [] → senders_wf (table (server_node start)) →
  server_run settings our_node_id key tr start s → consistent tr s.
Proof.
  intros Ht Hwf Hrun.
  assert (∀ tr s0 s, server_run settings our_node_id key tr s0 s → s0 = start → consistent tr s) as Hgo;
    [|by eapply Hgo].
  clear tr s Hrun. intros tr s0 s Hrun Hs0. induction Hrun as [s0|tr a s0 s' s'' Hrun IH Hstep].
  - subst s0. split; [done|..].
    + intros i v q t. by rewrite Ht, lookup_nil.
    + intros i j v q t v' q' t' k. by rewrite Ht, lookup_nil.
    + intros i v q t k. by rewrite Ht, lookup_nil.
  - specialize (IH Hs0). destruct Hstep as [h v q b n l _ Hp Hc|i v q t t' b n n' l Hi Hs|
      now random event b n n' l He|b n n' l Hb].
    + apply consistent_accepts; [by apply fresh|done].
    + by eapply consistent_runs.
    + assert (n' = snd (process_event settings now random event n)) as -> by by rewrite He.
      apply consistent_event; [|done]. exists (mk_server true n l). by subst s0.
    + by eapply consistent_background.
Qed.
End OneTable.

(** [C3] Payments on the whole server. From a start without requests, in every interleaving of
    the requests that come in (each behind its guard, random ids not repeating), of their
    threads, of the events and of what runs in the background: a request to pay or to send that
    answers reports its own payment, as the first event after it registered that is about this
    payment left it, whatever the other requests and events did; and as long as it waits, either
    no such event was handled and it cannot go on, or one was and it can. *)
Theorem payments_are_answered_by_their_events tr s i v q t id :
  tasks start = [] → senders_wf (payment_requests (server_node start)) →
  server_run settings our_node_id key tr start s →
  tasks s !! i = Some (mk_task v q t) → payment_id v q = Some id →
  (∀ a, t = Done (Ok (Ok a)) → ∃ p g tr1 tr2 event tr3 r,
     tr = tr1 ++ Ran i :: tr2 ++ HandledEvent event :: tr3 ∧ quiet id tr2 ∧
     outcome event = Some (id, g) ∧ payment_of v q p ∧ a = APaid r ∧ tells (g p) r) ∧
  (∀ rx cont, t = AwaitPayment rx cont →
     (untold id i tr ∧ ∀ t' n', ¬ thread_step t (server_node s) t' n') ∨
     ((∃ p c, told reached id i tr p c) ∧ ∃ t', thread_step t (server_node s) t' (server_node s))).
Proof.
  intros Hempty Hwf Hrun Hi Hid.
  apply (server_consistent payment_id payment_of (reports APaid)) in Hrun as [Hw _ _ Hst];
    [|by intros; apply thread_guarded|intros; by apply payments_ask|by intros
     |intros n n' H'; exact (f_equal snd H')|done|exact Hwf].
  specialize (Hst _ _ _ _ _ Hi Hid). split.
  - intros a ->. apply stage_answered in Hst as (p & c & Htold & Hp & Hr).
    destruct Htold as (tr1 & tr2 & event & tr3 & n & -> & Hq & Hc & _ & (k & g & Ho & ->)).
    destruct Hr as [(p' & r & [= <-] & [= ->] & Htells)|Hr]; [|by destruct (Hr a)].
    exists p, g, tr1, tr2, event, tr3, r. split_and!; try done.
    simpl in Hc. rewrite Ho in Hc |- *. simpl in Hc. by injection Hc as ->.
  - intros rx cont ->.
    exact (stage_await (TB := payment_table) reached id _ (reports APaid) i tr _ rx cont Hw Hst).
Qed.

(** [C4] Channels on the whole server, in the same interleavings: a request to open a channel that
    answers carries a transaction that the wallet made at the fee rate of this request, when the
    first event about this channel after the request registered was handled, and that LDK took
    for the channel of that event; and as long as it waits, either no event about the channel
    was handled and it cannot go on, or one was and it can. *)
Theorem channels_are_opened_with_their_transactions tr s i v q t k :
  tasks start = [] → senders_wf (funding_transactions (server_node start)) →
  server_run settings our_node_id key tr start s →
  tasks s !! i = Some (mk_task v q t) → channel_key v q = Some k →
  (∀ a, t = Done (Ok (Ok a)) → ∃ rate tx tr1 tr2 event tr3 n r,
     tr = tr1 ++ Ran i :: tr2 ++ HandledEvent event :: tr3 ∧ quiet k tr2 ∧
     opening event = Some k ∧ reached (tr1 ++ Ran i :: tr2) n ∧ rate_of v q rate ∧
     funds event n rate tx ∧ a = AOpened r ∧ fcr_tx r = tx) ∧
  (∀ rx cont, t = AwaitFunding rx cont →
     (untold k i tr ∧ ∀ t' n', ¬ thread_step t (server_node s) t' n') ∨
     ((∃ rate c, told reached k i tr rate c) ∧ ∃ t', thread_step t (server_node s) t' (server_node s))).
Proof.
  intros Hempty Hwf Hrun Hi Hk.
  apply (server_consistent channel_key rate_of (λ rate, opens rate)) in Hrun as [Hw _ _ Hst];
    [|by intros; apply thread_guarded|intros; by apply channels_ask|by intros
     |intros n n' H'; exact (f_equal fst H')|done|exact Hwf].
  specialize (Hst _ _ _ _ _ Hi Hk). split.
  - intros a ->. apply stage_answered in Hst as (rate & c & Htold & Hrate & Hr).
    destruct Htold as (tr1 & tr2 & event & tr3 & n & -> & Hq & Hc & Hn & Hfunds).
    destruct Hr as [(tx & r & -> & [= ->] & Htx & _)|Hr]; [|by destruct (Hr a)].
    exists rate, tx, tr1, tr2, event, tr3, n, r. split_and!; try done. by apply Hfunds.
  - intros rx cont ->.
    exact (stage_await (TB := funding_table) reached k _ (λ rate, opens rate) i tr _ rx cont Hw Hst).
Qed.
End Interleavings.
(** ** A payment between other requests *)

Section Next.
Context {LT : LdkTypes} {FR : BdkFeeRate} {B : Bdk} {BB : BdkBuilder} {LN : Lightning}
  {D : Driver} {DC : DescriptorCodec} {HO : HashOrder} {AT : ApiTypes} {TX : ApiText} {AG : ApiGraph}
  {BU : Build} {MC : Macaroons}.
Context `{EqDecision PublicKey}.
Variable settings : Settings.
Variable our_node_id : PublicKey.

(** The step of a thread, and of the [i]th request, as functions. *)
Definition thread_next {A} (t : thread A) (n : node) : option (thread A * node) :=
  match t with
  | Done _ => None
  | Act m => Some (m n)
  | AwaitFunding rx k => (λ v, (k v, n)) <$> received (receiver rx (funding_transactions n))
  | AwaitPayment rx k => (λ v, (k v, n)) <$> received (receiver rx (payment_requests n))
  end.
Lemma thread_next_step {A} (t : thread A) n t' n' :
  thread_next t n = Some (t', n') ↔ thread_step t n t' n'.
Proof.
  split.
  - destruct t as [r|m|rx k|rx k]; simpl; [done|..].
    + intros [= Hm]. by apply step_act.
    + destruct (received _) eqn:Hr; [|done]. intros [= <- <-]. by apply step_funding.
    + destruct (received _) eqn:Hr; [|done]. intros [= <- <-]. by apply step_payment.
  - intros [m ? ? ? Hm|rx k ? v Hv|rx k ? v Hv]; simpl; [by rewrite Hm|by rewrite Hv..].
Qed.

Definition run_task (i : nat) (s : server) : option server :=
  t ← tasks s !! i;
  '(t', n') ← thread_next (running t) (server_node s);
  Some (mk_server (handling_events s) n'
          (<[i := mk_task (arrived t) (requested t) t']> (tasks s))).

(** What happens next, and the server after it. *)
Inductive input :=
| Arrives (h : headers) (v : arrival) (q : api_request)
| Turn (i : nat)
| Raises (now : Z) (random : bytes) (event : Event).
Definition action_of (x : input) : action :=
  match x with Arrives _ _ _ => Accepted | Turn i => Ran i | Raises _ _ e => HandledEvent e end.

Definition key_is_new {K} `{EqDecision K} (key_of : arrival → api_request → option K)
    (v : arrival) (q : api_request) (l : list task) : bool :=
  match key_of v q with
  | Some k => forallb (λ t, negb (bool_decide (key_of (arrived t) (requested t) = Some k))) l
  | None => true
  end.
Lemma key_is_new_spec {K} `{EqDecision K} (key_of : arrival → api_request → option K) v q l :
  key_is_new key_of v q l = true → new_key key_of v q l.
Proof.
  unfold key_is_new. intros Hnew k t Hk Hin. rewrite Hk, forallb_forall in Hnew.
  apply list_elem_of_In, Hnew in Hin. by apply negb_true_iff, bool_decide_eq_false in Hin.
Qed.
Definition react (key : MacaroonKey) (x : input) (s : server) : option server :=
  match x with
  | Arrives h v q =>
      match guard key (access_of q) h with
      | Ok () =>
          if key_is_new payment_id v q (tasks s) && key_is_new channel_key v q (tasks s)
          then Some (mk_server (handling_events s) (server_node s)
                       (tasks s ++ [mk_task v q (thread_of settings our_node_id v q)]))
          else None
      | _ => None
      end
  | Turn i => run_task i s
  | Raises now random e =>
      if handling_events s then
        let '(b, n) := process_event settings now random e (server_node s) in
        Some (mk_server b n (tasks s))
      else None
  end.

Lemma react_step key x s s' :
  react key x s = Some s' → server_step settings our_node_id key (action_of x) s s'.
Proof.
  destruct s as [b n l], x as [h v q|i|now random e]; simpl.
  - destruct (guard key _ h) as [[]| |] eqn:Hg; [|done..].
    destruct (_ && _) eqn:Hnew; [|done]. intros [= <-]. apply andb_prop in Hnew as [Hp Hc].
    apply (server_accepts _ _ _ h); [done|by apply key_is_new_spec..].
  - unfold run_task. simpl. destruct (l !! i) as [[v q t]|] eqn:Hi; [|done]. simpl.
    destruct (thread_next t n) as [[t' n']|] eqn:Ht; [|done]. intros [= <-].
    apply thread_next_step in Ht. by eapply server_runs.
  - destruct b; [|done]. destruct (process_event _ _ _ _ _) as [b' n'] eqn:He.
    intros [= <-]. by eapply server_event.
Qed.

Fixpoint reacts (key : MacaroonKey) (l : list input) (s : server) : option server :=
  match l with [] => Some s | x :: l => s' ← react key x s; reacts key l s' end.
Lemma reacts_run key l tr s0 s s' : reacts key l s = Some s' →
  server_run settings our_node_id key tr s0 s →
  server_run settings our_node_id key (tr ++ (action_of <$> l)) s0 s'.
Proof.
  revert tr s. induction l as [|x l IH]; intros tr s; simpl.
  - intros [= <-]. by rewrite app_nil_r.
  - destruct (react key x s) as [s1|] eqn:Hx; [|done]. simpl. intros Hl Hr.
    apply (IH (tr ++ [action_of x])) in Hl; [by rewrite <- app_assoc in Hl|].
    eapply server_snoc; [exact Hr|by apply react_step].
Qed.
End Next.

Section Instances.
#[local] Existing Instance example_ldk.
#[local] Existing Instance example_ldk_laws.
#[local] Existing Instance example_rate.
#[local] Existing Instance example_bdk.
#[local] Existing Instance example_builder.
#[local] Existing Instance example_lightning.
#[local] Existing Instance example_descriptors.
#[local] Existing Instance insertion_order.
#[local] Existing Instance list_order.
#[local] Existing Instance example_api.
#[local] Existing Instance example_text.
#[local] Existing Instance example_graph.
#[local] Existing Instance checked.
#[local] Existing Instance example_macaroons.

Definition admin_headers : headers := λ name,
  if bool_decide (name = "macaroon"%string) then Some (Some "admin"%string) else None.
Definition arrival_of (id : bytes) : arrival := mk_arrival 7 id 24 (Ok (f64_of 0)).
Definition send_money : api_request := AdminRequest (PKeysend "02" 1000).
Definition read_balance : api_request := ReadRequest QGetBalance.
Definition open_a_channel : api_request :=
  AdminRequest (POpenChannel (mk_fund_channel "02bb@127.0.0.1:9735" "100000" None (Some true) None)).

Definition paid_event : Event :=
  PaymentSent (Some (id_bytes false)) (id_bytes true) (id_bytes true) (Some 5).
Definition failed_event : Event := PaymentFailed (id_bytes true) (id_bytes true) None.
Definition funding_event : Event :=
  FundingGenerationReady (id_bytes false) (true : @PublicKey example_ldk) 100000
    (Bitcoin : @Script example_rate example_bdk) 12.

(** Two payments, a channel and a request for the balance; the payments and the channel wait when
    the events come, the one for the second payment first. *)
Definition inputs : list input :=
  [Arrives admin_headers (arrival_of (id_bytes true)) send_money;
   Arrives admin_headers (arrival_of (id_bytes false)) send_money;
   Arrives admin_headers (arrival_of (id_bytes true)) read_balance;
   Arrives admin_headers (arrival_of (id_bytes true)) open_a_channel] ++
  (Turn <$> [0; 1; 0; 3; 3; 2; 1; 0; 3; 3; 3; 3; 0; 1; 3; 0; 3; 1; 0; 3; 1; 3; 1]%nat) ++
  [Raises 8 (id_bytes true) paid_event; Raises 8 (id_bytes true) funding_event;
   Raises 9 (id_bytes true) failed_event] ++
  (Turn <$> [0; 1; 3; 1; 0; 3; 1; 0; 1]%nat).
Definition first_server : server := mk_server true example_node [].
Definition last_server : server :=
  default first_server
    (reacts example_settings (true : @PublicKey example_ldk) example_key inputs first_server).
Definition paid : PaymentResponse :=
  mk_payment_response "02" "0202" 0 1 (Some 1000) 1000000 "0202" "succeeded".
Definition answer_of (i : nat) (s : server) : option (result error (result api_error answer)) :=
  t ← tasks s !! i; match running t with Done r => Some r | _ => None end.

(** The first payment failed: a payment without an invoice has no hash before it is sent, and the
    response cannot be made of it. *)
Example failed_payment_is_an_error :
  answer_of 0 last_server = Some (Ok (Err (InternalServerError "missing payment hash"))).
Proof. vm_compute. reflexivity. Qed.
Lemma second_answer : answer_of 1 last_server = Some (Ok (Ok (APaid paid))).
Proof. vm_compute. reflexivity. Qed.
Definition opened : FundChannelResponse :=
  mk_fund_response (3%nat : @Transaction example_rate example_bdk) "0101" "0202".
Lemma fourth_answer : answer_of 3 last_server = Some (Ok (Ok (AOpened opened))).
Proof. vm_compute. reflexivity. Qed.

Lemma inputs_react : match reacts example_settings (true : @PublicKey example_ldk) example_key inputs
  first_server with Some _ => true | None => false end = true.
Proof. vm_compute. reflexivity. Qed.
Lemma last_run : server_run example_settings (true : @PublicKey example_ldk) example_key
  (action_of <$> inputs) first_server last_server.
Proof.
  apply (reacts_run _ _ _ _ [] _ first_server); [|apply server_nil].
  unfold last_server. pose proof inputs_react as H. revert H.
  by destruct (reacts _ _ _ inputs first_server).
Qed.

(** The request behind an answer. *)
Lemma answered_task i v q a :
  (λ t, (arrived t, requested t)) <$> (tasks last_server !! i) = Some (v, q) →
  answer_of i last_server = Some a → tasks last_server !! i = Some (mk_task v q (Done a)).
Proof.
  unfold answer_of. destruct (tasks last_server !! i) as [[v' q' t]|]; [|done]. simpl.
  intros [= -> ->]. destruct t; [by intros [= ->]|done..].
Qed.
Lemma second_task : tasks last_server !! 1%nat =
  Some (mk_task (arrival_of (id_bytes false)) send_money (Done (Ok (Ok (APaid paid))))).
Proof. apply answered_task; [vm_compute; reflexivity|exact second_answer]. Qed.
Lemma fourth_task : tasks last_server !! 3%nat =
  Some (mk_task (arrival_of (id_bytes true)) open_a_channel (Done (Ok (Ok (AOpened opened))))).
Proof. apply answered_task; [vm_compute; reflexivity|exact fourth_answer]. Qed.

Lemma payments_are_answered_by_their_events_witness : ∃ p g event,
  HandledEvent event ∈ action_of <$> inputs ∧ outcome event = Some (id_bytes false, g) ∧ tells (g p) paid.
Proof.
  destruct (proj1 (payments_are_answered_by_their_events example_settings (true : @PublicKey example_ldk)
    example_key first_server _ _ 1 _ _ _ (id_bytes false) eq_refl new_senders_wf last_run second_task
    eq_refl) _ eq_refl)
    as (p & g & tr1 & tr2 & event & tr3 & r & Htr & _ & Ho & _ & [= <-] & Htell).
  exists p, g, event. split; [|exact (conj Ho Htell)].
  rewrite Htr, elem_of_app, elem_of_cons, elem_of_app, elem_of_cons. auto.
Defined.

Lemma channels_are_opened_with_their_transactions_witness : ∃ event n rate,
  HandledEvent event ∈ action_of <$> inputs ∧ opening event = Some 12 ∧
  funds event n rate (3%nat : @Transaction example_rate example_bdk).
Proof.
  destruct (proj1 (channels_are_opened_with_their_transactions example_settings
    (true : @PublicKey example_ldk) example_key first_server _ _ 3 _ _ _ 12 eq_refl new_senders_wf
    last_run fourth_task eq_refl) _ eq_refl)
    as (rate & tx & tr1 & tr2 & event & tr3 & n & r & Htr & _ & Ho & _ & _ & Hf & [= <-] & <-).
  exists event, n, rate. split; [|exact (conj Ho Hf)].
  rewrite Htr, elem_of_app, elem_of_cons, elem_of_app, elem_of_cons. auto.
Defined.
End Instances.
