(* ===== verification/WebSocket.v ===== *)
(** * The web socket of the API (src/kld/src/api/ws.rs)

    [handle_socket] pings the client and reads what it sends until it closes the connection; every
    message is only logged. The web socket of axum is what its operations answer. *)

From S2P Require Import Prelude Text.

#[local] Open Scope string_scope.
#[local] Open Scope Z_scope.

Inductive Message :=
| MText (t : string)
| MBinary (d : bytes)
| MClose (c : option (Z * string))
| MPong (v : bytes)
| MPing (v : bytes).

Inductive ControlFlow := Continue | Break.
#[global] Instance ControlFlow_eq_dec : EqDecision ControlFlow.
Proof. solve_decision. Defined.

(** A line of the log at the level of information, with the debug forms of what was sent, or of
    debugging, or of an error. *)
Inductive line :=
| SentStr (t : string) | SentBytes (length : Z) (d : bytes) | SentClose (code : Z) (reason : string)
| SentCloseWithoutFrame | SentPong (v : bytes) | SentPing (v : bytes)
| Connected (user_agent : string) | Pinged | CouldNotPing | TaskFailed (e : string) | Destroyed.

(** [process_message]: what it logs, and whether to go on. *)
Definition process_message (msg : Message) : line * ControlFlow :=
  match msg with
  | MText t => (SentStr t, Continue)
  | MBinary d => (SentBytes (Z.of_nat (length d)) d, Continue)
  | MClose (Some (code, reason)) => (SentClose code reason, Break)
  | MClose None => (SentCloseWithoutFrame, Break)
  | MPong v => (SentPong v, Continue)
  | MPing v => (SentPing v, Continue)
  end.

(** [while let Some(Ok(msg)) = receiver.next().await] over what the connection gives; it ends with
    the connection, an error, or a close message. *)
Fixpoint recv_task (received : list (result string Message)) : list line :=
  match received with
  | Ok msg :: received =>
      let '(l, flow) := process_message msg in
      match flow with Continue => l :: recv_task received | Break => [l] end
  | _ => []
  end.

(** [handle_socket]: [ping] is the answer of the first send, [joined] the one of the task, which
    is an error when it panicked. *)
Definition handle_socket (ping : result string ()) (received : list (result string Message))
    (joined : result string ()) : list line :=
  match ping with
  | Ok _ =>
      (Pinged :: recv_task received ++
       match joined with Err e => [TaskFailed e] | _ => [] end ++ [Destroyed])%list
  | _ => [CouldNotPing]
  end.

(** [ws_handler]: what the request is answered with is the upgrade, with the protocol "hex". *)
Definition ws_handler (user_agent : option string) : line * list string :=
  (Connected (default "Unknown client" user_agent), ["hex"]).

(** ** What is logged *)

(** The messages up to the first close message, the end of the connection or its first error. *)
Fixpoint handled (received : list (result string Message)) : list Message :=
  match received with
  | Ok msg :: received =>
      msg :: match msg with MClose _ => [] | _ => handled received end
  | _ => []
  end.

(** Every message that is handled is one line; nothing after a close message is. *)
Lemma recv_task_handled received : recv_task received = (λ msg, (process_message msg).1) <$> handled received.
Proof.
  induction received as [|[msg|e|w] received IH]; [done| |done..].
  by destruct msg as [| |[[]|]| |]; simpl; rewrite ?IH.
Qed.
Lemma nothing_after_close received c rest :
  recv_task (received ++ Ok (MClose c) :: rest) = recv_task (received ++ [Ok (MClose c)]).
Proof.
  rewrite !recv_task_handled. f_equal.
  induction received as [|[msg|e|w] received IH]; [done| |done..]. simpl. by destruct msg; rewrite ?IH.
Qed.

(** A client that answers the ping with its pong and closes. *)
Example session : handle_socket (Ok ()) [Ok (MPong []); Ok (MText "hello"); Ok (MClose None); Ok (MText "late")] (Ok ()) =
  [Pinged; SentPong []; SentStr "hello"; SentCloseWithoutFrame; Destroyed].
Proof. reflexivity. Qed.
