(* ===== verification/Exporter.v ===== *)
(** * Metrics and health (src/kld/src/prometheus.rs)

    The gauges that are registered at the start and what a scrape sets them to, the health answer
    and the dispatch of requests. *)

From S2P Require Import Prelude Text Sql Ldk Payment LdkDatabase Fees AsyncRequests Wallet Node Controller EventHandler Protocol Auth Api ApiNode ApiRoutes.

#[local] Open Scope string_scope.

(** Floating point, as far as it is used, and the text format of the metrics. *)
Class Metrics := {
  Float : Type;
  float_of : Z → Float;
  (** [x as f64 / 1000.0]. *)
  float_thousandth : Z → Float;
}.

Section Exporter.
Context {LT : LdkTypes} {FR : BdkFeeRate} {B : Bdk} {BB : BdkBuilder} {LN : Lightning}
  {D : Driver} {DC : DescriptorCodec} {HO : HashOrder} {AT : ApiTypes} {TX : ApiText} {AG : ApiGraph}
  {BU : Build} {ME : Metrics}.

(** ** The gauges *)

Inductive gauge := FloatGauge (f : Float) | IntGauge (z : Z).

(** [START] is set by the first scrape; a gauge is there when it is registered. *)
Record exporter := mk_exporter { start : option Z; gauges : list (string * gauge) }.

Definition registered (name : string) (e : exporter) : bool :=
  bool_decide (is_Some (hm_get name (gauges e))).
Definition set_gauge (name : string) (v : gauge) (e : exporter) : exporter :=
  if registered name e then mk_exporter (start e) (hm_insert name v (gauges e)) else e.
(** [register_gauge!(..)?]: a name can be registered once. *)
Definition register (name : string) (zero : gauge) (e : exporter) : result string exporter :=
  if registered name e then Err "Duplicate metrics collector registration attempted"
  else Ok (mk_exporter (start e) (gauges e ++ [(name, zero)])%list).

Definition gauge_names : list (string * gauge) :=
  [("uptime", FloatGauge (float_of 0)); ("node_count", IntGauge 0);
   ("network_channel_count", IntGauge 0); ("channel_count", IntGauge 0); ("peer_count", IntGauge 0);
   ("wallet_balance", FloatGauge (float_of 0)); ("channel_balance", FloatGauge (float_of 0));
   ("fee", FloatGauge (float_of 0)); ("block_height", IntGauge 0); ("on_chain_sweep_fee", IntGauge 0);
   ("non_anchor_channel_fee", IntGauge 0); ("channel_close_minimum_fee", IntGauge 0);
   ("anchor_channel_fee", IntGauge 0); ("min_allowed_anchor_channel_remote_fee", IntGauge 0);
   ("min_allowed_non_anchor_channel_remote_fee", IntGauge 0); ("scorer_update_timestamp", IntGauge 0);
   ("probe_total_count", IntGauge 0); ("probe_successful_count", IntGauge 0);
   ("probe_failed_count", IntGauge 0)].
Fixpoint register_all (l : list (string * gauge)) (e : exporter) : result string exporter :=
  match l with
  | [] => Ok e
  | (name, zero) :: l => let? e := register name zero e in register_all l e
  end.
(** [start_prometheus_exporter] until the server listens; [address_ok]: the address is one. *)
Definition start_exporter (address_ok : bool) (e : exporter) : result string exporter :=
  let? e := register_all gauge_names e in
  if address_ok then Ok e else Err "Failed to parse exporter".

(** ** A scrape *)

(** [if let Some(g) = G.get() { g.set(..) }]. *)
Definition when_gauge (name : string) (m : nodem gauge) (e : exporter) : nodem exporter :=
  if registered name e then let* v := m in cmd_ret (set_gauge name v e) else cmd_ret e.
(** [if let (Some(g), Ok(v)) = (G.get(), ..) { g.set(v) }]: what is asked is asked in any case. *)
Definition when_both (name : string) (m : nodem gauge) (e : exporter) : nodem exporter :=
  let* r := catch m in
  match r with
  | Ok v => cmd_ret (set_gauge name v e)
  | _ => cmd_ret e
  end.

(** [try_into().unwrap_or(i64::MAX)]. *)
Definition count_gauge (n : nat) : gauge := IntGauge (Z.min (Z.of_nat n) (2 ^ 63 - 1)).

(** controller.rs, [wallet_balance]: an error counts as nothing. *)
Definition wallet_balance : nodem Z :=
  let* r := catch (in_wallet balance) in
  cmd_ret (match r with Ok b => let '(_, _, confirmed) := balance_parts b in confirmed | _ => 0%Z end).

Fixpoint sum_balances (total : Z) (l : list ChannelDetails) : result error Z :=
  match l with
  | [] => Ok total
  | c :: l => let? total := arith 64 (total + cf_balance_msat (cd_fields c)) in sum_balances total l
  end.

Definition fee_gauge (t : ConfirmationTarget) : nodem gauge :=
  let* fee := (λ n, (Ok (get_est_sat_per_1000_weight (priorities (bitcoind_client (node_wallet n))) t), n)) in
  cmd_ret (IntGauge fee).

(** [block_height]: a best block without a height is an error. *)
Definition block_height : nodem gauge :=
  let* h := ask_client best_height in
  match h with
  | Some h => cmd_ret (IntGauge h)
  | None => bail "Could not get best block from bitcoind"
  end.

Definition uptime (now : Z) (e : exporter) : exporter :=
  if registered "uptime" e then
    let first := default now (start e) in
    set_gauge "uptime" (FloatGauge (float_of (now - first))) (mk_exporter (Some first) (gauges e))
  else e.

Definition scrape_node (e : exporter) : nodem exporter :=
  let* e := when_gauge "node_count" (let* l := ask_world graph_nodes in
                                     cmd_ret (count_gauge (length l))) e in
  let* e := when_gauge "network_channel_count" (let* l := ask_world graph_channels in
                                                cmd_ret (count_gauge (length l))) e in
  let* e := when_both "channel_count" (cmd_map IntGauge (in_db open_channel_count)) e in
  let* e := when_gauge "peer_count" (cmd_map count_gauge num_peers) e in
  let* e := when_gauge "wallet_balance" (cmd_map (λ z, FloatGauge (float_of z)) wallet_balance) e in
  let* e := when_gauge "channel_balance"
              (let* channels := list_active_channels in
               let* total := cmd_lift (sum_balances 0 channels) in
               cmd_ret (FloatGauge (float_thousandth total))) e in
  let* e := when_both "fee" (cmd_map (λ t, FloatGauge (float_of (tf_fee t)))
                               (in_db fetch_total_forwards)) e in
  let* e := when_both "block_height" block_height e in
  let* e := when_gauge "on_chain_sweep_fee" (fee_gauge OnChainSweep) e in
  let* e := when_gauge "non_anchor_channel_fee" (fee_gauge NonAnchorChannelFee) e in
  let* e := when_gauge "channel_close_minimum_fee" (fee_gauge ChannelCloseMinimum) e in
  let* e := when_gauge "anchor_channel_fee" (fee_gauge AnchorChannelFee) e in
  let* e := when_gauge "min_allowed_anchor_channel_remote_fee"
              (fee_gauge MinAllowedAnchorChannelRemoteFee) e in
  let* e := when_gauge "min_allowed_non_anchor_channel_remote_fee"
              (fee_gauge MinAllowedNonAnchorChannelRemoteFee) e in
  let* e := when_both "scorer_update_timestamp" (cmd_map IntGauge (in_db fetch_scorer_update_time)) e in
  cmd_ret e.
(** [now] is the monotonic clock in milliseconds. *)
Definition scrape (now : Z) (e : exporter) : nodem exporter := scrape_node (uptime now e).

(** ** Requests *)

(** [DurableConnection::is_synchronised] is [true]; [closed]: the client of the database is
    closed; [now]: in seconds. *)
Definition health (closed : bool) (now : Z) (c : bitcoind) : string :=
  let database_synchronised := true in
  let database_connected := negb closed in
  if database_synchronised && is_synchronised now (blockchain_info c) then "OK"
  else if database_connected && match best_height c with Ok _ => true | _ => false end then "SYNCING"
  else "ERROR".

Inductive reply := Text (body : string) | MetricsReply (l : list (string * gauge)) | NotFoundReply.

(** [clock]: the time in milliseconds since the start of the clock, and in seconds. *)
Definition response_examples (pid : string) (closed : bool) (clock : Z * Z) (method path : string)
    (e : exporter) : nodem (reply * exporter) :=
  if bool_decide (method = "GET" ∧ path = "/health") then λ n,
    (Ok (Text (health closed clock.2 (bitcoind_client (node_wallet n))), e), n)
  else if bool_decide (method = "GET" ∧ path = "/pid") then cmd_ret (Text pid, e)
  else if bool_decide (method = "GET" ∧ path = "/metrics") then
    let* e := scrape clock.1 e in cmd_ret (MetricsReply (gauges e), e)
  else cmd_ret (NotFoundReply, e).
End Exporter.

(** ** What the exporter may change *)

Section Observing.
Context {LT : LdkTypes} {FR : BdkFeeRate} {B : Bdk} {BB : BdkBuilder} {LN : Lightning}
  {D : Driver} {DL : DriverLaws} {DC : DescriptorCodec} {HO : HashOrder} {AT : ApiTypes} {TX : ApiText} {AG : ApiGraph}
  {BU : Build} {ME : Metrics}.

(** What a command that only reads leaves of the node: everything, but a query that fails inside
    an open transaction aborts the transaction. On a connection that works, outside of a
    transaction, the node is the same to the last detail. *)
Definition working (n : node) : Prop := online (database n) ∧ in_transaction (database n) = false.
Definition leaves (n n' : node) : Prop :=
  contents n' = contents n ∧
  (aborted (database n') = aborted (database n) ∨
   aborted (database n') = in_transaction (database n)) ∧
  (working n → n' = n).
Definition only_reads {E A} (m : cmd node E A) : Prop := ∀ n, leaves n (snd (m n)).

Lemma leaves_refl n : leaves n n.
Proof. split_and!; auto. Qed.
Lemma leaves_trans n1 n2 n3 : leaves n1 n2 → leaves n2 n3 → leaves n1 n3.
Proof.
  intros (Hc & Ha & Hw) (Hc' & Ha' & Hw').
  assert (in_transaction (database n2) = in_transaction (database n1)) as Ht.
  { unfold in_transaction. unfold contents in Hc. by injection Hc as _ _ _ _ _ _ ->. }
  rewrite Ht in Ha'. split_and!; [by rewrite Hc'| |].
  - destruct Ha' as [->|?]; [done|by right].
  - intros H. pose proof (Hw H) as ->. by apply Hw'.
Qed.

Lemma only_reads_pure {E A} (g : node → result E A) : only_reads (λ n, (g n, n)).
Proof. intros n. apply leaves_refl. Qed.
Lemma only_reads_bind {E A C} (m : cmd node E A) (k : A → cmd node E C) :
  only_reads m → (∀ a, only_reads (k a)) → only_reads (cmd_bind m k).
Proof.
  intros Hm Hk n. unfold cmd_bind. specialize (Hm n).
  destruct (m n) as [[a|e|w] n']; simpl in *; [|done..]. by eapply leaves_trans, Hk.
Qed.
Lemma only_reads_map {E A C} (g : A → C) (m : cmd node E A) : only_reads m → only_reads (cmd_map g m).
Proof. intros Hm. apply only_reads_bind; [done|]. intros a. apply only_reads_pure. Qed.
Lemma only_reads_catch {A} (m : nodem A) : only_reads m → only_reads (catch m).
Proof. intros Hm n. unfold catch. specialize (Hm n). by destruct (m n) as [[] ?]. Qed.
Lemma only_reads_wallet {A} (m : walletm A) : wallet_reads m → only_reads (in_wallet m).
Proof.
  intros Hm n. unfold in_wallet. specialize (Hm (node_wallet n)).
  destruct (m (node_wallet n)) as [r w]. simpl in *. subst w.
  assert (set_wallet (node_wallet n) n = n) as -> by by destruct n. apply leaves_refl.
Qed.

(** One statement that writes no table. *)
Definition db_only_reads {A} (m : ldkm A) : Prop := ∀ c,
  let c' := snd (m c) in
  tables c' = tables c ∧ snapshot c' = snapshot c ∧
  (aborted c' = aborted c ∨ aborted c' = in_transaction c) ∧
  (online c → in_transaction c = false → c' = c).
Lemma only_reads_db {A} (m : ldkm A) : db_only_reads m → only_reads (in_db m).
Proof.
  intros Hm n. unfold in_db, leaves, contents, working. destruct (Hm (database n)) as (Ht & Hs & Ha & Hw).
  destruct (m (database n)) as [r c]. simpl in *. rewrite Ht, Hs. split_and!; [done|done|].
  intros [Ho Hi]. rewrite (Hw Ho Hi). by destruct n.
Qed.
Lemma db_only_reads_statement {A} (s : ldk_tables → result sql_error (A * ldk_tables)) :
  (∀ t a t', s t = Ok (a, t') → t' = t) → db_only_reads (cmd_map_err Sql (statement s)).
Proof.
  intros Hs [t fs sn b]. unfold cmd_map_err, statement, failed_in, online. simpl.
  destruct fs as [|[e|] fs]; simpl; [|by split_and!; [..|right|intros [? ?]]|];
    (destruct b; [by split_and!; [..|right|intros [? ?]]|]);
    (destruct (s t) as [[a t']|e|w] eqn:He; [apply Hs in He; subst t'| |]; simpl; split_and!; auto;
     try by intros [? ?]).
  all: intros _ H; unfold in_transaction in *; simpl in *; by rewrite H.
Qed.
Lemma db_only_reads_then {A C} (m : ldkm A) (g : A → result db_error C) :
  db_only_reads m → db_only_reads (let* a := m in cmd_lift (g a)).
Proof. intros Hm c. specialize (Hm c). unfold cmd_bind. by destruct (m c) as [[] ?]. Qed.
Lemma db_only_reads_one {R} (s : ldk_tables → list R) : db_only_reads (db_query_one s).
Proof.
  apply (db_only_reads_then (db_query s) (λ l, map_err Sql (query_one l))).
  apply db_only_reads_statement. by intros t a t' [= _ ->].
Qed.
Lemma db_only_reads_totals : db_only_reads fetch_total_forwards.
Proof.
  apply db_only_reads_statement. intros t a t'. unfold cast_int.
  repeat case_bool_decide; simpl; by intros [= _ <-].
Qed.
Lemma db_only_reads_scorer : db_only_reads fetch_scorer_update_time.
Proof. apply (db_only_reads_then _ (λ r, Ok (sc_timestamp r))), db_only_reads_one. Qed.

(** ** What a gauge shows *)

Lemma wallet_balance_reads : only_reads wallet_balance.
Proof.
  unfold wallet_balance. apply only_reads_bind; [apply only_reads_catch, only_reads_wallet, balance_reads|].
  intros []; apply only_reads_pure.
Qed.
Lemma block_height_reads : only_reads block_height.
Proof.
  apply only_reads_bind; [by apply only_reads_wallet|]. intros [h|]; apply only_reads_pure.
Qed.

(** The gauges that a scrape sets: what each is given, and whether a failure ends the scrape. *)
Definition readings : list (string * bool * nodem gauge) :=
  [("node_count", true, let* l := ask_world graph_nodes in cmd_ret (count_gauge (length l)));
   ("network_channel_count", true, let* l := ask_world graph_channels in cmd_ret (count_gauge (length l)));
   ("channel_count", false, cmd_map IntGauge (in_db open_channel_count));
   ("peer_count", true, cmd_map count_gauge num_peers);
   ("wallet_balance", true, cmd_map (λ z, FloatGauge (float_of z)) wallet_balance);
   ("channel_balance", true, let* channels := list_active_channels in
                             let* total := cmd_lift (sum_balances 0 channels) in
                             cmd_ret (FloatGauge (float_thousandth total)));
   ("fee", false, cmd_map (λ t, FloatGauge (float_of (tf_fee t))) (in_db fetch_total_forwards));
   ("block_height", false, block_height);
   ("on_chain_sweep_fee", true, fee_gauge OnChainSweep);
   ("non_anchor_channel_fee", true, fee_gauge NonAnchorChannelFee);
   ("channel_close_minimum_fee", true, fee_gauge ChannelCloseMinimum);
   ("anchor_channel_fee", true, fee_gauge AnchorChannelFee);
   ("min_allowed_anchor_channel_remote_fee", true, fee_gauge MinAllowedAnchorChannelRemoteFee);
   ("min_allowed_non_anchor_channel_remote_fee", true, fee_gauge MinAllowedNonAnchorChannelRemoteFee);
   ("scorer_update_timestamp", false, cmd_map IntGauge (in_db fetch_scorer_update_time))].
Definition give (name : string) (must : bool) (m : nodem gauge) (e : exporter) : nodem exporter :=
  if must then when_gauge name m e else when_both name m e.
Fixpoint set_gauges (l : list (string * bool * nodem gauge)) (e : exporter) : nodem exporter :=
  match l with
  | [] => cmd_ret e
  | (name, must, m) :: l =>
      let* e := give name must m e in set_gauges l e
  end.
Lemma scrape_node_readings e : scrape_node e = set_gauges readings e.
Proof. reflexivity. Qed.

Lemma readings_only_read : Forall (λ r, only_reads r.2) readings.
Proof.
  unfold readings. repeat apply Forall_cons_2; try apply Forall_nil_2; simpl; repeat first
    [ apply wallet_balance_reads | apply block_height_reads
    | apply only_reads_db; first [apply db_only_reads_one|apply db_only_reads_totals|apply db_only_reads_scorer]
    | apply only_reads_bind; [|intros ?] | apply only_reads_pure ].
Qed.
Lemma readings_names : NoDup (readings.*1.*1).
Proof. refine (bool_decide_unpack _ _). vm_compute. exact I. Qed.

Lemma uptime_is_no_reading name must m : (name, must, m) ∈ readings → name ≠ "uptime".
Proof.
  unfold readings. intros Hm ->. repeat (apply elem_of_cons in Hm as [[=]|Hm]).
  by apply elem_of_nil in Hm.
Qed.

(** Commands that only read and, when they give an exporter, keep its gauges. *)
Definition same_gauges (e e' : exporter) : Prop := (gauges e').*1 = (gauges e).*1.
Definition observes (e : exporter) (m : nodem exporter) : Prop :=
  only_reads m ∧ ∀ n e', fst (m n) = Ok e' → same_gauges e e'.

Lemma insert_same_keys (name : string) (v : gauge) l : is_Some (hm_get name l) →
  (hm_insert name v l).*1 = l.*1.
Proof.
  induction l as [|[k w] l IH]; simpl; [by intros []|]. intros H.
  case_decide as Hk; [by subst|]. simpl. f_equal. by apply IH.
Qed.
Lemma set_gauge_same name v e : same_gauges e (set_gauge name v e).
Proof.
  unfold same_gauges, set_gauge, registered. case_bool_decide as H; [|done].
  by apply insert_same_keys.
Qed.
Lemma uptime_same now e : same_gauges e (uptime now e).
Proof. unfold uptime. destruct (registered _ _); [|done]. apply (set_gauge_same _ _ (mk_exporter _ _)). Qed.

Lemma observes_bind e m k : observes e m → (∀ e', same_gauges e e' → observes e' (k e')) →
  observes e (cmd_bind m k).
Proof.
  intros [Hm He] Hk. split.
  - intros n. unfold cmd_bind. specialize (Hm n). specialize (He n).
    destruct (m n) as [[e1|x|w] n1]; simpl in *; [|done..].
    destruct (Hk e1 (He e1 eq_refl)) as [Hk1 _]. eapply leaves_trans; [done|apply Hk1].
  - intros n e'. unfold cmd_bind. specialize (He n).
    destruct (m n) as [[e1|x|w] n1]; simpl in *; [|done..]. intros H.
    destruct (Hk e1 (He e1 eq_refl)) as [_ Hk2]. unfold same_gauges in *.
    rewrite (Hk2 _ _ H). by apply He.
Qed.
Lemma observes_when name m e : only_reads m → observes e (when_gauge name m e).
Proof.
  intros Hm. unfold when_gauge. destruct (registered name e).
  2:{ split; [apply only_reads_pure|]. by intros n e2 [= <-]. }
  split; [apply only_reads_bind; [done|intros; apply only_reads_pure]|].
  intros n e'. unfold cmd_bind. destruct (m n) as [[v|x|w] n1]; simpl; [|done..].
  intros [= <-]. apply set_gauge_same.
Qed.
Lemma observes_both name m e : only_reads m → observes e (when_both name m e).
Proof.
  intros Hm. unfold when_both. split.
  - apply only_reads_bind; [by apply only_reads_catch|]. intros []; apply only_reads_pure.
  - intros n e'. unfold cmd_bind, catch. destruct (m n) as [[v|x|w] n1]; simpl; [|intros [= <-]|done].
    + intros [= <-]. apply set_gauge_same.
    + done.
Qed.
Lemma give_observes name must m e : only_reads m → observes e (give name must m e).
Proof. destruct must; [apply observes_when|apply observes_both]. Qed.

Lemma set_gauges_observes l e : Forall (λ r, only_reads r.2) l → observes e (set_gauges l e).
Proof.
  intros Hl. revert e. induction Hl as [|[[name must] m] l Hm _ IH]; intros e; simpl.
  { split; [apply only_reads_pure|]. by intros n e2 [= <-]. }
  apply observes_bind; [by apply give_observes|by intros ? _].
Qed.

(** The value of a gauge after a scrape that succeeds. *)
Definition shows (n : node) (e : exporter) (name : string) (m : nodem gauge) : option gauge :=
  match fst (m n) with Ok v => Some v | _ => hm_get name (gauges e) end.

Lemma hm_get_set name v e : registered name e = true → hm_get name (gauges (set_gauge name v e)) = Some v.
Proof. intros H. unfold set_gauge. rewrite H. simpl. by rewrite hm_get_insert_eq. Qed.
Lemma hm_get_set_ne name name' v e : name ≠ name' →
  hm_get name (gauges (set_gauge name' v e)) = hm_get name (gauges e).
Proof. intros H. unfold set_gauge. destruct (registered _ _); [|done]. by apply hm_get_insert_ne. Qed.

Lemma set_one name must m e n e' n' :
  give name must m e n = (Ok e', n') →
  (registered name e = true → hm_get name (gauges e') = shows n e name m) ∧
  ∀ name', name' ≠ name → hm_get name' (gauges e') = hm_get name' (gauges e).
Proof.
  unfold shows, give. destruct must; [unfold when_gauge|unfold when_both, catch].
  - destruct (registered name e) eqn:Hr; [|by intros [= <- _]].
    unfold cmd_bind. destruct (m n) as [[v| |] n1]; [|done..]. intros [= <- _].
    split; [intros _; by apply hm_get_set|]. intros. by apply hm_get_set_ne.
  - unfold cmd_bind. destruct (m n) as [[v| |] n1]; [| |done]; simpl; intros [= <- _]; [|done].
    split; [by apply hm_get_set|]. intros. by apply hm_get_set_ne.
Qed.

Lemma set_gauges_values l : Forall (λ r, only_reads r.2) l → NoDup (l.*1.*1) → ∀ e n e' n',
  working n → set_gauges l e n = (Ok e', n') →
  (∀ name must m, (name, must, m) ∈ l → registered name e = true →
     hm_get name (gauges e') = shows n e name m) ∧
  ∀ name, name ∉ l.*1.*1 → hm_get name (gauges e') = hm_get name (gauges e).
Proof.
  intros Hl. induction Hl as [|[[name must] m] l Hm Hl IH]; intros Hnd e n e' n' Hn; simpl.
  { intros [= <- _]. split; [by intros ??? ?%elem_of_nil|done]. }
  apply NoDup_cons in Hnd as [Hnotin Hnd]. intros (e1 & n1 & H1 & H2)%cmd_bind_inv.
  destruct (give_observes name must m e Hm) as [Ho Hsame].
  specialize (Ho n). specialize (Hsame n e1). rewrite H1 in Ho, Hsame. simpl in Ho, Hsame.
  destruct Ho as (_ & _ & Hw). specialize (Hw Hn) as ->. specialize (Hsame eq_refl).
  destruct (set_one _ _ _ _ _ _ _ H1) as [Hone Hother].
  destruct (IH Hnd e1 n e' n' Hn H2) as [Hin Hout]. split.
  - intros name' must' m' [[= -> -> ->]|Hm']%elem_of_cons Hr; [by rewrite Hout, Hone|].
    assert (name' ≠ name) as Hne.
    { intros ->. apply Hnotin. apply list_elem_of_fmap. exists (name, must'). split; [done|].
      apply list_elem_of_fmap. by exists (name, must', m'). }
    rewrite (Hin _ _ _ Hm'); unfold shows, registered in *; by rewrite Hother.
  - intros name' [Hne Hni]%not_elem_of_cons. by rewrite Hout, Hother.
Qed.

Lemma count_of_channels n : working n →
  fst (in_db open_channel_count n) =
    map_err DbError (map_err Sql (query_one (scan [Z.of_nat (length (where_ ch_is_usable (channels (tables (database n)))))]))).
Proof.
  intros [Hon _]. unfold in_db, open_channel_count. by rewrite db_query_one_run.
Qed.

(** A scrape that succeeds on a node that works. *)
Lemma scrape_values now e n e' n' : working n → scrape now e n = (Ok e', n') →
  n' = n ∧
  (∀ name must m, (name, must, m) ∈ readings → registered name e = true →
     hm_get name (gauges e') = shows n e name m) ∧
  (registered "channel_count" e = true → hm_get "channel_count" (gauges e') =
     Some (IntGauge (Z.of_nat (length (where_ ch_is_usable (channels (tables (database n)))))))).
Proof.
  intros Hn. unfold scrape. rewrite scrape_node_readings. intros H.
  destruct (set_gauges_observes readings (uptime now e) readings_only_read) as [Hk _].
  specialize (Hk n). rewrite H in Hk. destruct Hk as (_ & _ & Hw). simpl in Hw.
  destruct (set_gauges_values _ readings_only_read readings_names _ _ _ _ Hn H) as [Hin _].
  split; [by apply Hw|].
  assert (∀ name must m, (name, must, m) ∈ readings → registered name e = true →
    hm_get name (gauges e') = shows n e name m) as Hall.
  { intros name must m Hm Hr. pose proof (uptime_is_no_reading _ _ _ Hm) as Hne.
    assert (hm_get name (gauges (uptime now e)) = hm_get name (gauges e)) as Hu.
    { unfold uptime. destruct (registered "uptime" e); [|done]. by rewrite hm_get_set_ne. }
    rewrite (Hin _ _ _ Hm) by (unfold registered; by rewrite Hu). unfold shows. by rewrite Hu. }
  split; [done|]. intros Hr.
  rewrite (Hall "channel_count" false (cmd_map IntGauge (in_db open_channel_count)) ltac:(do 2 right; by left) Hr).
  unfold shows, cmd_map, cmd_bind. pose proof (count_of_channels n Hn) as Hcount.
  rewrite scan_singleton, query_one_one in Hcount.
  destruct (in_db open_channel_count n) as [r ?]. simpl in Hcount. by subst r.
Qed.

(** [C35] The exporter only observes. Whatever is requested and whatever fails, everything of the
    node is as it was, with one exception: a query that fails inside an open transaction of the
    shared session aborts it, so that its commit undoes it ([open_batch_holds_node_writes]). The
    gauges are those that were registered, no more and no fewer. A scrape that succeeds on a
    connection that works, outside of a transaction, leaves the node exactly as it is and gives
    every registered gauge what its reading of the node is (a reading that fails and does not
    end the scrape leaves the gauge); so the number of channels is that of the usable ones that
    are stored. While bitcoind is synchronised the health is OK, also when the connection to the
    database is closed; without bitcoind it is ERROR. *)
Theorem exporter_only_observes pid closed clock method path e n :
  let '(r, n') := response_examples pid closed clock method path e n in
  contents n' = contents n ∧
  (aborted (database n') = aborted (database n) ∨
   aborted (database n') = in_transaction (database n)) ∧
  (∀ reply e', r = Ok (reply, e') → same_gauges e e') ∧
  (∀ l e', working n → r = Ok (MetricsReply l, e') →
     n' = n ∧ l = gauges e' ∧
     (∀ name must m, (name, must, m) ∈ readings → registered name e = true →
        hm_get name l = shows n e name m) ∧
     (registered "channel_count" e = true → hm_get "channel_count" l =
        Some (IntGauge (Z.of_nat (length (where_ ch_is_usable (channels (tables (database n))))))))) ∧
  (method = "GET" → path = "/health" →
     let c := bitcoind_client (node_wallet n) in
     (is_synchronised clock.2 (blockchain_info c) = true → r = Ok (Text "OK", e)) ∧
     (is_synchronised clock.2 (blockchain_info c) = false → (∀ h, best_height c ≠ Ok h) →
      r = Ok (Text "ERROR", e))).
Proof.
  unfold response_examples.
  case_bool_decide as H1; [split_and!; [done|by left|by intros ? ? [= _ <-]|done|]|].
  { intros _ _. simpl. unfold health. split; [by intros ->|]. intros -> Hh. simpl.
    destruct (best_height _) as [h| |]; [by destruct (Hh h)| |]; by rewrite andb_false_r. }
  case_bool_decide as H2;
    [split_and!; [done|by left|by intros ? ? [= _ <-]|done|intros -> ->; by destruct H1]|].
  case_bool_decide as H3;
    [|split_and!; [done|by left|by intros ? ? [= _ <-]|done|intros -> ->; by destruct H1]].
  destruct (set_gauges_observes readings (uptime clock.1 e) readings_only_read) as [Hk Hg].
  unfold scrape, cmd_bind. rewrite scrape_node_readings.
  destruct (Hk n) as (Hc & Ha & Hw). specialize (Hg n).
  pose proof (scrape_values clock.1 e n) as Hv. unfold scrape in Hv. rewrite scrape_node_readings in Hv.
  destruct (set_gauges readings _ n) as [[e1|x|w] n1]; simpl in *;
    [|split_and!; [done..|intros -> ->; by destruct H1]..].
  split_and!; [done|done| | |intros -> ->; by destruct H1].
  { intros reply e' [= _ <-]. unfold same_gauges. rewrite (Hg e1 eq_refl). apply uptime_same. }
  intros l e' Hn [= <- <-]. by destruct (Hv e1 n1 Hn eq_refl) as (-> & ? & ?).
Qed.

(** The clock of the gauge [uptime] starts with the first scrape. *)
Theorem uptime_starts_with_the_first_scrape now now' e :
  registered "uptime" e = true → start e = None →
  hm_get "uptime" (gauges (uptime now e)) = Some (FloatGauge (float_of 0)) ∧
  hm_get "uptime" (gauges (uptime now' (uptime now e))) = Some (FloatGauge (float_of (now' - now))).
Proof.
  intros Hr Hs.
  assert (∀ e1 : exporter, registered "uptime" e1 = true → uptime now' e1 =
    set_gauge "uptime" (FloatGauge (float_of (now' - default now' (start e1))))
      (mk_exporter (Some (default now' (start e1))) (gauges e1))) as Hup
    by (intros e1 H1; unfold uptime; by rewrite H1).
  assert (uptime now e = set_gauge "uptime" (FloatGauge (float_of 0)) (mk_exporter (Some now) (gauges e)))
    as Hfirst by (unfold uptime; rewrite Hr, Hs; simpl; by rewrite Z.sub_diag).
  rewrite Hfirst. set (e1 := set_gauge _ _ _).
  assert (hm_get "uptime" (gauges e1) = Some (FloatGauge (float_of 0))) as Hg
    by (apply hm_get_set; exact Hr).
  assert (start e1 = Some now) as Hs1 by (subst e1; unfold set_gauge; by destruct (registered _ _)).
  split; [exact Hg|]. rewrite Hup; [|unfold registered; rewrite Hg; by apply bool_decide_eq_true_2].
  rewrite Hs1. apply hm_get_set. unfold registered. simpl. rewrite Hg. by apply bool_decide_eq_true_2.
Qed.
End Observing.

(** ** A concrete scrape *)

Section Instances.
#[local] Existing Instance example_ldk.
#[local] Existing Instance example_rate.
#[local] Existing Instance example_bdk.
#[local] Existing Instance example_builder.
#[local] Existing Instance example_lightning.
#[local] Existing Instance example_descriptors.
#[local] Existing Instance insertion_order.
#[local] Existing Instance insertion_order_laws.
#[local] Existing Instance list_order.
#[local] Existing Instance example_api.
#[local] Existing Instance example_text.
#[local] Existing Instance example_graph.
#[local] Existing Instance checked.
#[local] Instance example_metrics : Metrics := {| Float := Z; float_of := id; float_thousandth z := z / 1000 |}.

Definition example_exporter : exporter :=
  match start_exporter true (mk_exporter None []) with Ok e => e | _ => mk_exporter None [] end.
Definition example_scrape := response_examples "42" false (1000, 1) "GET" "/metrics" example_exporter node_with_channels.
Lemma example_scrape_ok : match fst example_scrape with Ok (MetricsReply _, _) => True | _ => False end.
Proof. vm_compute. exact I. Qed.

(** The channels of the example are counted and the node is as it was. *)
Lemma exporter_only_observes_witness : ∃ l e',
  example_scrape = (Ok (MetricsReply l, e'), node_with_channels) ∧
  hm_get "channel_count" l =
    Some (IntGauge (Z.of_nat (length (where_ ch_is_usable (channels (tables (database node_with_channels))))))).
Proof.
  pose proof (exporter_only_observes "42" false (1000, 1) "GET" "/metrics" example_exporter
                node_with_channels) as H.
  change (response_examples "42" false (1000, 1) "GET" "/metrics" example_exporter node_with_channels)
    with example_scrape in H.
  pose proof example_scrape_ok as Hok. destruct example_scrape as [r n']. simpl in Hok.
  destruct r as [[reply e']|x|w]; [|exact (False_ind _ Hok)..].
  destruct reply as [body|l|]; [exact (False_ind _ Hok)| |exact (False_ind _ Hok)].
  destruct H as (_ & _ & _ & H & _).
  destruct (H l e' (conj (conj eq_refl eq_refl) eq_refl) eq_refl) as (-> & _ & _ & Hc).
  exists l, e'. split; [reflexivity|]. exact (Hc eq_refl).
Defined.
End Instances.
