(* ===== verification/Cli.v ===== *)
(** * The command line client and the server it talks to (src/kld/src/cli)

    [client_request] is the request that the client ([Api] of client.rs) makes for a command of
    commands.rs; [delivered] is what the server's router and extractors (src/kld/src/api/mod.rs
    and the handlers) make of it. The theorems say which commands arrive as they are meant. *)

From Stdlib Require Import Ascii.
From stdpp Require Import gmap.
From S2P Require Import Prelude Text RustStd Files Sql Fees Auth Api ApiNode ApiRoutes.

#[local] Open Scope string_scope.

(** ** Commands (commands.rs) *)

Inductive KldCliSubCommand :=
| CmdGetInfo
| Sign (message : string)
| GetBalance
| NewAddress
| Withdraw (address amount : string) (fee_rate : option string)
| ListFunds
| ListPeers
| ConnectPeer (public_key : string)
| DisconnectPeer (public_key : string)
| ListChannels
| ListPeerChannels
| OpenChannel (public_key sats : string) (push_msat : option string) (announce : option bool)
    (fee_rate : option string)
| CmdSetChannelFee (id : string) (base_fee ppm_fee : option Z)
| CloseChannel (id : string) (fee_rate : option Z) (force_close : option string)
| NetworkNodes (id : option string)
| NetworkChannels (id : option string)
| CmdFeeRates (style : option string)
| Keysend (public_key : string) (amount : Z)
| CmdGenerateInvoice (amount : Z) (label description : string) (expiry : option Z)
| ListInvoices (label : option string)
| PayInvoice (bolt11 : string) (label : option string)
| ListPayments (bolt11 direction : option string)
| EstimateChannelLiquidity (scid : Z) (target : string)
| LocalRemoteBalance
| GetFees
| ListForwards (status : option string)
| ListChannelHistory
| Decode (invoice : string)
| CmdScorer (path : option string).

(** ** Requests (client.rs) *)

(** The JSON bodies; both ends use the same types of payloads.rs. *)
Inductive body :=
| SignRequest (message : string)
| TransferBody (t : WalletTransfer)
| ConnectBody (id : string)
| FundBody (f : FundChannel)
| FeeBody (f : ChannelFee)
| KeysendRequest (pubkey : string) (amount : Z)
| InvoiceBody (g : GenerateInvoice)
| PayBody (invoice : string) (label : option string)
| LiquidityBody (scid : Z) (target : string).

(** [route] is what follows the host in the URL that is given to reqwest, [params] the argument
    of [query]. *)
Record http_request := mk_http {
  verb : method;
  route : string;
  params : list (string * string);
  http_body : option body;
}.

Definition request (m : method) (route : string) : result string http_request :=
  Ok (mk_http m route [] None).
Definition request_with_body (m : method) (route : string) (b : body) :
    result string http_request := Ok (mk_http m route [] (Some b)).

Definition fee_rate_of (fee_rate : option string) : result string (option FeeRate) :=
  transpose fee_rate_from_str fee_rate.

Definition param (name : string) (o : option string) : list (string * string) :=
  match o with Some v => [(name, v)] | None => [] end.

Definition sign (message : string) :=
  request_with_body POST "/v1/utility/signMessage" (SignRequest message).
Definition get_info := request GET "/v1/getinfo".
Definition get_balance := request GET "/v1/getBalance".
Definition new_address := request GET "/v1/newaddr".
Definition withdraw (address satoshis : string) (fee_rate : option string) :=
  let? fee_rate := fee_rate_of fee_rate in
  request_with_body POST "/v1/withdraw"
    (TransferBody (mk_transfer address satoshis fee_rate None [])).
Definition list_funds := request GET "/v1/listFunds".
Definition list_channels := request GET "/kld/channels".
Definition list_peer_channels := request GET "/v1/channel/listPeerChannels".
Definition list_peers := request GET "/v1/peer/listPeers".
Definition connect_peer (id : string) := request_with_body POST "/v1/peer/connect" (ConnectBody id).
Definition disconnect_peer (id : string) :=
  request DELETE (replace ":id" id "/v1/peer/disconnect/:id").
Definition open_channel (id satoshis : string) (push_msat : option string)
    (announce : option bool) (fee_rate : option string) :=
  let? fee_rate := fee_rate_of fee_rate in
  request_with_body POST "/v1/channel/openChannel"
    (FundBody (mk_fund_channel id satoshis fee_rate announce push_msat)).
Definition set_channel_fee (id : string) (base ppm : option Z) :=
  request_with_body POST "/v1/channel/setChannelFee" (FeeBody (mk_channel_fee id base ppm)).
Definition close_channel (id : string) (fee_rate : option Z) :=
  match fee_rate with
  | Some fee_rate =>
      request DELETE (replace ":fee_rate" (print_nat fee_rate)
                        (replace ":id" id "/v1/channel/closeChannel/:id/:fee_rate"))
  | None => request DELETE (replace ":id" id "/v1/channel/closeChannel/:id")
  end.
Definition force_close_channel (id : string) (may_broadcast : bool) :=
  if may_broadcast
  then request DELETE (replace ":id" id "/v1/channel/forceCloseChannelWithBoradCast/:id")
  else request DELETE (replace ":id" id "/v1/channel/forceCloseChannelWithoutBoradCast/:id").
Definition list_network_nodes (id : option string) :=
  match id with
  | Some id => request GET (replace ":id" id "/v1/network/listNode/:id")
  | None => request GET "/v1/network/listNode"
  end.
Definition list_network_channels (id : option string) :=
  match id with
  | Some id => request GET (replace ":id" id "/v1/network/listChannel/:id")
  | None => request GET "/v1/network/listChannel"
  end.
Definition fee_rates (style : option string) :=
  request GET (replace ":style" (default "perkb" style) "/v1/network/feeRates/:style").
Definition keysend (public_key : string) (amount : Z) :=
  request_with_body POST "/v1/pay/keysend" (KeysendRequest public_key amount).
Definition generate_invoice (amount : Z) (label description : string) (expiry : option Z) :=
  request_with_body POST "/v1/invoice/genInvoice"
    (InvoiceBody (mk_generate amount label description expiry)).
Definition list_invoices (label : option string) :=
  match label with
  | Some label => request GET ("/v1/invoice/listInvoices" +:+ "?" +:+ label)
  | None => request GET "/v1/invoice/listInvoices"
  end.
Definition pay_invoice (bolt11 : string) (label : option string) :=
  request_with_body POST "/v1/pay" (PayBody bolt11 label).
Definition list_payments (bolt11 direction : option string) : result string http_request :=
  Ok (mk_http GET "/v1/pay/listPayments"
        (param "bolt11" bolt11 ++ param "direction" direction)%list None).
Definition estimate_channel_liquidity (scid : Z) (target : string) :=
  request_with_body GET "/v1/estimateChannelLiquidity" (LiquidityBody scid target).
Definition local_remote_balance := request GET "/v1/channel/localremotebal".
Definition get_fees := request GET "/v1/getFees".
Definition list_forwards (status : option string) : result string http_request :=
  Ok (mk_http GET "/v1/channel/listForwards" (param "status" status) None).
Definition channel_history := request GET "/v1/channel/history".
Definition decode (invoice : string) :=
  request GET (replace ":invoice" invoice "/v1/utility/decode/:invoice").
Definition scorer := request GET "/kld/scorer".

(** The flag of a forced close. *)
Definition need_broadcast (flag : string) : result string bool :=
  if bool_decide (flag = "broadcast") then Ok true
  else if bool_decide (flag = "no-broadcast") then Ok false
  else Err "the broadcast-flag need to `broadcast` or `no-broadcast`".

(** The request of a command (main.rs). *)
Definition client_request (c : KldCliSubCommand) : result string http_request :=
  match c with
  | Sign message => sign message
  | CmdGetInfo => get_info
  | GetBalance => get_balance
  | NewAddress => new_address
  | Withdraw address satoshis fee_rate => withdraw address satoshis fee_rate
  | ListFunds => list_funds
  | ListPeerChannels => list_peer_channels
  | ListPeers => list_peers
  | ConnectPeer public_key => connect_peer public_key
  | DisconnectPeer public_key => disconnect_peer public_key
  | OpenChannel public_key satoshis push_msat announce fee_rate =>
      open_channel public_key satoshis push_msat announce fee_rate
  | CmdSetChannelFee id base_fee ppm_fee => set_channel_fee id base_fee ppm_fee
  | CloseChannel id fee_rate force_close =>
      match force_close with
      | None => close_channel id fee_rate
      | Some flag => let? broadcast := need_broadcast flag in force_close_channel id broadcast
      end
  | NetworkNodes id => list_network_nodes id
  | NetworkChannels id => list_network_channels id
  | CmdFeeRates style => fee_rates style
  | Keysend public_key amount => keysend public_key amount
  | CmdGenerateInvoice amount label description expiry =>
      generate_invoice amount label description expiry
  | ListInvoices label => list_invoices label
  | PayInvoice bolt11 label => pay_invoice bolt11 label
  | ListPayments bolt11 direction => list_payments bolt11 direction
  | EstimateChannelLiquidity scid target => estimate_channel_liquidity scid target
  | LocalRemoteBalance => local_remote_balance
  | GetFees => get_fees
  | ListForwards status => list_forwards status
  | ListChannelHistory => channel_history
  | Decode invoice => decode invoice
  | CmdScorer _ => scorer
  | ListChannels => list_channels
  end.

(** ** The server's side *)

(** [reqwest] and [axum]: the URL made from a route and parameters, as the path and the query
    that the server decodes; the match of a path against a template; the texts of the generated
    enum of forward statuses. *)
Class Web := {
  url : string → list (string * string) → option (string * list (string * string));
  path_match : string → string → option (list string);
  forward_status_from_str : string → option forward_item_status;
}.

(** Characters that a URL has no use for and does not encode. *)
Definition plain_char (c : ascii) : Prop :=
  byte_range 48 57 c = true ∨ byte_range 65 90 c = true ∨ byte_range 97 122 c = true ∨ c = "-"%char.
Definition plain (s : string) : Prop := s ≠ "" ∧ over plain_char s.
Definition plain_path (s : string) : Prop := over (λ c, plain_char c ∨ c = "/"%char) s.

(** A template and a path, cut at the slashes: a part that starts with a colon takes any part
    that is not empty, any other takes itself. *)
Fixpoint parts_match (template path : list string) : option (list string) :=
  match template, path with
  | [], [] => Some []
  | String ":" _ :: template, v :: path =>
      if bool_decide (v = "") then None else cons v <$> parts_match template path
  | t :: template, v :: path => if bool_decide (t = v) then parts_match template path else None
  | _, _ => None
  end.

Class WebLaws `{Web} := {
  url_plain r ps : plain_path r → url r ps = Some (r, ps);
  url_query r l : plain_path r → plain l → url (r +:+ "?" +:+ l) [] = Some (r, [(l, "")]);
  path_match_parts t p :
    path_match t p = parts_match (split_char "/"%char t) (split_char "/"%char p);
}.

(** A request to an admin route, as its extractors give it to the handler. *)
Inductive admin_request :=
| ASign (message : string)
| AOpenChannel (f : FundChannel)
| ASetChannelFee (f : ChannelFee)
| ACloseChannel (id : string)
| ACloseChannelWithFee (id : string) (fee_rate : Z)
| AForceClose (with_broadcast : bool) (id : string)
| ANewAddress (address_type : option string)
| ATransfer (t : WalletTransfer)
| AConnectPeer (id : string)
| ADisconnectPeer (id : string)
| AKeysend (pubkey : string) (amount : Z)
| AGenerateInvoice (g : GenerateInvoice)
| APayInvoice (invoice : string) (label : option string)
| AWebSocket.

Inductive delivery := ToReadonly (q : ApiRoutes.request) | ToAdmin (q : admin_request).

(** A field of a [Query] extractor: given twice it is an error. *)
Definition field (name : string) (q : list (string * string)) : option (option string) :=
  match where_ (λ p, bool_decide (p.1 = name)) q with
  | [] => Some None
  | [(_, v)] => Some (Some v)
  | _ => None
  end.

Section Server.
Context {WB : Web}.

(** The extractors of a handler: the parameters of the path, the query, the body. *)
Definition extractor : Type :=
  list string → list (string * string) → option body → option delivery.
Definition takes_nothing (d : delivery) : extractor := λ _ _ _, Some d.
(** One [Path] extractor of one text. *)
Definition takes_path (f : string → delivery) : extractor := λ ps _ _,
  match ps with [p] => Some (f p) | _ => None end.
(** Two [Path] extractors of one value each, on a route with two parameters: both are given both
    parameters and refuse. *)
Definition takes_path_twice : extractor := λ _ _ _, None.
Definition takes_body (f : body → option delivery) : extractor := λ _ _ b, b ≫= f.

(** The handlers of the readonly routes. *)
Definition readonly_handlers : list (string * method * extractor) := [
  ("/", GET, takes_nothing (ToReadonly QRoot));
  ("/v1/getinfo", GET, takes_nothing (ToReadonly QGetInfo));
  ("/v1/estimateChannelLiquidity", GET, takes_body (λ b,
     match b with LiquidityBody scid target => Some (ToReadonly (QEstimateLiquidity scid target))
     | _ => None end));
  ("/v1/getBalance", GET, takes_nothing (ToReadonly QGetBalance));
  ("/v1/listFunds", GET, takes_nothing (ToReadonly QListFunds));
  ("/v1/channel/listPeerChannels", GET, takes_nothing (ToReadonly QListPeerChannels));
  ("/v1/peer/listPeers", GET, takes_nothing (ToReadonly QListPeers));
  ("/v1/network/listNode/:id", GET, takes_path (λ id, ToReadonly (QNetworkNode id)));
  ("/v1/network/listNode", GET, takes_nothing (ToReadonly QNetworkNodes));
  ("/v1/network/listChannel/:id", GET, takes_path (λ id, ToReadonly (QNetworkChannel id)));
  ("/v1/network/listChannel", GET, takes_nothing (ToReadonly QNetworkChannels));
  ("/v1/network/feeRates/:style", GET, takes_path (λ style, ToReadonly (QFeeRates style)));
  ("/v1/invoice/listInvoices", GET, λ _ q _,
     label ← field "label" q; Some (ToReadonly (QListInvoices label)));
  ("/v1/pay/listPayments", GET, λ _ q _,
     invoice ← field "invoice" q; direction ← field "direction" q;
     Some (ToReadonly (QListPayments invoice direction)));
  ("/v1/channel/localremotebal", GET, takes_nothing (ToReadonly QLocalRemoteBalance));
  ("/v1/getFees", GET, takes_nothing (ToReadonly QGetFees));
  ("/v1/channel/listForwards", GET, λ _ q _,
     status ← field "status" q;
     match status with
     | None => Some (ToReadonly (QListForwards None))
     | Some s => status ← forward_status_from_str s; Some (ToReadonly (QListForwards (Some status)))
     end);
  ("/v1/channel/history", GET, takes_nothing (ToReadonly QChannelHistory));
  ("/kld/channels", GET, takes_nothing (ToReadonly QListChannels));
  ("/v1/utility/decode/:invoice", GET, takes_path (λ invoice, ToReadonly (QDecodeInvoice invoice)));
  ("/kld/scorer", GET, takes_nothing (ToReadonly QScorer))].

(** The handlers of the admin routes. *)
Definition admin_handlers : list (string * method * extractor) := [
  ("/v1/utility/signMessage", POST, takes_body (λ b,
     match b with SignRequest m => Some (ToAdmin (ASign m)) | _ => None end));
  ("/v1/channel/openChannel", POST, takes_body (λ b,
     match b with FundBody f => Some (ToAdmin (AOpenChannel f)) | _ => None end));
  ("/v1/channel/setChannelFee", POST, takes_body (λ b,
     match b with FeeBody f => Some (ToAdmin (ASetChannelFee f)) | _ => None end));
  ("/v1/channel/closeChannel/:id", DELETE, takes_path (λ id, ToAdmin (ACloseChannel id)));
  ("/v1/channel/closeChannel/:id/:fee_rate", DELETE, takes_path_twice);
  ("/v1/channel/forceCloseChannelWithBoradCast/:id", DELETE,
     takes_path (λ id, ToAdmin (AForceClose true id)));
  ("/v1/channel/forceCloseChannelWithoutBoradCast/:id", DELETE,
     takes_path (λ id, ToAdmin (AForceClose false id)));
  ("/v1/newaddr", GET, λ _ q _, t ← field "addressType" q; Some (ToAdmin (ANewAddress t)));
  ("/v1/withdraw", POST, takes_body (λ b,
     match b with TransferBody t => Some (ToAdmin (ATransfer t)) | _ => None end));
  ("/v1/peer/connect", POST, takes_body (λ b,
     match b with ConnectBody id => Some (ToAdmin (AConnectPeer id)) | _ => None end));
  ("/v1/peer/disconnect/:id", DELETE, takes_path (λ id, ToAdmin (ADisconnectPeer id)));
  ("/v1/pay/keysend", POST, takes_body (λ b,
     match b with KeysendRequest k a => Some (ToAdmin (AKeysend k a)) | _ => None end));
  ("/v1/invoice/genInvoice", POST, takes_body (λ b,
     match b with InvoiceBody g => Some (ToAdmin (AGenerateInvoice g)) | _ => None end));
  ("/v1/pay", POST, takes_body (λ b,
     match b with PayBody i l => Some (ToAdmin (APayInvoice i l)) | _ => None end));
  ("/v1/ws", GET, takes_nothing (ToAdmin AWebSocket))].

(** The first route of the method whose template matches the path. *)
Fixpoint dispatch (m : method) (path : string) (handlers : list (string * method * extractor)) :
    option (list string * extractor) :=
  match handlers with
  | [] => None
  | (t, m', e) :: handlers =>
      if bool_decide (m = m') then
        match path_match t path with
        | Some ps => Some (ps, e)
        | None => dispatch m path handlers
        end
      else dispatch m path handlers
  end.

Definition serve_request (handlers : list (string * method * extractor)) (r : http_request) :
    option delivery :=
  '(path, query) ← url (route r) (params r);
  '(ps, e) ← dispatch (verb r) path handlers;
  e ps query (http_body r).
Definition delivered : http_request → option delivery :=
  serve_request (readonly_handlers ++ admin_handlers)%list.
End Server.

(** ** Running a command (main.rs) *)

(** Sending a request and reading the answer: a status and a body. [render] is
    [to_string_pretty(&response.json::<T>()?)] for the type [T] of the command, [render_error]
    the same for the type of errors. *)
Class Client := {
  certificate_from_pem : string → result string ();
  send : string → http_request → result string (Z * string);
  render : KldCliSubCommand → string → result string string;
  render_error : string → result string string;
}.

Section Running.
Context {OS : Os} {CL : Client}.

Definition is_success (status : Z) : bool := bool_decide (200 ≤ status < 300)%Z.

Definition deserialize (c : KldCliSubCommand) (status : Z) (body : string) : result string string :=
  if is_success status then render c body else render_error body.

Definition lift_cli {A} (r : result string A) : filem A := cmd_lift (map_err LibraryError r).

(** What a command makes of its answer: the scorer is written to a file, whatever the status. *)
Definition output_of (c : KldCliSubCommand) (status : Z) (body : string) : filem string :=
  match c with
  | CmdScorer path =>
      let path := default "scorer.bin" path in
      let* _ := fs_write path body in
      cmd_ret ("scorer save in " +:+ path)
  | _ => lift_cli (deserialize c status body)
  end.

(** What is printed: the output, unless it is "null". *)
Definition run_command (cert_path macaroon_path : string) (c : KldCliSubCommand) :
    filem (option string) :=
  let* macaroon := fs_read macaroon_path in
  let* pem := fs_read cert_path in
  let* _ := lift_cli (certificate_from_pem pem) in
  let* request := lift_cli (client_request c) in
  let* (status, body) := lift_cli (send macaroon request) in
  let* output := output_of c status body in
  cmd_ret (if bool_decide (output = "null") then None else Some output).

(** The exit code of [main]. *)
Definition cli_main (cert_path macaroon_path : string) (c : KldCliSubCommand) (s : FS) :
    result string Z * FS :=
  match run_command cert_path macaroon_path c s with
  | (Ok _, s) => (Ok 0%Z, s)
  | (Err _, s) => (Ok 1%Z, s)
  | (Panic w, s) => (Panic w, s)
  end.
End Running.

(** ** Which commands arrive *)

(** What a command is meant to ask for. *)
Definition meant `{Web} (c : KldCliSubCommand) : option delivery :=
  let readonly q := Some (ToReadonly q) in
  let admin q := Some (ToAdmin q) in
  match c with
  | CmdGetInfo => readonly QGetInfo
  | Sign message => admin (ASign message)
  | GetBalance => readonly QGetBalance
  | NewAddress => admin (ANewAddress None)
  | Withdraw address amount fee_rate =>
      match fee_rate_of fee_rate with
      | Ok fee_rate => admin (ATransfer (mk_transfer address amount fee_rate None []))
      | _ => None
      end
  | ListFunds => readonly QListFunds
  | ListPeers => readonly QListPeers
  | ConnectPeer id => admin (AConnectPeer id)
  | DisconnectPeer id => admin (ADisconnectPeer id)
  | ListChannels => readonly QListChannels
  | ListPeerChannels => readonly QListPeerChannels
  | OpenChannel id sats push_msat announce fee_rate =>
      match fee_rate_of fee_rate with
      | Ok fee_rate => admin (AOpenChannel (mk_fund_channel id sats fee_rate announce push_msat))
      | _ => None
      end
  | CmdSetChannelFee id base ppm => admin (ASetChannelFee (mk_channel_fee id base ppm))
  | CloseChannel id fee_rate force_close =>
      match force_close, fee_rate with
      | Some flag, _ => admin (AForceClose (bool_decide (flag = "broadcast")) id)
      | None, Some fee_rate => admin (ACloseChannelWithFee id fee_rate)
      | None, None => admin (ACloseChannel id)
      end
  | NetworkNodes (Some id) => readonly (QNetworkNode id)
  | NetworkNodes None => readonly QNetworkNodes
  | NetworkChannels (Some id) => readonly (QNetworkChannel id)
  | NetworkChannels None => readonly QNetworkChannels
  | CmdFeeRates style => readonly (QFeeRates (default "perkb" style))
  | Keysend public_key amount => admin (AKeysend public_key amount)
  | CmdGenerateInvoice amount label description expiry =>
      admin (AGenerateInvoice (mk_generate amount label description expiry))
  | ListInvoices label => readonly (QListInvoices label)
  | PayInvoice bolt11 label => admin (APayInvoice bolt11 label)
  | ListPayments bolt11 direction => readonly (QListPayments bolt11 direction)
  | EstimateChannelLiquidity scid target => readonly (QEstimateLiquidity scid target)
  | LocalRemoteBalance => readonly QLocalRemoteBalance
  | GetFees => readonly QGetFees
  | ListForwards None => readonly (QListForwards None)
  | ListForwards (Some s) => s ← forward_status_from_str s; readonly (QListForwards (Some s))
  | ListChannelHistory => readonly QChannelHistory
  | Decode invoice => readonly (QDecodeInvoice invoice)
  | CmdScorer _ => readonly QScorer
  end.

(** The arguments that become a part of the URL are plain. *)
Definition plain_arguments (c : KldCliSubCommand) : Prop :=
  match c with
  | DisconnectPeer a | CloseChannel a _ _ | NetworkNodes (Some a) | NetworkChannels (Some a)
  | CmdFeeRates (Some a) | ListInvoices (Some a) | Decode a => plain a
  | _ => True
  end.

(** The commands with an argument that the server does not get. *)
Definition loses_an_argument (c : KldCliSubCommand) : bool :=
  match c with
  | CloseChannel _ (Some _) None | ListInvoices (Some _) | ListPayments (Some _) _ => true
  | _ => false
  end.

Section Theorems.
Context {WB : Web} {WL : WebLaws}.

#[local] Instance plain_char_dec c : Decision (plain_char c).
Proof. unfold plain_char. apply _. Defined.
#[local] Instance plain_path_dec s : Decision (plain_path s).
Proof. unfold plain_path, over. apply _. Defined.

Lemma plain_char_no_slash c : plain_char c → c ≠ "/"%char.
Proof. by intros [H|[H|[H|H]]] ->. Qed.

Lemma plain_path_param pre a : plain_path pre → plain a → plain_path (pre +:+ "/" +:+ a).
Proof.
  intros Hp [_ Ha]. unfold plain_path. rewrite !over_app. split_and!; [done| |].
  - unfold over. simpl. by repeat constructor; right.
  - by apply (over_impl plain_char); [left|].
Qed.

(** The tables have the routes of the server. *)
Lemma handlers_of_routes :
  fst <$> readonly_handlers = readonly_routes ∧ fst <$> admin_handlers = admin_routes.
Proof. split; reflexivity. Qed.

(** Routing on the parts of the path. *)
Fixpoint dispatch_parts (m : method) (parts : list string)
    (handlers : list (string * method * extractor)) : option (list string * extractor) :=
  match handlers with
  | [] => None
  | (t, m', e) :: handlers =>
      if bool_decide (m = m') then
        match parts_match (split_char "/"%char t) parts with
        | Some ps => Some (ps, e)
        | None => dispatch_parts m parts handlers
        end
      else dispatch_parts m parts handlers
  end.

Lemma dispatch_by_parts m path handlers :
  dispatch m path handlers = dispatch_parts m (split_char "/"%char path) handlers.
Proof.
  induction handlers as [|[[t m'] e] handlers IH]; [done|]. cbn [dispatch dispatch_parts].
  rewrite path_match_parts. by rewrite IH.
Qed.

Definition arrives (m : method) (parts : list string) (q : list (string * string))
    (b : option body) (handlers : list (string * method * extractor)) : option delivery :=
  '(vs, e) ← dispatch_parts m parts handlers; e vs q b.

Lemma serve_plain handlers m r ps b : plain_path r →
  serve_request handlers (mk_http m r ps b) = arrives m (split_char "/"%char r) ps b handlers.
Proof.
  intros Hr. unfold serve_request, arrives. cbn [route params verb http_body].
  rewrite url_plain by done. rewrite <- dispatch_by_parts. reflexivity.
Qed.

(** A path that ends with an argument. *)
Lemma serve_param handlers m pre a b : plain_path pre → plain a →
  serve_request handlers (mk_http m (pre +:+ "/" +:+ a) [] b) =
    arrives m (split_char "/"%char pre ++ [a])%list [] b handlers.
Proof.
  intros Hp Ha. rewrite serve_plain by by apply plain_path_param.
  change ("/" +:+ a) with (String "/" a). rewrite split_char_app.
  rewrite (split_char_over _ a); [done|]. destruct Ha as [_ Ha].
  by apply (over_impl plain_char); [apply plain_char_no_slash|].
Qed.

Lemma over_digits s : all_digits s → over plain_char s.
Proof.
  unfold over. induction s as [|c s IH]; simpl; [constructor|]. intros [[d Hd] Hs].
  constructor; [|by apply IH]. left. unfold digit in Hd. unfold byte_range.
  case_bool_decide; [|done]. rewrite bool_decide_eq_true. unfold nat_of_ascii in *. lia.
Qed.
Lemma plain_print_nat z : (0 ≤ z)%Z → plain (print_nat z).
Proof. intros Hz. split; [apply print_nonempty|]. by apply over_digits, print_digits. Qed.


(** Routes without a parameter, and routes that end with one. *)
Ltac fixed_route :=
  unfold delivered;
  rewrite serve_plain by (refine (bool_decide_unpack _ _); vm_compute; exact I);
  vm_compute; reflexivity.
Ltac param_route pre a Ha :=
  match goal with
  | |- delivered (mk_http ?m _ _ ?b) = _ =>
      transitivity (delivered (mk_http m (pre +:+ "/" +:+ a) [] b));
      [do 2 f_equal; unfold replace; simpl; by rewrite append_nil_r|];
      unfold delivered;
      rewrite serve_param;
      [ destruct Ha as [Ha _]; destruct a; [done|]; vm_compute; reflexivity
      | refine (bool_decide_unpack _ _); vm_compute; exact I
      | exact Ha ]
  end.

(** [C17] The client and the server agree: a command whose arguments need no encoding in a URL
    arrives at the handler it is meant for, with all its arguments, through exactly one route,
    unless it is one of the three that lose an argument on the way. *)
Theorem commands_arrive_as_meant c r :
  plain_arguments c → loses_an_argument c = false → client_request c = Ok r →
  delivered r = meant c.
Proof.
  intros Hp Hl Hr.
  destruct c as [|message| | |address amount rate| | |id|id| | |id sats push announce rate|id base ppm
    |id rate flag|[id|]|[id|]|style|key amount|amount label desc expiry|[label|]|bolt11 label
    |[bolt11|] direction|scid target| | |[status|]| |invoice|path];
    cbn [plain_arguments] in Hp; try discriminate Hl;
    try match type of Hp with
        | True => injection Hr as <-; try (is_var direction; destruct direction); fixed_route
        end.
  - unfold client_request, withdraw, open_channel in Hr. destruct (fee_rate_of rate) as [f| |] eqn:Hf; [|done..].
    injection Hr as <-. unfold meant. rewrite Hf. fixed_route.
  - injection Hr as <-. param_route "/v1/peer/disconnect" id Hp.
  - unfold client_request, withdraw, open_channel in Hr. destruct (fee_rate_of rate) as [f| |] eqn:Hf; [|done..].
    injection Hr as <-. unfold meant. rewrite Hf. fixed_route.
  - destruct flag as [flag|].
    + unfold client_request, need_broadcast in Hr. unfold meant. case_bool_decide; [injection Hr as <-|];
        [param_route "/v1/channel/forceCloseChannelWithBoradCast" id Hp|].
      case_bool_decide; [injection Hr as <-|done].
      param_route "/v1/channel/forceCloseChannelWithoutBoradCast" id Hp.
    + destruct rate; [done|]. injection Hr as <-. param_route "/v1/channel/closeChannel" id Hp.
  - injection Hr as <-. param_route "/v1/network/listNode" id Hp.
  - injection Hr as <-. param_route "/v1/network/listChannel" id Hp.
  - injection Hr as <-. destruct style as [style|]; [|fixed_route].
    unfold default. param_route "/v1/network/feeRates" style Hp.
  - injection Hr as <-. param_route "/v1/utility/decode" invoice Hp.
Qed.

Lemma serve_query handlers m r l : plain_path r → plain l →
  serve_request handlers (mk_http m (r +:+ "?" +:+ l) [] None) =
    arrives m (split_char "/"%char r) [(l, "")] None handlers.
Proof.
  intros Hr Hl. unfold serve_request, arrives. cbn [route params verb http_body].
  rewrite url_query by done. rewrite <- dispatch_by_parts. reflexivity.
Qed.

Lemma arrives_list_invoices q :
  arrives GET (split_char "/"%char "/v1/invoice/listInvoices") q None
    (readonly_handlers ++ admin_handlers)%list =
  (label ← field "label" q; Some (ToReadonly (QListInvoices label))).
Proof. vm_compute. reflexivity. Qed.

(** The three commands that lose an argument: the label of list-invoices is sent without
    its name, so that the handler lists all invoices; the invoice of list-payments has a name
    the server does not know, so that the payments of all invoices are listed; and closing a
    channel with a fee rate is refused for every channel and every rate. *)
Theorem lost_arguments label bolt11 direction id fee_rate r1 r2 r3 :
  plain label → plain id → (0 ≤ fee_rate)%Z →
  client_request (ListInvoices (Some label)) = Ok r1 →
  client_request (ListPayments (Some bolt11) direction) = Ok r2 →
  client_request (CloseChannel id (Some fee_rate) None) = Ok r3 →
  (∃ l, delivered r1 = Some (ToReadonly (QListInvoices l)) ∧ empty_string_as_none l = None) ∧
  delivered r2 = Some (ToReadonly (QListPayments None direction)) ∧
  delivered r3 = None.
Proof.
  intros Hl Hid Hfee [= <-] [= <-] [= <-]. split_and!.
  - exists (if bool_decide (label = "label") then Some "" else None).
    split; [|by case_bool_decide].
    unfold delivered. rewrite serve_query;
      [|refine (bool_decide_unpack _ _); vm_compute; exact I|done].
    rewrite arrives_list_invoices. unfold field, where_. simpl. by case_bool_decide.
  - destruct direction; fixed_route.
  - assert (replace ":fee_rate" (print_nat fee_rate)
              (replace ":id" id "/v1/channel/closeChannel/:id/:fee_rate") =
            ("/v1/channel/closeChannel" +:+ "/" +:+ id) +:+ "/" +:+ print_nat fee_rate) as ->.
    { change (replace ":id" id "/v1/channel/closeChannel/:id/:fee_rate")
        with (("/v1/channel/closeChannel/") +:+ (id +:+ "/:fee_rate")).
      rewrite replace_over; [|refine (bool_decide_unpack _ _); vm_compute; exact I].
      rewrite replace_over by (destruct Hid as [_ Hid]; eapply over_impl; [|done];
                               by intros c [H|[H|[H|H]]] ->).
      unfold replace at 1. simpl. by rewrite append_nil_r, <- append_assoc. }
    pose proof (plain_print_nat fee_rate Hfee) as Hf.
    unfold delivered. rewrite serve_param; [|apply plain_path_param|done];
      [|refine (bool_decide_unpack _ _); vm_compute; exact I|done].
    change ("/" +:+ id) with (String "/" id). rewrite split_char_app.
    rewrite (split_char_over _ id)
      by (destruct Hid as [_ Hid]; by eapply over_impl; [apply plain_char_no_slash|]).
    destruct Hid as [Hid _], Hf as [Hf _]. destruct id; [done|].
    destruct (print_nat fee_rate); [done|]. vm_compute. reflexivity.
Qed.
End Theorems.

(** ** Answers *)

Section Answers.
Context {OS : Os} {CL : Client}.

(** When the server refuses a command with an error that the client can read, the client
    prints it and exits with 0, as for a success. For the scorer it does not look at the status
    at all: the error is written to the file, over the scorer that was there, and reported as
    the scorer that was saved. *)
Theorem refused_commands_exit_with_zero cert_path macaroon_path c s macaroon pem r status body text :
  s !! macaroon_path = Some macaroon → read_ok s macaroon_path = true →
  s !! cert_path = Some pem → read_ok s cert_path = true → certificate_from_pem pem = Ok () →
  client_request c = Ok r → send macaroon r = Ok (status, body) →
  is_success status = false → render_error body = Ok text → text ≠ "null" →
  match c with
  | CmdScorer path =>
      let path := default "scorer.bin" path in
      write_ok s path = true →
      run_command cert_path macaroon_path c s =
        (Ok (Some ("scorer save in " +:+ path)), <[path := body]> s) ∧
      cli_main cert_path macaroon_path c s = (Ok 0%Z, <[path := body]> s)
  | _ =>
      run_command cert_path macaroon_path c s = (Ok (Some text), s) ∧
      cli_main cert_path macaroon_path c s = (Ok 0%Z, s)
  end.
Proof.
  intros Hm Hmr Hp Hpr Hcert Hr Hsend Hst Ht Hnull.
  assert (run_command cert_path macaroon_path c s =
    (let* output := output_of c status body in
     cmd_ret (if bool_decide (output = "null") then None else Some output)) s) as Hrun.
  { unfold run_command, cmd_bind, fs_read. rewrite Hmr, Hm. simpl. rewrite Hpr, Hp. simpl.
    unfold lift_cli, cmd_lift. rewrite Hcert. simpl. rewrite Hr. simpl. by rewrite Hsend. }
  assert (∀ o out s', output_of c status body s = (Ok out, s') →
      o = (if bool_decide (out = "null") then None else Some out) →
      run_command cert_path macaroon_path c s = (Ok o, s') ∧
      cli_main cert_path macaroon_path c s = (Ok 0%Z, s')) as Hmain.
  { intros o out s' Ho ->. unfold cli_main. rewrite Hrun. erewrite cmd_bind_ok by done. done. }
  assert (deserialize c status body = Ok text) as Hd by (unfold deserialize; by rewrite Hst).
  destruct c;
    try (apply (Hmain _ text); [unfold output_of, lift_cli, cmd_lift; by rewrite Hd|
                                by rewrite bool_decide_eq_false_2]).
  simpl. intros Hw. apply (Hmain _ ("scorer save in " +:+ default "scorer.bin" path)); [|done].
  unfold output_of, cmd_bind, fs_write. by rewrite Hw.
Qed.
End Answers.

(** ** Concrete inputs *)

Section Instances.

Definition example_web : Web :=
  {| url r ps := match split_once "?"%char r with
                 | Some (path, l) => Some (path, [(l, "")])
                 | None => Some (r, ps)
                 end;
     path_match t p := parts_match (split_char "/"%char t) (split_char "/"%char p);
     forward_status_from_str s := if bool_decide (s = "settled") then Some Settled else None |}.
#[local] Existing Instance example_web.

Lemma plain_path_no_query r : plain_path r → over (λ c, c ≠ "?"%char) r.
Proof. apply over_impl. by intros c [[H|[H|[H|H]]]|H] ->. Qed.

Lemma example_web_laws : WebLaws.
Proof.
  split; [| |done]; simpl; intros r p Hr.
  - rewrite split_once_none; [done|by apply plain_path_no_query].
  - intros _. change ("?" +:+ p) with (String "?"%char p).
    rewrite split_once_over; [done|by apply plain_path_no_query].
Qed.
#[local] Existing Instance example_web_laws.
#[local] Existing Instance example_os.

Lemma plain_node : plain "02eadb".
Proof. split; [done|]. unfold over. simpl. repeat apply Forall_cons_2; [..|constructor]; vm_compute; auto. Qed.

Lemma commands_arrive_as_meant_witness :
  delivered (mk_http DELETE "/v1/peer/disconnect/02eadb" [] None)
    = Some (ToAdmin (ADisconnectPeer "02eadb")).
Proof. exact (commands_arrive_as_meant (DisconnectPeer "02eadb") _ plain_node eq_refl eq_refl). Defined.

Lemma lost_arguments_witness :
  delivered (mk_http GET "/v1/pay/listPayments" [("bolt11", "lnbc1")] None)
    = Some (ToReadonly (QListPayments None None)).
Proof.
  exact (proj1 (proj2 (lost_arguments "02eadb" "lnbc1" None "02eadb" 253 _ _ _ plain_node plain_node
    ltac:(lia) eq_refl eq_refl eq_refl))).
Defined.

(** A server that refuses every macaroon. *)
Definition example_client : Client :=
  {| certificate_from_pem _ := Ok (); send _ _ := Ok (401%Z, "Unauthorized");
     render _ _ := Err "missing field"; render_error b := Ok b |}.
#[local] Existing Instance example_client.

Definition cli_files : FS := {[ "/cert" := "pem"; "/macaroon" := "x"; "scorer.bin" := "old" ]}.

Lemma refused_commands_exit_with_zero_witness :
  cli_main "/cert" "/macaroon" (CmdScorer None) cli_files =
    (Ok 0%Z, <["scorer.bin" := "Unauthorized"]> cli_files).
Proof.
  refine (proj2 (refused_commands_exit_with_zero "/cert" "/macaroon" (CmdScorer None) cli_files
    "x" "pem" _ 401 "Unauthorized" "Unauthorized" eq_refl eq_refl eq_refl eq_refl eq_refl eq_refl
    eq_refl eq_refl eq_refl _ eq_refl)). discriminate.
Defined.
End Instances.
