(* ===== verification/Keybinding.v ===== *)
(** * Keys and actions of the terminal interface (src/tui/src)

    keybinding.rs: the text of keys, both ways, and the bindings of keys to actions, from the
    default of assets/keybinding.toml and a file of the user. action.rs, mode.rs,
    components/command/mod.rs: actions, modes, commands.

    A [char] is the list of the bytes of its UTF-8 encoding, as a string. *)

From Stdlib Require Import Ascii.
From S2P Require Import Prelude Text RustStd.

#[local] Open Scope string_scope.

(** ** Commands and modes *)

Inductive Cmd :=
| AppInfo | ChanBala | ChanClos | ChanHist | ChanList | ChanLsfd | ChanOpen | ChanSetf
| InvoDeco | InvoGene | InvoList | NetwFeer | NetwLsnd | NodeEslq | NodeFees | NodeInfo
| NodeLsfd | NodeSign | PaymList | PaymPayi | PaymSdky | PeerCont | PeerDisc | PeerList.
#[export] Instance Cmd_eq_dec : EqDecision Cmd.
Proof. solve_decision. Defined.

Definition get_uri (c : Cmd) : option string :=
  match c with
  | ChanBala => Some "/v1/channel/localremotebal"
  | ChanClos => Some "/v1/channel/closeChannel/:id"
  | ChanHist => Some "/v1/channel/history"
  | ChanList => Some "/kld/channels"
  | ChanLsfd => Some "/v1/channel/listForwards"
  | ChanOpen => Some "/v1/channel/openChannel"
  | ChanSetf => Some "/v1/channel/setChannelFee"
  | InvoDeco => Some "/v1/utility/decode/:invoice"
  | InvoGene => Some "/v1/invoice/genInvoice"
  | InvoList => Some "/v1/invoice/listInvoices"
  | NetwFeer => Some "/v1/network/feeRates/:style"
  | NetwLsnd => Some "/v1/network/listNode"
  | NodeEslq => Some "/v1/estimateChannelLiquidity"
  | NodeFees => Some "/v1/getFees"
  | NodeInfo => Some "/v1/getinfo"
  | NodeLsfd => Some "/v1/listFunds"
  | NodeSign => Some "/v1/utility/signMessage"
  | PaymList => Some "/v1/pay/listPayments"
  | PaymPayi => Some "/v1/pay"
  | PaymSdky => Some "/v1/pay/keysend"
  | PeerCont => Some "/v1/peer/connect"
  | PeerDisc => Some "/v1/peer/disconnect/:id"
  | PeerList => Some "/v1/peer/listPeers"
  | AppInfo => None
  end.

Inductive Mode := Navigate | Command.
#[export] Instance Mode_eq_dec : EqDecision Mode.
Proof. solve_decision. Defined.

(** ** Keys

    The types of crossterm: the codes that the source names, and the flags of the modifiers. *)

Inductive KeyCode :=
| Backspace | Enter | Left | Right | Up | Down | Home | End | PageUp | PageDown | Tab | BackTab
| Delete | Insert | F (n : Z) | Char (c : string) | Esc
| Null | CapsLock | Menu | ScrollLock | Media (m : Z) | NumLock | PrintScreen | Pause
| KeypadBegin | Modifier (m : Z).
#[export] Instance KeyCode_eq_dec : EqDecision KeyCode.
Proof. solve_decision. Defined.

Record KeyModifiers := mk_modifiers {
  SHIFT : bool; CONTROL : bool; ALT : bool; SUPER : bool; HYPER : bool; META : bool;
}.
#[export] Instance KeyModifiers_eq_dec : EqDecision KeyModifiers.
Proof. solve_decision. Defined.
Definition no_modifiers : KeyModifiers := mk_modifiers false false false false false false.
Definition set_shift (m : KeyModifiers) := mk_modifiers true (CONTROL m) (ALT m) (SUPER m) (HYPER m) (META m).
Definition set_control (m : KeyModifiers) := mk_modifiers (SHIFT m) true (ALT m) (SUPER m) (HYPER m) (META m).
Definition set_alt (m : KeyModifiers) := mk_modifiers (SHIFT m) (CONTROL m) true (SUPER m) (HYPER m) (META m).
(** [iter_names]. *)
Definition iter_names (m : KeyModifiers) : list string :=
  ((if SHIFT m then ["SHIFT"] else []) ++ (if CONTROL m then ["CONTROL"] else []) ++
   (if ALT m then ["ALT"] else []) ++ (if SUPER m then ["SUPER"] else []) ++
   (if HYPER m then ["HYPER"] else []) ++ (if META m then ["META"] else []))%list.

(** A key that is pressed. *)
Record KeyEvent := mk_key { code : KeyCode; modifiers : KeyModifiers }.
#[export] Instance KeyEvent_eq_dec : EqDecision KeyEvent.
Proof. solve_decision. Defined.

(** ** Actions *)

Inductive Action :=
| Tick
| Render
| Resize (w h : Z)
| Suspend
| Resume
| Quit
| Refresh
| ErrorAction (msg : string)
| Help
| SwitchTab
| TabAction (title : string)
| NavUp
| NavDown
| NavLeft
| NavRight
| CommandAction (cmd : Cmd)
| Execute (cmd : Cmd) (input : string)
| EnterCmdMode
| ExitCmdMode
| SwitchInputs
| TriggerExecute
| History (timestamp : Z)
| Input (key : KeyEvent).
#[export] Instance Action_eq_dec : EqDecision Action.
Proof. solve_decision. Defined.

(** [Deserialize for Action]; [trim_start_matches] takes a prefix away as often as it is there. *)
Definition paren_text (prefix s : string) : string :=
  trim_end_of [")"] (trim_start_of [prefix] s).
Definition resize_from_str (value : string) : result string Action :=
  match split_char ","%char (paren_text "Resize(" value) with
  | [w; h] =>
      match parse_unsigned 16 (trim w), parse_unsigned 16 (trim h) with
      | Some w, Some h => Ok (Resize w h)
      | _, _ => Err "invalid digit found in string"
      end
  | _ => Err ("Invalid Resize format: " +:+ value)
  end.

Definition named_actions : list (string * Action) := [
  ("Tick", Tick); ("Render", Render); ("Suspend", Suspend); ("Resume", Resume); ("Quit", Quit);
  ("Refresh", Refresh); ("Help", Help); ("SwitchTab", SwitchTab); ("NavUp", NavUp);
  ("NavDown", NavDown); ("NavLeft", NavLeft); ("NavRight", NavRight);
  ("EnterCmdMode", EnterCmdMode); ("ExitCmdMode", ExitCmdMode); ("SwitchInputs", SwitchInputs);
  ("TriggerExecute", TriggerExecute)].
Definition action_from_str (value : string) : result string Action :=
  match hm_get value named_actions with
  | Some a => Ok a
  | None =>
      if starts_with "Error(" value then Ok (ErrorAction (paren_text "Error(" value))
      else if starts_with "Resize(" value then resize_from_str value
      else Err ("Unknown Action variant: " +:+ value)
  end.

(** ** The text of a key (keybinding.rs) *)

(** The loop of [extract_modifiers]; each round takes a prefix away, so that the length of the
    text is enough fuel. *)
Fixpoint extract_fuel (fuel : nat) (current : string) (m : KeyModifiers) :
    string * KeyModifiers :=
  match fuel with
  | O => (current, m)
  | S fuel =>
      match strip_prefix "ctrl-" current with
      | Some rest => extract_fuel fuel rest (set_control m)
      | None =>
          match strip_prefix "alt-" current with
          | Some rest => extract_fuel fuel rest (set_alt m)
          | None =>
              match strip_prefix "shift-" current with
              | Some rest => extract_fuel fuel rest (set_shift m)
              | None => (current, m)
              end
          end
      end
  end.
Definition extract_modifiers (raw : string) : string * KeyModifiers :=
  extract_fuel (String.length raw) raw no_modifiers.

Definition named_keys : list (string * KeyCode) := [
  ("esc", Esc); ("enter", Enter); ("left", Left); ("right", Right); ("up", Up); ("down", Down);
  ("home", Home); ("end", End); ("pageup", PageUp); ("pagedown", PageDown); ("backtab", BackTab);
  ("backspace", Backspace); ("delete", Delete); ("insert", Insert); ("f1", F 1); ("f2", F 2);
  ("f3", F 3); ("f4", F 4); ("f5", F 5); ("f6", F 6); ("f7", F 7); ("f8", F 8); ("f9", F 9);
  ("f10", F 10); ("f11", F 11); ("f12", F 12); ("space", Char " "); ("hyphen", Char "-");
  ("minus", Char "-"); ("tab", Tab)].

Definition parse_key_code_with_modifiers (raw : string) (m : KeyModifiers) :
    result string KeyEvent :=
  match hm_get raw named_keys with
  | Some BackTab => Ok (mk_key BackTab (set_shift m))
  | Some code => Ok (mk_key code m)
  | None =>
      match raw with
      | String c EmptyString =>
          let c := if SHIFT m then to_ascii_uppercase_char c else c in
          Ok (mk_key (Char (String c "")) m)
      | _ => Err ("Unable to parse " +:+ raw)
      end
  end.

Definition parse_key_event (raw : string) : result string KeyEvent :=
  let '(remaining, m) := extract_modifiers (to_ascii_lowercase raw) in
  parse_key_code_with_modifiers remaining m.

Definition key_code_to_string (c : KeyCode) : string :=
  match c with
  | Backspace => "backspace" | Enter => "enter" | Left => "left" | Right => "right" | Up => "up"
  | Down => "down" | Home => "home" | End => "end" | PageUp => "pageup" | PageDown => "pagedown"
  | Tab => "tab" | BackTab => "backtab" | Delete => "delete" | Insert => "insert"
  | F n => "f(" +:+ print_nat n +:+ ")"
  | Char c => if bool_decide (c = " ") then "space" else c
  | Esc => "esc"
  | _ => ""
  end.

Definition key_event_to_string (k : KeyEvent) : string :=
  let m := modifiers k in
  let key := join "-" ((if CONTROL m then ["ctrl"] else []) ++ (if SHIFT m then ["shift"] else []) ++
                       (if ALT m then ["alt"] else []))%list in
  (if bool_decide (key = "") then "" else key +:+ "-") +:+ key_code_to_string (code k).

(** The text of a sequence in the help. *)
Definition key_events_to_string (keys : list KeyEvent) : string :=
  join "" ((λ k, "<" +:+ join "" ((λ n, n +:+ "+") <$> iter_names (modifiers k)) +:+
                 key_event_to_string k +:+ ">") <$> keys).

Definition count_char (c : ascii) (s : string) : nat :=
  length (List.filter (Ascii.eqb c) (String.list_ascii_of_string s)).

(** [strip_prefix(p).unwrap_or(s)]. *)
Definition strip_or_same (p s : string) : string := default s (strip_prefix p s).

Definition contains_str (p s : string) : bool :=
  match split_once_str p s with Some _ => true | None => false end.

Definition parse_key_sequence (raw : string) : result string (list KeyEvent) :=
  if negb (count_char ">" raw =? count_char "<" raw)%nat
  then Err ("Unable to parse `" +:+ raw +:+ "`")
  else
    let raw := if negb (contains_str "><" raw)
               then strip_or_same ">" (strip_or_same "<" raw) else raw in
    result_mapM parse_key_event
      ((λ seq, match strip_prefix "<" seq with
               | Some s => s
               | None => match strip_suffix ">" seq with Some s => s | None => seq end
               end) <$> split_str "><" raw).

(** ** Keys are read back *)

(** A key with a text of its own: the modifiers have names, the code is not a function key and
    not one that prints as nothing, a letter has the case that its modifiers give it. *)
Definition printable (k : KeyEvent) : bool :=
  let m := modifiers k in
  negb (SUPER m) && negb (HYPER m) && negb (META m) &&
  match code k with
  | Backspace | Enter | Left | Right | Up | Down | Home | End | PageUp | PageDown | Tab
  | Delete | Insert | Esc => true
  | BackTab => SHIFT m
  | Char (String c EmptyString) =>
      let lower := to_ascii_lowercase_char c in
      Ascii.eqb c (if SHIFT m then to_ascii_uppercase_char lower else lower)
  | _ => false
  end.

Definition reads_back (k : KeyEvent) : bool :=
  match parse_key_event (key_event_to_string k) with
  | Ok k' => bool_decide (k' = k)
  | _ => false
  end.

Definition three_modifiers : list KeyModifiers :=
  s ← [false; true]; c ← [false; true]; a ← [false; true];
  [mk_modifiers s c a false false false].
Definition all_ascii : list ascii := ascii_of_nat <$> seq 0 256.
Definition plain_codes : list KeyCode :=
  [Backspace; Enter; Left; Right; Up; Down; Home; End; PageUp; PageDown; Tab; BackTab; Delete;
   Insert; Esc] ++ ((λ c, Char (String c "")) <$> all_ascii).

Definition all_keys : list KeyEvent := m ← three_modifiers; (λ c, mk_key c m) <$> plain_codes.

Lemma elem_of_all_ascii c : c ∈ all_ascii.
Proof.
  apply list_elem_of_fmap. exists (nat_of_ascii c). rewrite ascii_nat_embedding. split; [done|].
  apply elem_of_seq. pose proof (nat_ascii_bounded c). lia.
Qed.

(** All printable keys, by enumeration. *)
Lemma printable_read_back :
  forallb (λ k, implb (printable k) (reads_back k)) all_keys = true.
Proof. vm_compute. reflexivity. Qed.

Lemma printable_listed k : printable k = true → k ∈ all_keys.
Proof.
  destruct k as [c [s ct a [] [] []]]; unfold printable; simpl; try done;
    rewrite ?andb_false_r; try done.
  intros Hc. unfold all_keys. apply list_elem_of_bind. exists (mk_modifiers s ct a false false false). split.
  - apply list_elem_of_fmap. exists c. split; [done|]. unfold plain_codes. apply elem_of_app.
    destruct c; try done; try (left; apply list_elem_of_In; simpl; tauto).
    right. destruct c as [|c []]; [done| |done]. apply list_elem_of_fmap.
    exists c. split; [done|apply elem_of_all_ascii].
  - destruct s, ct, a; apply list_elem_of_In; simpl; tauto.
Qed.

Lemma key_reads_back k : printable k = true → parse_key_event (key_event_to_string k) = Ok k.
Proof.
  intros Hk. pose proof printable_read_back as H. rewrite forallb_forall in H.
  specialize (H k). rewrite <- list_elem_of_In, Hk in H. specialize (H (printable_listed k Hk)).
  simpl in H. unfold reads_back in H. destruct (parse_key_event _); [|done..].
  apply bool_decide_eq_true in H. by subst.
Qed.

(** ** Sequences of keys are read back *)

Definition no_bracket (c : ascii) : Prop := c ≠ "<"%char ∧ c ≠ ">"%char.
Definition bracket_free (s : string) : Prop := s ≠ "" ∧ over no_bracket s.

Lemma over_not c (P : ascii → Prop) s : over P s → ¬ P c → over (λ a, a ≠ c) s.
Proof. intros Hs Hc. apply (over_impl P); [|done]. by intros a Ha ->. Qed.

(** Text without a closing bracket has no place where "><" begins. *)
Lemma no_cut s : over (λ a, a ≠ ">"%char) s →
  over (λ a, ∀ q, strip_prefix "><" (String a q) = None) s.
Proof.
  apply over_impl. intros a Ha q. simpl. destruct a as [[] [] [] [] [] [] [] []]; try done.
Qed.

(** The pieces of a text that is cut at "><": enough fuel is one round for each. *)
Lemma split_cuts pieces last fuel : Forall (over (λ a, a ≠ ">"%char)) pieces →
  split_once_str "><" last = None → (length pieces < fuel)%nat →
  split_str_fuel fuel "><" (join "" ((λ p, p +:+ "><") <$> pieces) +:+ last) =
    (pieces ++ [last])%list.
Proof.
  intros Hp Hl. revert fuel. induction pieces as [|p pieces IH]; intros fuel Hf.
  - destruct fuel as [|fuel]; [simpl in Hf; lia|]. cbn [split_str_fuel fmap list_fmap join].
    change ("" +:+ last) with last. by rewrite Hl.
  - apply Forall_cons in Hp as [Hp Hps]. destruct fuel as [|fuel]; [simpl in Hf; lia|].
    assert (join "" ((λ p, p +:+ "><") <$> p :: pieces) +:+ last =
            p +:+ "><" +:+ (join "" ((λ p, p +:+ "><") <$> pieces) +:+ last)) as ->.
    { destruct pieces as [|p' pieces]; [by rewrite <- append_assoc|].
      change (join "" ((λ p, p +:+ "><") <$> p :: p' :: pieces))
        with ((p +:+ "><") +:+ "" +:+ join "" ((λ p, p +:+ "><") <$> p' :: pieces)).
      by rewrite !append_assoc. }
    cbn [split_str_fuel]. rewrite split_once_str_here by (first [by apply no_cut|by eexists]).
    cbn [app]. f_equal. apply IH; [done|]. simpl in Hf. lia.
Qed.

Lemma split_once_str_end u : over (λ a, a ≠ ">"%char) u → split_once_str "><" (u +:+ ">") = None.
Proof.
  intros Hu%no_cut. induction u as [|a u IH]; [done|].
  unfold over in Hu. simpl in Hu. apply Forall_cons in Hu as [Ha Hu].
  change (String a u +:+ ">") with (String a (u +:+ ">")). simpl. by rewrite Ha, IH.
Qed.

Lemma join_empty_cons a l : join "" (a :: l) = a +:+ join "" l.
Proof. destruct l as [|b l]; [by rewrite append_nil_r|done]. Qed.

Lemma count_char_app c u v : count_char c (u +:+ v) = (count_char c u + count_char c v)%nat.
Proof.
  unfold count_char. induction u as [|a u IH]; [done|].
  change (String a u +:+ v) with (String a (u +:+ v)). simpl.
  destruct (Ascii.eqb c a); simpl; lia.
Qed.
Lemma count_char_none c u : over (λ a, a ≠ c) u → count_char c u = 0%nat.
Proof.
  unfold over, count_char. induction u as [|a u IH]; [done|]. simpl. intros [Ha Hu]%Forall_cons.
  destruct (Ascii.eqb_spec c a); [congruence|]. auto.
Qed.

Definition bracketed (k : string) : string := "<" +:+ k +:+ ">".

Lemma count_brackets ks : Forall bracket_free ks →
  count_char ">" (join "" (bracketed <$> ks)) = count_char "<" (join "" (bracketed <$> ks)).
Proof.
  induction 1 as [|k ks [_ Hk] _ IH]; [done|]. rewrite fmap_cons, join_empty_cons.
  rewrite !count_char_app, IH. unfold bracketed. rewrite !count_char_app.
  rewrite !(count_char_none _ k) by (eapply over_not; [exact Hk|by intros []]). done.
Qed.

(** The text of several keys, cut at "><". *)
Lemma bracketed_cuts ks k :
  join "" (bracketed <$> (ks ++ [k])%list) =
    "<" +:+ join "" ((λ p, p +:+ "><") <$> ks) +:+ k +:+ ">".
Proof.
  induction ks as [|k' ks IH]; [done|]. cbn [app]. rewrite !fmap_cons, !join_empty_cons, IH.
  unfold bracketed. by rewrite !append_assoc.
Qed.

Definition unbracket (seq : string) : string :=
  match strip_prefix "<" seq with
  | Some s => s
  | None => match strip_suffix ">" seq with Some s => s | None => seq end
  end.

Lemma unbracket_first k : unbracket ("<" +:+ k) = k.
Proof. reflexivity. Qed.
Lemma strip_prefix_not c k v : k ≠ "" → over (λ a, a ≠ c) k →
  strip_prefix (String c "") (k +:+ v) = None.
Proof.
  intros Hk Ho. destruct k as [|a k]; [done|]. apply Forall_cons in Ho as [Ha _].
  change (String a k +:+ v) with (String a (k +:+ v)). simpl.
  by destruct (Ascii.eqb_spec c a); [congruence|].
Qed.
Lemma unbracket_mid k : bracket_free k → unbracket k = k.
Proof.
  intros [Hk Ho]. unfold unbracket. rewrite <- (append_nil_r k) at 1.
  rewrite strip_prefix_not by (first [done|eapply over_not; [exact Ho|by intros []]]).
  destruct (strip_suffix ">" k) as [r|] eqn:Hs; [|done]. apply strip_suffix_Some in Hs as ->.
  apply over_app in Ho as [_ Ho]. apply Forall_cons in Ho as [[_ Ho] _]. done.
Qed.
Lemma unbracket_last k : bracket_free k → unbracket (k +:+ ">") = k.
Proof.
  intros [Hk Ho]. unfold unbracket.
  rewrite strip_prefix_not by (first [done|eapply over_not; [exact Ho|by intros []]]).
  by rewrite strip_suffix_app.
Qed.

Lemma bracket_free_over k : bracket_free k → over (λ a, a ≠ ">"%char) k.
Proof. intros [_ Hk]. eapply over_not; [exact Hk|by intros []]. Qed.

(** What [parse_key_sequence] cuts at: the text without its first and last bracket. *)
Lemma unbracketed_one last : bracket_free last →
  unbracket <$> split_str "><" (last +:+ ">") = [last].
Proof.
  intros Hlast. pose proof (bracket_free_over _ Hlast) as Hgt.
  unfold split_str. rewrite string_length_app. replace (_ + _)%nat with (S (String.length last))
    by (simpl; lia).
  cbn [split_str_fuel]. rewrite split_once_str_end by done.
  cbn [fmap list_fmap]. by rewrite unbracket_last.
Qed.

Lemma cuts_length ks : (length ks ≤ String.length (join "" ((λ p, p +:+ "><") <$> ks)))%nat.
Proof.
  induction ks as [|x l IH]; [done|].
  rewrite fmap_cons, join_empty_cons, !string_length_app. simpl. simpl in IH. lia.
Qed.

Lemma unbracketed_many k ks last : bracket_free k → Forall bracket_free ks → bracket_free last →
  let text := join "" ((λ p, p +:+ "><") <$> ("<" +:+ k) :: ks) +:+ (last +:+ ">") in
  contains_str "><" text = true ∧ unbracket <$> split_str "><" text = k :: ks ++ [last].
Proof.
  intros Hk Hks Hlast. cbv zeta.
  assert (Forall (over (λ a, a ≠ ">"%char)) (("<" +:+ k) :: ks)) as Hpieces.
  { constructor.
    - apply over_app. split; [by constructor|]. by apply bracket_free_over.
    - eapply Forall_impl; [exact Hks|]. apply bracket_free_over. }
  split.
  - apply Forall_cons in Hpieces as [Hp _]. unfold contains_str.
    rewrite fmap_cons, join_empty_cons.
    rewrite (append_assoc _ (join _ _)), (append_assoc ("<" +:+ k) "><").
    by rewrite (split_once_str_here "><" ("<" +:+ k)) by (first [by apply no_cut|by eexists]).
  - unfold split_str. rewrite split_cuts.
    + rewrite fmap_app. cbn [fmap list_fmap app]. rewrite unbracket_first, unbracket_last by done.
      f_equal. f_equal. clear -Hks.
      induction Hks as [|x ks Hx _ IH]; [done|]. rewrite fmap_cons, IH. by rewrite unbracket_mid.
    + done.
    + by apply split_once_str_end, bracket_free_over.
    + pose proof (cuts_length (("<" +:+ k) :: ks)). rewrite string_length_app.
      rewrite string_length_app. simpl in *. lia.
Qed.

Lemma parse_bracketed ks : ks ≠ [] → Forall bracket_free ks →
  parse_key_sequence (join "" (bracketed <$> ks)) = result_mapM parse_key_event ks.
Proof.
  intros Hne Hks. unfold parse_key_sequence. rewrite count_brackets by done.
  rewrite Nat.eqb_refl. cbn [negb].
  destruct ks as [|last ks _] using rev_ind; [done|]. apply Forall_app in Hks as [Hks Hlast].
  apply Forall_cons in Hlast as [Hlast _]. pose proof (bracket_free_over _ Hlast) as Hgt.
  change (λ seq, match strip_prefix "<" seq with
                 | Some s => s
                 | None => match strip_suffix ">" seq with Some s => s | None => seq end
                 end) with unbracket.
  rewrite bracketed_cuts. destruct ks as [|k ks].
  - cbn [fmap list_fmap join app]. change ("" +:+ last +:+ ">") with (last +:+ ">").
    unfold contains_str.
    rewrite <- append_assoc, split_once_str_end by (apply over_app; split; [|done]; by constructor).
    cbn [negb]. rewrite append_assoc.
    assert (strip_or_same "<" ("<" +:+ last +:+ ">") = last +:+ ">") as -> by done.
    assert (strip_or_same ">" (last +:+ ">") = last +:+ ">") as ->
      by (destruct Hlast; unfold strip_or_same; by rewrite strip_prefix_not).
    by rewrite unbracketed_one.
  - assert ("<" +:+ join "" ((λ p, p +:+ "><") <$> k :: ks) +:+ last +:+ ">" =
            join "" ((λ p, p +:+ "><") <$> ("<" +:+ k) :: ks) +:+ (last +:+ ">")) as ->.
    { rewrite !fmap_cons, !join_empty_cons. by rewrite !append_assoc. }
    apply Forall_cons in Hks as [Hk Hks].
    destruct (unbracketed_many k ks last) as [Hc Hu]; [done..|].
    rewrite Hc. cbn [negb]. by rewrite Hu.
Qed.

(** The keys whose text has no bracket. *)
Definition no_bracket_key (k : KeyEvent) : Prop := code k ≠ Char "<" ∧ code k ≠ Char ">".
#[export] Instance no_bracket_dec c : Decision (no_bracket c) := _.
#[export] Instance no_bracket_key_dec k : Decision (no_bracket_key k) := _.

Lemma texts_without_brackets :
  forallb (λ k, implb (printable k && bool_decide (no_bracket_key k))
                  (bool_decide (key_event_to_string k ≠ "") &&
                   forallb (λ c, bool_decide (no_bracket c))
                     (String.list_ascii_of_string (key_event_to_string k)))) all_keys = true.
Proof. vm_compute. reflexivity. Qed.

Lemma key_text_bracket_free k : printable k = true → no_bracket_key k →
  bracket_free (key_event_to_string k).
Proof.
  intros Hk Hb. pose proof texts_without_brackets as H. rewrite forallb_forall in H.
  specialize (H k). rewrite <- list_elem_of_In, Hk, bool_decide_eq_true_2 in H by done.
  specialize (H (printable_listed k Hk)). simpl in H. apply andb_prop in H as [H1 H2].
  apply bool_decide_eq_true in H1. split; [done|]. unfold over. apply Forall_forall.
  intros c Hc. rewrite forallb_forall in H2. specialize (H2 c).
  rewrite <- list_elem_of_In in H2. by apply bool_decide_eq_true in H2; [|].
Qed.

(** A sequence of keys that is written the way a binding is written, each key in brackets,
    is read back as those keys: key by key for every printable key, whatever its modifiers, and
    as a whole when no key is a bracket itself. For keys without modifiers that text is the one
    the help shows. *)
Theorem key_sequences_are_read_back keys :
  keys ≠ [] → Forall (λ k, printable k = true ∧ no_bracket_key k) keys →
  Forall (λ k, parse_key_event (key_event_to_string k) = Ok k) keys ∧
  parse_key_sequence (join "" ((λ k, "<" +:+ key_event_to_string k +:+ ">") <$> keys)) = Ok keys ∧
  (Forall (λ k, modifiers k = no_modifiers) keys →
   parse_key_sequence (key_events_to_string keys) = Ok keys).
Proof.
  intros Hne Hk.
  assert (Forall (λ k, parse_key_event (key_event_to_string k) = Ok k) keys) as Hback
    by (eapply Forall_impl; [exact Hk|]; intros k [? _]; by apply key_reads_back).
  assert (parse_key_sequence (join "" ((λ k, "<" +:+ key_event_to_string k +:+ ">") <$> keys))
          = Ok keys) as Hseq.
  { assert ((λ k, "<" +:+ key_event_to_string k +:+ ">") <$> keys =
            bracketed <$> (key_event_to_string <$> keys)) as -> by by rewrite <- list_fmap_compose.
    rewrite parse_bracketed.
    - clear Hne Hk. induction Hback as [|k keys Hb _ IH]; [done|].
      rewrite fmap_cons. cbn [result_mapM]. by rewrite Hb, IH.
    - by destruct keys.
    - apply Forall_fmap. eapply Forall_impl; [exact Hk|]. intros k [? ?].
      by apply key_text_bracket_free. }
  split_and!; [done..|]. intros Hm. rewrite <- Hseq. f_equal. unfold key_events_to_string.
  f_equal. clear -Hm. induction Hm as [|k keys Hm _ IH]; [done|].
  rewrite !fmap_cons, IH. by rewrite Hm.
Qed.

(** A key with a modifier is shown in the help in a way that is not read. *)
Example help_of_ctrl_a :
  key_events_to_string [mk_key (Char "a") (set_control no_modifiers)] = "<CONTROL+ctrl-a>" ∧
  parse_key_sequence "<CONTROL+ctrl-a>" = Err "Unable to parse control+ctrl-a".
Proof. split; vm_compute; reflexivity. Qed.
(** A function key has a text that is not read. *)
Example text_of_f1 : parse_key_event (key_event_to_string (mk_key (F 1) no_modifiers)) =
  Err "Unable to parse f(1)".
Proof. vm_compute. reflexivity. Qed.

(** ** Bindings *)

(** crossterm and toml: equality of key events, which ignores how the case of a letter is
    expressed, and a TOML file of tables of texts. *)
Class Terminal := {
  same_key : KeyEvent → KeyEvent → bool;
  toml_tables : string → result string (list (string * list (string * string)));
}.

Section Bindings.
Context {TM : Terminal}.

(** [HashMap<Vec<KeyEvent>, Action>], as the list of its entries. *)
Definition keymap : Type := list (list KeyEvent * Action).

Definition same_keys (k1 k2 : list KeyEvent) : bool :=
  (length k1 =? length k2)%nat && forallb (λ p, same_key p.1 p.2) (zip k1 k2).
Fixpoint keymap_get (k : list KeyEvent) (m : keymap) : option Action :=
  match m with
  | [] => None
  | (k', a) :: m => if same_keys k k' then Some a else keymap_get k m
  end.
(** [entry(k).or_insert(a)]. *)
Definition or_insert (m : keymap) (entry : list KeyEvent * Action) : keymap :=
  match keymap_get entry.1 m with Some _ => m | None => (m ++ [entry])%list end.
(** [insert], in the [collect] of an iterator: the value of an equal key is replaced. *)
Fixpoint keymap_insert (m : keymap) (entry : list KeyEvent * Action) : keymap :=
  match m with
  | [] => [entry]
  | (k, a) :: m => if same_keys entry.1 k then (k, entry.2) :: m
                   else (k, a) :: keymap_insert m entry
  end.

Definition KeyBindings : Type := list (Mode * keymap).

Definition mode_from_str (s : string) : result string Mode :=
  if bool_decide (s = "Navigate") then Ok Navigate
  else if bool_decide (s = "Command") then Ok Command else Err "unknown variant".

(** [Deserialize for KeyBindings]: modes and actions that are unknown are errors, a key that is
    not understood is a panic. *)
Definition keymap_of (table : list (string * string)) : result string keymap :=
  let? entries := result_mapM (λ '(key_str, cmd),
                    result_map (pair key_str) (action_from_str cmd)) table in
  let? entries := result_mapM (λ '(key_str, cmd),
                    match parse_key_sequence key_str with
                    | Ok keys => Ok (keys, cmd)
                    | Err e => Panic e
                    | Panic w => Panic w
                    end) entries in
  Ok (fold_left keymap_insert entries []).
Definition bindings_of (tables : list (string * list (string * string))) :
    result string KeyBindings :=
  result_mapM (λ '(mode, table),
    let? mode := mode_from_str mode in result_map (pair mode) (keymap_of table)) tables.

(** The user's bindings are added to those that are there. *)
Definition merge_mode (bindings : KeyBindings) (user : Mode * keymap) : KeyBindings :=
  let '(mode, m) := user in
  hm_insert mode (fold_left or_insert m (default [] (hm_get mode bindings))) bindings.

(** assets/keybinding.toml. *)
Definition DEFAULT_KEY_CONFIG : list (string * list (string * string)) := [
  ("Navigate", [("<esc>", "Quit"); ("<tab>", "SwitchTab"); ("<up>", "NavUp"); ("<down>", "NavDown");
                ("<left>", "NavLeft"); ("<right>", "NavRight"); ("<enter>", "EnterCmdMode")]);
  ("Command", [("<esc>", "ExitCmdMode"); ("<tab>", "SwitchInputs"); ("<enter>", "TriggerExecute")])].

(** [expect]ed results. *)
Definition unwrap {A} (r : result string A) : result string A :=
  match r with Err e => Panic e | r => r end.

(** [KeyBindings::new]; [user_file] is what reading the file of the user gives. *)
Definition KeyBindings_new (user_file : option string) : result string KeyBindings :=
  let? bindings := unwrap (bindings_of DEFAULT_KEY_CONFIG) in
  match user_file with
  | None => Ok bindings
  | Some content =>
      let? user := unwrap (let? tables := toml_tables content in bindings_of tables) in
      Ok (fold_left merge_mode user bindings)
  end.

(** [help_info]: the texts of the keys of each action. The maps are in the order of their
    entries here, and in no order there. *)
Definition help_info (b : KeyBindings) : list (Mode * list (Action * list string)) :=
  fold_left (λ help '(m, keybinding),
    hm_insert m
      (fold_left (λ mod_keybinding '(keys, value),
         match hm_get value mod_keybinding with
         | Some key_list =>
             hm_insert value (key_list ++ [key_events_to_string keys])%list mod_keybinding
         | None => hm_insert value [key_events_to_string keys] mod_keybinding
         end) keybinding []) help) b [].

Definition lookup_key (b : KeyBindings) (m : Mode) (k : list KeyEvent) : option Action :=
  hm_get m b ≫= keymap_get k.
End Bindings.

Section Merging.
Context {TM : Terminal}.

Lemma keymap_get_app k (m1 m2 : keymap) a : keymap_get k m1 = Some a → keymap_get k (m1 ++ m2)%list = Some a.
Proof.
  induction m1 as [|[k' a'] m1 IH]; simpl; [done|]. by destruct (same_keys k k').
Qed.

Lemma or_insert_keeps k a (entries m : keymap) : keymap_get k m = Some a →
  keymap_get k (fold_left or_insert entries m) = Some a.
Proof.
  revert m. induction entries as [|e entries IH]; intros m Hm; simpl; [done|]. apply IH.
  unfold or_insert. destruct (keymap_get e.1 m); [done|by apply keymap_get_app].
Qed.

Lemma merge_keeps m k a user b : lookup_key b m k = Some a →
  lookup_key (fold_left merge_mode user b) m k = Some a.
Proof.
  revert b. induction user as [|[mode um] user IH]; intros b Hb; simpl; [done|]. apply IH.
  unfold lookup_key in *. rewrite hm_get_insert. case_decide as Hm; [|done]. subst.
  destruct (hm_get mode b) as [km|]; [|done]. simpl in *. by apply or_insert_keeps.
Qed.

(** A binding that is built in is not replaced by one of the user's file. *)
Theorem defaults_are_not_overwritten user b b' m k a :
  KeyBindings_new None = Ok b → KeyBindings_new (Some user) = Ok b' →
  lookup_key b m k = Some a → lookup_key b' m k = Some a.
Proof.
  unfold KeyBindings_new. destruct (unwrap (bindings_of DEFAULT_KEY_CONFIG)) as [b0| |]; [|done..].
  intros [= ->] Hb' Hk. cbn [result_bind] in Hb'.
  destruct (unwrap (result_bind _ _)) as [u| |]; [|done..]. injection Hb' as <-.
  by apply merge_keeps.
Qed.
End Merging.

Section Instances.

Lemma key_sequences_are_read_back_witness :
  let keys := [mk_key (Char "g") no_modifiers; mk_key Enter (set_control no_modifiers)] in
  Forall (λ k, parse_key_event (key_event_to_string k) = Ok k) keys ∧
  parse_key_sequence "<g><ctrl-enter>" = Ok keys ∧
  parse_key_sequence (key_events_to_string [mk_key (Char "g") no_modifiers]) =
    Ok [mk_key (Char "g") no_modifiers].
Proof.
  intros keys.
  assert (∀ k, k ∈ keys → printable k = true ∧ no_bracket_key k) as Hk.
  { intros k Hk. subst keys. rewrite !elem_of_cons in Hk. destruct Hk as [->|[->|Hk]];
      [split; [reflexivity|by split]..|by apply elem_of_nil in Hk]. }
  destruct (key_sequences_are_read_back keys) as (H1 & H2 & _); [done|by apply Forall_forall|].
  split; [exact H1|]. split; [exact H2|].
  destruct (key_sequences_are_read_back [mk_key (Char "g") no_modifiers]) as (_ & _ & H3); [done| |].
  { apply Forall_forall. intros k Hk'. apply Hk. apply elem_of_cons in Hk' as [->|Hk'];
      [by left|by apply elem_of_nil in Hk']. }
  apply H3. by repeat constructor.
Defined.
End Instances.
