(* ===== verification/Tui.v ===== *)
(** * The terminal interface (src/tui/src/app.rs, components)

    The components with their [update], the application with its queue of actions, and the
    history of commands in the database. A component turns an action into a new state and
    possibly another action, which is queued; [App::run] handles an event and then empties the
    queue. Drawing is modelled as far as it reads the history, changes a component or fails. *)

From Stdlib Require Import Ascii.
From S2P Require Import Prelude Text RustStd Sql Keybinding.

#[local] Open Scope string_scope.

(** ** Words (i18n.rs) *)

Inductive Lang := en_US | zh_TW.
Definition lang_of_locale (locale : string) : Lang :=
  if bool_decide (locale = "zh_TW") then zh_TW else en_US.
Definition chose_from (lang : string) : Lang :=
  match split_once "."%char lang with
  | Some (locale, _) => lang_of_locale locale
  | None => lang_of_locale lang
  end.
(** [SelectedWordBindings::get]: a word without translation is itself. *)
Definition get_word (words : list (string * string)) (key : string) : string :=
  default key (hm_get key words).

(** ** The history of commands (SQLite) *)

(** [format!("{cmd:?}")]. *)
Definition cmd_debug (c : Cmd) : string :=
  match c with
  | AppInfo => "AppInfo" | ChanBala => "ChanBala" | ChanClos => "ChanClos"
  | ChanHist => "ChanHist" | ChanList => "ChanList" | ChanLsfd => "ChanLsfd"
  | ChanOpen => "ChanOpen" | ChanSetf => "ChanSetf" | InvoDeco => "InvoDeco"
  | InvoGene => "InvoGene" | InvoList => "InvoList" | NetwFeer => "NetwFeer"
  | NetwLsnd => "NetwLsnd" | NodeEslq => "NodeEslq" | NodeFees => "NodeFees"
  | NodeInfo => "NodeInfo" | NodeLsfd => "NodeLsfd" | NodeSign => "NodeSign"
  | PaymList => "PaymList" | PaymPayi => "PaymPayi" | PaymSdky => "PaymSdky"
  | PeerCont => "PeerCont" | PeerDisc => "PeerDisc" | PeerList => "PeerList"
  end.

Record history_row := mk_history_row {
  hr_timestamp : Z; hr_command : string; hr_input : string; hr_output : string;
}.
(** The table; whether the pool gives a connection. *)
Record store := mk_store { rows : list history_row; pool_ok : bool }.

(** A channel of a response, as the type that is generated from the schema has it. *)
Record channel_item := mk_channel_item {
  channel_id : string; short_channel_id : option Z; user_channel_id : Z; funding_txo : string;
  open_timestamp : Z; update_timestamp : Z; channel_shutdown_state : option string;
  has_monitor : bool; is_channel_ready : bool; is_outbound : bool; is_public : bool;
  is_usable : bool; closure_reason : option string; balance_msat : Z;
  channel_value_satoshis : Z; confirmations : option Z; confirmations_required : option Z;
  features : list string; feerate_sat_per_1000_weight : option Z;
  force_close_spend_delay : option Z; unspendable_punishment_reserve : option Z;
  inbound_capacity_msat : Z; inbound_htlc_maximum_msat : option Z;
  inbound_htlc_minimum_msat : option Z; inbound_scid_alias : option Z;
  outbound_capacity_msat : Z; outbound_scid_alias : option Z;
  next_outbound_htlc_limit_msat : Z; next_outbound_htlc_minimum_msat : Z;
  config_accept_underpaying_htlcs : bool; config_cltv_expiry_delta : Z;
  config_force_close_avoidance_max_fee_satoshis : Z; config_forwarding_fee_base_msat : Z;
  config_forwarding_fee_proportional_millionths : Z;
  config_max_dust_htlc_exposure_is_fixed : bool; config_max_dust_htlc_exposure_value : Z;
  counterparty_node_id : string; counterparty_outbound_htlc_maximum_msat : option Z;
  counterparty_outbound_htlc_minimum_msat : option Z;
  counterparty_unspendable_punishment_reserve : Z;
}.

(** SQLite's [ORDER BY timestamp DESC]; the order of rows of one timestamp is its own. The JSON
    of requests ([json!], [serde_json] of a [FundChannel] that has an id and satoshis only) and
    of the list of channels. The date of a timestamp, where chrono has one. [Debug] of a key. *)
Class Libraries := {
  order_desc : list history_row → list history_row;
  id_json : string → string;
  fund_channel_json : string → string → result string string;
  channels_from_str : string → result string (list channel_item);
  from_timestamp : Z → option string;
  key_debug : KeyEvent → string;
}.

(** ** The components *)

Inductive fault := OutOfFuel.

(** [v[i]]. *)
Definition index_at {A} (l : list A) (i : nat) : result fault A :=
  expect "index out of bounds" (l !! i).

Abbreviation newline := (of_codes [10%nat]).

(** [to_string] of an integer. *)
Definition int_to_string (z : Z) : string :=
  if bool_decide (z < 0)%Z then "-" +:+ print_nat (- z) else print_nat z.

Section Components.
Context {LB : Libraries} {BU : Build}.
(** [WORD_BINDINGS.get]. *)
Variable word : string → string.

Definition ts_to_string {E} (timestamp : Z) : result E string :=
  expect "invalid timestamp" (from_timestamp (as_i64 timestamp)).

(** [Display for Action]. *)
Definition action_to_string (a : Action) : result fault string :=
  match a with
  | Tick => Ok "Tick" | Render => Ok "Render"
  | Resize w h => Ok ("Resize(" +:+ print_nat w +:+ "," +:+ print_nat h +:+ ")")
  | Suspend => Ok "Suspend" | Resume => Ok "Resume" | Quit => Ok "Quit"
  | Refresh => Ok "Refresh" | ErrorAction e => Ok ("Error(" +:+ e +:+ ")") | Help => Ok "Help"
  | SwitchTab => Ok "SwitchTab" | TabAction t => Ok ("Tab(" +:+ t +:+ ")")
  | NavUp => Ok "NavUp" | NavDown => Ok "NavDown" | NavLeft => Ok "NavLeft"
  | NavRight => Ok "NavRight" | CommandAction c => Ok ("Command(" +:+ cmd_debug c +:+ ")")
  | Execute c s => Ok ("Execute(" +:+ cmd_debug c +:+ ", " +:+ s +:+ ")")
  | EnterCmdMode => Ok "EnterCmdMode" | ExitCmdMode => Ok "ExitCmdMode"
  | SwitchInputs => Ok "SwitchInputs" | TriggerExecute => Ok "TriggerExecute"
  | History ts => result_map (λ t, "History(" +:+ t +:+ ")") (ts_to_string ts)
  | Input k => Ok ("Input(" +:+ key_debug k +:+ ")")
  end.

Definition fetch_latest (c : Cmd) (s : store) : option history_row :=
  head (order_desc (where_ (λ r, bool_decide (hr_command r = cmd_debug c)) (rows s))).
Definition set_output (timestamp : Z) (output : string) (s : store) : store :=
  mk_store ((λ r, if bool_decide (hr_timestamp r = timestamp)
                  then mk_history_row (hr_timestamp r) (hr_command r) (hr_input r) output
                  else r) <$> rows s) (pool_ok s).

(** *** TabBar (tab_bar.rs) *)

Record TabBar := mk_tab_bar { tab_index : nat }.
Definition titles : list string := [word "Command List"; word "History"].
Definition tab_next (t : TabBar) : TabBar :=
  mk_tab_bar ((tab_index t + 1) mod length titles)%nat.
Definition tab_update (a : Action) (t : TabBar) : result fault (option Action * TabBar) :=
  match a with
  | SwitchTab =>
      let t := tab_next t in
      let? title := index_at titles (tab_index t) in Ok (Some (TabAction title), t)
  | _ => Ok (None, t)
  end.

(** *** CmdList (command/list.rs) *)

Record CmdList := mk_cmd_list { cl_display : bool; cl_selected : nat }.

(** The command of each item; [None] is a heading. *)
Definition cmd_items : list (string * option Cmd) := [
  ("App", None); ("information", Some AppInfo);
  ("Node", None); ("information", Some NodeInfo); ("fees", Some NodeFees);
  ("estimate liquidity", Some NodeEslq); ("sign", Some NodeSign); ("list funds", Some NodeLsfd);
  ("Network", None); ("list nodes", Some NetwLsnd); ("fee rates", Some NetwFeer);
  ("Peers", None); ("list", Some PeerList); ("connect", Some PeerCont);
  ("disconnect", Some PeerDisc);
  ("Payments", None); ("list", Some PaymList); ("send key", Some PaymSdky);
  ("pay invoice", Some PaymPayi);
  ("Invoices", None); ("list", Some InvoList); ("generate", Some InvoGene);
  ("decode", Some InvoDeco);
  ("Channels", None); ("list", Some ChanList); ("open", Some ChanOpen);
  ("set fee", Some ChanSetf); ("close", Some ChanClos); ("history", Some ChanHist);
  ("balance", Some ChanBala); ("list forwards", Some ChanLsfd)].

Definition up (selected len : nat) : nat := if bool_decide (selected = 0)%nat then len - 1 else selected - 1.
Definition down (selected len : nat) : nat :=
  if bool_decide (selected = len - 1)%nat then 0%nat else S selected.

(** The loops of [nav_up] and [nav_down], which pass over the headings. *)
Fixpoint nav_loop (fuel : nat) (move : nat → nat → nat) (c : CmdList) :
    result fault (option Action * CmdList) :=
  match fuel with
  | O => Err OutOfFuel
  | S fuel =>
      if cl_display c then
        let c := mk_cmd_list (cl_display c) (move (cl_selected c) (length cmd_items)) in
        let? item := index_at cmd_items (cl_selected c) in
        match item.2 with
        | Some cmd => Ok (Some (CommandAction cmd), c)
        | None => nav_loop fuel move c
        end
      else Ok (None, c)
  end.
Definition cmd_nav_up (c : CmdList) := nav_loop (S (length cmd_items)) up c.
Definition cmd_nav_down (c : CmdList) := nav_loop (S (length cmd_items)) down c.

Definition cmd_list_update (a : Action) (c : CmdList) : result fault (option Action * CmdList) :=
  match a with
  | TabAction t => Ok (None, mk_cmd_list (bool_decide (t = word "Command List")) (cl_selected c))
  | NavUp => cmd_nav_up c
  | NavDown => cmd_nav_down c
  | _ => Ok (None, c)
  end.

(** *** CmdDetails (command/details.rs) *)

(** A text that is typed is the list of its characters. *)
Record CmdDetails := mk_cmd_details {
  cd_display : bool; on_focus : option nat; selected_command : Cmd;
  keybindings_help : list (Mode * list (Action * list string));
  inputs : list (list string); cd_index : nat; cd_length : nat; error_msg : option string;
}.
Definition set_cd_display b (d : CmdDetails) := mk_cmd_details b (on_focus d) (selected_command d)
  (keybindings_help d) (inputs d) (cd_index d) (cd_length d) (error_msg d).
Definition set_focus o (d : CmdDetails) := mk_cmd_details (cd_display d) o (selected_command d)
  (keybindings_help d) (inputs d) (cd_index d) (cd_length d) (error_msg d).
Definition set_selected c (d : CmdDetails) := mk_cmd_details (cd_display d) (on_focus d) c
  (keybindings_help d) (inputs d) (cd_index d) (cd_length d) (error_msg d).
Definition set_inputs i (d : CmdDetails) := mk_cmd_details (cd_display d) (on_focus d)
  (selected_command d) (keybindings_help d) i (cd_index d) (cd_length d) (error_msg d).
Definition set_page i n (d : CmdDetails) := mk_cmd_details (cd_display d) (on_focus d)
  (selected_command d) (keybindings_help d) (inputs d) i n (error_msg d).
Definition set_error e (d : CmdDetails) := mk_cmd_details (cd_display d) (on_focus d)
  (selected_command d) (keybindings_help d) (inputs d) (cd_index d) (cd_length d) e.

Definition CmdDetails_new (b : KeyBindings) : CmdDetails :=
  mk_cmd_details true None AppInfo (help_info b) [] 0 0 None.

Definition typed (input : list string) : string := join "" input.
(** [String::pop]. *)
Definition pop_char (input : list string) : list string := take (length input - 1) input.

Definition enter_cmd_mode (d : CmdDetails) : option Action * CmdDetails :=
  let d := set_focus (Some 0%nat) d in
  match selected_command d with
  | NodeInfo => (Some (Execute NodeInfo ""), d)
  | PeerCont => (None, set_inputs [[]] d)
  | ChanOpen => (None, set_inputs [[]; []] d)
  | ChanList => (Some (Execute ChanList ""), set_page 0 0 d)
  | _ => (Some ExitCmdMode, d)
  end.

Definition trigger_execute (d : CmdDetails) : result fault (option Action * CmdDetails) :=
  let d := set_error None d in
  let? (next_action, d) := (match selected_command d with
    | PeerCont =>
        let? id := index_at (inputs d) 0 in
        Ok (Some (Execute PeerCont (id_json (typed id))), d)
    | ChanOpen =>
        let? id := index_at (inputs d) 0 in
        let? satoshis := index_at (inputs d) 1 in
        match fund_channel_json (typed id) (typed satoshis) with
        | Ok payload => Ok (Some (Execute ChanOpen payload), d)
        | Err e => Ok (None, set_error (Some e) d)
        | Panic w => Panic w
        end
    | _ => Ok (None, d)
    end) in
  Ok (next_action, set_inputs [] d).

Definition switch_inputs (d : CmdDetails) : CmdDetails :=
  match on_focus d with
  | Some focus =>
      let new_focus := S focus in
      let new_focus := match selected_command d with
                       | PeerCont => 0%nat
                       | ChanOpen => if bool_decide (1 < new_focus)%nat then 0%nat else new_focus
                       | _ => new_focus
                       end in
      set_focus (Some new_focus) d
  | None => d
  end.

(** [self.inputs[on_focus].push(c)], [.pop()]. *)
Definition edit (f : list string → list string) (focus : nat) (d : CmdDetails) :
    result fault CmdDetails :=
  let? input := index_at (inputs d) focus in Ok (set_inputs (<[focus:=f input]> (inputs d)) d).
Definition input_key (k : KeyEvent) (d : CmdDetails) : result fault CmdDetails :=
  match on_focus d with
  | Some focus =>
      match code k with
      | Char c => edit (λ input, input ++ [c])%list focus d
      | Backspace => edit pop_char focus d
      | _ => Ok d
      end
  | None => Ok d
  end.

Definition cmd_details_update (a : Action) (d : CmdDetails) :
    result fault (option Action * CmdDetails) :=
  match a with
  | TabAction t => Ok (None, set_cd_display (bool_decide (t = word "Command List")) d)
  | CommandAction c => Ok (None, set_selected c d)
  | NavLeft => if bool_decide (0 < cd_length d)%nat
               then Ok (None, set_page (up (cd_index d) (cd_length d)) (cd_length d) d)
               else Ok (None, d)
  | NavRight => if bool_decide (0 < cd_length d)%nat
                then Ok (None, set_page (down (cd_index d) (cd_length d)) (cd_length d) d)
                else Ok (None, d)
  | EnterCmdMode => Ok (enter_cmd_mode d)
  | ExitCmdMode => Ok (None, set_focus None d)
  | TriggerExecute => trigger_execute d
  | SwitchInputs => Ok (None, switch_inputs d)
  | Input k => let? d := input_key k d in Ok (None, d)
  | _ => Ok (None, d)
  end.

(** *** HistoryList and HistoryDetails (history) *)

Record HistoryList := mk_history_list {
  hl_display : bool; hl_selected : option nat; hl_items : list (Z * string);
}.
Definition HistoryList_new : HistoryList := mk_history_list false None [].

Definition hl_nav (move : nat → nat → nat) (h : HistoryList) :
    result fault (option Action * HistoryList) :=
  match hl_display h, hl_selected h with
  | true, Some selected =>
      let selected := move selected (length (hl_items h)) in
      let? item := index_at (hl_items h) selected in
      Ok (Some (History item.1), mk_history_list (hl_display h) (Some selected) (hl_items h))
  | _, _ => Ok (None, h)
  end.
Definition load_items (s : store) : option (list (Z * string)) :=
  if pool_ok s then Some ((λ r, (hr_timestamp r, hr_command r)) <$> order_desc (rows s)) else None.

(** The three attempts ask the same store. *)
Definition hl_switch_tab (t : string) (s : store) (h : HistoryList) :
    result fault (option Action * HistoryList) :=
  let display := bool_decide (t = word "History") in
  let h := mk_history_list display (hl_selected h) (hl_items h) in
  let h := match display, load_items s with
           | true, Some items =>
               mk_history_list display (match items with [] => None | _ => Some 0%nat end) items
           | _, _ => h
           end in
  match hl_items h with
  | [] => Ok (None, h)
  | item :: _ => Ok (Some (History item.1), h)
  end.

Definition history_list_update (a : Action) (s : store) (h : HistoryList) :
    result fault (option Action * HistoryList) :=
  match a with
  | TabAction t => hl_switch_tab t s h
  | NavUp => hl_nav up h
  | NavDown => hl_nav down h
  | _ => Ok (None, h)
  end.

Record HistoryDetails := mk_history_details {
  hd_display : bool; hd_input : string; hd_output : string;
}.
Definition HistoryDetails_new : HistoryDetails := mk_history_details false "" "".

Definition history_details_update (a : Action) (s : store) (h : HistoryDetails) : HistoryDetails :=
  match a with
  | TabAction t => mk_history_details (bool_decide (t = word "History")) (hd_input h) (hd_output h)
  | History ts =>
      if pool_ok s then
        match where_ (λ r, bool_decide (hr_timestamp r = ts)) (rows s) with
        | r :: _ => mk_history_details (hd_display h) (hr_input r) (hr_output r)
        | [] => mk_history_details (hd_display h) "" "fail to fetch command history from db"
        end
      else h
  | _ => h
  end.

(** *** The pages of a list of channels (command/parsers.rs) *)

Definition row (name value : string) : list string := [word name; value].
Definition or_none (o : option string) : string := default "none" o.
Definition states (c : channel_item) : list string :=
  (match channel_shutdown_state c with Some s => [s] | None => [] end ++
   [if has_monitor c then "has monitor" else "no monitor";
    if is_channel_ready c then "is ready" else "not ready";
    if is_outbound c then "outbound" else "inbound";
    if is_public c then "public" else "private";
    if is_usable c then "usable" else "not usable"])%list.
Definition with_unit (unit : string) (z : Z) : string := int_to_string z +:+ " " +:+ unit.

Definition channel_page (c : channel_item) : result string (list (list string)) :=
  let? opened := ts_to_string (wrap_unsigned 64 (open_timestamp c)) in
  let? updated := ts_to_string (wrap_unsigned 64 (update_timestamp c)) in
  Ok [row "Channel ID" (channel_id c);
      row "Short Channel ID" (or_none (int_to_string <$> short_channel_id c));
      row "User Channel ID" (int_to_string (user_channel_id c));
      row "Funding TXO" (funding_txo c);
      row "Open At" opened;
      row "Updated At" updated;
      row "State" (join "/" (states c));
      row "Closure Reason" (or_none (closure_reason c));
      row "Balance" (with_unit "msats" (balance_msat c));
      row "Value" (with_unit "sats" (channel_value_satoshis c));
      row "Confirmations" (or_none (with_unit "blocks" <$> confirmations c));
      row "Required Confirmations" (or_none (with_unit "blocks" <$> confirmations_required c));
      row "Features" (join "," (features c));
      row "Feerate" (or_none (with_unit "sats / 1000 weight" <$> feerate_sat_per_1000_weight c));
      row "Force Close Spend Delay" (or_none (with_unit "blocks" <$> force_close_spend_delay c));
      row "Unspendable Punishment Reserve"
          (or_none (with_unit "sats" <$> unspendable_punishment_reserve c));
      [""];
      [word "Inbound"];
      row "Capacity" (with_unit "msats" (inbound_capacity_msat c));
      row "HTLC Maximum" (or_none (with_unit "msats" <$> inbound_htlc_maximum_msat c));
      row "HTLC Minimum" (or_none (with_unit "msats" <$> inbound_htlc_minimum_msat c));
      row "Short Channel ID Alias" (or_none (int_to_string <$> inbound_scid_alias c));
      [""];
      [word "Inbound"];
      row "Capacity" (with_unit "msats" (outbound_capacity_msat c));
      row "Short Channel ID Alias" (or_none (int_to_string <$> outbound_scid_alias c));
      row "Next HTLC Maximum" (with_unit "msats" (next_outbound_htlc_limit_msat c));
      row "Next HTLC Minimum" (with_unit "msats" (next_outbound_htlc_minimum_msat c));
      [""];
      [word "Config"];
      row "Underpaying HTLC"
          (if config_accept_underpaying_htlcs c then word "Accept" else word "Deny");
      row "CLTV Expiry" (with_unit "blocks" (config_cltv_expiry_delta c));
      row "Force Close Avoidance Max Fee"
          (with_unit "sats" (config_force_close_avoidance_max_fee_satoshis c));
      row "Forwarding Fee Base" (with_unit "msats" (config_forwarding_fee_base_msat c));
      row "Forwarding Fee"
          (with_unit "sat/proportional millionths" (config_forwarding_fee_proportional_millionths c));
      row "Max Dust HTLC Exposure"
          ((if config_max_dust_htlc_exposure_is_fixed c then word "fix with"
            else word "fee rate multiplied by") +:+ " " +:+
           int_to_string (config_max_dust_htlc_exposure_value c));
      [""];
      [word "Counterparty"];
      row "Node Id" (counterparty_node_id c);
      row "Outbound HTLC Maximum"
          (or_none (with_unit "msats" <$> counterparty_outbound_htlc_maximum_msat c));
      row "Outbound HTLC Minimum"
          (or_none (with_unit "msats" <$> counterparty_outbound_htlc_minimum_msat c));
      row "Unspendable Punishment Reserve"
          (with_unit "sats" (counterparty_unspendable_punishment_reserve c))].
Definition parse_channel_details (input : string) :
    result string (list (list (list string))) :=
  let? details := channels_from_str input in result_mapM channel_page details.

(** *** Drawing

    What is put on the screen: a text with the title of its frame, or a table. *)

Inductive widget :=
| Paragraph (title : option string) (text : string)
| Table (title : string) (rows : list (list string)) (footer : string).

Definition last_result (s : store) (c : Cmd) : option Z * string :=
  if pool_ok s then
    match fetch_latest c s with
    | Some r =>
        (Some (hr_timestamp r),
         if bool_decide (hr_output r = "") then word "On query, please wait..." +:+ newline
         else hr_input r +:+ newline +:+ hr_output r +:+ newline)
    | None => (None, word "Can not find out previous query." +:+ newline)
    end
  else (None, "").

Definition command_keys (a : Action) (d : CmdDetails) : string :=
  default "" (join "/" <$> (hm_get Command (keybindings_help d) ≫= hm_get a)).
Definition execute_hint (again : bool) (d : CmdDetails) : string :=
  word "Press " +:+ command_keys TriggerExecute d +:+
  (if again then word " to fetch again" else word " to fetch").
Definition query_title (timestamp : Z) : result fault string :=
  result_map (λ t, word "Query at " +:+ t) (ts_to_string timestamp).
Definition query_title_opt (timestamp : option Z) : result fault (option string) :=
  match timestamp with
  | Some ts => result_map Some (query_title ts)
  | None => Ok None
  end.

Definition app_info (d : CmdDetails) : result fault (list widget) :=
  let? modes := result_mapM (λ '(m, keybinding),
    let? lines := result_mapM (λ '(action, keys),
      let? action := action_to_string action in
      Ok ("    " +:+ action +:+ " - " +:+ join "," keys +:+ newline)) keybinding in
    Ok ("[" +:+ (match m with Navigate => "Navigate" | Command => "Command" end) +:+ "]" +:+
        newline +:+ join "" lines)) (keybindings_help d) in
  Ok [Paragraph None
        (word "Welcome to 🌔kuutamo Tui" +:+ newline +:+
         word "Following are the key setting you are using now" +:+ newline +:+ newline +:+
         join "" modes +:+ newline +:+
         word "If you have any suggestion please let us know on Github." +:+ newline +:+
         "https://github.com/kuutamolabs/lightning-tui")].

Definition node_info (s : store) (d : CmdDetails) : result fault (list widget) :=
  let '(last_query_time, info) := last_result s NodeInfo in
  let info := info +:+ execute_hint (bool_decide (is_Some last_query_time)) d in
  let? title := query_title_opt last_query_time in
  Ok [Paragraph title info].

Definition draw_intro (d : CmdDetails) : widget :=
  Paragraph (Some (word "Introduction"))
    (word "Press " +:+ command_keys TriggerExecute d +:+ "/" +:+ command_keys SwitchInputs d +:+
     word " to input data.  " +:+ word "Then, press " +:+ command_keys TriggerExecute d +:+
     word " again to execute.  " +:+ word "Press " +:+ command_keys ExitCmdMode d +:+
     word " to cancel inputs.  ").
(** [show_last_result] or [show_error_msg]. *)
Definition show_result (s : store) (c : Cmd) (d : CmdDetails) : result fault widget :=
  match error_msg d with
  | Some e => Ok (Paragraph None e)
  | None =>
      let '(last_query_time, last) := last_result s c in
      let? title := query_title_opt last_query_time in Ok (Paragraph title last)
  end.
Definition input_text (i : nat) (d : CmdDetails) : string := default "" (typed <$> (inputs d !! i)).

Definition peer_connect (s : store) (d : CmdDetails) : result fault (list widget) :=
  let? last := show_result s ChanOpen d in
  Ok [draw_intro d; last; Paragraph (Some (word "Public Key")) (input_text 0 d)].
Definition channel_open (s : store) (d : CmdDetails) : result fault (list widget) :=
  let? last := show_result s ChanOpen d in
  Ok [draw_intro d; last; Paragraph (Some (word "Public Key")) (input_text 0 d);
      Paragraph (Some (word "Satoshis")) (input_text 1 d)].

(** The subtractions of the layout, on [u16]. *)
Definition minus (width n : Z) : result fault Z := arith 16 (width - n).

Definition channel_list (s : store) (width : Z) (d : CmdDetails) :
    result fault (list widget * CmdDetails) :=
  let '(last_query_time, info) := last_result s ChanList in
  match last_query_time with
  | Some last_query_time =>
      let? title := query_title last_query_time in
      match parse_channel_details info with
      | Ok details =>
          let d := set_page (cd_index d) (length details) d in
          let? _ := minus width 30 in
          let? table := index_at details (cd_index d) in
          Ok ([Table title table
                 (word "Page" +:+ " (" +:+ int_to_string (Z.of_nat (S (cd_index d))) +:+ "/" +:+
                  int_to_string (Z.of_nat (cd_length d)) +:+ ")")], d)
      | Err e =>
          Ok ([Paragraph (Some title)
                 (word "Decode response error:" +:+ newline +:+ e +:+ newline +:+ info +:+
                  execute_hint true d)], d)
      | Panic w => Panic w
      end
  | None => Ok ([Paragraph None (execute_hint false d)], d)
  end.

(** Width and height of the frame. *)
Definition frame : Type := Z * Z.

Definition cmd_details_draw (f : frame) (s : store) (d : CmdDetails) :
    result fault (list widget * CmdDetails) :=
  if cd_display d then
    let? _ := minus f.2 3 in
    let? _ := minus f.1 25 in
    match selected_command d with
    | AppInfo => result_map (λ w, (w, d)) (app_info d)
    | NodeInfo => result_map (λ w, (w, d)) (node_info s d)
    | ChanOpen => result_map (λ w, (w, d)) (channel_open s d)
    | ChanList => channel_list s f.1 d
    | PeerCont => result_map (λ w, (w, d)) (peer_connect s d)
    | _ => Ok ([Paragraph None
                  (word "This command is not ready yet, please use kld-cli instead.")], d)
    end
  else Ok ([], d).

Definition cmd_list_draw (f : frame) (c : CmdList) : result fault (list widget) :=
  if cl_display c then
    let? _ := minus f.2 3 in
    Ok [Paragraph None (join newline ((λ i, match i.2 with
                                            | Some _ => "  " +:+ word i.1
                                            | None => word i.1
                                            end) <$> cmd_items))]
  else Ok [].
Definition history_list_draw (f : frame) (h : HistoryList) : result fault (list widget) :=
  if hl_display h then
    let? _ := minus f.2 3 in
    let? items := result_mapM (λ i, let? t := ts_to_string i.1 in Ok (t +:+ " - " +:+ word i.2))
                    (hl_items h) in
    Ok [Paragraph None (join newline items)]
  else Ok [].
Definition history_details_draw (f : frame) (h : HistoryDetails) : result fault (list widget) :=
  if hd_display h then
    let? _ := minus f.2 3 in
    let? _ := minus f.1 45 in
    Ok [Paragraph None (hd_input h +:+ newline +:+ hd_output h)]
  else Ok [].
End Components.
