(* ===== verification/TuiApp.v ===== *)
(** * The terminal application (src/tui/src/app.rs)

    The state of the application, the queue of actions, the handling of events and the requests
    to the node. An event puts actions on the queue; the loop then takes one action after the
    other, acts on it and hands it to every component, whose answers join the queue, until the
    queue is empty. *)

From Stdlib Require Import Ascii.
From S2P Require Import Prelude Text RustStd Sql Keybinding Tui.

#[local] Open Scope string_scope.

(** ** State *)

(** A request that a thread sends; its answer is written to the rows of its second. *)
Record query := mk_query {
  q_timestamp : Z; q_post : bool; q_uri : string; q_payload : string;
}.
#[export] Instance query_eq_dec : EqDecision query.
Proof. solve_decision. Defined.

Record App := mk_app {
  keybindings : KeyBindings;
  tab_bar : TabBar; cmd_list : CmdList; cmd_details : CmdDetails;
  history_list : HistoryList; history_details : HistoryDetails;
  should_quit : bool; should_suspend : bool;
  mode : Mode;
  last_tick_key_events : list KeyEvent;
  pool : store;
  actions : list Action;
  queries : list query;
}.
Definition set_components t c d l h (a : App) := mk_app (keybindings a) t c d l h (should_quit a)
  (should_suspend a) (mode a) (last_tick_key_events a) (pool a) (actions a) (queries a).
Definition set_details d (a : App) :=
  set_components (tab_bar a) (cmd_list a) d (history_list a) (history_details a) a.
Definition set_quit (a : App) := mk_app (keybindings a) (tab_bar a) (cmd_list a) (cmd_details a)
  (history_list a) (history_details a) true (should_suspend a) (mode a) (last_tick_key_events a)
  (pool a) (actions a) (queries a).
Definition set_suspend b (a : App) := mk_app (keybindings a) (tab_bar a) (cmd_list a)
  (cmd_details a) (history_list a) (history_details a) (should_quit a) b (mode a)
  (last_tick_key_events a) (pool a) (actions a) (queries a).
Definition set_mode m (a : App) := mk_app (keybindings a) (tab_bar a) (cmd_list a) (cmd_details a)
  (history_list a) (history_details a) (should_quit a) (should_suspend a) m
  (last_tick_key_events a) (pool a) (actions a) (queries a).
Definition set_keys k (a : App) := mk_app (keybindings a) (tab_bar a) (cmd_list a) (cmd_details a)
  (history_list a) (history_details a) (should_quit a) (should_suspend a) (mode a) k
  (pool a) (actions a) (queries a).
Definition set_store s q (a : App) := mk_app (keybindings a) (tab_bar a) (cmd_list a)
  (cmd_details a) (history_list a) (history_details a) (should_quit a) (should_suspend a) (mode a)
  (last_tick_key_events a) s (actions a) q.
Definition set_actions l (a : App) := mk_app (keybindings a) (tab_bar a) (cmd_list a)
  (cmd_details a) (history_list a) (history_details a) (should_quit a) (should_suspend a) (mode a)
  (last_tick_key_events a) (pool a) l (queries a).
(** [action_tx.send]. *)
Definition send (l : list Action) (a : App) : App := set_actions (actions a ++ l)%list a.

(** The certificate and the macaroon that are sent with a request. *)
Record ConnectionAuth := mk_connection_auth { auth_url : string; auth_pem : string; auth_macaroon : string }.

(** reqwest: the answer to a request, as whether its status is a success, the status and the
    text, or why there is none. *)
Class Http := {
  http_send : ConnectionAuth → query → result string (bool * string * string);
}.

Section Application.
Context {LB : Libraries} {BU : Build} {TM : Terminal}.
Variable word : string → string.

(** [App::new] with [debug = false]. The flag adds a [DebugComponent], which counts ticks and
    frames, shows them and the last action, and neither answers actions nor takes keys; it is not
    modelled. *)
Definition App_new (user_keybinding : option string) (s : store) : result string App :=
  let? b := KeyBindings_new user_keybinding in
  Ok (mk_app b (mk_tab_bar 0) (mk_cmd_list true 1) (CmdDetails_new b) HistoryList_new
        HistoryDetails_new false false Navigate [] s [] []).

(** ** Actions *)

(** [component.update] for every component, in their order; the answers are sent. *)
Definition update_components (a : Action) (app : App) : result fault App :=
  let? (r1, t) := tab_update word a (tab_bar app) in
  let? (r2, c) := cmd_list_update word a (cmd_list app) in
  let? (r3, d) := cmd_details_update word a (cmd_details app) in
  let? (r4, l) := history_list_update word a (pool app) (history_list app) in
  let h := history_details_update word a (pool app) (history_details app) in
  Ok (send (option_list r1 ++ option_list r2 ++ option_list r3 ++ option_list r4)%list
        (set_components t c d l h app)).

(** [component.draw] for every component; only [CmdDetails] changes. *)
Definition draw (f : frame) (app : App) : result fault (list widget * App) :=
  let? w1 := cmd_list_draw word f (cmd_list app) in
  let? (w2, d) := cmd_details_draw word f (pool app) (cmd_details app) in
  let? w3 := history_list_draw word f (history_list app) in
  let? w4 := history_details_draw f (history_details app) in
  Ok ((w1 ++ w2 ++ w3 ++ w4)%list, set_details d app).

(** [Action::Execute]: the row of the history, the thread, the way back to [Navigate]. *)
Definition execute (now : Z) (cmd : Cmd) (input : string) (app : App) : App :=
  let s := pool app in
  let s := if pool_ok s
           then mk_store (rows s ++ [mk_history_row now (cmd_debug cmd) input ""])%list (pool_ok s)
           else s in
  let uri := default "" (get_uri cmd) in
  match cmd with
  | NodeInfo | ChanList =>
      send [ExitCmdMode] (set_store s (queries app ++ [mk_query now false uri ""])%list app)
  | PeerCont | ChanOpen =>
      send [ExitCmdMode] (set_store s (queries app ++ [mk_query now true uri input])%list app)
  | _ => set_store s (queries app) app
  end.

(** The clock and the size of the screen at a turn of the loop. *)
Record moment := mk_moment { now : Z; screen : frame }.

Definition process (m : moment) (a : Action) (app : App) : result fault App :=
  let? app := (match a with
    | Tick => Ok (set_keys [] app)
    | Quit => Ok (set_quit app)
    | Suspend => Ok (set_suspend true app)
    | Resume => Ok (set_suspend false app)
    | Resize _ _ | Render => result_map snd (draw (screen m) app)
    | EnterCmdMode => Ok (set_mode Command app)
    | ExitCmdMode => Ok (set_mode Navigate app)
    | Execute cmd input => Ok (execute (now m) cmd input app)
    | _ => Ok app
    end) in
  update_components a app.

(** [while let Ok(action) = action_rx.try_recv()]. *)
Fixpoint drain (fuel : nat) (env : nat → moment) (app : App) : result fault App :=
  match actions app with
  | [] => Ok app
  | a :: rest =>
      match fuel with
      | O => Err OutOfFuel
      | S fuel => let? app := process (env fuel) a (set_actions rest app) in drain fuel env app
      end
  end.

(** The turns that an action can cause: its own and those of the actions that follow from it. *)
Definition work_of (a : Action) : nat :=
  match a with
  | SwitchTab | NavUp | NavDown | EnterCmdMode | TriggerExecute => 3
  | TabAction _ | Execute _ _ => 2
  | _ => 1
  end.
Definition work (l : list Action) : nat := sum_list (work_of <$> l).

(** ** Events *)

Inductive event :=
| QuitEvent | TickEvent | RenderEvent | ResizeEvent (w h : Z) | KeyPress (k : KeyEvent)
| OtherEvent.

Definition key_event (key : KeyEvent) (app : App) : App :=
  let app := match hm_get (mode app) (keybindings app) with
             | Some keymap =>
                 match keymap_get [key] keymap with
                 | Some action => send [action] app
                 | None =>
                     let app := set_keys (last_tick_key_events app ++ [key])%list app in
                     match keymap_get (last_tick_key_events app) keymap with
                     | Some action => send [action] app
                     | None => app
                     end
                 end
             | None => app
             end in
  if bool_decide (mode app = Command) then send [Input key] app else app.
Definition handle_event (e : event) (app : App) : App :=
  match e with
  | QuitEvent => send [Quit] app
  | TickEvent => send [Tick] app
  | RenderEvent => send [Render] app
  | ResizeEvent w h => send [Resize w h] app
  | KeyPress key => key_event key app
  | OtherEvent => app
  end.

(** One turn of the loop of [App::run]: whether it goes on, and the state. *)
Definition turn (env : nat → moment) (e : event) (app : App) : result fault (bool * App) :=
  let app := handle_event e app in
  let? app := drain (work (actions app)) env app in
  if should_suspend app then Ok (true, send [Resume] app)
  else Ok (negb (should_quit app), app).

(** ** Answers (command/query.rs) *)

Definition query_output (r : result string (bool * string * string)) : result fault string :=
  match r with
  | Ok (success, status, data) => Ok (if success then data else status +:+ data)
  | Err e => Ok e
  | Panic w => Panic w
  end.
(** The thread of the [i]th request ends. *)
Definition answer {HT : Http} (auth : ConnectionAuth) (i : nat) (app : App) : result fault App :=
  match queries app !! i with
  | Some q =>
      let? output := query_output (http_send auth q) in
      let s := if pool_ok (pool app) then set_output (q_timestamp q) output (pool app)
               else pool app in
      Ok (set_store s (list_delete i (queries app)) app)
  | None => Ok app
  end.

End Application.

(** ** The queue is emptied *)

(** Results that are not an error of the model: a value, or a panic of the code. *)
Definition fault_free {A} (r : result fault A) : Prop := ∀ e, r ≠ Err e.

Lemma fault_free_ok {A} (a : A) : fault_free (Ok a).
Proof. done. Qed.
Lemma fault_free_panic {A} w : fault_free (Panic w : result fault A).
Proof. done. Qed.
Lemma fault_free_bind {A B} (m : result fault A) (f : A → result fault B) :
  fault_free m → (∀ a, fault_free (f a)) → fault_free (result_bind m f).
Proof. intros Hm Hf. destruct m as [a|e|w]; [apply Hf|by destruct (Hm e)|done]. Qed.
Lemma fault_free_map {A B} (m : result fault A) (f : A → B) :
  fault_free m → fault_free (result_map f m).
Proof. intros Hm. destruct m as [a|e|w]; [done|by destruct (Hm e)|done]. Qed.
Lemma fault_free_mapM {A B} (f : A → result fault B) l :
  (∀ a, fault_free (f a)) → fault_free (result_mapM f l).
Proof. intros Hf. induction l; simpl; auto using fault_free_bind, fault_free_ok. Qed.
Lemma fault_free_expect {A} w (o : option A) : fault_free (expect w o).
Proof. by destruct o. Qed.
Lemma fault_free_minus `{Build} a b : fault_free (minus a b).
Proof. unfold minus, arith. by repeat case_match. Qed.
Create HintDb fault.
#[export] Hint Resolve fault_free_ok fault_free_panic fault_free_map fault_free_expect
  fault_free_minus : fault.
Ltac fault_free := repeat first
  [ apply fault_free_bind; [|intros] | apply fault_free_mapM; intros | progress (auto with fault)
  | case_match ].

Section Queue.
Context {LB : Libraries} {BU : Build} {TM : Terminal}.
Variable word : string → string.

Lemma action_to_string_free a : fault_free (action_to_string a).
Proof. destruct a; simpl; unfold ts_to_string; fault_free. Qed.
#[local] Hint Resolve action_to_string_free : fault.

Lemma draw_free f app : fault_free (draw word f app).
Proof.
  unfold draw, cmd_list_draw, cmd_details_draw, history_list_draw, history_details_draw, app_info,
    node_info, channel_open, peer_connect, show_result, channel_list, query_title_opt, query_title,
    ts_to_string, index_at. fault_free.
Qed.

(** Whatever is selected, the loops end: a heading is followed by a command, an index that is
    not in the list is a panic. *)
Lemma nav_loop_outside fuel move n : (length cmd_items ≤ move n (length cmd_items))%nat →
  fault_free (nav_loop (S fuel) move (mk_cmd_list true n)).
Proof.
  intros Hn. cbn [nav_loop cl_display cl_selected]. unfold index_at.
  by rewrite (lookup_ge_None_2 _ _ Hn).
Qed.
Definition nav_works (move : nat → nat → nat) (n : nat) : bool :=
  match nav_loop (S (length cmd_items)) move (mk_cmd_list true n) with
  | Ok (Some (CommandAction _), c) =>
      cl_display c && bool_decide (cl_selected c < length cmd_items)%nat
  | _ => false
  end.
Lemma nav_inside move n : move = up ∨ move = down → (n < length cmd_items)%nat →
  ∃ cmd n', nav_loop (S (length cmd_items)) move (mk_cmd_list true n) =
            Ok (Some (CommandAction cmd), mk_cmd_list true n') ∧ (n' < length cmd_items)%nat.
Proof.
  intros Hm Hn.
  assert (forallb (nav_works move) (seq 0 (length cmd_items)) = true) as H
    by (destruct Hm as [-> | ->]; vm_compute; reflexivity).
  rewrite forallb_forall in H. specialize (H n). rewrite in_seq in H. specialize (H ltac:(lia)).
  unfold nav_works in H. destruct (nav_loop _ _ _) as [[[a|] c]| |]; [|done..].
  destruct a; try done. apply andb_prop in H as [H1 H2%bool_decide_eq_true].
  destruct c as [? n']. simpl in *. subst. eauto.
Qed.
Lemma nav_free move c : move = up ∨ move = down →
  fault_free (nav_loop (S (length cmd_items)) move c).
Proof.
  intros Hm. destruct c as [[] n]; [|done].
  destruct (decide (n < length cmd_items)%nat) as [Hn|Hn].
  - destruct (nav_inside move n Hm Hn) as (? & ? & -> & _). done.
  - assert (fault_free (nav_loop (S (length cmd_items)) move (mk_cmd_list true (length cmd_items)))).
    { destruct Hm as [-> | ->]; vm_compute; done. }
    destruct (decide (n = length cmd_items)) as [->|]; [done|]. apply nav_loop_outside.
    destruct Hm as [-> | ->]; unfold up, down; case_bool_decide; lia.
Qed.

(** ** Work *)

Lemma work_app l1 l2 : work (l1 ++ l2) = (work l1 + work l2)%nat.
Proof. unfold work. by rewrite fmap_app, sum_list_with_app. Qed.

(** The action that a component gives back is worth at most [n]. *)
Definition gives_at_most {A} (n : nat) (r : result fault (option Action * A)) : Prop :=
  match r with Ok (a, _) => (work (option_list a) ≤ n)%nat | _ => fault_free r end.

Lemma work_cons a l : work (a :: l) = (work_of a + work l)%nat.
Proof. done. Qed.

Ltac gives := unfold gives_at_most, work; simpl; lia.

Lemma gives_nothing {A} n (x : A) : gives_at_most n (Ok (None, x)).
Proof. apply Nat.le_0_l. Qed.
Lemma gives_bind {A B} n (m : result fault A) (f : A → result fault (option Action * B)) :
  fault_free m → (∀ a, gives_at_most n (f a)) → gives_at_most n (result_bind m f).
Proof. intros Hm Hf. destruct m as [a|e|w]; [apply Hf|by destruct (Hm e)|done]. Qed.

Lemma nav_gives move c : move = up ∨ move = down →
  gives_at_most 1 (nav_loop (S (length cmd_items)) move c).
Proof.
  intros Hm. pose proof (nav_free move c Hm) as Hf. revert Hf.
  generalize (S (length cmd_items)). intros fuel. revert c.
  induction fuel as [|fuel IH]; intros c; cbn [nav_loop]; [done|].
  destruct (cl_display c); [|intros _; apply gives_nothing]. unfold index_at.
  destruct (_ !! _) as [[? [cmd|]]|]; simpl; [intros _; gives|apply IH|done].
Qed.
Lemma hl_nav_gives move h : gives_at_most 1 (hl_nav move h).
Proof.
  unfold hl_nav, index_at. repeat case_match; try apply gives_nothing.
  destruct (_ !! _); [gives|apply fault_free_panic].
Qed.
Lemma hl_switch_tab_gives t s h : gives_at_most 1 (hl_switch_tab word t s h).
Proof. unfold hl_switch_tab. cbv zeta. case_match; [apply gives_nothing|gives]. Qed.
Lemma enter_cmd_mode_gives d : gives_at_most 2 (Ok (enter_cmd_mode d)).
Proof. unfold enter_cmd_mode. destruct (selected_command _); unfold gives_at_most, work; simpl; lia. Qed.
Lemma trigger_execute_gives d : gives_at_most 2 (trigger_execute d).
Proof.
  unfold trigger_execute, index_at. cbv zeta. destruct (selected_command _); try by apply gives_nothing.
  - change (inputs (set_error None d)) with (inputs d).
    destruct (inputs d !! 0%nat) as [id|]; [|done]. destruct (inputs d !! 1%nat) as [sats|]; [|done].
    simpl. destruct (fund_channel_json (typed id) (typed sats)); [gives|gives|done].
  - change (inputs (set_error None d)) with (inputs d).
    destruct (inputs d !! 0%nat) as [id|]; [gives|done].
Qed.

Lemma update_components_sum n1 n2 n3 n4 a k app : (n1 + n2 + n3 + n4 = k)%nat →
  gives_at_most n1 (tab_update word a (tab_bar app)) →
  gives_at_most n2 (cmd_list_update word a (cmd_list app)) →
  gives_at_most n3 (cmd_details_update word a (cmd_details app)) →
  gives_at_most n4 (history_list_update word a (pool app) (history_list app)) →
  match update_components word a app with
  | Ok app' => ∃ l, actions app' = (actions app ++ l)%list ∧ (work l ≤ k)%nat
  | Err _ => False
  | Panic _ => True
  end.
Proof.
  intros <- H1 H2 H3 H4. unfold update_components.
  destruct (tab_update word a _) as [[r1 t]|e|]; [|by destruct (H1 e)|done].
  destruct (cmd_list_update word a _) as [[r2 c]|e|]; [|by destruct (H2 e)|done].
  destruct (cmd_details_update word a _) as [[r3 d]|e|]; [|by destruct (H3 e)|done].
  destruct (history_list_update word a _) as [[r4 h]|e|]; [|by destruct (H4 e)|done].
  simpl in *. eexists. split; [done|]. rewrite !work_app. lia.
Qed.

Lemma input_key_free k d : fault_free (input_key k d).
Proof. unfold input_key, edit, index_at. fault_free. Qed.

(** What the components answer to an action is worth less than the action, and they answer
    nothing to [Execute]. *)
Definition answers_of (a : Action) : nat := work_of a - (match a with Execute _ _ => 2 | _ => 1 end).
Lemma update_components_works a app :
  match update_components word a app with
  | Ok app' => ∃ l, actions app' = (actions app ++ l)%list ∧ (work l ≤ answers_of a)%nat
  | Err _ => False
  | Panic _ => True
  end.
Proof.
  pose proof (nav_gives up (cmd_list app) (or_introl eq_refl)).
  pose proof (nav_gives down (cmd_list app) (or_intror eq_refl)).
  destruct a.
  all: match goal with |- match update_components _ ?a _ with _ => _ end =>
    lazymatch a with
    | SwitchTab => apply (update_components_sum 2 0 0 0)
    | NavUp => apply (update_components_sum 0 1 0 1)
    | NavDown => apply (update_components_sum 0 1 0 1)
    | TabAction _ => apply (update_components_sum 0 0 0 1)
    | EnterCmdMode => apply (update_components_sum 0 0 2 0)
    | TriggerExecute => apply (update_components_sum 0 0 2 0)
    | _ => apply (update_components_sum 0 0 0 0)
    end end.
  all: simpl; try done; try apply gives_nothing.
  all: auto using hl_nav_gives, hl_switch_tab_gives, enter_cmd_mode_gives, trigger_execute_gives.
  all: try (case_bool_decide; apply gives_nothing).
  all: try exact (enter_cmd_mode_gives _).
  - apply gives_bind; [unfold index_at; auto with fault|]. intros title. gives.
  - apply gives_bind; [apply input_key_free|]. intros d. apply gives_nothing.
Qed.
Lemma draw_actions f app w app' : draw word f app = Ok (w, app') →
  ∃ d, app' = set_details d app.
Proof.
  unfold draw. intros H. destruct (cmd_list_draw _ _ _); [|done..].
  destruct (cmd_details_draw _ _ _ _) as [[? d]| |]; [|done..]. simpl in H.
  destruct (history_list_draw _ _ _); [|done..]. destruct (history_details_draw _ _); [|done..].
  simpl in H. exists d. by injection H.
Qed.

(** An action takes itself from the queue and puts less there than it was worth. *)
Lemma process_works m a rest app :
  match process word m a (set_actions rest app) with
  | Ok app' => ∃ l, actions app' = (rest ++ l)%list ∧ (work l < work_of a)%nat
  | Err _ => False
  | Panic _ => True
  end.
Proof.
  assert (∀ app0 l0, actions app0 = (rest ++ l0)%list →
    (work l0 + answers_of a < work_of a)%nat →
    match update_components word a app0 with
    | Ok app' => ∃ l, actions app' = (rest ++ l)%list ∧ (work l < work_of a)%nat
    | Err _ => False
    | Panic _ => True
    end) as Hup.
  { intros app0 l0 Happ0 Hl0. pose proof (update_components_works a app0) as Hw.
    destruct (update_components word a app0); [|done..]. destruct Hw as (l & Hl & Hle).
    exists (l0 ++ l)%list. rewrite Hl, Happ0, work_app, <- app_assoc. split; [done|lia]. }
  pose proof (λ app0 Ha, Hup app0 [] (eq_trans Ha (eq_sym (app_nil_r rest)))) as Hup0.
  unfold process. destruct a; try (apply Hup0; [done|unfold work, answers_of; simpl; lia]).
  1, 2: pose proof (draw_free (screen m) (set_actions rest app)) as Hd;
    destruct (draw _ _ _) as [[? app']|e|] eqn:Hdraw; [|by destruct (Hd e)|done];
    apply draw_actions in Hdraw as [d ->]; apply Hup0; [done|unfold work, answers_of; simpl; lia].
  cbn [result_bind]. unfold execute. cbv zeta.
  destruct cmd; first [apply Hup0; [done|unfold work, answers_of; simpl; lia]
                      |apply (Hup _ [ExitCmdMode]); [done|unfold work, answers_of; simpl; lia]].
Qed.

Lemma drain_works fuel env app : (work (actions app) ≤ fuel)%nat →
  match drain word fuel env app with
  | Ok app' => actions app' = []
  | Err _ => False
  | Panic _ => True
  end.
Proof.
  revert app. induction fuel as [|fuel IH]; intros app Hf;
    cbn [drain]; destruct (actions app) as [|a rest] eqn:Ha; try done.
  - destruct a; unfold work in Hf; simpl in Hf; lia.
  - pose proof (process_works (env fuel) a rest app) as Hp.
    destruct (process _ _ _ _) as [app'|e|]; [|done..]. destruct Hp as (l & Hl & Hlt).
    apply IH. rewrite Hl, work_app. rewrite work_cons in Hf. lia.
Qed.

(** [C27] A turn of the loop ends: however the queue is filled, it is empty after as many actions
    as it is worth (three for a navigation, a switch of tab, entering the command mode or
    executing, two for the actions in between, one for the others), unless a component panics.
    No component answers actions that call for each other without end, and passing over the
    headings of the command list ends too. *)
Theorem queue_is_emptied env app fuel : (work (actions app) ≤ fuel)%nat →
  fault_free (drain word fuel env app) ∧
  ∀ app', drain word fuel env app = Ok app' → actions app' = [].
Proof.
  intros Hf. pose proof (drain_works fuel env app Hf) as H.
  split; [intros e He|intros app' He]; by rewrite He in H.
Qed.
End Queue.
