(* ===== verification/TuiRuns.v ===== *)
(** * Runs of the terminal application (src/tui/src/app.rs)

    What holds whatever the user does: no key makes a component fail, the text that is typed is
    the text that is sent; and two runs that go wrong, in drawing and in the history. *)

From Stdlib Require Import Ascii.
From S2P Require Import Prelude Text RustStd Sql Keybinding Tui TuiApp.

#[local] Open Scope string_scope.

(** ** Typing never fails *)

(** The selections are places of the lists. *)
Record fit (app : App) : Prop := {
  fit_list : (cl_selected (cmd_list app) < length cmd_items)%nat;
  fit_history : ∀ i, hl_selected (history_list app) = Some i →
    (i < length (hl_items (history_list app)))%nat;
}.

(** There is a text for the input that has the focus. *)
Definition typing (d : CmdDetails) : Prop :=
  ∃ i, on_focus d = Some i ∧ (i < length (inputs d))%nat ∧
    (selected_command d = PeerCont ∧ length (inputs d) = 1%nat ∨
     selected_command d = ChanOpen ∧ length (inputs d) = 2%nat).

Definition drawing (a : Action) : bool :=
  match a with Render | Resize _ _ => true | _ => false end.
(** Actions that leave the mode, and those that leave the command as well. *)
Definition calm (a : Action) : bool :=
  match a with EnterCmdMode | TriggerExecute | Execute _ _ => false | _ => true end.
Definition still (a : Action) : bool :=
  calm a && match a with NavUp | NavDown | CommandAction _ => false | _ => true end.
(** Actions that components other than the details answer. *)
Definition responds (a : Action) : bool :=
  match a with SwitchTab | TabAction _ | NavUp | NavDown => true | _ => false end.
(** Keys that change a text. *)
Definition edits (k : KeyEvent) : bool :=
  match code k with Char _ | Backspace => true | _ => false end.
Definition requested (c : Cmd) : bool :=
  match c with NodeInfo | ChanList | PeerCont | ChanOpen => true | _ => false end.

(** What can be in the queue. *)
Inductive phase : Mode → CmdDetails → list Action → Prop :=
| ph_idle d q : on_focus d = None → Forall calm q → phase Navigate d q
| ph_enter d : on_focus d = None → phase Navigate d [EnterCmdMode]
| ph_typing d q : typing d → Forall still q → phase Command d q
| ph_trigger d k : typing d → edits k = false → phase Command d [TriggerExecute; Input k]
| ph_sent d k c s : edits k = false → requested c → phase Command d [Input k; Execute c s]
| ph_execute m d c s : requested c → phase m d [Execute c s]
| ph_exit m d : phase m d [ExitCmdMode]
| ph_resume m d q : phase m d q → phase m d (Resume :: q).

Section Safety.
Context {LB : Libraries} {BU : Build} {TM : Terminal}.
Variable word : string → string.

Lemma cmd_list_update_fit a c : (cl_selected c < length cmd_items)%nat →
  ∃ r c', cmd_list_update word a c = Ok (r, c') ∧ (cl_selected c' < length cmd_items)%nat ∧
    (r = None ∨ ∃ cmd, r = Some (CommandAction cmd) ∧ (a = NavUp ∨ a = NavDown)).
Proof.
  intros Hc. assert (∀ move, move = up ∨ move = down → a = NavUp ∨ a = NavDown →
    ∃ r c', nav_loop (S (length cmd_items)) move c = Ok (r, c') ∧
      (cl_selected c' < length cmd_items)%nat ∧
      (r = None ∨ ∃ cmd, r = Some (CommandAction cmd) ∧ (a = NavUp ∨ a = NavDown))) as Hn.
  { intros move Hm Ha. destruct c as [[] n]; [|by exists None, (mk_cmd_list false n); auto].
    destruct (nav_inside move n Hm Hc) as (cmd & n' & -> & Hn'). do 2 eexists.
    split_and!; [done|done|]. right. eauto. }
  destruct a; try (do 2 eexists; split_and!; [done|done|by left]).
  - by apply (Hn up); [left|left].
  - by apply (Hn down); [right|right].
Qed.

Definition history_fit (h : HistoryList) : Prop :=
  ∀ i, hl_selected h = Some i → (i < length (hl_items h))%nat.
Lemma hl_nav_fit move h : move = up ∨ move = down → history_fit h →
  ∃ r h', hl_nav move h = Ok (r, h') ∧ history_fit h' ∧ (r = None ∨ ∃ ts, r = Some (History ts)).
Proof.
  intros Hm Hh. unfold hl_nav. destruct (hl_display h); [|by exists None, h; auto].
  destruct (hl_selected h) as [i|] eqn:Hi; [|by exists None, h; auto].
  specialize (Hh i Hi). set (n := length (hl_items h)) in *.
  assert (move i n < n)%nat as Hlt
    by (destruct Hm as [-> | ->]; unfold up, down; case_bool_decide; lia).
  destruct (lookup_lt_is_Some_2 (hl_items h) _ Hlt) as [item Hitem]. unfold index_at.
  rewrite Hitem. do 2 eexists. split_and!; [done| |by right; eexists].
  intros j [= <-]. done.
Qed.
Lemma history_list_update_fit a s h : history_fit h →
  ∃ r h', history_list_update word a s h = Ok (r, h') ∧ history_fit h' ∧
    (r = None ∨ ∃ ts, r = Some (History ts)).
Proof.
  intros Hh. destruct a; try (by exists None, h; auto); simpl.
  - unfold hl_switch_tab. cbv zeta.
    match goal with |- context [match hl_items ?x with _ => _ end] => set (h' := x) end.
    assert (history_fit h') as Hh'.
    { subst h'. case_bool_decide; [|done]. destruct (load_items s) as [items|]; [|done].
      intros i. simpl. destruct items; [done|]. intros [= <-]. simpl. lia. }
    destruct (hl_items h'); do 2 eexists; (split_and!; [done|done|]); eauto.
  - apply hl_nav_fit; auto.
  - apply hl_nav_fit; auto.
Qed.

(** The details decide: the other components neither fail nor call for more than a change of
    the view. *)
Lemma update_components_fit a app r d : fit app →
  cmd_details_update word a (cmd_details app) = Ok (r, d) →
  ∃ app' l1 l2, update_components word a app = Ok app' ∧ fit app' ∧
    actions app' = (actions app ++ l1 ++ option_list r ++ l2)%list ∧
    cmd_details app' = d ∧ mode app' = mode app ∧ keybindings app' = keybindings app ∧
    Forall still l2 ∧ Forall calm l1 ∧ (still a → Forall still l1) ∧
    Forall (λ x, drawing x = false) (l1 ++ l2) ∧ (responds a = false → l1 = [] ∧ l2 = []).
Proof.
  intros [Hf1 Hf2] Hd. unfold update_components.
  assert (∃ r1 t, tab_update word a (tab_bar app) = Ok (r1, t) ∧
    Forall still (option_list r1) ∧ Forall (λ x, drawing x = false) (option_list r1) ∧
    (responds a = false → r1 = None)) as (r1 & t & -> & Hr1 & Hq1 & Hr1').
  { destruct a; try (by do 2 eexists; repeat split; constructor).
    destruct (tab_bar app) as [n]. unfold tab_update, tab_next, index_at. cbn [tab_index].
    assert (is_Some (titles word !! ((n + 1) mod length (titles word))%nat)) as [title ->].
    { apply lookup_lt_is_Some, Nat.mod_upper_bound. done. }
    do 2 eexists. repeat split; [by repeat constructor..|done]. }
  destruct (cmd_list_update_fit a _ Hf1) as (r2 & c & -> & Hc & Hr2).
  destruct (history_list_update_fit a (pool app) _ Hf2) as (r4 & h & Hh & Hhf & Hr4).
  simpl. rewrite Hd. simpl. rewrite Hh. simpl.
  eexists _, (option_list r1 ++ option_list r2)%list, (option_list r4).
  split_and!; try done.
  - simpl. by rewrite <- !app_assoc.
  - destruct Hr4 as [-> | [? ->]]; repeat constructor.
  - apply Forall_app. split.
    + eapply Forall_impl; [exact Hr1|]. intros x. unfold still. by destruct (calm x).
    + destruct Hr2 as [-> | (? & -> & _)]; repeat constructor.
  - intros Ha. apply Forall_app. split; [done|].
    destruct Hr2 as [-> | (? & -> & [-> | ->])]; [constructor|done..].
  - rewrite !Forall_app. split_and!; [done| |];
      [destruct Hr2 as [-> | (? & -> & _)]|destruct Hr4 as [-> | [? ->]]]; repeat constructor.
  - intros Ha. rewrite (Hr1' Ha). destruct Hr2 as [-> | (? & -> & [-> | ->])]; [|done..].
    split; [done|]. by destruct a; simplify_eq/=.
Qed.
(** [serde_json] writes every [FundChannel]. *)
Class LibraryLaws := {
  fund_channel_json_ok i sats : ∃ payload, fund_channel_json i sats = Ok payload;
}.

(** What drawing leaves of the details. *)
Definition same_inputs (d d' : CmdDetails) : Prop :=
  on_focus d' = on_focus d ∧ selected_command d' = selected_command d ∧ inputs d' = inputs d.
Lemma same_inputs_refl d : same_inputs d d.
Proof. done. Qed.
Lemma typing_same d d' : same_inputs d d' → typing d → typing d'.
Proof. unfold typing. by intros (-> & -> & ->). Qed.

Lemma draw_same f app w app' : draw word f app = Ok (w, app') →
  same_inputs (cmd_details app) (cmd_details app').
Proof.
  unfold draw. intros H. destruct (cmd_list_draw _ _ _); [|done..].
  destruct (cmd_details_draw _ _ _ _) as [[? d]| |] eqn:Hd; [|done..]. simpl in H.
  destruct (history_list_draw _ _ _); [|done..]. destruct (history_details_draw _ _); [|done..].
  simpl in H. injection H as _ <-. simpl. unfold cmd_details_draw in Hd.
  destruct (cd_display _); [|by injection Hd as _ <-].
  destruct (minus f.2 3); [|done..]. destruct (minus f.1 25); [|done..]. simpl in Hd.
  assert (∀ r : result fault (list widget),
    result_map (λ w, (w, cmd_details app)) r = Ok (l, d) → d = cmd_details app) as Hm.
  { intros [] ?; by simplify_eq/=. }
  destruct (selected_command _); try (apply Hm in Hd as ->; done); try (by injection Hd as _ <-).
  unfold channel_list in Hd. destruct (last_result _ _ _) as [[ts|] info]; [|by injection Hd as _ <-].
  destruct (query_title _ _); [|done..]. simpl in Hd.
  destruct (parse_channel_details _ _); [|by injection Hd as _ <-|done].
  destruct (minus f.1 30); [|done..]. simpl in Hd. destruct (index_at _ _); [|done..].
  by injection Hd as _ <-.
Qed.
Lemma details_idle a d : on_focus d = None → calm a →
  ∃ d', cmd_details_update word a d = Ok (None, d') ∧ on_focus d' = None.
Proof.
  intros Hd Ha. destruct a; try done; simpl; try case_bool_decide; eauto.
  - unfold switch_inputs. rewrite Hd. eauto.
  - unfold input_key. rewrite Hd. simpl. eauto.
Qed.

Lemma edit_typing f i d : (i < length (inputs d))%nat →
  ∃ d', edit f i d = Ok d' ∧ on_focus d' = on_focus d ∧
    selected_command d' = selected_command d ∧ length (inputs d') = length (inputs d).
Proof.
  intros Hi. apply lookup_lt_is_Some_2 in Hi as [x Hx]. unfold edit, index_at. rewrite Hx.
  eexists. split_and!; [done..|]. simpl. by rewrite length_insert.
Qed.
Lemma input_typing k d : typing d → ∃ d', input_key k d = Ok d' ∧ typing d'.
Proof.
  intros Hd. pose proof Hd as (i & Hf & Hi & Hs). unfold input_key. rewrite Hf.
  assert (∀ f, ∃ d', edit f i d = Ok d' ∧ typing d') as He.
  { intros f. destruct (edit_typing f i d Hi) as (d' & -> & Hf' & Hs' & Hl').
    exists d'. split; [done|]. exists i. by rewrite Hf', Hs', Hl'. }
  destruct (code k); eauto.
Qed.
Lemma details_typing a d : typing d → still a →
  ∃ d', cmd_details_update word a d = Ok (None, d') ∧
    (if bool_decide (a = ExitCmdMode) then on_focus d' = None else typing d').
Proof.
  intros Hd Ha. assert (∀ b, typing (set_cd_display b d)) as H1 by (intros; exact Hd).
  assert (∀ i n, typing (set_page i n d)) as H2 by (intros; exact Hd).
  destruct a; try done; simpl; try (case_bool_decide; by eauto); eauto.
  - eexists. split; [done|]. destruct Hd as (i & Hf & Hi & Hs). unfold switch_inputs. rewrite Hf.
    destruct Hs as [[Hs Hl]|[Hs Hl]]; rewrite Hs.
    + exists 0%nat. simpl. split_and!; [done|lia|by left].
    + case_bool_decide; eexists; simpl; (split_and!; [done|lia|by right]).
  - destruct (input_typing key d Hd) as (d' & -> & Hd'). simpl. eauto.
Qed.

(** An action that is calm is handed to the components after a step that changes no more than
    the mode, the page and what is drawn. *)
Lemma process_calm m a app : calm a →
  (drawing a = true ∧ ∃ w, process word m a app = Panic w) ∨
  ∃ app1, process word m a app = update_components word a app1 ∧
    same_inputs (cmd_details app) (cmd_details app1) ∧ actions app1 = actions app ∧
    keybindings app1 = keybindings app ∧ (fit app → fit app1) ∧
    mode app1 = (if bool_decide (a = ExitCmdMode) then Navigate else mode app).
Proof.
  intros Ha. assert (∀ f, (∃ w, result_map snd (draw word f app) = Panic w) ∨
    ∃ app1, result_map snd (draw word f app) = Ok app1 ∧
      same_inputs (cmd_details app) (cmd_details app1) ∧ actions app1 = actions app ∧
      keybindings app1 = keybindings app ∧ (fit app → fit app1) ∧ mode app1 = mode app) as Hdraw.
  { intros f. pose proof (draw_free word f app) as Hfree.
    destruct (draw word f app) as [[w app1]|e|w] eqn:Hd; [|by destruct (Hfree e)|left; by eexists].
    right. exists app1. pose proof (draw_same _ _ _ _ Hd). apply draw_actions in Hd as [d ->].
    split_and!; try done. by intros []. }
  destruct a; try done; unfold process; cbn [result_bind];
    try (right; eexists; split_and!; [reflexivity|apply same_inputs_refl|done|done|by intros []|done]).
  - destruct (Hdraw (screen m)) as [[w ->]|(app1 & -> & H)]; [left; eauto|right].
    exists app1. simpl. by destruct_and! H.
  - destruct (Hdraw (screen m)) as [[? ->]|(app1 & -> & H)]; [left; eauto|right].
    exists app1. simpl. by destruct_and! H.
Qed.
Lemma still_calm l : Forall still l → Forall calm l.
Proof. intros H. eapply Forall_impl; [exact H|]. intros a. unfold still. by destruct (calm a). Qed.

(** A queue that can be there, with nothing to draw when [strict]. *)
Record good (strict : bool) (b : KeyBindings) (app : App) : Prop := {
  good_fit : fit app;
  good_phase : phase (mode app) (cmd_details app) (actions app);
  good_bindings : keybindings app = b;
  good_quiet : strict = true → Forall (λ a, drawing a = false) (actions app);
}.

(** What is good after the components have answered. *)
Lemma good_answers strict b a app rest r d :
  fit app → keybindings app = b → actions app = rest →
  (strict = true → Forall (λ a, drawing a = false) (rest ++ option_list r)) →
  cmd_details_update word a (cmd_details app) = Ok (r, d) →
  (∀ l1 l2, Forall still l2 → Forall calm l1 → (still a → Forall still l1) →
     (responds a = false → l1 = [] ∧ l2 = []) →
     phase (mode app) d (rest ++ l1 ++ option_list r ++ l2)) →
  ∃ app', update_components word a app = Ok app' ∧ good strict b app'.
Proof.
  intros Hfit Hb Hrest Hq Hd Hphase.
  destruct (update_components_fit a app r d Hfit Hd)
    as (app' & l1 & l2 & -> & Hfit' & Hacts & Hdet & Hmode & Hkeys & Hl2 & Hl1 & Hs & Hdraw & Hno).
  exists app'. split; [done|]. split; [done| |congruence|].
  - rewrite Hmode, Hdet, Hacts, Hrest. auto.
  - intros Hstrict. specialize (Hq Hstrict). rewrite Hacts, Hrest. rewrite !Forall_app in *. tauto.
Qed.

Lemma fit_change app app' : cmd_list app' = cmd_list app → history_list app' = history_list app →
  fit app → fit app'.
Proof. intros H1 H2 []. split; by rewrite ?H1, ?H2. Qed.

Lemma trigger_typing `{!LibraryLaws} d : typing d →
  ∃ c s d', trigger_execute d = Ok (Some (Execute c s), d') ∧ requested c.
Proof.
  intros (i & Hf & Hi & Hs). unfold trigger_execute, index_at. cbv zeta.
  change (selected_command (set_error None d)) with (selected_command d).
  change (inputs (set_error None d)) with (inputs d).
  destruct Hs as [[Hs Hl]|[Hs Hl]]; rewrite Hs; destruct (inputs d) as [|x [|y [|]]]; try done; simpl.
  - by do 3 eexists.
  - destruct (fund_channel_json_ok (typed x) (typed y)) as [payload ->]. simpl. do 3 eexists.
    split; done.
Qed.

(** A step that ends well, and panics only where drawing is allowed. *)
Definition survives {E} (strict : bool) (P : App → Prop) (r : result E App) : Prop :=
  match r with Ok app => P app | Err _ => False | Panic _ => strict = false end.

Lemma survives_ok {E} strict P (r : result E App) :
  (∃ app', r = Ok app' ∧ P app') → survives strict P r.
Proof. by intros (app' & -> & HP). Qed.

Lemma step_calm strict b m a rest app :
  calm a → fit app → keybindings app = b → (strict = true → drawing a = false) →
  (strict = true → Forall (λ a, drawing a = false) rest) →
  (∀ app1, same_inputs (cmd_details app) (cmd_details app1) →
     ∃ d', cmd_details_update word a (cmd_details app1) = Ok (None, d') ∧
     ∀ l1 l2, Forall still l2 → Forall calm l1 → (still a → Forall still l1) →
       phase (if bool_decide (a = ExitCmdMode) then Navigate else mode app) d' (rest ++ l1 ++ l2)) →
  survives strict (good strict b) (process word m a (set_actions rest app)).
Proof.
  intros Ha Hfit Hb Hdr Hq Hd.
  destruct (process_calm m a (set_actions rest app) Ha)
    as [[Hdraw [w ->]]|(app1 & -> & Hsame & H1 & H2 & H3 & H4)].
  - simpl. destruct strict; [|done]. specialize (Hdr eq_refl). congruence.
  - destruct (Hd app1 Hsame) as (d' & Hd' & Hphase). apply survives_ok.
    eapply (good_answers _ _ _ _ rest None d');
      [|by rewrite H2|done|by rewrite app_nil_r|done|].
    + apply H3. by apply (fit_change app).
    + intros l1 l2 Hl2 Hl1 Hs _. rewrite H4. by apply Hphase.
Qed.

Lemma step_idle strict b m a rest app :
  on_focus (cmd_details app) = None → Forall calm (a :: rest) → mode app = Navigate →
  fit app → keybindings app = b → (strict = true → Forall (λ a, drawing a = false) (a :: rest)) →
  survives strict (good strict b) (process word m a (set_actions rest app)).
Proof.
  intros Hf [Hc Hc']%Forall_cons Hm Hfit Hb Hq.
  apply step_calm; [done..| | |].
  1,2: intros Hs; specialize (Hq Hs); by apply Forall_cons in Hq as [].
  intros app1 [Hsame _]. destruct (details_idle a (cmd_details app1)) as (d' & Hd' & Hf');
    [congruence|done|].
  exists d'. split; [done|]. intros l1 l2 Hl2 Hl1 _.
  replace (if bool_decide _ then Navigate else mode app) with Navigate
    by (rewrite Hm; by case_bool_decide).
  apply ph_idle; [done|]. rewrite !Forall_app. auto using still_calm.
Qed.

Lemma step_typing strict b m a rest app :
  typing (cmd_details app) → Forall still (a :: rest) → mode app = Command →
  fit app → keybindings app = b → (strict = true → Forall (λ a, drawing a = false) (a :: rest)) →
  survives strict (good strict b) (process word m a (set_actions rest app)).
Proof.
  intros Ht [Hs Hs']%Forall_cons Hm Hfit Hb Hq.
  assert (calm a) as Hc by (revert Hs; unfold still; by destruct (calm a)).
  apply step_calm; [done..| | |].
  1,2: intros Hstr; specialize (Hq Hstr); by apply Forall_cons in Hq as [].
  intros app1 Hsame. destruct (details_typing a (cmd_details app1)) as (d' & Hd' & Ht');
    [by eapply typing_same|done|].
  exists d'. split; [done|]. intros l1 l2 Hl2 _ Hl1. rewrite Hm. case_bool_decide.
  - apply ph_idle; [done|]. rewrite !Forall_app. auto using still_calm.
  - apply ph_typing; [done|]. rewrite !Forall_app. auto using still_calm.
Qed.

Lemma step_enter strict b m app :
  on_focus (cmd_details app) = None → fit app → keybindings app = b →
  survives strict (good strict b) (process word m EnterCmdMode (set_actions [] app)).
Proof.
  intros Hf Hfit Hb. apply survives_ok. unfold process. cbn [result_bind].
  destruct (enter_cmd_mode (cmd_details app)) as [r d'] eqn:He.
  apply (good_answers _ _ _ _ [] r d'); [by apply (fit_change app)|done..| |by rewrite <- He|].
  - intros _. unfold enter_cmd_mode in He.
    destruct (selected_command _); injection He as <- <-; repeat constructor.
  - intros l1 l2 _ _ _ Hno. destruct (Hno eq_refl) as [-> ->]. simpl. rewrite app_nil_r.
    unfold enter_cmd_mode in He. simpl in He.
    destruct (selected_command (cmd_details app)) eqn:Hsel; injection He as <- <-; simpl;
      try apply ph_exit; try (by apply ph_execute);
      (apply ph_typing; [|constructor]); exists 0%nat; simpl; rewrite Hsel;
      (split_and!; [done|lia|auto]).
Qed.

(** A step that is no more than what the components answer. *)
Ltac answered rest r d :=
  apply survives_ok; unfold process; cbn [result_bind];
  apply (good_answers _ _ _ _ rest r d);
  [eapply fit_change; [| |eassumption]; done|done|done|try repeat constructor|try done|
   intros ?l1 ?l2 _ _ _ Hno; destruct (Hno eq_refl) as [-> ->]].

Lemma step_execute strict b m c s app :
  requested c → fit app → keybindings app = b →
  survives strict (good strict b) (process word m (Execute c s) (set_actions [] app)).
Proof.
  intros Hr Hfit Hb. apply survives_ok. unfold process. cbn [result_bind].
  set (app1 := execute (now m) c s (set_actions [] app)).
  assert (actions app1 = [ExitCmdMode] ∧ cmd_list app1 = cmd_list app ∧
    history_list app1 = history_list app ∧ keybindings app1 = keybindings app ∧
    cmd_details app1 = cmd_details app) as (H1 & H2 & H3 & H4 & H5).
  { subst app1. unfold execute. by destruct c. }
  apply (good_answers _ _ _ _ [ExitCmdMode] None (cmd_details app));
    [by apply (fit_change app)|congruence|done|repeat constructor|by rewrite H5|].
  intros l1 l2 _ _ _ Hno. destruct (Hno eq_refl) as [-> ->]. apply ph_exit.
Qed.

Lemma input_without_edit k d : edits k = false → input_key k d = Ok d.
Proof. unfold input_key, edits. destruct (on_focus d); [|done]. by destruct (code k). Qed.

Lemma step_good `{!LibraryLaws} strict b m a rest app :
  actions app = a :: rest → good strict b app →
  survives strict (good strict b) (process word m a (set_actions rest app)).
Proof.
  intros Hacts [Hfit Hphase Hb Hq]. rewrite Hacts in Hphase, Hq.
  assert (strict = true → Forall (λ a, drawing a = false) rest) as Hq'
    by (intros Hs; specialize (Hq Hs); by apply Forall_cons in Hq as [_ Hq]).
  inversion Hphase as [d q Hf Hc Hm Hd Ha|d Hf Hm Hd Ha|d q Ht Hs Hm Hd Ha|d k Ht Hk Hm Hd Ha
    |d k c s Hk Hr Hm Hd Ha|m0 d c s Hr Hm Hd Ha|m0 d Hm Hd Ha|m0 d q Hp Hm Hd Ha]; subst.
  - by apply step_idle.
  - by apply step_enter.
  - by apply step_typing.
  - destruct (trigger_typing _ Ht) as (c & s & d' & Htr & Hr).
    answered [Input k] (Some (Execute c s)) d'. simpl. rewrite <- Hm. by apply ph_sent.
  - answered [Execute c s] (@None Action) (cmd_details app).
    + simpl. by rewrite input_without_edit.
    + simpl. by apply ph_execute.
  - by apply step_execute.
  - answered (@nil Action) (@None Action) (set_focus None (cmd_details app)). by apply ph_idle.
  - answered rest (@None Action) (cmd_details app).
    + intros Hs. rewrite app_nil_r. auto.
    + simpl. by rewrite app_nil_r.
Qed.

Lemma drain_good `{!LibraryLaws} strict b env fuel app :
  good strict b app → (work (actions app) ≤ fuel)%nat →
  match drain word fuel env app with
  | Ok app' => good strict b app' ∧ actions app' = []
  | Err _ => False
  | Panic _ => strict = false
  end.
Proof.
  intros Hg Hf. pose proof (drain_works word fuel env app Hf) as Hw.
  assert (match drain word fuel env app with
          | Ok app' => good strict b app' | Panic _ => strict = false | Err _ => True end) as Hd.
  { clear Hf Hw. revert app Hg. induction fuel as [|fuel IH]; intros app Hg; cbn [drain];
      destruct (actions app) as [|a rest] eqn:Ha; try done.
    pose proof (step_good strict b (env fuel) a rest app Ha Hg) as Hs.
    destruct (process _ _ _ _); [by apply IH|done..]. }
  by destruct (drain _ _ _ _).
Qed.
End Safety.

(** ** The bindings *)

(** Keys that are the same change a text or not. *)
Class TerminalLaws `{Terminal} := {
  same_key_edits k k' : same_key k k' = true → edits k = edits k';
}.

Section Bindings.
Context {TM : Terminal} {TL : TerminalLaws}.

Lemma keymap_get_in ks m a : keymap_get ks m = Some a → ∃ ks', same_keys ks ks' = true ∧ (ks', a) ∈ m.
Proof.
  induction m as [|[ks' a'] m IH]; simpl; [done|]. destruct (same_keys ks ks') eqn:Hs.
  - intros [= ->]. exists ks'. split; [done|]. by left.
  - intros Hg. destruct (IH Hg) as (k & ? & ?). exists k. split; [done|]. by right.
Qed.

(** What holds for all entries, whichever of two equal keys is kept, holds for what is found. *)
Lemma keymap_forall (P : list KeyEvent → Action → Prop) entries ks a :
  (∀ ks ks' a, same_keys ks ks' = true → P ks' a → P ks a) →
  (∀ ks ks' a, same_keys ks ks' = true → P ks a → P ks' a) →
  Forall (λ e, P e.1 e.2) entries →
  keymap_get ks (fold_left keymap_insert entries []) = Some a → P ks a.
Proof.
  intros Hl Hr He Hg. apply keymap_get_in in Hg as (ks' & Hs & Hin). apply (Hl _ ks' _ Hs).
  assert (∀ entries m, Forall (λ e, P e.1 e.2) m → Forall (λ e, P e.1 e.2) entries →
    Forall (λ e, P e.1 e.2) (fold_left keymap_insert entries m)) as Hfold.
  { clear -Hr. intros entries. induction entries as [|e entries IH]; intros m Hm He; simpl; [done|].
    apply Forall_cons in He as [He Hes]. apply IH; [|done]. clear -Hr Hm He.
    induction Hm as [|[k a] m Hk Hm IHm]; simpl; [by constructor|].
    case_match eqn:Hs; constructor; simpl in *; eauto. }
  specialize (Hfold entries [] (Forall_nil_2 _) He). rewrite Forall_forall in Hfold.
  by apply (Hfold _ Hin).
Qed.

Lemma same_key_one k ks' : same_keys [k] ks' = true → ∃ k', ks' = [k'] ∧ edits k = edits k'.
Proof.
  unfold same_keys. destruct ks' as [|k' [|]]; simpl; [done| |done]. rewrite andb_true_r.
  intros Hk%same_key_edits. eauto.
Qed.
Lemma same_key_one_r k ks : same_keys ks [k] = true → ∃ k', ks = [k'] ∧ edits k' = edits k.
Proof.
  unfold same_keys. destruct ks as [|k' [|]]; simpl; [done| |done]. rewrite andb_true_r.
  intros Hk%same_key_edits. eauto.
Qed.

(** One key that does not change a text, bound to one of [actions]. *)
Definition plain_binding (acts : list Action) (ks : list KeyEvent) (a : Action) : Prop :=
  (∃ k, ks = [k] ∧ edits k = false) ∧ a ∈ acts.
Definition plain_keymap (acts : list Action) (m : keymap) : Prop :=
  ∀ ks a, keymap_get ks m = Some a → plain_binding acts ks a.

Lemma plain_keymap_of acts entries : Forall (λ e, plain_binding acts e.1 e.2) entries →
  plain_keymap acts (fold_left keymap_insert entries []).
Proof.
  intros He ks a Hg. revert Hg. apply keymap_forall; [| |done].
  - intros ? ? ? Hs [(k & -> & Hk) Ha]. split; [|done]. apply same_key_one_r in Hs as (k' & -> & Hk').
    exists k'. split; [done|congruence].
  - intros ? ? ? Hs [(k & -> & Hk) Ha]. split; [|done]. apply same_key_one in Hs as (k' & -> & Hk').
    exists k'. split; [done|congruence].
Qed.

Definition navigate_actions : list Action :=
  [Quit; SwitchTab; NavUp; NavDown; NavLeft; NavRight; EnterCmdMode].
Definition command_actions : list Action := [ExitCmdMode; SwitchInputs; TriggerExecute].

Lemma default_bindings : ∃ nav com,
  KeyBindings_new None = Ok [(Navigate, nav); (Command, com)] ∧
  plain_keymap navigate_actions nav ∧ plain_keymap command_actions com.
Proof.
  do 2 eexists. split; [reflexivity|].
  split; apply plain_keymap_of; vm_compute; repeat (constructor; [split; [eexists; done|]|]);
    try constructor; unfold navigate_actions, command_actions; simpl; set_solver.
Qed.
End Bindings.

(** ** Runs *)

(** Bindings that call for nothing that the queue cannot have: in [Navigate] no execution; in
    [Command] neither navigation nor the command mode again, and execution only by a key that
    does not change a text. *)
Definition safe_bindings `{Terminal} (b : KeyBindings) : Prop :=
  ∀ ks a,
    (lookup_key b Navigate ks = Some a →
       drawing a = false ∧ (calm a ∨ a = EnterCmdMode)) ∧
    (lookup_key b Command ks = Some a →
       drawing a = false ∧
       (still a ∨ a = TriggerExecute ∧ ∃ k, last ks = Some k ∧ edits k = false)).

Section Runs.
Context {LB : Libraries} {LL : LibraryLaws} {BU : Build} {TM : Terminal} {TL : TerminalLaws}
  {HT : Http}.
Variable word : string → string.
Variable auth : ConnectionAuth.

(** The states that the application comes to: events and answers, in any order. *)
Inductive reachable (app0 : App) : App → Prop :=
| reach_start : reachable app0 app0
| reach_event env e app app' :
    reachable app0 app → turn word env e app = Ok (true, app') → reachable app0 app'
| reach_answer i app app' :
    reachable app0 app → answer auth i app = Ok app' → reachable app0 app'.

(** Between two turns. *)
Record settled (app : App) : Prop := {
  settled_fit : fit app;
  settled_mode : mode app = Navigate ∧ on_focus (cmd_details app) = None ∨
                 mode app = Command ∧ typing (cmd_details app);
  settled_queue : actions app = [] ∨ actions app = [Resume];
}.

Lemma new_settled user s app : App_new user s = Ok app → settled app.
Proof.
  unfold App_new. destruct (KeyBindings_new user) as [b| |]; [|done..]. intros [= <-].
  split; [split; [simpl; lia|done]|by left|by left].
Qed.

Lemma settled_good strict b app l : settled app → keybindings app = b →
  (strict = true → Forall (λ a, drawing a = false) l) →
  phase (mode app) (cmd_details app) l → good strict b (send l app).
Proof.
  intros [Hf Hm Hq] Hb Hd Hl. split; [by apply (fit_change app)| |done|].
  - simpl. destruct Hq as [-> | ->]; [done|by apply ph_resume].
  - intros Hs. simpl. destruct Hq as [-> | ->]; [by apply Hd|]. constructor; [done|by apply Hd].
Qed.

(** Events other than those of drawing put nothing to draw on the queue. *)
Definition draws (e : event) : bool :=
  match e with RenderEvent | ResizeEvent _ _ => true | _ => false end.

Lemma phase_calm app a : settled app → still a → phase (mode app) (cmd_details app) [a].
Proof.
  intros [_ Hm _] Ha. destruct Hm as [[-> Hf]|[-> Ht]].
  - apply ph_idle; [done|]. apply still_calm. by repeat constructor.
  - apply ph_typing; [done|]. by repeat constructor.
Qed.

Lemma key_event_spec key app : ∃ ks l, key_event key app =
    send (l ++ (if bool_decide (mode app = Command) then [Input key] else []))%list
         (set_keys ks app) ∧
  (l = [] ∨ ∃ ks' a, l = [a] ∧ lookup_key (keybindings app) (mode app) ks' = Some a ∧
                     last ks' = Some key).
Proof.
  unfold key_event, lookup_key. destruct (hm_get (mode app) (keybindings app)) as [keymap|] eqn:Hm.
  - simpl. destruct (keymap_get [key] keymap) as [a|] eqn:Hg.
    + exists (last_tick_key_events app), [a]. split; [|right; by exists [key], a].
      simpl. case_bool_decide; [|done]. unfold send, set_actions. simpl. by rewrite <- app_assoc.
    + set (ks := (last_tick_key_events app ++ [key])%list).
      destruct (keymap_get ks keymap) as [a|] eqn:Hg'.
      * exists ks, [a]. split; [|right; exists ks, a; split_and!; [done..|apply last_snoc]].
        simpl. case_bool_decide; [|done]. unfold send, set_actions. simpl.
        by rewrite <- app_assoc.
      * exists ks, []. split; [|by left]. simpl. case_bool_decide; [done|].
        unfold send, set_actions. simpl. by rewrite app_nil_r.
  - exists (last_tick_key_events app), []. split; [|by left]. simpl. case_bool_decide; [done|].
    unfold send, set_actions. simpl. destruct app. simpl. by rewrite app_nil_r.
Qed.

Lemma settled_keys ks app : settled app → settled (set_keys ks app).
Proof. intros [Hf Hm Hq]. split; [by apply (fit_change app)|done|done]. Qed.

Lemma handle_event_good e app : settled app → safe_bindings (keybindings app) →
  good (negb (draws e)) (keybindings app) (handle_event e app).
Proof.
  intros Hs Hb. pose proof (settled_mode _ Hs) as Hm.
  assert (∀ a, still a → (negb (draws e) = true → drawing a = false) →
    good (negb (draws e)) (keybindings app) (send [a] app)) as Hone.
  { intros a Ha Hd. apply settled_good; [done|done| |by apply phase_calm].
    intros Hq. repeat constructor. by apply Hd. }
  destruct e; simpl; try (by apply Hone).
  - destruct (key_event_spec k app) as (ks & l & -> & Hl).
    apply settled_good; [by apply settled_keys|done|..]; simpl.
    + intros _. apply Forall_app. split; [|by case_bool_decide; repeat constructor].
      destruct Hl as [-> | (ks' & a & -> & Hg & _)]; [constructor|]. repeat constructor.
      destruct (Hb ks' a) as [H1 H2].
      destruct Hm as [[Hm _]|[Hm _]]; rewrite Hm in Hg; [by apply H1|by apply H2].
    + destruct Hm as [[Hm Hf]|[Hm Ht]]; rewrite Hm; simpl.
      * rewrite app_nil_r. destruct Hl as [-> | (ks' & a & -> & Hg & _)]; [by apply ph_idle|].
        rewrite Hm in Hg. destruct (Hb ks' a) as [H1 _].
        destruct (H1 Hg) as [_ [Hc| ->]]; [|by apply ph_enter].
        apply ph_idle; [done|]. by repeat constructor.
      * destruct Hl as [-> | (ks' & a & -> & Hg & Hlast)].
        { apply ph_typing; [done|]. by repeat constructor. }
        rewrite Hm in Hg. destruct (Hb ks' a) as [_ H2].
        destruct (H2 Hg) as [_ [Hc|(-> & k' & Hk' & Hed)]].
        -- apply ph_typing; [done|]. by repeat constructor.
        -- rewrite Hlast in Hk'. simplify_eq. by apply ph_trigger.
  - destruct Hs as [Hf _ Hq]. split; [done| |done|].
    + destruct Hq as [-> | ->]; [|apply ph_resume];
        (destruct Hm as [[-> Hm]|[-> Hm]]; [by apply ph_idle|by apply ph_typing]).
    + intros _. destruct Hq as [-> | ->]; by repeat constructor.
Qed.

Lemma good_settled strict b app : good strict b app → actions app = [] → settled app.
Proof.
  intros [Hf Hp _ _] Ha. rewrite Ha in Hp. split; [done| |by left].
  inversion Hp; subst; auto.
Qed.

Lemma turn_settled env e app : settled app → safe_bindings (keybindings app) →
  match turn word env e app with
  | Ok (_, app') => settled app' ∧ keybindings app' = keybindings app
  | Err _ => False
  | Panic _ => draws e = true
  end.
Proof.
  intros Hs Hb. unfold turn. pose proof (handle_event_good e app Hs Hb) as Hg.
  pose proof (drain_good word _ _ env _ _ Hg (Nat.le_refl _)) as Hd.
  destruct (drain word _ env _) as [app'|e'|w]; [|done|by destruct (draws e)].
  destruct Hd as [Hg' Ha]. pose proof (good_settled _ _ _ Hg' Ha) as Hs'. cbn [result_bind].
  pose proof (good_bindings _ _ _ Hg'). destruct (should_suspend app'); [|done].
  split; [|done]. destruct Hs' as [Hf Hm Hq]. split; [by apply (fit_change app')|done|].
  simpl. rewrite Ha. by right.
Qed.

Lemma answer_settled i app app' : settled app → answer auth i app = Ok app' →
  settled app' ∧ keybindings app' = keybindings app.
Proof.
  intros [Hf Hm Hq]. unfold answer. destruct (queries app !! i); [|intros [= <-]; done].
  destruct (query_output _); [|done..]. intros [= <-]. split; [|done].
  split; [by apply (fit_change app)|done|done].
Qed.

Lemma navigate_actions_safe :
  Forall (λ a, drawing a = false ∧ (calm a ∨ a = EnterCmdMode)) navigate_actions.
Proof. unfold navigate_actions. repeat (constructor; [auto|]). by constructor. Qed.
Lemma command_actions_safe :
  Forall (λ a, drawing a = false ∧ (still a ∨ a = TriggerExecute)) command_actions.
Proof. unfold command_actions. repeat (constructor; [auto|]). by constructor. Qed.

Lemma default_safe s app : App_new None s = Ok app → safe_bindings (keybindings app).
Proof.
  destruct default_bindings as (nav & com & Hnew & Hnav & Hcom). unfold App_new. rewrite Hnew.
  intros [= <-] ks a. unfold lookup_key. simpl. split; intros Hg.
  - destruct (Hnav _ _ Hg) as [_ Ha].
    exact (proj1 (Forall_forall _ _) navigate_actions_safe a Ha).
  - destruct (Hcom _ _ Hg) as [(k & -> & Hk) Ha].
    destruct (proj1 (Forall_forall _ _) command_actions_safe a Ha) as [? [?| ->]]; [auto|].
    split; [done|]. right. eauto.
Qed.

Lemma reachable_settled app0 app : settled app0 → safe_bindings (keybindings app0) →
  reachable app0 app → settled app ∧ keybindings app = keybindings app0.
Proof.
  intros Hs Hb. induction 1 as [|env e app app' _ [IH Hk] Ht|i app app' _ [IH Hk] Ha]; [done|..].
  - rewrite <- Hk in Hb. pose proof (turn_settled env e app IH Hb) as H. rewrite Ht in H.
    destruct H. split; [done|congruence].
  - destruct (answer_settled i app app' IH Ha). split; [done|congruence].
Qed.

(** [C14] With the bindings that are built in, and with any [safe_bindings] of the user (they
    execute only by keys that are no text, and neither navigate nor enter the command mode while
    a command is being typed), nothing that is pressed makes a component fail: from the start,
    after any events and answers that were dealt with, a key, a tick or a quit is dealt with too.
    An index into the inputs, the items or the titles is always a place of the list, and while a
    command is being typed the input that has the focus is there. Other bindings of a user can
    make a key panic: [executing_letter_panics]. *)
Theorem keys_never_fail user s app0 app env e :
  App_new user s = Ok app0 → user = None ∨ safe_bindings (keybindings app0) →
  reachable app0 app → draws e = false →
  ∃ go app', turn word env e app = Ok (go, app') ∧
    (mode app' = Command → typing (cmd_details app')) ∧
    (mode app' = Navigate → on_focus (cmd_details app') = None).
Proof.
  intros Hnew Hb Hr He. pose proof (new_settled _ _ _ Hnew) as Hs0.
  assert (safe_bindings (keybindings app0)) as Hsafe.
  { destruct Hb as [-> |]; [|done]. by eapply default_safe. }
  destruct (reachable_settled _ _ Hs0 Hsafe Hr) as [Hs Hk]. rewrite <- Hk in Hsafe.
  pose proof (turn_settled env e app Hs Hsafe) as Ht. rewrite He in Ht.
  destruct (turn word env e app) as [[go app']|e'|w]; [|done..]. exists go, app'.
  destruct Ht as [[_ Hm _] _]. split_and!; [done|..]; intros Hmode;
    destruct Hm as [[Hn ?]|[Hn ?]]; congruence || done.
Qed.

(** *** What is typed is what is sent *)

(** Keys one after the other, each in a turn of its own. *)
Fixpoint presses (env : nat → moment) (keys : list KeyEvent) (app : App) : result fault App :=
  match keys with
  | [] => Ok app
  | k :: keys => let? (_, app) := turn word env (KeyPress k) app in presses env keys app
  end.
(** The text that a key makes of a text. *)
Definition type_key (input : list string) (k : KeyEvent) : list string :=
  match code k with
  | Char c => (input ++ [c])%list
  | Backspace => pop_char input
  | _ => input
  end.

Lemma presses_app env keys k app : presses env (keys ++ [k]) app =
  result_bind (presses env keys app) (λ app', presses env [k] app').
Proof.
  revert app. induction keys as [|k' keys IH]; intros app; [done|].
  cbn [presses Datatypes.app]. destruct (turn _ _ _ _) as [[? app']| |]; [apply IH|done..].
Qed.

(** An action that only the details answer. *)
Lemma update_quiet a app r d : responds a = false → (∀ ts, a ≠ History ts) →
  cmd_details_update word a (cmd_details app) = Ok (r, d) →
  update_components word a app = Ok (send (option_list r) (set_details d app)).
Proof.
  intros Ha Hh Hd. unfold update_components.
  assert (tab_update word a (tab_bar app) = Ok (None, tab_bar app)) as -> by by destruct a.
  assert (cmd_list_update word a (cmd_list app) = Ok (None, cmd_list app)) as -> by by destruct a.
  cbn [result_bind]. rewrite Hd. cbn [result_bind].
  assert (history_list_update word a (pool app) (history_list app) = Ok (None, history_list app))
    as -> by by destruct a.
  assert (history_details_update word a (pool app) (history_details app) = history_details app)
    as -> by (by destruct a; try done; destruct (Hh timestamp)).
  cbn [result_bind option_list Datatypes.app]. by rewrite app_nil_r.
Qed.
Lemma drain_step fuel env app a rest app' : actions app = a :: rest →
  process word (env fuel) a (set_actions rest app) = Ok app' →
  drain word (S fuel) env app = drain word fuel env app'.
Proof. intros Ha Hp. cbn [drain]. by rewrite Ha, Hp. Qed.
Lemma drain_done fuel env app : actions app = [] → drain word fuel env app = Ok app.
Proof. intros Ha. destruct fuel; cbn [drain]; by rewrite Ha. Qed.

(** A key that changes a text reaches the details and nothing else. *)
Lemma turn_input env k app com acts : mode app = Command →
  hm_get Command (keybindings app) = Some com → plain_keymap acts com → edits k →
  actions app = [] → should_suspend app = false → typing (cmd_details app) →
  ∃ ks d', input_key k (cmd_details app) = Ok d' ∧
    turn word env (KeyPress k) app = Ok (negb (should_quit app), set_keys ks (set_details d' app)).
Proof.
  intros Hm Hcom Hplain Hk Ha Hsus Ht.
  destruct (input_typing k _ Ht) as (d' & Hd & _).
  assert (∀ l, keymap_get (l ++ [k]) com = None) as Hnone.
  { intros l. destruct (keymap_get (l ++ [k]) com) as [a|] eqn:Hg; [|done].
    destruct (Hplain _ _ Hg) as [(k' & Hl & Hk') _]. destruct l as [|? []]; simplify_eq/=.
    by rewrite Hk' in Hk. }
  exists (last_tick_key_events app ++ [k])%list, d'. split; [done|].
  pose proof (Hnone [] : keymap_get [k] com = None) as Hone.
  unfold turn. assert (handle_event (KeyPress k) app =
          send [Input k] (set_keys (last_tick_key_events app ++ [k])%list app)) as ->.
  { unfold handle_event, key_event. rewrite Hm, Hcom, Hone. cbn [last_tick_key_events set_keys].
    rewrite Hnone. cbn [mode set_keys]. by rewrite Hm. }
  change (work (actions (send [Input k] (set_keys (last_tick_key_events app ++ [k])%list app))))
    with (work (actions app ++ [Input k])). rewrite Ha.
  rewrite (drain_step 0 env _ (Input k) []
             (set_keys (last_tick_key_events app ++ [k])%list (set_details d' app))).
  - rewrite drain_done by done. cbn. by rewrite Hsus.
  - cbn. by rewrite Ha.
  - unfold process. cbn [result_bind]. rewrite (update_quiet _ _ None d'); [|done|done|].
    + destruct app. simpl in *. by subst.
    + cbn. by rewrite Hd.
Qed.

Lemma presses_inputs env keys app com acts input : mode app = Command →
  hm_get Command (keybindings app) = Some com → plain_keymap acts com → Forall edits keys →
  actions app = [] → should_suspend app = false →
  selected_command (cmd_details app) = PeerCont → on_focus (cmd_details app) = Some 0%nat →
  inputs (cmd_details app) = [input] →
  ∃ ks d', presses env keys app = Ok (set_keys ks (set_details d' app)) ∧
    inputs d' = [fold_left type_key keys input] ∧ selected_command d' = PeerCont ∧
    on_focus d' = Some 0%nat.
Proof.
  intros Hm Hcom Hplain Hk Ha Hsus. revert app input Hm Hcom Ha Hsus.
  induction Hk as [|k keys Hk _ IH]; intros app input Hm Hcom Ha Hsus Hsel Hf Hin.
  - exists (last_tick_key_events app), (cmd_details app). by destruct app.
  - assert (typing (cmd_details app)) as Ht.
    { exists 0%nat. rewrite Hin. simpl. split_and!; [done|lia|by left]. }
    destruct (turn_input env k app com acts Hm Hcom Hplain Hk Ha Hsus Ht) as (ks & d' & Hd & Htn).
    cbn [presses]. rewrite Htn. cbn [result_bind].
    assert (inputs d' = [type_key input k] ∧ selected_command d' = PeerCont ∧
            on_focus d' = Some 0%nat) as (H1 & H2 & H3).
    { revert Hd Hk. unfold input_key, edits, type_key, edit, index_at. rewrite Hf, Hin. simpl.
      by destruct (code k); try done; intros [= <-] _. }
    destruct (IH (set_keys ks (set_details d' app)) (type_key input k) Hm Hcom Ha Hsus H2 H3 H1)
      as (ks' & d2 & -> & H). exists ks', d2. by destruct app.
Qed.

Lemma turn_enter env enter app com input : mode app = Command →
  hm_get Command (keybindings app) = Some com → keymap_get [enter] com = Some TriggerExecute →
  edits enter = false → actions app = [] → should_suspend app = false → should_quit app = false →
  selected_command (cmd_details app) = PeerCont → on_focus (cmd_details app) = Some 0%nat →
  inputs (cmd_details app) = [input] →
  ∃ app', turn word env (KeyPress enter) app = Ok (true, app') ∧
    queries app' = (queries app ++ [mk_query (now (env 1%nat)) true "/v1/peer/connect"
                                      (id_json (typed input))])%list ∧
    mode app' = Navigate ∧ actions app' = [] ∧ inputs (cmd_details app') = [].
Proof.
  intros Hm Hcom Hg He Ha Hsus Hq Hsel Hf Hin.
  assert (handle_event (KeyPress enter) app = send [TriggerExecute; Input enter] app) as Hev.
  { unfold handle_event, key_event. rewrite Hm, Hcom, Hg. cbn [mode send set_actions].
    rewrite Hm. unfold send, set_actions. cbn. by rewrite Ha. }
  unfold turn. rewrite Hev.
  change (work (actions (send [TriggerExecute; Input enter] app)))
    with (work (actions app ++ [TriggerExecute; Input enter])). rewrite Ha.
  set (payload := id_json (typed input)).
  set (d1 := set_inputs [] (set_error None (cmd_details app))).
  set (app1 := set_actions [Input enter; Execute PeerCont payload] (set_details d1 app)).
  set (app2 := set_actions [Execute PeerCont payload] (set_details d1 app)).
  set (app3 := execute (now (env 1%nat)) PeerCont payload (set_actions [] (set_details d1 app))).
  rewrite (drain_step 3 env _ TriggerExecute [Input enter] app1).
  2: { cbn. by rewrite Ha. }
  2: { unfold process. cbn [result_bind].
       rewrite (update_quiet _ _ (Some (Execute PeerCont payload)) d1); [done|done|done|].
       cbn. unfold trigger_execute, index_at. cbn. rewrite Hsel. cbn. by rewrite Hin. }
  rewrite (drain_step 2 env _ (Input enter) [Execute PeerCont payload] app2); [|done|].
  2: { unfold process. cbn [result_bind].
       rewrite (update_quiet _ _ None d1); [done|done|done|].
       unfold cmd_details_update, input_key. cbn. rewrite Hf. unfold edits in He.
       by destruct (code enter). }
  rewrite (drain_step 1 env _ (Execute PeerCont payload) [] app3); [|done|].
  2: { unfold process. cbn [result_bind]. rewrite (update_quiet _ _ None d1); done. }
  rewrite (drain_step 0 env _ ExitCmdMode []
             (set_mode Navigate (set_actions [] (set_details (set_focus None d1) app3)))); [|done|].
  2: { unfold process. cbn [result_bind]. rewrite (update_quiet _ _ None (set_focus None d1)); done. }
  rewrite drain_done by done. cbn [result_bind].
  change (should_suspend (set_mode Navigate (set_actions [] (set_details (set_focus None d1) app3))))
    with (should_suspend app). rewrite Hsus.
  change (should_quit (set_mode Navigate (set_actions [] (set_details (set_focus None d1) app3))))
    with (should_quit app). rewrite Hq.
  eexists. by split_and!.
Qed.

(** [C22] What is typed is what is sent: when a peer is to be connected and the inputs are ready,
    characters and backspaces change the text and the key that executes sends one request, to
    the route that connects a peer, with the text as its id; the mode is [Navigate] again, the
    queue and the inputs are empty. No key on the way is taken for a binding. *)
Theorem typed_text_is_sent env keys enter app com acts input :
  mode app = Command → hm_get Command (keybindings app) = Some com → plain_keymap acts com →
  keymap_get [enter] com = Some TriggerExecute →
  actions app = [] → should_suspend app = false → should_quit app = false →
  selected_command (cmd_details app) = PeerCont → on_focus (cmd_details app) = Some 0%nat →
  inputs (cmd_details app) = [input] → Forall edits keys →
  ∃ app', presses env (keys ++ [enter]) app = Ok app' ∧
    queries app' = (queries app ++ [mk_query (now (env 1%nat)) true "/v1/peer/connect"
                      (id_json (typed (fold_left type_key keys input)))])%list ∧
    mode app' = Navigate ∧ actions app' = [] ∧ inputs (cmd_details app') = [].
Proof.
  intros Hm Hcom Hplain Hg Ha Hsus Hq Hsel Hf Hin Hk. rewrite presses_app.
  destruct (presses_inputs env keys app com acts input) as (ks & d' & -> & H1 & H2 & H3); [done..|].
  assert (edits enter = false) as He
    by (by destruct (Hplain _ _ Hg) as [(k & [= ->] & ?) _]).
  destruct (turn_enter env enter (set_keys ks (set_details d' app)) com _ Hm Hcom Hg He Ha Hsus Hq
              H2 H3 H1) as (app' & Ht & H).
  exists app'. cbn [result_bind presses]. rewrite Ht. done.
Qed.
(** *** Drawing and answers *)

Definition panics {A} (r : result fault A) : Prop := ∃ w, r = Panic w.

Lemma channel_list_outside width s d ts info details :
  last_result word s ChanList = (Some ts, info) → parse_channel_details word info = Ok details →
  (length details ≤ cd_index d)%nat → ∃ w, channel_list word s width d = Panic w.
Proof.
  intros Hl Hp Hlen. unfold channel_list. rewrite Hl. unfold query_title, ts_to_string.
  destruct (from_timestamp _); [|by eexists]. cbn [expect result_map result_bind]. rewrite Hp.
  unfold minus, arith, index_at. cbn [cd_index set_page]. rewrite (lookup_ge_None_2 _ _ Hlen).
  case_bool_decide; [by eexists|]. destruct overflow_checks; by eexists.
Qed.

(** A node without channels closes the interface: when the list of channels is shown and the
    last answer has fewer channels than the page that is shown, none above all, the next frame
    indexes the pages out of bounds, which is a panic and ends the program. *)
Theorem no_channels_cannot_be_shown env app ts info details :
  cd_display (cmd_details app) = true → selected_command (cmd_details app) = ChanList →
  actions app = [] → last_result word (pool app) ChanList = (Some ts, info) →
  parse_channel_details word info = Ok details →
  (length details ≤ cd_index (cmd_details app))%nat →
  panics (turn word env RenderEvent app).
Proof.
  intros Hdis Hsel Ha Hl Hp Hlen. unfold turn.
  change (handle_event RenderEvent app) with (set_actions (actions app ++ [Render])%list app).
  rewrite Ha. change (work (actions (set_actions ([] ++ [Render])%list app))) with 1%nat.
  cbn [drain actions set_actions Datatypes.app]. unfold process, draw.
  change (cmd_details (set_actions [] (set_actions [Render] app))) with (cmd_details app).
  change (cmd_list (set_actions [] (set_actions [Render] app))) with (cmd_list app).
  change (pool (set_actions [] (set_actions [Render] app))) with (pool app).
  pose proof (draw_free word (screen (env 0%nat)) app) as Hfree. unfold draw in Hfree.
  destruct (cmd_list_draw _ _ _) as [w1|e|w]; [|by destruct (Hfree e)|by eexists].
  cbn [result_bind] in *. unfold cmd_details_draw in *. rewrite Hdis in *.
  destruct (minus _ 3) as [?|e|w]; [|by destruct (Hfree e)|by eexists]. cbn [result_bind] in *.
  destruct (minus _ 25) as [?|e|w]; [|by destruct (Hfree e)|by eexists]. cbn [result_bind] in *.
  rewrite Hsel in *.
  destruct (channel_list_outside (screen (env 0%nat)).1 (pool app) (cmd_details app) ts info details
              Hl Hp Hlen) as [w ->]. by eexists.
Qed.

(** Requests of one second get each other's answers: the history knows a request by its
    second, and the answer that comes first is written to the rows of both, so that the command
    that has no answer yet shows the answer of the other. *)
Theorem answers_of_a_second_are_mixed t c1 i1 c2 i2 app q status output app' :
  requested c1 → requested c2 → pool_ok (pool app) = true →
  queries (execute t c1 i1 app) = (queries app ++ [q])%list →
  http_send auth q = Ok (true, status, output) →
  answer auth (length (queries app)) (execute t c2 i2 (execute t c1 i1 app)) = Ok app' →
  (∀ r, r ∈ rows (pool app') → hr_timestamp r = t → hr_output r = output) ∧
  mk_history_row t (cmd_debug c2) i2 output ∈ rows (pool app').
Proof.
  intros H1 H2 Hp Hq Hsend.
  assert (∀ c i app0, requested c → pool_ok (pool app0) = true → ∃ q,
    queries (execute t c i app0) = (queries app0 ++ [q])%list ∧ q_timestamp q = t ∧
    pool (execute t c i app0) =
      mk_store (rows (pool app0) ++ [mk_history_row t (cmd_debug c) i ""])%list true) as Hex.
  { intros c i app0 Hc Hp0. unfold execute. cbv zeta. rewrite Hp0.
    destruct c; try done; eexists; simpl; split_and!; done. }
  destruct (Hex c1 i1 app H1 Hp) as (q1 & Hq1 & Ht1 & Hp1).
  rewrite Hq in Hq1. apply app_inv_head in Hq1. injection Hq1 as ->.
  destruct (Hex c2 i2 (execute t c1 i1 app) H2) as (q2 & Hq2 & Ht2 & Hp2); [by rewrite Hp1|].
  unfold answer. rewrite Hq2, Hq, Hp2, Hp1, <- (app_assoc (queries app)).
  cbn [Datatypes.app]. rewrite list_lookup_middle by done. rewrite Hsend, Ht1.
  cbn [query_output result_bind]. intros [= <-]. cbn [pool set_store pool_ok]. split.
  - intros r Hr Ht. unfold set_output in Hr. cbn [rows] in Hr.
    apply list_elem_of_fmap in Hr as (r0 & -> & _). revert Ht. by case_bool_decide.
  - unfold set_output. cbn [rows]. apply list_elem_of_fmap.
    exists (mk_history_row t (cmd_debug c2) i2 ""). simpl. rewrite bool_decide_eq_true_2 by done.
    split; [done|]. apply elem_of_app. right. by left.
Qed.
End Runs.

(** ** Witnesses *)

Section Instances.

Definition example_libraries : Libraries := {|
  order_desc := @rev history_row;
  id_json := λ id, "id=" +:+ id;
  fund_channel_json := λ id satoshis, Ok (id +:+ "/" +:+ satoshis);
  channels_from_str := λ s, if contains_str "[]" s then Ok [] else Err "expected a list";
  from_timestamp := λ _, Some "2024-01-01 00:00:00 UTC";
  key_debug := λ _, "KeyEvent";
|}.
Definition example_terminal : Terminal := {|
  same_key := λ k k', bool_decide (k = k');
  toml_tables := λ _, Err "expected a table";
|}.
Definition example_http : Http := {| http_send := λ _ _, Ok (true, "200 OK", "[]") |}.
Definition checked_build : Build := {| overflow_checks := true |}.
#[local] Existing Instance example_libraries.
#[local] Existing Instance example_terminal.
#[local] Existing Instance example_http.
#[local] Existing Instance checked_build.
#[local] Instance example_library_laws : LibraryLaws (LB := example_libraries).
Proof. split. intros i sats. by eexists. Defined.
#[local] Instance example_terminal_laws : TerminalLaws (H := example_terminal).
Proof. split. intros k k' H. apply bool_decide_eq_true in H. by subst. Defined.

Definition english (w : string) : string := w.
Definition example_auth : ConnectionAuth := mk_connection_auth "https://localhost:2244" "" "".
Definition example_env (n : nat) : moment := mk_moment 1700000000 (80, 24)%Z.
Definition key (c : KeyCode) : KeyEvent := mk_key c no_modifiers.
Definition example_app (keys : list KeyEvent) : App :=
  match App_new None (mk_store [] true) with
  | Ok app => match presses english example_env keys app with Ok app => app | _ => app end
  | _ => mk_app [] (mk_tab_bar 0) (mk_cmd_list true 0) (CmdDetails_new []) HistoryList_new
           HistoryDetails_new false false Navigate [] (mk_store [] true) [] []
  end.

Lemma keys_never_fail_witness : ∃ app0 app,
  App_new None (mk_store [] true) = Ok app0 ∧
  reachable english example_auth app0 app ∧ mode app = Command ∧
  ∃ go app', turn english example_env (KeyPress (key (Char "a"))) app = Ok (go, app') ∧
    (mode app' = Command → typing (cmd_details app')) ∧
    (mode app' = Navigate → on_focus (cmd_details app') = None).
Proof.
  assert (∀ keys, reachable english example_auth (example_app []) (example_app keys) → ∀ k,
    turn english example_env (KeyPress k) (example_app keys) =
      Ok (true, example_app (keys ++ [k])) →
    reachable english example_auth (example_app []) (example_app (keys ++ [k]))) as Hstep
    by (intros; by eapply reach_event).
  assert (reachable english example_auth (example_app [])
            (example_app (repeat (key Up) 6 ++ [key Enter]))) as Hr.
  { pose proof (reach_start english example_auth (example_app [])) as H.
    do 6 (apply (Hstep _) with (k := key Up) in H; [|vm_compute; reflexivity]).
    apply (Hstep _) with (k := key Enter) in H; [|vm_compute; reflexivity]. exact H. }
  exists (example_app []), (example_app (repeat (key Up) 6 ++ [key Enter])).
  assert (App_new None (mk_store [] true) = Ok (example_app [])) as Hnew by (vm_compute; reflexivity).
  split; [exact Hnew|]. split; [exact Hr|]. split; [vm_compute; reflexivity|].
  exact (keys_never_fail english example_auth None (mk_store [] true) _ _ example_env
           (KeyPress (key (Char "a"))) Hnew (or_introl eq_refl) Hr eq_refl).
Defined.

Definition connect_app : App := example_app (repeat (key Down) 9 ++ [key Enter]).
Lemma typed_text_is_sent_witness : ∃ app',
  presses english example_env ([key (Char "0"); key (Char "x"); key Backspace; key (Char "2")] ++ [key Enter])
    connect_app = Ok app' ∧
  queries app' = [mk_query 1700000000 true "/v1/peer/connect" "id=02"] ∧
  mode app' = Navigate ∧ actions app' = [] ∧ inputs (cmd_details app') = [].
Proof.
  destruct default_bindings as (nav & com & Hnew & _ & Hcom).
  assert (hm_get Command (keybindings connect_app) = Some com) as Hk.
  { assert (keybindings connect_app =
            match KeyBindings_new None with Ok b => b | _ => [] end) as -> by (vm_compute; reflexivity).
    rewrite Hnew. reflexivity. }
  assert (keymap_get [key Enter] com = Some TriggerExecute) as Henter.
  { assert (lookup_key (keybindings connect_app) Command [key Enter] = Some TriggerExecute) as H
      by (vm_compute; reflexivity).
    unfold lookup_key in H. rewrite Hk in H. exact H. }
  assert (∃ d, cmd_details connect_app = d ∧ selected_command d = PeerCont ∧
            on_focus d = Some 0%nat ∧ inputs d = [[]]) as (d & Hd & H1 & H2 & H3)
    by (eexists; split; [vm_compute; reflexivity|split_and!; reflexivity]).
  edestruct (typed_text_is_sent english example_env
           [key (Char "0"); key (Char "x"); key Backspace; key (Char "2")] (key Enter)
           connect_app com command_actions []) as (app' & Hp & Hq & Hrest).
  all: try exact Hk; try exact Hcom; try exact Henter; try (rewrite Hd; assumption).
  1, 2, 3, 4: vm_compute; reflexivity.
  - repeat constructor.
  - exists app'. split; [exact Hp|]. split; [|exact Hrest]. rewrite Hq. vm_compute. reflexivity.
Defined.

(** The list of channels was asked for and the answer is there. *)
Definition list_app : App :=
  match answer example_auth 0 (example_app (repeat (key Up) 7 ++ [key Enter])) with
  | Ok app => app
  | _ => example_app []
  end.
Lemma no_channels_cannot_be_shown_witness :
  rows (pool list_app) = [mk_history_row 1700000000 "ChanList" "" "[]"] ∧
  panics (turn english example_env RenderEvent list_app).
Proof.
  split; [vm_compute; reflexivity|].
  apply (no_channels_cannot_be_shown english example_env list_app 1700000000
           (newline +:+ "[]" +:+ newline) []); try (vm_compute; reflexivity).
Defined.

Lemma answers_of_a_second_are_mixed_witness :
  let app := example_app [] in
  ∃ app', answer example_auth 0 (execute 7 PeerCont "02" (execute 7 NodeInfo "" app)) = Ok app' ∧
    (∀ r, r ∈ rows (pool app') → hr_timestamp r = 7 → hr_output r = "[]") ∧
    mk_history_row 7 "PeerCont" "02" "[]" ∈ rows (pool app').
Proof.
  intros app. eexists. split; [vm_compute; reflexivity|].
  apply (answers_of_a_second_are_mixed example_auth 7 NodeInfo "" PeerCont "02" app
           (mk_query 7 false "/v1/getinfo" "") "200 OK" "[]"); vm_compute; reflexivity.
Defined.

Lemma queue_is_emptied_witness :
  let app := send [SwitchTab; NavUp; EnterCmdMode] (example_app []) in
  (work (actions app) ≤ 9)%nat ∧
  fault_free (drain english 9 example_env app) ∧
  ∀ app', drain english 9 example_env app = Ok app' → actions app' = [].
Proof.
  intros app. assert (work (actions app) ≤ 9)%nat as H by (vm_compute; lia).
  split; [exact H|]. apply (queue_is_emptied english example_env app 9 H).
Defined.
End Instances.

(** A user who binds the letter a to [TriggerExecute] while a command is being typed: these are
    not [safe_bindings], and the first a that is typed panics, as it is also taken for text when
    the inputs are gone. *)
Section UserBindings.
#[local] Existing Instance example_libraries.
#[local] Existing Instance checked_build.
#[local] Existing Instance example_http.

Definition letter_terminal : Terminal := {|
  same_key := λ k k', bool_decide (k = k');
  toml_tables := λ _, Ok [("Command", [("<a>", "TriggerExecute")])];
|}.
#[local] Existing Instance letter_terminal.

Definition letter_app : result fault App :=
  match App_new (Some "keybinding.toml") (mk_store [] true) with
  | Ok app => presses english example_env (repeat (key Up) 6 ++ [key Enter])%list app
  | Err _ | Panic _ => Panic "no bindings"
  end.

Example executing_letter_panics :
  match letter_app with
  | Ok app => mode app = Command ∧ lookup_key (keybindings app) Command [key (Char "a")] = Some TriggerExecute ∧
              turn english example_env (KeyPress (key (Char "a"))) app = Panic "index out of bounds"
  | _ => False
  end.
Proof. vm_compute. split_and!; reflexivity. Qed.
End UserBindings.
