(* ===== verification/TuiConnect.v ===== *)
(** * The interface in front of a deployed node (src/tui/src/app.rs, components/command/query.rs)

    [ConnectionAuth::new] reads the certificate and the admin macaroon from the secrets of the
    deployment manager; every request of the interface carries them. The theorem puts the
    manager's files, the node that was started with its mnemonic and the interface together. *)

From Stdlib Require Import Ascii.
From stdpp Require Import gmap.
From S2P Require Import Prelude Text RustStd Files Config Auth Keys Deploy Sql Keybinding Tui TuiApp TuiRuns ApiRoutes.

#[local] Open Scope string_scope.
#[local] Open Scope Z_scope.

(** ** The files of the manager *)

Section Operations.
Context {OS : Os}.

Definition not_found (what : string) : string :=
  "Could not find " +:+ what +:+ " under secrets, please provide a correct one with `--secrets`".

(** A file that must exist and be readable. *)
Definition read_secret (what path : string) : filem string :=
  let* there := fs_exists path in
  if negb there then cmd_err (LibraryError (not_found what))
  else cmd_map_err (λ _, LibraryError ("Could not read " +:+ what)) (fs_read path).

Definition ConnectionAuth_new (secrets url : string) : filem ConnectionAuth :=
  let* pem := read_secret "pem" (path_join (path_join secrets "lightning") "ca.pem") in
  let* macaroon := read_secret "macaroon" (path_join secrets "admin.macaroon") in
  cmd_ret (mk_connection_auth url pem macaroon).

End Operations.

(** ** Requests (query.rs) *)

Record wire := mk_wire { w_method : method; w_url : string; w_headers : list (string * string);
  w_body : string }.

(** reqwest: certificates and clients, urls, and an exchange with the server: the status and the
    body, or why there is none. *)
Class Reqwest := {
  certificate_from_pem : string → bool;
  client_builds : string → bool;
  url_join : string → string → option string;
  exchange : string → wire → result string (Z * result string string);
  status_text : Z → string;
}.

(** The bytes of a header: no control characters but the tab. *)
Definition code (c : ascii) : Z := Z.of_nat (nat_of_ascii c).
Definition header_byte (c : ascii) : bool := ((32 <=? code c) && negb (code c =? 127)) || (code c =? 9).
(** [HeaderValue::to_str] on the server: visible ASCII and tabs. *)
Definition visible_byte (c : ascii) : bool := ((32 <=? code c) && (code c <=? 126)) || (code c =? 9).
Definition all_bytes (p : ascii → bool) (s : string) : bool := forallb p (String.list_ascii_of_string s).
Definition to_str (value : string) : option string :=
  if all_bytes visible_byte value then Some value else None.

Section Requests.
Context {RQ : Reqwest}.

Definition client (pem : string) : result string () :=
  if certificate_from_pem pem && client_builds pem then Ok ()
  else Panic "called `Result::unwrap()` on an `Err` value".
Definition send_wire (pem : string) (w : wire) : result string (Z * result string string) :=
  if forallb (all_bytes header_byte) (w_headers w).*2 then exchange pem w
  else Err "builder error: failed to parse header value".
Definition respond (r : result string (Z * result string string)) :
    result string (bool * string * string) :=
  let? (status, text) := r in
  match text with
  | Ok data => Ok ((200 <=? status) && (status <=? 299), status_text status, data)
  | _ => Panic "called `Result::unwrap()` on an `Err` value"
  end.

Definition get (auth : ConnectionAuth) (uri : string) : result string (bool * string * string) :=
  let? _ := client (auth_pem auth) in
  let? url := expect "get should be correct" (url_join (auth_url auth) uri) in
  respond (send_wire (auth_pem auth) (mk_wire GET url [("Macaroon", auth_macaroon auth)] "")).
Definition post (auth : ConnectionAuth) (uri payload : string) :
    result string (bool * string * string) :=
  let? _ := client (auth_pem auth) in
  let? url := expect "post should be correct" (url_join (auth_url auth) uri) in
  respond (send_wire (auth_pem auth)
    (mk_wire POST url [("Macaroon", auth_macaroon auth); ("Content-Type", "application/json")] payload)).
(** What the thread of a request calls. *)
#[export] Instance reqwest_http : Http := {|
  http_send auth q := if q_post q then post auth (q_uri q) (q_payload q) else get auth (q_uri q)
|}.
End Requests.

(** The headers as the server sees them: names do not depend on their case. *)
Definition server_headers (w : wire) : headers := λ name,
  (λ h, to_str h.2) <$> find (λ h, bool_decide (to_ascii_lowercase h.1 = name)) (w_headers w).

(** The route of a request. *)
Definition method_of (q : query) : method := if q_post q then POST else GET.
Definition routes_of (a : access) : list (string * method) :=
  match a with Readonly => readonly_routes | Admin => admin_routes end.
Definition served (q : query) : Prop := ∃ a, (q_uri q, method_of q) ∈ routes_of a.

(** ** Every request has a route *)

Section Queries.
Context {LB : Libraries} {BU : Build} {TM : Terminal} {HT : Http}.
Variable word : string → string.
Variable auth : ConnectionAuth.

Definition all_served (app : App) : Prop := Forall served (queries app).

Lemma execute_served now cmd input app : all_served app → all_served (execute now cmd input app).
Proof.
  intros H. unfold all_served, execute. destruct cmd; simpl; try done.
  all: apply Forall_app; split; [done|]; apply Forall_singleton.
  all: first [exists Readonly; refine (bool_decide_unpack _ _); vm_compute; exact I
             |exists Admin; refine (bool_decide_unpack _ _); vm_compute; exact I].
Qed.
Lemma update_queries a app app' : update_components word a app = Ok app' → queries app' = queries app.
Proof.
  unfold update_components. intros H.
  destruct (tab_update _ _ _) as [[? ?]| |]; [|done..].
  destruct (cmd_list_update _ _ _) as [[? ?]| |]; [|done..].
  destruct (cmd_details_update _ _ _) as [[? ?]| |]; [|done..].
  destruct (history_list_update _ _ _ _) as [[? ?]| |]; [|done..]. by injection H as <-.
Qed.
Lemma process_served m a app app' : process word m a app = Ok app' → all_served app → all_served app'.
Proof.
  unfold process. intros H Hs.
  destruct (match a with Tick => _ | _ => _ end) as [app1| |] eqn:H1; [|done..].
  apply update_queries in H. unfold all_served. rewrite H. change (all_served app1).
  destruct a; try (injection H1 as <-); try done.
  1, 2: destruct (draw _ _ _) as [[? ?]| |] eqn:Hd; [|done..];
    apply draw_actions in Hd as [? ->]; injection H1 as <-; done.
  by apply execute_served.
Qed.
Lemma drain_served fuel env app app' :
  drain word fuel env app = Ok app' → all_served app → all_served app'.
Proof.
  revert app. induction fuel as [|fuel IH]; intros app; cbn [drain];
    destruct (actions app) as [|a rest]; try done; try congruence.
  destruct (process _ _ _ _) as [app1| |] eqn:Hp; [|done..]. intros H Hs.
  eapply IH; [exact H|]. eapply process_served; [exact Hp|done].
Qed.
Lemma handle_event_queries e app : queries (handle_event e app) = queries app.
Proof. destruct e; try done. simpl. unfold key_event. by repeat case_match. Qed.

Lemma turn_served env e app go app' :
  turn word env e app = Ok (go, app') → all_served app → all_served app'.
Proof.
  unfold turn. intros H Hs. destruct (drain _ _ _ _) as [app1| |] eqn:Hd; [|done..].
  apply drain_served in Hd; [|unfold all_served; by rewrite handle_event_queries].
  simpl in H. destruct (should_suspend app1); by injection H as _ <-.
Qed.
Lemma answer_served i app app' : answer auth i app = Ok app' → all_served app → all_served app'.
Proof.
  unfold answer. intros H Hs. destruct (queries app !! i); [|by injection H as <-].
  destruct (query_output _); [|done..]. injection H as <-. by apply Forall_delete.
Qed.
Lemma reachable_served user s app0 app :
  App_new user s = Ok app0 → reachable word auth app0 app → all_served app.
Proof.
  intros H0. induction 1; [|by eapply turn_served|by eapply answer_served].
  unfold App_new in H0. destruct (KeyBindings_new user); [|done..]. injection H0 as <-. constructor.
Qed.
End Queries.

(** ** The interface and the node *)

(** The text of a macaroon is base64 for URLs. *)
Definition base64_byte (c : ascii) : bool :=
  let n := code c in
  ((48 <=? n) && (n <=? 57)) || ((65 <=? n) && (n <=? 90)) || ((97 <=? n) && (n <=? 122)) ||
  (n =? 45) || (n =? 95) || (n =? 61).
Class TextLaws `{Seeds} := {
  mac_serialize_base64 m text : mac_serialize m = Ok text → all_bytes base64_byte text = true;
}.

Lemma all_bytes_impl p q s : (∀ c, p c = true → q c = true) →
  all_bytes p s = true → all_bytes q s = true.
Proof. unfold all_bytes. rewrite !forallb_forall. intros Hpq H c Hc. by apply Hpq, H. Qed.
Lemma base64_visible c : base64_byte c = true → visible_byte c = true.
Proof. unfold base64_byte, visible_byte. cbv zeta. lia. Qed.
Lemma visible_header c : visible_byte c = true → header_byte c = true.
Proof. unfold visible_byte, header_byte. lia. Qed.

Lemma read_secret_run {OS : Os} what path s content : s !! path = Some content →
  stat_ok s path = true → read_ok s path = true → read_secret what path s = (Ok content, s).
Proof.
  intros Hs Hst Hr. unfold read_secret, fs_exists, fs_read, cmd_map_err, cmd_bind.
  rewrite Hs, Hst, (bool_decide_true (is_Some (Some content))) by done. simpl. by rewrite Hr, Hs.
Qed.

(** A request with a macaroon that opens every route reaches the server and is let in. *)
Lemma request_is_let_in {RQ : Reqwest} {MC : Macaroons} url pem macaroon m k q :
  all_bytes visible_byte macaroon = true → mac_deserialize macaroon = Some m →
  (∀ a, authorized k a m = true) → client pem = Ok () → is_Some (url_join url (q_uri q)) →
  ∃ w, http_send (mk_connection_auth url pem macaroon) q = respond (exchange pem w) ∧
    w_method w = method_of q ∧ w_body w = (if q_post q then q_payload q else "") ∧
    ∀ a, guard k a (server_headers w) = Ok ().
Proof.
  intros Hv Hd Ha Hc [u Hu].
  assert (all_bytes header_byte macaroon = true) as Hh by (eapply all_bytes_impl, Hv; apply visible_header).
  assert (∀ w, (λ h, to_str h.2) <$> find (λ h, bool_decide (to_ascii_lowercase h.1 = "macaroon"))
      (w_headers w) = Some (Some macaroon) →
    find (λ h, bool_decide (to_ascii_lowercase h.1 = "sec-websocket-protocol")) (w_headers w) = None →
    ∀ a, guard k a (server_headers w) = Ok ()) as Hg.
  { intros w Hm Hws a. unfold guard, from_request_parts, server_headers. rewrite Hws. simpl.
    rewrite Hm. simpl. rewrite Hd. by rewrite Ha. }
  assert (to_str macaroon = Some macaroon) as Ht by (unfold to_str; by rewrite Hv).
  unfold http_send, method_of, reqwest_http. destruct (q_post q); [unfold post|unfold get];
    cbn [auth_pem auth_url auth_macaroon]; rewrite Hc, Hu; cbn [result_bind expect];
    (eexists; split; [unfold send_wire; simpl; rewrite Hh; done|]);
    (split; [done|split; [done|]]); apply Hg; simpl; by rewrite ?Ht.
Qed.

Section Theorems.
Context {OS : Os} {TL : ToolLaws} {MT : MgrTypes} {DL : DeployLib}.
Context {MC : Macaroons} {ML : MacaroonLaws} {SD : Seeds} {SL : SeedLaws} {XL : TextLaws}.
Context {LB : Libraries} {BU : Build} {TM : Terminal} {RQ : Reqwest}.

Lemma prepare_install_macaroons config disk fresh s u s' :
  prepare_install config false disk fresh s = (Ok u, s') →
  ∃ s1, generate_mnemonic_and_macaroons (secret_directory (global config)) fresh s1 = (Ok u, s').
Proof.
  intros H. unfold prepare_install in H.
  do 6 apply cmd_bind_inv in H as (? & ? & _ & H). apply cmd_bind_inv in H as (? & s1 & _ & H).
  exists s1. exact H.
Qed.

(** [C15] The interface gets in with what the manager made. After an installation that generated
    the secrets on this machine (not with the option that leaves them to the host), for a host
    with a valid name: if the files can be read, the client library takes the certificate of the
    manager, and the given address can be joined with the paths of the server's routes, then
    [ConnectionAuth::new] on the directory of the secrets succeeds, and in every state that the
    interface comes to, each request it has started, sent with that certificate and that
    macaroon, goes to a route of the server and passes the macaroon layer of every node that was
    started with the mnemonic of the manager. *)
Theorem interface_is_let_in config disk fresh s u s' name h url words :
  prepare_install config false disk fresh s = (Ok u, s') →
  let dir := secret_directory (global config) in
  hosts config !! name = Some h → h_name h = name → host_label (h_name h) = true →
  (∀ p, stat_ok s' p = true ∧ read_ok s' p = true) →
  (∀ pem, s' !! path_join (path_join dir "lightning") "ca.pem" = Some pem → client pem = Ok ()) →
  (∀ a uri m, (uri, m) ∈ routes_of a → is_Some (url_join url uri)) →
  s' !! path_join dir "mnemonic" = Some words →
  ∃ auth, ConnectionAuth_new dir url s' = (Ok auth, s') ∧
  ∀ node path fresh' m node', node !! path = Some words → read_ok node path = true →
    KeyGenerator_init path fresh' node = (Ok m, node') →
  ∀ word user history app0 app q,
    App_new user history = Ok app0 → reachable word auth app0 app → q ∈ queries app →
  ∃ w a, http_send auth q = respond (exchange (auth_pem auth) w) ∧
    (q_uri q, w_method w) ∈ routes_of a ∧
    guard (macaroon_key_generate (macaroon_seed m)) a (server_headers w) = Ok ().
Proof.
  intros Hp dir Hh Hname Hl Hok Hpem Hurl Hwords.
  destruct (prepare_install_leaves _ _ _ _ _ _ _ _ _ Hp Hh Hname Hl) as (_ & _ & Hca & _).
  destruct (Hca "ca.pem" ltac:(by left)) as [pem Hc].
  apply prepare_install_macaroons in Hp as [s1 Hp].
  apply manager_macaroons in Hp as (words' & m & Hw & Hinit & (text & Ht & Hser & Hde) & _).
  pose proof (eq_trans (eq_sym Hw) Hwords) as [= ->].
  exists (mk_connection_auth url pem text). split.
  { unfold ConnectionAuth_new. erewrite cmd_bind_ok by (apply read_secret_run; [exact Hc|apply Hok..]).
    by erewrite cmd_bind_ok by (apply read_secret_run; [exact Ht|apply Hok..]). }
  intros node path fresh' m' node' Hnode Hr Hm'. rewrite Hinit in Hm' by done. injection Hm' as <- _.
  intros word user history app0 app q Happ0 Hreach Hq.
  pose proof (reachable_served _ _ _ _ _ _ Happ0 Hreach) as Hs. unfold all_served in Hs.
  rewrite Forall_forall in Hs. destruct (Hs q Hq) as [a Ha].
  set (k := macaroon_key_generate (macaroon_seed m)).
  destruct (request_is_let_in url pem text (admin_macaroon k) k q)
    as (w & Hsend & Hmethod & _ & Hguard).
  - eapply all_bytes_impl, mac_serialize_base64, Hser. apply base64_visible.
  - exact Hde.
  - intros b. apply admin_opens.
  - by apply Hpem.
  - by eapply Hurl.
  - exists w, a. by rewrite Hmethod.
Qed.
End Theorems.

(** ** Concrete inputs *)

Section Instances.
#[local] Existing Instance example_mgr_types.
#[local] Existing Instance example_tools.
#[local] Existing Instance example_macaroons.
#[local] Existing Instance example_seeds.
#[local] Existing Instance example_deploy_lib.
#[local] Existing Instance example_libraries.
#[local] Existing Instance example_terminal.
#[local] Existing Instance checked_build.

#[local] Instance example_reqwest : Reqwest := {|
  certificate_from_pem _ := true; client_builds _ := true;
  url_join base uri := Some (base +:+ uri);
  exchange _ _ := Ok (200, Ok "[]"); status_text _ := "200 OK" |}.
#[local] Instance example_text_laws : TextLaws (MC := example_macaroons).
Proof. split. intros m text. simpl. by repeat case_bool_decide; intros [= <-]. Defined.

Lemma interface_is_let_in_witness :
  ∃ auth, ConnectionAuth_new (secret_directory (global example_config)) "https://kld-00:2244"
            example_install.2 = (Ok auth, example_install.2).
Proof.
  destruct (interface_is_let_in (TL := example_tool_laws) (ML := example_macaroon_laws)
    (SL := example_seed_laws) example_config "secret" (Ok (true : @Mnemonic _ example_seeds)) ∅ ()
    example_install.2 "kld-00" example_kld "https://kld-00:2244" "abandon") as (auth & Hauth & _).
  - rewrite <- example_install_ok. apply surjective_pairing.
  - exact example_kld_lookup.
  - vm_compute. reflexivity.
  - vm_compute. reflexivity.
  - done.
  - done.
  - intros a uri m _. by eexists.
  - vm_compute. reflexivity.
  - exists auth. exact Hauth.
Defined.

(** The request of the page of the node, as the server of the example gets it. *)
Example node_info_is_let_in :
  guard (MC := example_macaroons) () Readonly
    (server_headers (mk_wire GET "https://kld-00:2244/v1/getinfo" [("Macaroon", "admin")] "")) = Ok ().
Proof. vm_compute. reflexivity. Qed.
End Instances.
