(* ===== verification/Terminal.v ===== *)
(** * The terminal (src/tui/src/tui.rs, the panic handler of utils.rs, the frame of [App::run])

    [Tui] owns the terminal: raw mode, the alternate screen, the cursor, and the task that turns
    input and two timers into events. [App::run] enters and leaves it, also for a suspension, and
    the panic handler leaves it. Any operation on the terminal may fail: [faults] says for the
    next ones whether they do. The timers and the scheduler are arguments. *)

From S2P Require Import Prelude Keybinding TuiApp TuiConnect.

#[local] Open Scope string_scope.

(** ** The task of the events *)

(** The events of the terminal; a mouse event is not looked at. *)
Inductive Event :=
| Init | EvQuit | EvError | Closed | EvTick | EvRender | FocusGained | FocusLost | Paste (s : string)
| Key (k : KeyEvent) | Mouse | EvResize (w h : Z).

Inductive CrosstermEvent :=
| CKey (k : KeyEvent) (press : bool) | CMouse | CResize (w h : Z) | CFocusLost | CFocusGained
| CPaste (s : string).
(** What one round of the loop waits for: an answer of the reader ([None]: its end), a timer, or
    the cancellation. *)
Inductive arm :=
| Input (e : option (result string CrosstermEvent)) | TickTimer | RenderTimer | Cancelled.

(** What an arm sends; a key that is held or released sends nothing. *)
Definition sends (a : arm) : list Event :=
  match a with
  | Input (Some (Ok (CKey k press))) => if press then [Key k] else []
  | Input (Some (Ok CMouse)) => [Mouse]
  | Input (Some (Ok (CResize w h))) => [EvResize w h]
  | Input (Some (Ok CFocusLost)) => [FocusLost]
  | Input (Some (Ok CFocusGained)) => [FocusGained]
  | Input (Some (Ok (CPaste s))) => [Paste s]
  | Input (Some _) => [EvError]
  | Input None => []
  | TickTimer => [EvTick]
  | RenderTimer => [EvRender]
  | Cancelled => []
  end.
Fixpoint pump_rounds (l : list arm) : list Event :=
  match l with
  | [] => []
  | Cancelled :: _ => []
  | a :: l => sends a ++ pump_rounds l
  end.
(** All that the task of [start] sends. *)
Definition pump (l : list arm) : list Event := Init :: pump_rounds l.

(** What the loop of the application makes of it. *)
Definition app_event (e : Event) : event :=
  match e with
  | EvQuit => QuitEvent
  | EvTick => TickEvent
  | EvRender => RenderEvent
  | EvResize w h => ResizeEvent w h
  | Key k => KeyPress k
  | _ => OtherEvent
  end.

(** ** The terminal *)

Record terminal := mk_terminal {
  raw_mode : bool; alternate_screen : bool; cursor_hidden : bool;
  mouse_capture : bool; bracketed_paste : bool;
}.
(** As a shell expects it. *)
Definition cooked : terminal := mk_terminal false false false false false.

Section Rates.
(** [f64]. *)
Context {Rate : Type} (four sixty : Rate).

Record Tui := mk_tui {
  cancelled : bool; frame_rate : Rate; tick_rate : Rate; mouse : bool; paste : bool;
}.

(** The terminal, the operations that fail, and the [Tui] of [App::run]. *)
Record screen := mk_screen { term : terminal; faults : list bool; current : option Tui }.
Definition set_current (t : option Tui) (s : screen) : screen := mk_screen (term s) (faults s) t.
Abbreviation io := (cmd screen string).

(** An operation that fails changes nothing. *)
Definition operate (f : terminal → terminal) : io () := λ s,
  match faults s with
  | true :: fs => (Err "I/O error", mk_screen (term s) fs (current s))
  | fs => (Ok (), mk_screen (f (term s)) (tail fs) (current s))
  end.
Definition set_raw b : io () := operate (λ t,
  mk_terminal b (alternate_screen t) (cursor_hidden t) (mouse_capture t) (bracketed_paste t)).
Definition set_screen b : io () := operate (λ t,
  mk_terminal (raw_mode t) b b (mouse_capture t) (bracketed_paste t)).
Definition set_mouse b : io () := operate (λ t,
  mk_terminal (raw_mode t) (alternate_screen t) (cursor_hidden t) b (bracketed_paste t)).
Definition set_paste b : io () := operate (λ t,
  mk_terminal (raw_mode t) (alternate_screen t) (cursor_hidden t) (mouse_capture t) b).
Definition only_io : io () := operate id.
Definition is_raw_mode_enabled : io bool := let* _ := only_io in λ s, (Ok (raw_mode (term s)), s).
Definition iwhen (b : bool) (m : io ()) : io () := if b then m else cmd_ret ().

(** ** Operations of [Tui] *)

(** [Tui::new]: the rates are exchanged. [tokio::spawn] panics outside of a runtime. *)
Definition Tui_new (in_runtime : bool) (tick frame : option Rate) : io Tui :=
  let* _ := only_io in
  if in_runtime
  then cmd_ret (mk_tui false (default four tick) (default sixty frame) false false)
  else cmd_panic "there is no reactor running, must be called from the context of a Tokio 1.x runtime".

Definition cancel (t : Tui) : Tui := mk_tui true (frame_rate t) (tick_rate t) (mouse t) (paste t).
(** The old task is cancelled, the new one gets a new token. *)
Definition start (t : Tui) : Tui := mk_tui false (frame_rate t) (tick_rate t) (mouse t) (paste t).

(** The loop of [stop]: [finished n aborted] says whether the task has ended after [n]
    milliseconds. The number of times it slept. *)
Fixpoint stop_loop (fuel : nat) (finished : nat → bool → bool) (counter : nat) (aborted : bool) :
    option nat :=
  if finished counter aborted then Some counter
  else match fuel with
       | O => None
       | S fuel =>
           let counter := S counter in
           let aborted := aborted || bool_decide (50 < counter)%nat in
           if bool_decide (100 < counter)%nat then Some counter
           else stop_loop fuel finished counter aborted
       end.
Definition stop_fuel : nat := 101.

Definition enter (t : Tui) : io Tui :=
  let* _ := set_raw true in
  let* _ := set_screen true in
  let* _ := iwhen (mouse t) (set_mouse true) in
  let* _ := iwhen (paste t) (set_paste true) in
  cmd_ret (start t).

(** [stop] comes first; it always succeeds ([stop_ends]) and does nothing to the terminal. *)
Definition exit (t : Tui) : io () :=
  let* raw := is_raw_mode_enabled in
  if raw then
    let* _ := only_io in
    let* _ := iwhen (paste t) (set_paste false) in
    let* _ := iwhen (mouse t) (set_mouse false) in
    let* _ := set_screen false in
    set_raw false
  else cmd_ret ().
(** [exit], and the signal that stops the process until the shell lets it go on. *)
Definition suspend (t : Tui) : io () := let* _ := exit t in only_io.

(** [Drop]: [exit().unwrap()]. *)
Definition drop (t : Tui) : io () := λ s,
  match exit t s with
  | (Err e, s) => (Panic ("called `Result::unwrap()` on an `Err` value: " +:+ e), s)
  | r => r
  end.

(** ** The frame of [App::run] *)

(** How the loop ends after some suspensions: by a quit, an error, or a panic. *)
Inductive ending := Quitted | Failed (e : string) | Panicked (why : string).

Definition assign (t : Tui) : io () := λ s, (Ok (), set_current (Some t) s).
Definition with_current {A} (f : Tui → io A) : io A := λ s,
  match current s with Some t => f t s | None => (Panic "no terminal", s) end.

(** The old [Tui] is dropped when the new one is assigned. A quit stops the task once more
    before the exit. *)
Fixpoint loop (suspensions : nat) (e : ending) : io () :=
  match suspensions with
  | S n =>
      let* rates := with_current (λ t, cmd_ret (tick_rate t, frame_rate t)) in
      let* _ := with_current suspend in
      let* t := Tui_new true (Some rates.1) (Some rates.2) in
      let* _ := with_current drop in
      let* _ := assign t in
      let* t := enter t in
      let* _ := assign t in
      loop n e
  | O =>
      match e with
      | Quitted => with_current exit
      | Failed e => cmd_err e
      | Panicked why => cmd_panic why
      end
  end.
(** [run]: at its end the [Tui] is dropped. After a panic the hook ends the process first. *)
Definition run (tick frame : Rate) (suspensions : nat) (e : ending) : io () := λ s,
  match Tui_new true (Some tick) (Some frame) s with
  | (Ok t, s) =>
      let body := let* _ := assign t in let* t := enter t in let* _ := assign t in
                  loop suspensions e in
      match body s with
      | (Panic w, s) => (Panic w, s)
      | (r, s) => match with_current drop s with (Ok _, s) => (r, s) | (_, s) => (Panic "drop", s) end
      end
  | (Err e, s) => (Err e, s)
  | (Panic w, s) => (Panic w, s)
  end.

(** ** Panics *)

Inductive process_end := Exited (code : Z) | Aborted.

(** The hook of [initialize_panic_handler], in a thread that has a runtime or has none.
    [setup_panic] is [human_panic::setup_panic!()], which only a release build calls: it may set
    a hook itself, which [std::panic::set_hook] refuses, with a panic, in a thread that panics;
    in a debug build it is [Ok]. A panic in the hook aborts the process. *)
Definition panic_hook (setup_panic : result string ()) (in_runtime : bool) :
    screen → process_end * screen := λ s,
  let after_setup := match setup_panic with Panic _ => Aborted | _ => Exited 1 end in
  match Tui_new in_runtime None None s with
  | (Ok t, s) =>
      match drop t (snd (exit t s)) with
      | (Panic _, s) => (Aborted, s)
      | (_, s) => (after_setup, s)
      end
  | (Err _, s) => (after_setup, s)
  | (Panic _, s) => (Aborted, s)
  end.

(** [app] from the panic handler on, in the main thread: [main] has a runtime. *)
Definition app_run (setup_panic : result string ()) (tick frame : Rate) (suspensions : nat)
    (e : ending) : screen → process_end * screen :=
  λ s, match run tick frame suspensions e s with
       | (Ok _, s) => (Exited 0, s)
       | (Err _, s) => (Exited 1, s)
       | (Panic _, s) => panic_hook setup_panic true s
       end.

(** ** What is left of the terminal *)

Definition failures (s : screen) : nat := length (filter (λ b, b = true) (faults s)).
(** Out of raw mode the terminal is as before; mouse and paste are never turned on. *)
Definition fine (t : terminal) : Prop :=
  (raw_mode t = false → t = cooked) ∧ mouse_capture t = false ∧ bracketed_paste t = false.
Definition plain (t : Tui) : Prop := mouse t = false ∧ paste t = false.

(** From a terminal in [P], the command ends in [Q]; or it fails in [E], and each failure uses up
    one of those that are to come. *)
Definition triple {A} (P : terminal → Prop) (m : io A) (Q : A → terminal → Prop)
    (E : terminal → Prop) : Prop :=
  ∀ s, P (term s) →
  match m s with
  | (Ok a, s') => Q a (term s') ∧ current s' = current s ∧ (failures s' ≤ failures s)%nat
  | (Err _, s') => E (term s') ∧ current s' = current s ∧ (failures s' < failures s)%nat
  | (Panic _, _) => False
  end.

Lemma triple_bind {A B} P (m : io A) R E (k : A → io B) Q :
  triple P m R E → (∀ a, triple (R a) (k a) Q E) → triple P (let* a := m in k a) Q E.
Proof.
  intros Hm Hk s Hs. specialize (Hm s Hs). unfold cmd_bind.
  destruct (m s) as [[a|e|w] s1]; [|done..]. destruct Hm as (Ha & Hc & Hn).
  specialize (Hk a s1 Ha). destruct (k a s1) as [[b|e|w] s2]; [| |done].
  all: destruct Hk as (Hb & Hc2 & Hn2); split_and!; [done|congruence|lia].
Qed.
Lemma triple_ret {A} (P E : terminal → Prop) (Q : A → terminal → Prop) a :
  (∀ t, P t → Q a t) → triple P (cmd_ret a) Q E.
Proof. intros H s Hs. by split; [apply H|]. Qed.
Lemma triple_ret_bind {A B} (P E : terminal → Prop) (a : A) (k : A → io B) Q :
  triple P (k a) Q E → triple P (let* a := cmd_ret a in k a) Q E.
Proof. done. Qed.
Lemma triple_operate (P : terminal → Prop) f Q (E : terminal → Prop) :
  (∀ t, P t → Q () (f t)) → (∀ t, P t → E t) → triple P (operate f) Q E.
Proof.
  intros HQ HE s Hs. unfold operate, failures. destruct (faults s) as [|[] fs]; simpl; auto 6.
Qed.
Lemma triple_weaken {A} (P P' : terminal → Prop) (m : io A) Q Q' E :
  triple P m Q E → (∀ t, P' t → P t) → (∀ a t, Q a t → Q' a t) → triple P' m Q' E.
Proof.
  intros Hm HP HQ s Hs. specialize (Hm s (HP _ Hs)).
  destruct (m s) as [[a|e|w] s']; [|done..]. destruct Hm as (H & ? & ?). auto.
Qed.

Lemma new_triple P tick frame :
  triple P (Tui_new true tick frame) (λ t tm, P tm ∧ plain t) P.
Proof. eapply triple_bind; [by apply (triple_operate P id (λ _, P))|].
  intros []. apply triple_ret. intros tm H. by split_and!. Qed.

Lemma enter_triple t : plain t → triple (eq cooked) (enter t) (λ t' tm, plain t' ∧ fine tm) fine.
Proof.
  intros [Hm Hp]. unfold enter. rewrite Hm, Hp.
  apply (triple_bind _ _ (λ _ tm, tm = mk_terminal true false false false false));
    [apply triple_operate; by intros tm <-|intros []].
  apply (triple_bind _ _ (λ _ tm, tm = mk_terminal true true true false false));
    [apply triple_operate; by intros tm ->|intros []].
  do 2 apply triple_ret_bind.
  apply triple_ret. by intros tm ->.
Qed.

(** Leaving the terminal restores it, or fails and can be tried again. *)
Lemma exit_triple t : plain t → triple fine (exit t) (λ _, eq cooked) fine.
Proof.
  intros [Hm Hp]. unfold exit, is_raw_mode_enabled. rewrite Hm, Hp.
  apply (triple_bind _ _ (λ r tm, fine tm ∧ raw_mode tm = r)).
  { eapply triple_bind; [by apply (triple_operate fine id (λ _, fine))|].
    intros [] s Hs. by split. }
  intros [|].
  - eapply triple_bind; [by apply (triple_operate _ id (λ _ tm, fine tm ∧ raw_mode tm = true)); [|intros tm []]|].
    intros []. do 2 apply triple_ret_bind.
    apply (triple_bind _ _ (λ _ tm, tm = mk_terminal true false false false false)).
    + apply triple_operate; [|by intros tm []]. intros [] [(_ & H1 & H2) H3]; simpl in *; by subst.
    + intros []. apply triple_operate; by intros tm ->.
  - apply triple_ret. intros tm [[H _] Hr]. symmetry. by apply H.
Qed.
Lemma exit_cooked t : triple (eq cooked) (exit t) (λ _, eq cooked) (eq cooked).
Proof.
  unfold exit, is_raw_mode_enabled.
  apply (triple_bind _ _ (λ r tm, cooked = tm ∧ r = false)).
  { eapply triple_bind; [by apply (triple_operate (eq cooked) id (λ _, eq cooked))|].
    intros [] s Hs. simpl. by rewrite <- Hs. }
  intros [|]; [by intros s [_ ?]|]. by apply triple_ret; intros tm [].
Qed.

(** [drop] and the hook, which try once more. *)
Lemma drop_spec t s : plain t → fine (term s) →
  match drop t s with
  | (Ok _, s') => term s' = cooked ∧ current s' = current s ∧ (failures s' ≤ failures s)%nat
  | (Err _, _) => False
  | (Panic _, s') => fine (term s') ∧ (failures s' < failures s)%nat
  end.
Proof.
  intros Ht Hs. unfold drop. pose proof (exit_triple t Ht s Hs) as H.
  destruct (exit t s) as [[[]|e|w] s']; [|by destruct H as (? & ? & ?)|done]. by destruct H as (<- & ? & ?).
Qed.
Lemma drop_cooked t s : term s = cooked →
  match drop t s with
  | (Ok _, s') => term s' = cooked ∧ current s' = current s ∧ (failures s' ≤ failures s)%nat
  | (Err _, _) => False
  | (Panic _, s') => term s' = cooked
  end.
Proof.
  intros Hs. unfold drop. pose proof (exit_cooked t s (eq_sym Hs)) as H.
  destruct (exit t s) as [[[]|e|w] s']; [|by destruct H|done]. by destruct H as (<- & ? & ?).
Qed.
Lemma cooked_fine : fine cooked.
Proof. done. Qed.
#[local] Hint Resolve cooked_fine : core.

Lemma hook_restores setup s :
  fine (term s) → failures s = 0%nat ∨ term s = cooked → term (panic_hook setup true s).2 = cooked.
Proof.
  intros Hf Hs. unfold panic_hook.
  pose proof (new_triple (λ t, fine t ∧ (term s = cooked → t = cooked)) None None s (conj Hf (λ H, H))) as Hnew.
  destruct (Tui_new true None None s) as [[t|e|w] s1]; [| |done].
  2: { destruct Hnew as ([_ Hc] & _ & Hn). destruct Hs; [lia|by apply Hc]. }
  destruct Hnew as (((Hf1 & Hc1) & Hp) & _ & Hn1).
  assert (term (exit t s1).2 = cooked) as H2.
  { destruct Hs as [H0|Hc].
    - pose proof (exit_triple t Hp s1 Hf1) as H. destruct (exit t s1) as [[[]|e|w] s2]; [|lia|done].
      by destruct H as [H _].
    - pose proof (exit_cooked t s1 (eq_sym (Hc1 Hc))) as H.
      destruct (exit t s1) as [[[]|e|w] s2]; [| |done]; by destruct H as [H _]. }
  pose proof (drop_cooked t _ H2) as Hd. destruct (drop t _) as [[[]|e|w] s3]; [|done|done].
  apply Hd.
Qed.

(** How many failing operations an end can take. *)
Definition tolerated (e : ending) : nat :=
  match e with Quitted => 2 | Failed _ => 1 | Panicked _ => 0 end.
Definition inv (s : screen) : Prop := fine (term s) ∧ ∃ t, current s = Some t ∧ plain t.

Definition loop_post (s : screen) (r : result string () * screen) : Prop :=
  match r with
  | (Ok _, s') => inv s' ∧ term s' = cooked ∧ (failures s' ≤ failures s)%nat
  | (Err _, s') => inv s' ∧ (failures s' ≤ 1)%nat
  | (Panic _, s') => fine (term s') ∧ (failures s' = 0%nat ∨ term s' = cooked)
  end.

(** To enter the terminal with a new [Tui]. *)
Lemma enter_assign t n e s :
  plain t → term s = cooked → (failures s ≤ tolerated e)%nat →
  (∀ s, inv s → (failures s ≤ tolerated e)%nat → loop_post s (loop n e s)) →
  loop_post s ((let* _ := assign t in let* t := enter t in let* _ := assign t in loop n e) s).
Proof.
  intros Hp Hs Hn Hloop. unfold cmd_bind, assign.
  pose proof (enter_triple t Hp (set_current (Some t) s) (eq_sym Hs)) as He. simpl.
  destruct (enter t _) as [[t'|x|w] s1]; [| |done]; destruct He as (He & Hc & Hle);
    change (failures (set_current (Some t) s)) with (failures s) in Hle.
  - destruct He as [Hp' Hf]. specialize (Hloop (set_current (Some t') s1)).
    assert (loop_post (set_current (Some t') s1) (loop n e (set_current (Some t') s1))) as H.
    { apply Hloop; [|simpl; unfold failures in *; simpl; lia]. split; [done|]. by exists t'. }
    destruct (loop n e _) as [[[]|x|w] s2]; try done.
    destruct H as (Hi & Hc' & Hle'). split_and!; [done|done|]. unfold failures in *. simpl in *. lia.
  - split; [|destruct e; simpl in *; lia]. split; [done|]. by exists t.
Qed.

Lemma suspend_triple t : plain t → triple fine (suspend t) (λ _, eq cooked) fine.
Proof.
  intros Hp. apply (triple_bind _ _ (λ _, eq cooked)); [by apply exit_triple|]. intros [].
  apply triple_operate; [done|]. by intros tm <-.
Qed.

Lemma loop_spec n e s : inv s → (failures s ≤ tolerated e)%nat → loop_post s (loop n e s).
Proof.
  revert s. induction n as [|n IH]; intros s [Hf (t & Ht & Hp)] Hn; cbn [loop].
  - destruct e as [|x|w]; simpl in Hn.
    + unfold with_current. rewrite Ht. pose proof (exit_triple t Hp s Hf) as H.
      destruct (exit t s) as [[[]|x|w] s']; [| |done]; destruct H as (Hc & Hcur & Hle); simpl.
      * subst. split_and!; [|done|lia]. split; [by rewrite <- Hc|]. exists t. by rewrite Hcur.
      * split; [|lia]. split; [done|]. exists t. by rewrite Hcur.
    + split; [|lia]. split; [done|]. by exists t.
    + split; [done|]. left. lia.
  - unfold cmd_bind at 1, with_current at 1. rewrite Ht. cbn [cmd_ret].
    unfold cmd_bind at 1, with_current at 1. rewrite Ht.
    pose proof (suspend_triple t Hp s Hf) as Hs.
    destruct (suspend t s) as [[[]|x|w] s1]; [| |done]; destruct Hs as (H1 & Hc1 & Hn1).
    2: { split; [|destruct e; simpl in Hn; lia]. split; [done|]. exists t. by rewrite Hc1. }
    rewrite Ht in Hc1. cbn [fst snd]. unfold cmd_bind at 1.
    pose proof (new_triple (eq cooked) (Some (tick_rate t)) (Some (frame_rate t)) s1 H1) as Hnew.
    destruct (Tui_new true _ _ s1) as [[t2|x|w] s2]; [| |done]; destruct Hnew as (H2 & Hc2 & Hn2).
    2: { split; [|destruct e; simpl in Hn; lia]. split; [by rewrite <- H2|]. exists t.
         by rewrite Hc2. }
    destruct H2 as [H2 Hp2]. rewrite Hc1 in Hc2.
    unfold cmd_bind at 1, with_current at 1. rewrite Hc2.
    pose proof (drop_cooked t s2 (eq_sym H2)) as Hd.
    destruct (drop t s2) as [[[]|x|w] s3]; [|done|]; [|by split; [rewrite Hd|right]].
    destruct Hd as (H3 & Hc3 & Hn3).
    assert (failures s3 ≤ failures s)%nat as Hle by lia.
    pose proof (enter_assign t2 n e s3 Hp2 H3 ltac:(lia) IH) as Hpost.
    unfold loop_post in *. destruct (cmd_bind _ _ s3) as [[[]|x|w] s4]; [|done|done].
    destruct Hpost as (? & ? & ?). split_and!; [done|done|lia].
Qed.

(** [C34] However the interface ends - after any number of suspensions, by a quit, by an error of
    its loop, or by a panic in its thread - the terminal is again as it was before, also when up
    to two, one or no operation on it fails on the way: each operation that fails is tried again
    when the [Tui] is dropped and in the panic handler. But a panic in a thread without a
    runtime, like the threads of the requests, leaves the terminal as the interface has it: the
    panic handler panics itself. All this whatever [setup_panic] of a release build does. *)
Theorem terminal_is_given_back setup tick frame n e s :
  term s = cooked → (failures s ≤ tolerated e)%nat →
  term (app_run setup tick frame n e s).2 = cooked ∧
  ∀ s', term (panic_hook setup false s').2 = term s'.
Proof.
  intros Hs Hn. split.
  2: { intros s'. unfold panic_hook, Tui_new, only_io, cmd_bind, operate. by destruct (faults s') as [|[] fs]. }
  unfold app_run, run.
  pose proof (new_triple (eq cooked) (Some tick) (Some frame) s (eq_sym Hs)) as Hnew.
  destruct (Tui_new true (Some tick) (Some frame) s) as [[t|x|w] s1]; [| |done];
    destruct Hnew as (H1 & _ & Hn1); [|done].
  destruct H1 as [H1 Hp].
  pose proof (enter_assign t n e s1 Hp (eq_sym H1) ltac:(lia) (loop_spec n e)) as Hpost.
  cbv zeta. destruct (cmd_bind (assign t) _ s1) as [[[]|x|w] s2]; cbn [loop_post] in Hpost.
  - destruct Hpost as ([Hf (t2 & Ht2 & Hp2)] & Hc & _). unfold with_current. rewrite Ht2.
    pose proof (drop_cooked t2 s2 Hc) as Hd. destruct (drop t2 s2) as [[[]|x|w] s3]; [apply Hd|done|].
    apply hook_restores; [by rewrite Hd|by right].
  - destruct Hpost as [[Hf (t2 & Ht2 & Hp2)] Hle]. unfold with_current. rewrite Ht2.
    pose proof (drop_spec t2 s2 Hp2 Hf) as Hd. destruct (drop t2 s2) as [[[]|y|w] s3]; [apply Hd|done|].
    destruct Hd as [Hf3 Hn3]. apply hook_restores; [done|left; lia].
  - by destruct Hpost; apply hook_restores.
Qed.

(** A task that does not end is aborted after 50 milliseconds, and given up after 100. *)
Lemma stop_ends finished : ∃ n, stop_loop stop_fuel finished 0 false = Some n ∧ (n ≤ 101)%nat.
Proof.
  assert (∀ fuel n a, (n + fuel = 101)%nat → ∃ k, stop_loop fuel finished n a = Some k ∧ (k ≤ 101)%nat ∨
    fuel = 0%nat) as H.
  { induction fuel as [|fuel IH]; intros n a Hn; [by exists 0%nat; right|]. cbn [stop_loop].
    destruct (finished n a); [exists n; left; split; [done|lia]|].
    cbv zeta. case_bool_decide as Hk; [exists (S n); left; split; [done|lia]|].
    destruct (IH (S n) (a || bool_decide (50 < S n)%nat) ltac:(lia)) as [k [Hi|Hi]];
      [by exists k; left|lia]. }
  destruct (H stop_fuel 0%nat false eq_refl) as [k [Hk|Hk]]; [by exists k|done].
Qed.

(** Keys are handed on in their order, up to the cancellation. *)
Lemma pump_keys l k : Cancelled ∉ l →
  pump (l ++ [Input (Some (Ok (CKey k true))); Cancelled])%list = (pump l ++ [Key k])%list.
Proof.
  intros Hl. unfold pump. simpl. f_equal. induction l as [|a l IH]; [done|].
  apply not_elem_of_cons in Hl as [Ha Hl]. destruct a as [o| | |]; cbn [pump_rounds app];
    [by rewrite IH, app_assoc by done|by rewrite IH by done|by rewrite IH by done|by destruct Ha].
Qed.

(** The rates are exchanged at the start and with every suspension, so that every second stretch
    of the loop has the rates that were asked for. *)
Definition entered : terminal := mk_terminal true true true false false.
Lemma loop_rates n f t :
  loop n Quitted (mk_screen entered [] (Some (mk_tui false f t false false))) =
    (Ok (), mk_screen cooked [] (Some (if Nat.even n then mk_tui false f t false false
                                       else mk_tui false t f false false))).
Proof.
  revert f t. induction n as [|n IH]; intros f t; [done|].
  change (loop (S n) Quitted (mk_screen entered [] (Some (mk_tui false f t false false))))
    with (loop n Quitted (mk_screen entered [] (Some (mk_tui false t f false false)))).
  rewrite IH, Nat.even_succ, <- Nat.negb_even. by destruct (Nat.even n).
Qed.
Lemma rates_are_exchanged tick frame n :
  run tick frame n Quitted (mk_screen cooked [] None) =
    (Ok (), mk_screen cooked [] (Some (if Nat.even n then mk_tui false tick frame false false
                                       else mk_tui false frame tick false false))).
Proof.
  change (run tick frame n Quitted (mk_screen cooked [] None)) with
    (match loop n Quitted (mk_screen entered [] (Some (mk_tui false tick frame false false))) with
     | (Panic w, s) => (Panic w, s)
     | (r, s) => match with_current drop s with (Ok _, s) => (r, s) | (_, s) => (Panic "drop", s) end
     end).
  rewrite loop_rates. by destruct (Nat.even n).
Qed.
End Rates.

(** ** Requests *)

Section Requests.
Context {RQ : Reqwest} {Rate : Type} (four sixty : Rate).

(** A certificate file that holds no certificate is noticed by the thread of the first request,
    which panics, and the terminal stays as the interface has it. *)
Lemma bad_certificate_leaves_the_terminal auth q setup s :
  certificate_from_pem (auth_pem auth) = false →
  (∃ w, http_send (Http := reqwest_http) auth q = Panic w) ∧
  term (panic_hook four sixty setup false s).2 = term s.
Proof.
  intros Hc. split.
  - unfold http_send. simpl. unfold TuiConnect.get, post, client. rewrite Hc. simpl.
    destruct (q_post q); by eexists.
  - unfold panic_hook, Tui_new, only_io, cmd_bind, operate. by destruct (faults s) as [|[] fs].
Qed.
End Requests.

(** ** Concrete runs *)

Section Instances.
#[local] Open Scope nat_scope.

Definition start_screen (fs : list bool) : screen (Rate := nat) := mk_screen cooked fs None.

(** A failure that comes again is the limit: the third one of a quit leaves the terminal. *)
Example too_many_failures :
  term (app_run 4 60 (Ok ()) 1 2 0 Quitted (start_screen [false; false; false; true; true; true])).2%nat
    = entered.
Proof. reflexivity. Qed.

Lemma terminal_is_given_back_witness :
  term (app_run 4 60 (Ok ()) 1 2 3 Quitted (start_screen [false; false; true; true])).2%nat = cooked ∧
  app_run 4 60 (Ok ()) 1 2 3 (Failed "draw") (start_screen []) =
    (Exited 1, mk_screen cooked [] (Some (mk_tui false 2 1 false false)))%nat.
Proof.
  split; [|reflexivity].
  apply (terminal_is_given_back (Rate := nat) 4 60 (Ok ()) 1 2 3 Quitted (start_screen [false; false; true; true]));
    [reflexivity|vm_compute; lia].
Defined.
End Instances.
