(* ===== verification/Startup.v ===== *)
(** * The start of a node (src/kld/src/kld/main.rs, src/kld/src/ldk/controller.rs)

    [run_kld] makes the parts of the process from the mnemonic file, the database and bitcoind;
    [start_ldk] loads what LDK keeps in the database or makes it new, and hands the rest of the
    work to a background task: [sync_to_chain_tip], the listeners, the events. *)

From stdpp Require Import gmap.
From S2P Require Import Prelude Text RustStd Files Auth Keys Sql Fees Bitcoind Ldk Payment LdkDatabase Wallet Node Probe.

#[local] Open Scope string_scope.

(** The objects of LDK that are made at the start. *)
Class Boot `{PB : Probes} := {
  KeysManager : Type;
  keys_manager_new : string → Z → Z → KeysManager;
  Graph : Type;
  graph_new : Network → Graph;
  graph_read : bytes → result string Graph;
  scorer_new : Graph → Scorer;
  scorer_read : Graph → bytes → option Scorer;
  ChannelManager : Type;
  (** The fields of [UserConfig] that [start_ldk] sets, over the defaults. *)
  StartConfig : Type;
  start_config : bool → bool → Z → Z → Z → bool → StartConfig;
  cm_new : KeysManager → StartConfig → Network → BlockHash * Z → ChannelManager;
  cm_read : KeysManager → StartConfig → list ChannelMonitor → bytes →
    result string (BlockHash * ChannelManager);
}.

Inductive boot_error :=
| FileFailure (e : Files.failure)
| DbFailure (e : db_error)
| Fatal (msg : string)
| Context (what : string) (cause : boot_error).

Section Startup.
Context {LT : LdkTypes} {FR : BdkFeeRate} {B : Bdk} {LN : Lightning} {D : Driver} {PB : Probes} {BT : Boot} {OS : Os} {MC : Macaroons} {SD : Seeds}.

(** ** start_ldk *)

(** What [start_ldk] has made when it spawns the background task. *)
Record started := mk_started {
  is_new : bool;
  keys_manager : KeysManager;
  promise_secret : string;
  network_graph : Graph;
  start_scorer : Scorer;
  start_monitors : list (BlockHash * ChannelMonitor);
  user_config : StartConfig;
  best_block : BlockHash * Z;
  channel_manager_blockhash : BlockHash;
  start_manager : ChannelManager;
}.

Definition bootm (S A : Type) : Type := cmd S boot_error A.
Definition ctx {S A} (what : string) (m : bootm S A) : bootm S A := cmd_map_err (Context what) m.
Definition from_db {A} (m : ldkm A) : bootm (conn ldk_tables) A := cmd_map_err DbFailure m.
Definition fatal {S A} (r : result string A) : bootm S A := cmd_lift (map_err Fatal r).

(** The channels are announced, 200 HTLCs and all of the value may be in flight, a channel may
    have any size, and HTLCs for unknown channels are intercepted. *)
Definition user_config_of_start : StartConfig :=
  start_config false true 200 100 18446744073709551615 true.

(** [graph_file] is the file network_graph of the data directory, [info] the answer of
    [get_blockchain_info] (the hash of the best block and the number of blocks), [secs] and
    [nanos] the clock. *)
Definition start_ldk (network : Network) (mnemonic : Mnemonic) (secs nanos : Z)
    (graph_file : file_read) (info : result string (BlockHash * Z)) :
    bootm (conn ldk_tables) started :=
  let* is_first_start := ctx "could not check if database has been initialized"
                           (from_db is_first_start) in
  let keys := keys_manager_new (lightning_seed mnemonic) secs nanos in
  let* graph := ctx "Could not query network graph from database"
                  (fatal (fetch_graph graph_read graph_file)) in
  let graph := default (graph_new network) graph in
  let* scorer := from_db (fetch_scorer (scorer_read graph)) in
  let scorer := default (scorer_new graph) (fst <$> scorer) in
  let* monitors := from_db fetch_channel_monitors in
  let config := user_config_of_start in
  let* (best_block_hash, blocks) := fatal info in
  let best := (best_block_hash, as_u32 blocks) in
  let* (blockhash, manager) :=
    if is_first_start then cmd_ret (best_block_hash, cm_new keys config network best)
    else ctx "failed to query channel manager from database"
           (from_db (fetch_channel_manager (cm_read keys config (snd <$> monitors)))) in
  cmd_ret (mk_started is_first_start keys (promise_seed mnemonic) graph scorer monitors config
             best blockhash manager).

(** ** The background task *)

(** The listeners that are brought to the chain tip: the channel manager and every monitor, each
    from the block it has seen. *)
Inductive listener := ManagerListener | MonitorListener (m : ChannelMonitor).
Definition chain_listeners (st : started) : list (BlockHash * listener) :=
  (channel_manager_blockhash st, ManagerListener) ::
  ((λ '(h, m), (h, MonitorListener m)) <$> start_monitors st).

Inductive background_step :=
| WatchChannel (funding_txo : bytes * Z) (m : ChannelMonitor)
| PollBestTip
| KeepSyncWithChain
| Listen (port : Z)
| KeepChannelPeersConnected
| BroadcastNode
| ProcessEvents
| Exit (code : Z).

(** [synchronize] is [init::synchronize_listeners]. A monitor that the chain monitor refuses is
    only logged. *)
Definition sync_to_chain_tip (synchronize : list (BlockHash * listener) → result string ())
    (st : started) : result string (list background_step) :=
  let? _ := synchronize (chain_listeners st) in
  Ok (((λ '(_, m), WatchChannel (get_funding_txo m) m) <$> start_monitors st)
      ++ [PollBestTip])%list.

(** The steps of the background task, after [wait_for_blockchain_synchronisation]. *)
Definition background (synchronize : list (BlockHash * listener) → result string ())
    (listen : result string ()) (peer_port : Z) (st : started) : list background_step :=
  match sync_to_chain_tip synchronize st with
  | Ok steps =>
      (steps ++ [KeepSyncWithChain; Listen peer_port] ++
       match listen with
       | Ok _ => [KeepChannelPeersConnected; BroadcastNode; ProcessEvents]
       | _ => [Exit 1]
       end)%list
  | _ => [Exit 1]
  end.

(** ** run_kld *)

(** The files, the tables and the fee estimates of the bitcoind client. *)
Record machine := mk_machine {
  files : FS;
  session : conn ldk_tables;
  fees : Priorities;
}.

Definition in_files {A} (m : filem A) : bootm machine A := λ s,
  let '(r, f) := m (files s) in (map_err FileFailure r, mk_machine f (session s) (fees s)).
Definition in_session {A} (m : bootm (conn ldk_tables) A) : bootm machine A := λ s,
  let '(r, c) := m (session s) in (r, mk_machine (files s) c (fees s)).
Definition change_fees (f : Priorities → Priorities) : bootm machine () := λ s,
  (Ok (), mk_machine (files s) (session s) (f (fees s))).

Record run_settings := mk_run_settings {
  mnemonic_path : string;
  data_dir : string;
  run_network : Network;
}.

(** What the process has when it starts to serve: LDK's objects, the seed of the wallet and the
    key of the macaroons. *)
Record serving := mk_serving {
  serve_ldk : started;
  serve_wallet_seed : string;
  serve_mnemonic : Mnemonic;
  serve_macaroon_key : MacaroonKey;
}.

(** The answers of what is outside: the connection to bitcoind, the wallet of bdk from its seed,
    and the socket of the API. *)
Record surroundings := mk_surroundings {
  fresh_mnemonic : result string Mnemonic;
  bitcoind_new : result string ();
  wallet_new : string → result string ();
  clock_secs : Z;
  clock_nanos : Z;
  graph_file : file_read;
  chain_info : result string (BlockHash * Z);
  bind_api : result string ();
}.

Definition run_kld (s : run_settings) (w : surroundings) : bootm machine serving :=
  let* mnemonic := ctx "cannot initialize key generator"
                     (in_files (KeyGenerator_init (mnemonic_path s) (fresh_mnemonic w))) in
  let* _ := fatal (bitcoind_new w) in
  let* _ := change_fees set_lowest_fee_estimates in
  let* _ := ctx "Cannot create wallet" (fatal (wallet_new w (wallet_seed mnemonic))) in
  let* ldk := ctx "Failed to start ldk controller"
                (in_session (start_ldk (run_network s) mnemonic (clock_secs w) (clock_nanos w)
                               (graph_file w) (chain_info w))) in
  let* key := in_files (MacaroonAuth_init (macaroon_seed mnemonic) (data_dir s)) in
  let* _ := fatal (bind_api w) in
  cmd_ret (mk_serving ldk (wallet_seed mnemonic) mnemonic key).

(** [select!]: the signal to quit, or the end of the exporter or of the API server. *)
Inductive ended := QuitSignal | ExporterEnded (r : result string ()) | ServerEnded (r : result string ()).
Definition select (e : ended) : result boot_error () :=
  match e with
  | QuitSignal => Ok ()
  | ExporterEnded r => map_err (λ m, Context "Prometheus exporter failed" (Fatal m)) r
  | ServerEnded r => map_err (λ m, Context "REST API failed" (Fatal m)) r
  end.

(** [main]: the exit code. *)
Definition main (s : run_settings) (w : surroundings) (e : ended) : machine → result string Z * machine :=
  λ m,
  match run_kld s w m with
  | (Ok _, m') => match select e with
                  | Ok _ => (Ok 0%Z, m')
                  | Err _ => (Ok 1%Z, m')
                  | Panic why => (Panic why, m')
                  end
  | (Err _, m') => (Ok 1%Z, m')
  | (Panic why, m') => (Panic why, m')
  end.
End Startup.

(** ** What a node finds when it starts again *)

Section Restart.
Context {LT : LdkTypes} {LL : LdkLaws} {FR : BdkFeeRate} {B : Bdk} {LN : Lightning} {D : Driver} {DW : DriverLaws} {PB : Probes} {BT : Boot} {MC : Macaroons} {SD : Seeds}.
Implicit Types c : conn ldk_tables.

(** What LDK asks the database to keep while the node runs: the channel manager, the scorer, and
    the monitor of a channel with the id of its update. *)
Inductive ldk_call :=
| CallManager (now : Z) (write : result string bytes)
| CallScorer (now : Z) (write : result string bytes)
| CallMonitor (call : monitor_call).
Definition run_ldk_call (p : process) (call : ldk_call) : process :=
  match call with
  | CallManager now write => snd (persist_manager now write p)
  | CallScorer now write => snd (persist_scorer now write p)
  | CallMonitor (now, m, u) => snd (update_persisted_channel true now (get_funding_txo m) m u p)
  end.
Definition monitor_of_call (call : ldk_call) : option monitor_call :=
  match call with CallMonitor call => Some call | _ => None end.

(** While the node runs, LDK calls and the runtime runs spawned tasks, in any order. *)
Inductive node_runs : process → process → Prop :=
| ldk_calls p call : node_runs p (run_ldk_call p call)
| task_runs p p' : task_step p p' → node_runs p p'.

(** The tasks a call spawns; the one of [persist_manager] does nothing. *)
Definition scorer_task (now : Z) (buf : bytes) : task :=
  let row := mk_scorer "scorer" buf now in
  in_task (db_execute (λ t, Ok (LdkDatabase.set_scorer (upsert (has_key sc_id (sc_id row)) row (scorer t)) t)))
    log_done.
Definition tasks_of_call (call : ldk_call) : list task :=
  match call with
  | CallManager _ (Ok _) => [λ s, (Ok (), s)]
  | CallScorer now (Ok buf) => [scorer_task now buf]
  | CallManager _ _ | CallScorer _ _ => []
  | CallMonitor call => [call_task call]
  end.

Lemma run_ldk_call_tasks call p :
  run_ldk_call p call = mk_process (db p) (completed p) (tasks p ++ tasks_of_call call).
Proof.
  destruct call as [now [buf|e|w]|now [buf|e|w]|[[now m] u]]; simpl; rewrite ?app_nil_r; try done;
    by destruct p.
Qed.

Lemma run_ldk_calls calls p :
  fold_left run_ldk_call calls p =
    mk_process (db p) (completed p) (tasks p ++ (calls ≫= tasks_of_call)).
Proof.
  revert p. induction calls as [|call calls IH]; intros p; simpl.
  { rewrite app_nil_r. by destruct p. }
  rewrite IH, run_ldk_call_tasks. simpl. by rewrite <- app_assoc.
Qed.

Lemma calls_are_runs calls p : rtc node_runs p (fold_left run_ldk_call calls p).
Proof.
  revert p. induction calls as [|call calls IH]; intros p; [apply rtc_refl|].
  eapply rtc_l; [apply ldk_calls|]. apply IH.
Qed.

(** No task writes the table of the channel manager, whether its statement runs or fails. *)
Definition keeps_manager (t : task) : Prop :=
  ∀ s, channel_manager (tables (fst (snd (t s)))) = channel_manager (tables (fst s)).

Lemma keeps_manager_execute f (ok : task) :
  (∀ t, channel_manager (f t) = channel_manager t) → keeps_manager ok →
  keeps_manager (in_task (db_execute (λ t, Ok (f t))) ok).
Proof.
  intros Hf Hok [c done]. unfold in_task, db_execute, cmd_map_err.
  destruct (execute (λ t, Ok (f t)) c) as [r c'] eqn:He.
  destruct (execute_atomic _ _ _ _ He) as [[-> [= Ht]]|[Hr Ht]].
  - simpl. rewrite Hok. simpl. by rewrite <- Ht, Hf.
  - destruct r as [[]| |]; simpl; [done| |]; by rewrite Ht.
Qed.

Lemma keeps_manager_call call : Forall keeps_manager (tasks_of_call call).
Proof.
  destruct call as [now [buf|e|w]|now [buf|e|w]|[[now m] u]]; simpl; repeat constructor.
  - by apply keeps_manager_execute.
  - apply keeps_manager_execute; [done|]. by intros [].
Qed.

Lemma node_keeps_manager p p' :
  rtc node_runs p p' → Forall keeps_manager (tasks p) →
  channel_manager (tables (db p')) = channel_manager (tables (db p)).
Proof.
  induction 1 as [|p1 p2 p3 Hstep _ IH]; [done|]. intros Hts.
  destruct Hstep as [p call|p p2 [l1 t l2 c done r c' done' Ht]].
  - rewrite IH; rewrite run_ldk_call_tasks; simpl; [done|].
    apply Forall_app. split; [done|apply keeps_manager_call].
  - simpl in *. apply Forall_app in Hts as [H1 [Hk H2]%Forall_cons].
    rewrite IH by (by apply Forall_app). specialize (Hk (c, done)). by rewrite Ht in Hk.
Qed.

Lemma run_mixed_tasks calls : ∀ done before c,
  online c → monitors_of before (channel_monitors (tables c)) →
  ∃ c' done', run_tasks (calls ≫= tasks_of_call) (c, done) = (c', done') ∧ online c' ∧
    channel_manager (tables c') = channel_manager (tables c) ∧
    monitors_of (before ++ omap monitor_of_call calls) (channel_monitors (tables c')).
Proof.
  induction calls as [|call calls IH]; intros done before c Hc Hm.
  { exists c, done. by rewrite app_nil_r. }
  destruct call as [now [buf|e|w]|now [buf|e|w]|call]; simpl; try by apply IH.
  - unfold scorer_task, in_task, db_execute, cmd_map_err.
    erewrite execute_online by done. simpl.
    edestruct (IH done before) as (c' & done' & Hrun & Hc' & Ht & Hm'); cycle 2.
    exists c', done'. split_and!; [exact Hrun|done|by rewrite Ht|done].
    { done. }
    done.
  - rewrite call_task_run by done. simpl.
    edestruct (IH (done ++ [(get_funding_txo call.1.2, call.2)])%list (before ++ [call])%list)
      as (c' & done' & Hrun & Hc' & Ht & Hm'); cycle 2.
    exists c', done'. split_and!; [done..| |by rewrite <- app_assoc in Hm'].
    { by rewrite Ht. }
    { done. }
    by apply monitors_of_upsert.
Qed.

Lemma from_db_ok {A} (m : ldkm A) c a c' : m c = (Ok a, c') → from_db m c = (Ok a, c').
Proof. intros H. unfold from_db, cmd_map_err. by rewrite H. Qed.
Lemma from_db_inv {A} (m : ldkm A) c a c' : from_db m c = (Ok a, c') → m c = (Ok a, c').
Proof. unfold from_db, cmd_map_err. destruct (m c) as [[| |] ?]; simpl; congruence. Qed.
Lemma ctx_ok {S A} what (m : bootm S A) (s : S) a s' : m s = (Ok a, s') → ctx what m s = (Ok a, s').
Proof. intros H. unfold ctx, cmd_map_err. by rewrite H. Qed.
Lemma ctx_inv {S A} what (m : bootm S A) (s : S) a s' : ctx what m s = (Ok a, s') → m s = (Ok a, s').
Proof. unfold ctx, cmd_map_err. destruct (m s) as [[| |] ?]; simpl; congruence. Qed.

Lemma fatal_inv {S A} (r : result string A) (s : S) a s' : fatal r s = (Ok a, s') → r = Ok a ∧ s' = s.
Proof. unfold fatal, cmd_lift. destruct r; simpl; by intros [= <- <-]. Qed.
Lemma is_first_start_run c : online c → channel_manager (tables c) = [] →
  is_first_start c = (Ok true, c).
Proof.
  intros Hc He. unfold is_first_start, cmd_map, cmd_bind.
  rewrite db_query_opt_run, He by done. simpl. by rewrite scan_nil, query_opt_nil.
Qed.
Lemma is_first_start_inv c b c' : is_first_start c = (Ok b, c') → channel_manager (tables c) = [] →
  b = true ∧ tables c' = tables c.
Proof.
  unfold is_first_start, cmd_map, db_query_opt. intros H He.
  apply cmd_bind_inv in H as (o & c1 & (rows & c2 & Hq & Ho)%cmd_bind_inv & H).
  injection H as <- <-. injection Ho as Ho <-.
  unfold db_query, cmd_map_err in Hq. destruct (query _ c) as [q c3] eqn:Hquery.
  pose proof (query_keeps_tables _ _ _ _ Hquery) as Ht.
  assert (rows = []) as ->.
  { destruct q as [rows'| |]; [|done..]. injection Hq as -> ->.
    assert (query (λ t, (λ _, true) <$> channel_manager t) c = (Ok rows, c2)) as Hquery'
      by exact Hquery.
    revert Hquery'. unfold query, statement. rewrite He. simpl. rewrite scan_nil.
    destruct (faults c) as [|[e|] fs]; [|done|]; (destruct (aborted c); [done|]);
      by intros [= <- _]. }
  split; [|destruct q; by injection Hq as _ <-]. rewrite query_opt_nil in Ho. by injection Ho as <-.
Qed.

Lemma fetch_scorer_run {Sc} (read : bytes → option Sc) c sc : online c →
  fst (fetch_scorer read c) = Ok sc → fetch_scorer read c = (Ok sc, c).
Proof.
  intros Hc. unfold fetch_scorer, db_query_opt. rewrite cmd_bind_bind, bind_db_query by done.
  unfold cmd_bind, cmd_lift, expect.
  destruct (query_opt _) as [[row|]|e|w]; simpl; [|by intros [= <-]|done..].
  destruct (read _); simpl; [by intros [= <-]|done].
Qed.
Lemma fetch_monitors_run c l : online c → fst (fetch_channel_monitors c) = Ok l →
  fetch_channel_monitors c = (Ok l, c).
Proof.
  intros Hc. unfold fetch_channel_monitors. rewrite bind_db_query by done.
  unfold cmd_lift. by intros [= ->].
Qed.

(** What a start that succeeds has read. *)
Lemma start_ldk_inv c network mnemonic secs nanos file hash blocks st c' :
  start_ldk network mnemonic secs nanos file (Ok (hash, blocks)) c = (Ok st, c') →
  ∃ b c1 g sc c2 c3, is_first_start c = (Ok b, c1) ∧
    fetch_scorer (scorer_read g) c1 = (Ok sc, c2) ∧
    fetch_channel_monitors c2 = (Ok (start_monitors st), c3) ∧
    (b = true → start_manager st =
       cm_new (keys_manager st) user_config_of_start network (hash, as_u32 blocks)).
Proof.
  unfold start_ldk. intros (b & c1 & Hb%ctx_inv%from_db_inv & H)%cmd_bind_inv.
  apply cmd_bind_inv in H as (g & ? & [_ ->]%ctx_inv%fatal_inv & H).
  apply cmd_bind_inv in H as (sc & c2 & Hsc%from_db_inv & H).
  apply cmd_bind_inv in H as (l & c3 & Hl%from_db_inv & H).
  apply cmd_bind_inv in H as ([hash' blocks'] & ? & [Hi ->]%fatal_inv & H).
  injection Hi as <- <-. apply cmd_bind_inv in H as ([bh m] & ? & Hm & H). injection H as <- <-.
  exists b, c1, (default (graph_new network) g), sc, c2, c3. split_and!; [done..|].
  intros ->. by injection Hm as <- <- <-.
Qed.

(** A start on a database without channel manager. *)
Lemma start_ldk_new c network mnemonic secs nanos file g sc hash blocks l :
  online c → channel_manager (tables c) = [] → fetch_graph graph_read file = Ok g →
  fst (fetch_scorer (scorer_read (default (graph_new network) g)) c) = Ok sc →
  fst (fetch_channel_monitors c) = Ok l →
  ∃ st, start_ldk network mnemonic secs nanos file (Ok (hash, blocks)) c = (Ok st, c).
Proof.
  intros Hc Hm Hg Hs Hl. unfold start_ldk. eexists.
  erewrite cmd_bind_ok by by apply ctx_ok, from_db_ok, is_first_start_run.
  erewrite cmd_bind_ok by (apply ctx_ok; unfold fatal, cmd_lift; by rewrite Hg).
  erewrite cmd_bind_ok by by apply from_db_ok, fetch_scorer_run.
  erewrite cmd_bind_ok by by apply from_db_ok, fetch_monitors_run.
  reflexivity.
Qed.

(** On a working connection the monitors of a start are those the table gives. *)
Lemma start_ldk_monitors c network mnemonic secs nanos file hash blocks st c' :
  online c → channel_manager (tables c) = [] →
  start_ldk network mnemonic secs nanos file (Ok (hash, blocks)) c = (Ok st, c') →
  fst (fetch_channel_monitors c) = Ok (start_monitors st).
Proof.
  intros Hc Hm (b & c1 & g & sc & c2 & c3 & Hb & Hsc & Hl & _)%start_ldk_inv.
  rewrite is_first_start_run in Hb by done. injection Hb as <- <-.
  pose proof (fetch_scorer_run (scorer_read g) c sc Hc) as Hsc'. rewrite Hsc in Hsc'.
  specialize (Hsc' eq_refl). injection Hsc' as ->. by rewrite Hl.
Qed.

Lemma watched_in_background synchronize listen port st o m :
  synchronize (chain_listeners st) = Ok () →
  WatchChannel o m ∈ background synchronize listen port st ↔
    o = get_funding_txo m ∧ m ∈ (snd <$> start_monitors st).
Proof.
  intros Hs. unfold background, sync_to_chain_tip. rewrite Hs. simpl.
  rewrite !elem_of_app, !list_elem_of_fmap. split.
  - intros [[([h m'] & [= -> ->] & Hin)|Hp]|Hr].
    + split; [done|]. by exists (h, m').
    + by apply list_elem_of_singleton in Hp.
    + exfalso. repeat (apply elem_of_cons in Hr as [Hr|Hr]; [done|]).
      destruct listen; repeat (apply elem_of_cons in Hr as [Hr|Hr]; [done|]);
        by apply elem_of_nil in Hr.
  - intros [-> ([h m'] & -> & Hin)]. left. left. by exists (h, m').
Qed.

(** [C7] No channel manager is stored at first. While the node ran, LDK asked it to keep its
    channel manager, the scorer and monitors, however often; spawned writes ran in any order,
    some not at all, and some failed. A next start on these tables that bitcoind answers and that
    succeeds makes a new channel manager: it has no channel, is at the current block, and nothing
    that was stored is given to it; once the listeners are synchronised, the background task
    hands every monitor that the start loaded to the chain monitor, and no other. When the writes were to an empty
    table of monitors, on a working connection and ran in the order of the calls, these are
    exactly the last monitor of every channel, so that the node watches channels that its channel
    manager does not know; and the start succeeds if the file of the network graph and the stored
    scorer can be read. *)
Theorem restart_forgets_the_channels calls c network mnemonic secs nanos file hash blocks :
  channel_manager (tables c) = [] →
  let start := start_ldk network mnemonic secs nanos file (Ok (hash, blocks)) in
  (∀ p c2 st c3,
     rtc node_runs (mk_process c [] []) p → tables c2 = tables (db p) → start c2 = (Ok st, c3) →
     start_manager st =
       cm_new (keys_manager st) user_config_of_start network (hash, as_u32 blocks) ∧
     ∀ synchronize listen port o m, synchronize (chain_listeners st) = Ok () →
       WatchChannel o m ∈ background synchronize listen port st ↔
       o = get_funding_txo m ∧ m ∈ (snd <$> start_monitors st)) ∧
  (online c → channel_monitors (tables c) = [] →
   let p := run_in_order (fold_left run_ldk_call calls (mk_process c [] [])) in
   (∀ g sc, fetch_graph graph_read file = Ok g →
      fst (fetch_scorer (scorer_read (default (graph_new network) g)) (db p)) = Ok sc →
      ∃ st, start (db p) = (Ok st, db p)) ∧
   ∀ st c3 synchronize listen port o m, start (db p) = (Ok st, c3) →
     synchronize (chain_listeners st) = Ok () →
     WatchChannel o m ∈ background synchronize listen port st ↔
     last_call o (omap monitor_of_call calls) = Some m).
Proof.
  intros Hman start. split.
  { intros p c2 st c3 Hp Ht Hst.
    apply start_ldk_inv in Hst as (b & c1 & g & sc & c4 & c5 & Hb & _ & _ & Hm).
    pose proof (node_keeps_manager _ _ Hp (Forall_nil_2 _)) as Hk. simpl in Hk.
    destruct (is_first_start_inv _ _ _ Hb) as [-> _]; [by rewrite Ht, Hk|].
    split; [by apply Hm|]. intros. by apply watched_in_background. }
  intros Hc Hmon p. subst p. rewrite run_ldk_calls. unfold run_in_order. simpl.
  assert (monitors_of [] (channel_monitors (tables c))) as Hempty.
  { rewrite Hmon. split; [apply pk_nil|by intros ? ?%elem_of_nil|done]. }
  destruct (run_mixed_tasks calls [] [] c Hc Hempty) as (c' & done' & -> & Hc' & Ht & Hm).
  simpl. destruct (fetch_monitors_of (omap monitor_of_call calls) c') as (l & Hl & Hin); [done..|].
  rewrite <- Ht in Hman. split; [intros; by eapply start_ldk_new|].
  intros st c3 synchronize listen port o m Hst Hsync.
  pose proof (start_ldk_monitors _ _ _ _ _ _ _ _ _ _ Hc' Hman Hst) as Hsl.
  rewrite Hl in Hsl. injection Hsl as Hsl. rewrite watched_in_background, <- Hsl, Hin by done.
  split; [by intros [-> ?]|]. intros Hlast.
  pose proof (last_call_txo _ _ _ Hlast) as <-. by split.
Qed.
End Restart.

(** ** The identity of a node *)

Section Identity.
Context {LT : LdkTypes} {FR : BdkFeeRate} {B : Bdk} {LN : Lightning} {D : Driver} {PB : Probes} {BT : Boot} {OS : Os} {MC : Macaroons} {ML : MacaroonLaws} {SD : Seeds} {SL : SeedLaws}.

Lemma in_files_inv {A} (m : filem A) s a s' : in_files m s = (Ok a, s') →
  m (files s) = (Ok a, files s').
Proof. unfold in_files. destruct (m (files s)) as [[| |] f]; simpl; intros [= <- <-]; done. Qed.
Lemma in_session_inv {A} (m : bootm (conn ldk_tables) A) s a s' : in_session m s = (Ok a, s') →
  m (session s) = (Ok a, session s') ∧ files s' = files s.
Proof. unfold in_session. destruct (m (session s)) as [[| |] c]; simpl; by intros [= -> <-]. Qed.

(** The keys of LDK come from the mnemonic and the clock. *)
Lemma start_ldk_keys network mnemonic secs nanos file info c st c' :
  start_ldk network mnemonic secs nanos file info c = (Ok st, c') →
  keys_manager st = keys_manager_new (lightning_seed mnemonic) secs nanos ∧
  promise_secret st = promise_seed mnemonic.
Proof.
  unfold start_ldk. intros (b & c1 & _ & H)%cmd_bind_inv.
  apply cmd_bind_inv in H as (? & ? & _ & H). apply cmd_bind_inv in H as (? & ? & _ & H).
  apply cmd_bind_inv in H as (? & ? & _ & H). apply cmd_bind_inv in H as ([? ?] & ? & _ & H).
  apply cmd_bind_inv in H as ([? ?] & ? & _ & H). by injection H as <- _.
Qed.

(** What a process that serves has, and its files. *)
Lemma run_kld_inv s w m sv m' : run_kld s w m = (Ok sv, m') →
  ∃ f, KeyGenerator_init (mnemonic_path s) (fresh_mnemonic w) (files m) = (Ok (serve_mnemonic sv), f) ∧
    MacaroonAuth_init (macaroon_seed (serve_mnemonic sv)) (data_dir s) f =
      (Ok (serve_macaroon_key sv), files m') ∧
    serve_wallet_seed sv = wallet_seed (serve_mnemonic sv) ∧
    keys_manager (serve_ldk sv) =
      keys_manager_new (lightning_seed (serve_mnemonic sv)) (clock_secs w) (clock_nanos w) ∧
    promise_secret (serve_ldk sv) = promise_seed (serve_mnemonic sv).
Proof.
  unfold run_kld. intros (mnemonic & m1 & Hk%ctx_inv%in_files_inv & H)%cmd_bind_inv.
  apply cmd_bind_inv in H as (? & ? & [_ ->]%fatal_inv & H).
  apply cmd_bind_inv in H as (? & ? & [= _ <-] & H).
  apply cmd_bind_inv in H as (? & ? & [_ ->]%ctx_inv%fatal_inv & H).
  apply cmd_bind_inv in H as (ldk & m2 & [Hst Hf]%ctx_inv%in_session_inv & H).
  apply cmd_bind_inv in H as (key & m3 & Hm%in_files_inv & H).
  apply cmd_bind_inv in H as (? & ? & [_ ->]%fatal_inv & H). injection H as <- <-.
  apply start_ldk_keys in Hst as [Hst1 Hst2].
  exists (files m1). simpl in *. rewrite Hf in Hm. split_and!; done.
Qed.

(** What [BitcoindClient::new] answers is all that the start sees of it. *)
Definition bitcoind_of `{Rpc} (cookie_path host : string) (port : Z) (network : Network) (fs : FS)
    (srv : Server) : result string () := result_map (λ _, ()) (new cookie_path host port network fs srv).1.

(** A node serves only on the chain of its settings: bitcoind has answered that it runs it. When
    it runs another chain, or does not answer, the process ends before the database was read and
    before the wallet and the macaroons were made. *)
Theorem served_chain_is_the_settings `{Rpc} s w m cookie host port srv :
  bitcoind_new w = bitcoind_of cookie host port (run_network s) (files m) srv →
  match run_kld s w m with
  | (Ok sv, _) => ∃ c chain i,
      get_blockchain_info (mk_client srv priorities_new [] []) = (Ok (chain, i), c) ∧
      chain_matches chain (run_network s) = true
  | (_, m') => ∀ e, bitcoind_new w = Err e → session m' = session m ∧ fees m' = fees m
  end.
Proof.
  intros Hw. destruct (run_kld s w m) as [[sv|e|x] m'] eqn:Hr.
  2, 3: intros e' He; revert Hr; unfold run_kld, ctx, cmd_map_err, in_files, cmd_bind;
    destruct (KeyGenerator_init _ _ (files m)) as [[mn|?|?] f]; simpl; [|by intros [= _ <-]..];
    rewrite He; simpl; by intros [= _ <-].
  unfold run_kld in Hr. apply cmd_bind_inv in Hr as (mn & m1 & _ & Hr).
  apply cmd_bind_inv in Hr as ([] & ? & [Hn _]%fatal_inv & _). rewrite Hw in Hn. unfold bitcoind_of in Hn.
  destruct (new _ _ _ _ _ _) as [[c|?|?] srv'] eqn:Hnew; [|done..].
  apply new_checks_the_chain in Hnew as (_ & chain & i & Hi & Hc). by exists c, chain, i.
Qed.

(** [C12] A node that is stopped and started again, with the same mnemonic file, is the same
    node, whatever new words, whatever clock and whatever database it finds: the seeds of its
    keys, of its wallet and of its promises are the same, and the macaroon that the first
    process wrote for administrators opens every route of the second one. *)
Theorem restart_keeps_the_identity s w m sv m' :
  run_kld s w m = (Ok sv, m') →
  (∀ name, mnemonic_path s ≠ (data_dir s +:+ "/macaroons") +:+ name) →
  ∃ words text a, files m' !! mnemonic_path s = Some words ∧
    files m' !! ((data_dir s +:+ "/macaroons") +:+ "/admin.macaroon") = Some text ∧
    mac_deserialize text = Some a ∧
    ∀ w2 m2 sv2 m2', files m2 !! mnemonic_path s = Some words →
      read_ok (files m2) (mnemonic_path s) = true →
      run_kld s w2 m2 = (Ok sv2, m2') →
      serve_wallet_seed sv2 = serve_wallet_seed sv ∧
      promise_secret (serve_ldk sv2) = promise_secret (serve_ldk sv) ∧
      keys_manager (serve_ldk sv2) =
        keys_manager_new (lightning_seed (serve_mnemonic sv)) (clock_secs w2) (clock_nanos w2) ∧
      authorized (serve_macaroon_key sv2) Admin a = true.
Proof.
  intros (f & Hk & Hm & Hw & _ & Hp)%run_kld_inv Hpath.
  apply KeyGenerator_init_inv in Hk as (words & Hwords & Hu & Hparse).
  unfold MacaroonAuth_init in Hm. apply cmd_bind_inv in Hm as (? & ? & [_ ->]%lib_inv & Hm).
  apply cmd_bind_inv in Hm as (? & f' & Hm & [= _ ->]).
  assert (∀ a b, a ≠ b → (data_dir s +:+ "/macaroons") +:+ a ≠ (data_dir s +:+ "/macaroons") +:+ b)
    as Hne by (intros a b Hab Heq; by apply (inj _) in Heq).
  apply write_macaroons_inv in Hm as ((text & Ht & _ & Ha) & _ & s1 & Hd & Hsame);
    [|by apply Hne..|apply keeps_create_dir].
  unfold create_dir_all in Hd. destruct (write_ok _ _); [|done]. injection Hd as <-.
  exists words, text. eexists.
  split_and!; [by rewrite Hsame by by apply Hpath|done|done|].
  intros w2 m2 sv2 m2' Hs2 Hr2 (f2 & Hk2 & Hm2 & -> & -> & ->)%run_kld_inv.
  rewrite (KeyGenerator_init_run _ _ _ words (serve_mnemonic sv)) in Hk2 by done.
  injection Hk2 as Heq <-. rewrite <- Heq, Hw, Hp in *.
  split_and!; [done..|].
  unfold MacaroonAuth_init in Hm2. apply cmd_bind_inv in Hm2 as (? & ? & [_ ->]%lib_inv & Hm2).
  apply cmd_bind_inv in Hm2 as (? & ? & _ & [= Hkey _]). rewrite <- Hkey. simpl.
  unfold verify_admin_macaroon, admin_macaroon. by rewrite verify_add, verify_create.
Qed.
End Identity.

(** ** Concrete inputs *)

Section Instances.
#[local] Existing Instance insertion_order.
#[local] Existing Instance insertion_order_laws.
#[local] Existing Instance example_ldk.
#[local] Existing Instance example_ldk_laws.
#[local] Existing Instance example_os.
#[local] Existing Instance example_macaroons.
#[local] Existing Instance example_macaroon_laws.
#[local] Existing Instance example_seeds.
#[local] Existing Instance example_seed_laws.
#[local] Existing Instance example_probes.

(** A channel manager is the list of the monitors it was read with; a new one has none. *)
Definition example_boot : Boot (PB := example_probes) :=
  {| KeysManager := string * Z; keys_manager_new seed secs _ := (seed, secs);
     Graph := list string; graph_new _ := []; graph_read _ := Ok []; scorer_new _ := [] : @Scorer _ _ _ _ example_probes;
     scorer_read _ _ := None; ChannelManager := list (@ChannelMonitor example_ldk); StartConfig := Z;
     start_config _ _ htlcs _ _ _ := htlcs; cm_new _ _ _ _ := [];
     cm_read _ _ monitors _ := Ok ((), monitors) : result string (@BlockHash example_ldk * _) |}.
#[local] Existing Instance example_boot.

Definition example_ldk_calls : list ldk_call :=
  [CallManager 1 (Ok [x01]); CallMonitor (2, (false, false), 10); CallScorer 2 (Err "full");
   CallMonitor (3, (false, true), 12); CallManager 4 (Ok [x01])].

Definition example_mnemonic : Mnemonic := true.
Definition example_info : result string (BlockHash * Z) := Ok (() : @BlockHash example_ldk, 100%Z).

(** Two updates of one channel were stored, as was the manager, and the new manager has nothing. *)
Lemma restart_forgets_the_channels_witness :
  ∃ st, fst (start_ldk Bitcoin example_mnemonic 5 0 NotFound example_info
               (db (run_in_order (fold_left run_ldk_call example_ldk_calls
                                    (mk_process fresh_ldk [] []))))) = Ok st ∧
    start_manager st = ([] : @ChannelManager _ _ _ _ _ example_boot) ∧
    WatchChannel (id_bytes false, 258%Z) ((false, true) : @ChannelMonitor example_ldk)
      ∈ background (λ _, Ok ()) (Ok ()) 9735 st.
Proof.
  destruct (restart_forgets_the_channels (BT := example_boot) example_ldk_calls fresh_ldk Bitcoin
              example_mnemonic 5 0 NotFound (() : @BlockHash example_ldk) 100 eq_refl) as [Hnew Hordered].
  destruct (Hordered (conj eq_refl eq_refl) eq_refl) as [Hok Hw].
  destruct (Hok None None eq_refl eq_refl) as [st Hst]. exists st.
  split; [exact (f_equal fst Hst)|]. split.
  - refine (proj1 (Hnew _ _ _ _ _ eq_refl Hst)).
    etransitivity; [|eapply rtc_subrel; [apply task_runs|apply run_in_order_steps]].
    apply calls_are_runs.
  - by apply (Hw st _ (λ _, Ok ()) (Ok ()) 9735%Z _ _ Hst).
Defined.

Definition example_run_settings : run_settings := mk_run_settings "/var/mnemonic" "/data" Bitcoin.
Definition example_surroundings : surroundings :=
  mk_surroundings (Ok example_mnemonic) (Ok ()) (λ _, Ok ()) 5 0 NotFound example_info (Ok ()).
Definition example_machine : machine := mk_machine ∅ fresh_ldk priorities_new.

Definition example_run : result boot_error (serving (BT := example_boot)) * machine :=
  run_kld example_run_settings example_surroundings example_machine.
Lemma example_run_ok : match example_run.1 with Ok _ => True | _ => False end.
Proof. vm_compute. exact I. Qed.

Lemma restart_keeps_the_identity_witness :
  ∃ words, files example_run.2 !! "/var/mnemonic" = Some words.
Proof.
  pose proof example_run_ok as Hok. destruct (example_run.1) as [sv| |] eqn:Hsv; [|done..].
  destruct (restart_keeps_the_identity (BT := example_boot) example_run_settings example_surroundings example_machine sv
              example_run.2) as (words & _ & _ & Hw & _).
  - rewrite <- Hsv. apply surjective_pairing.
  - intros name. discriminate.
  - exists words. exact Hw.
Defined.
End Instances.
