(* ===== verification/DeployedNode.v ===== *)
(** * A node under a configuration of the deployment manager

    What an accepted configuration (src/mgr/src/config.rs) makes of the settings of the node
    (src/kld/src/settings/mod.rs), by way of the environment of its service
    (src/nix/modules/kld-toml-mapping.nix, src/nix/modules/kld/default.nix); and where an
    assumption of the node is a check of the manager: the alias that the node copies into 32 bytes
    when it announces itself. *)

From Stdlib Require Import Ascii.
From stdpp Require Import gmap.
From S2P Require Import Prelude Text RustStd Addresses Patterns Files Auth Keys Ldk Wallet LdkDatabase Fees Node Probe Controller Startup Logger Config NetAddress Settings.

#[local] Open Scope string_scope.
#[local] Open Scope Z_scope.

Lemma length_list_byte s : length (String.list_byte_of_string s) = String.length s.
Proof. unfold String.list_byte_of_string. by rewrite List.length_map, length_list_ascii. Qed.

(** ** The environment of the service *)

(** What the modules take from elsewhere: the options of bitcoind, electrs and CockroachDB, and
    the network, whose names are those of the option [kuutamo.kld.network]. *)
Record site := mk_site {
  site_network : OwnNetwork;
  site_peer_port : Z;
  site_sql_port : Z;
  site_rpc_port : Z;
  site_data_dir : string;
  site_cockroach_certs : string;
  site_electrs : string;
  site_exporter_address : string;
}.

Section Service.
Context {HO : HashOrder} {HOL : HashOrderLaws} {MT : MgrTypes} {MG : Manager} {RL : RegexLaws}.
Context {LA : LdkAddresses} {LL : LdkAddressLaws} {CL : Clap} {CW : ClapLaws}.

Definition log_level_text (l : LogLevel) : string :=
  match l with
  | Error => "error" | Warn => "warn" | Info => "info" | Debug => "debug" | Trace => "trace"
  end.

(** [kuutamo.kld.publicAddresses]. *)
Definition public_address_texts (h : Host) : list string :=
  (h_hostname h +:+ ":9234") ::
  match h_ipv6_address h with Some a => ["[" +:+ print_ip a +:+ "]:9234"] | None => [] end.

(** [lib.optionalAttrs (l != [ ]) (concatStringsSep "," l)]. *)
Definition comma_list (l : list string) : option string :=
  if bool_decide (l = []) then None else Some (join "," l).

(** The block [environment] of the service; a variable that is null is left out. *)
Definition service_environment (si : site) (h : Host) : list (string * option string) :=
  let rest_api_port := print_nat (default 2244 (h_rest_api_port h)) in
  [("KLD_LOG_LEVEL", Some (default "info" (log_level_text <$> h_kld_log_level h)));
   ("KLD_PEER_PORT", Some (print_nat (site_peer_port si)));
   ("KLD_NODE_ALIAS", h_kld_node_alias h);
   ("KLD_NODE_ALIAS_COLOR", h_kld_node_alias_color h);
   ("KLD_NODE_ID", Some (h_name h));
   ("KLD_DATABASE_HOST", Some "localhost");
   ("KLD_DATABASE_PORT", Some (print_nat (site_sql_port si)));
   ("KLD_DATABASE_USER", Some "kld");
   ("KLD_DATABASE_NAME", Some "kld");
   ("KLD_DATABASE_CA_CERT_PATH", Some (site_cockroach_certs si +:+ "/ca.crt"));
   ("KLD_DATABASE_CLIENT_CERT_PATH", Some (site_data_dir si +:+ "/certs/client.kld.crt"));
   ("KLD_DATABASE_CLIENT_KEY_PATH", Some (site_data_dir si +:+ "/certs/client.kld.key"));
   ("KLD_EXPORTER_ADDRESS", Some (site_exporter_address si));
   ("KLD_REST_API_ADDRESS",
      Some ((if bool_decide (h_api_ip_access_list h = []) then "127.0.0.1:" else "[::]:")
              +:+ rest_api_port));
   ("KLD_BITCOIN_COOKIE_PATH", Some (site_data_dir si +:+ "/.cookie"));
   ("KLD_DATA_DIR", Some (site_data_dir si));
   ("KLD_MNEMONIC_PATH", Some (site_data_dir si +:+ "/mnemonic"));
   ("KLD_CERTS_DIR", Some (site_data_dir si +:+ "/certs"));
   ("KLD_BITCOIN_NETWORK",
      Some (if bool_decide (own_to_string (site_network si) = "main") then "bitcoin"
            else own_to_string (site_network si)));
   ("KLD_BITCOIN_RPC_HOST", Some "127.0.0.1");
   ("KLD_BITCOIN_RPC_PORT", Some (print_nat (site_rpc_port si)));
   ("KLD_ELECTRS_URL", Some (site_electrs si));
   ("KLD_PROBE_INTERVAL", Some (print_nat (default 0 (h_probe_interval h))));
   ("KLD_PROBE_AMT_MSAT", Some (print_nat (default 0 (h_probe_amt_msat h))));
   ("KLD_SHUTDOWN_GRACEFUL_SEC", Some (print_nat (default 5 (h_shutdown_graceful_sec h))));
   ("KLD_PUBLIC_ADDRESSES", comma_list (public_address_texts h));
   ("KLD_PROBE_TARGETS", comma_list (h_probe_targets h))].

Definition deployed_environment (si : site) (h : Host) : environment := λ var,
  match find (λ p, String.eqb p.1 var) (service_environment si h) with
  | Some p => p.2
  | None => None
  end.

(** ** The settings of a deployed node *)

(** The setting [node_alias] of a host. *)
Definition deployed_alias (h : Host) : string := default "" (h_kld_node_alias h).

Definition deployed_settings (si : site) (h : Host) (addresses : list SocketAddress)
    (targets : list SettingsKey) : Settings := {|
  bitcoind_rpc_host := "127.0.0.1";
  bitcoind_rpc_port := site_rpc_port si;
  bitcoin_network := own_to_bitcoin (site_network si);
  bitcoin_cookie_path := site_data_dir si +:+ "/.cookie";
  data_dir := site_data_dir si;
  certs_dir := site_data_dir si +:+ "/certs";
  mnemonic_path := site_data_dir si +:+ "/mnemonic";
  node_id := h_name h;
  wallet_name := "kld-wallet";
  log_level := default "info" (log_level_text <$> h_kld_log_level h);
  env := "test";
  peer_port := site_peer_port si;
  node_alias := deployed_alias h;
  node_alias_color := default "6e2cf7" (h_kld_node_alias_color h);
  public_addresses := addresses;
  exporter_address := site_exporter_address si;
  rest_api_address := (if bool_decide (h_api_ip_access_list h = []) then "127.0.0.1:" else "[::]:")
                        +:+ print_nat (default 2244 (h_rest_api_port h));
  electrs_url := site_electrs si;
  database_host := "localhost";
  database_port := site_sql_port si;
  database_user := "kld";
  database_name := "kld";
  database_ca_cert_path := site_cockroach_certs si +:+ "/ca.crt";
  database_client_cert_path := site_data_dir si +:+ "/certs/client.kld.crt";
  database_client_key_path := site_data_dir si +:+ "/certs/client.kld.key";
  probe_interval := default 0 (h_probe_interval h);
  probe_amt_msat := default 0 (h_probe_amt_msat h);
  probe_targets := targets;
  shutdown_graceful_sec := default 5 (h_shutdown_graceful_sec h);
|}.

(** The numbers have the width of their types. *)
Definition site_ok (si : site) : Prop :=
  u16 (site_peer_port si) ∧ u16 (site_sql_port si) ∧ u16 (site_rpc_port si).
Definition host_ok (h : Host) : Prop :=
  (∀ a, h_ipv4_address h = Some a → ip_ok a) ∧
  u64 (default 0 (h_probe_interval h)) ∧ u64 (default 0 (h_probe_amt_msat h)) ∧
  u64 (default 5 (h_shutdown_graceful_sec h)).

(** The manager and the node read keys with the same function. *)
Definition same_keys : Prop := ∀ t, is_public_key t = true → is_Some (public_key_from_str t).

Lemma comma_list_none l : comma_list l ≠ Some "" ↔ l ≠ [""].
Proof.
  unfold comma_list. case_bool_decide as Hl; [by subst|]. destruct l as [|t [|t' l]]; [done|..].
  - simpl. split; congruence.
  - split; [done|]. intros _ [= Hj]. destruct t; simpl in Hj; [|done]. by rewrite append_nil in Hj.
Qed.

Lemma values_of_deployed si h :
  h_probe_targets h ≠ [""] →
  ∃ m, get_matches args [] (deployed_environment si h) = Ok m ∧
    ∀ a, a ∈ args → m (long a) = env_values a (deployed_environment si h).
Proof.
  intros Ht. apply matches_environment; [apply args_unique|]. intros a Ha.
  unfold args in Ha. rewrite !elem_of_cons in Ha.
  destruct_or! Ha; subst; try (by intros [? [=]]); try (by apply elem_of_nil in Ha); intros _.
  - change (comma_list (public_address_texts h) ≠ Some ""). apply comma_list_none.
    unfold public_address_texts. intros [= Hh _]. by destruct (h_hostname h).
  - change (comma_list (h_probe_targets h) ≠ Some ""). by apply comma_list_none.
Qed.

(** Reads the next field of [from_matches] from the environment. *)
Ltac read_field Hm :=
  erewrite one_read;
    [cbn [result_bind]
    |apply Hm; repeat first [apply list_elem_of_here|apply list_elem_of_further]
    |reflexivity|reflexivity
    |first [eassumption|reflexivity|by apply parse_print]].

Lemma address_texts_no_comma h :
  over (λ c, c ≠ ","%char) (h_hostname h) →
  (∀ a, h_ipv6_address h = Some a → RustStd.is_ipv6 a = true ∧ ip_ok a) →
  Forall (over (λ c, c ≠ ","%char)) (public_address_texts h).
Proof.
  intros Hname Hv6. unfold public_address_texts. apply Forall_cons_2.
  { apply over_app. split; [done|]. by repeat apply Forall_cons_2. }
  destruct (h_ipv6_address h) as [a|]; [|done]. apply Forall_singleton.
  destruct (Hv6 a eq_refl) as [_ Hok].
  rewrite !over_app. split; [by repeat apply Forall_cons_2|]. split; [|by repeat apply Forall_cons_2].
  destruct (parse_ip_spec (print_ip a) a (parse_print_ip a Hok)) as [Ht _].
  eapply over_impl; [|exact Ht]. intros c [[d Hd]|[-> | ->]] Hc; [subst; by vm_compute in Hd|done..].
Qed.

(** Everything but the public addresses is read as it was meant; whether the node starts is
    whether they are addresses. *)
Lemma load_deployed si h keys :
  site_ok si → host_ok h → over (λ c, c ≠ ","%char) (h_hostname h) →
  (∀ a, h_ipv6_address h = Some a → RustStd.is_ipv6 a = true ∧ ip_ok a) →
  Forall2 (λ t k, public_key_from_str t = Some k) (h_probe_targets h) keys →
  load [] (deployed_environment si h) =
    let? addresses := result_mapM (parse_value arg_public_addresses address_from_str)
                        (public_address_texts h) in
    Ok (deployed_settings si h addresses keys).
Proof.
  intros (Hpeer & Hsql & Hrpc) (_ & Hint & Hamt & Hsec) Hname Hv6 Hkeys.
  assert (Forall (λ t, t ≠ "" ∧ over (digit_of 16) t) (h_probe_targets h)) as Htargets.
  { apply Forall_forall. intros t Ht. apply list_elem_of_lookup in Ht as [i Hi].
    destruct (Forall2_lookup_l _ _ _ _ _ Hkeys Hi) as (k & _ & Hk). by eapply public_key_text. }
  destruct (values_of_deployed si h) as (m & Hm & Hval).
  { intros Heq. rewrite Heq in Htargets. by apply Forall_cons in Htargets as [[] _]. }
  unfold load, parse_from. rewrite Hm. cbn [map_err result_bind]. unfold from_matches.
  assert (network_from_str (if bool_decide (own_to_string (site_network si) = "main") then "bitcoin"
            else own_to_string (site_network si)) = Some (own_to_bitcoin (site_network si))) as Hnet.
  { pose proof networks_read as (Hn1 & Hn2 & Hn3 & Hn4 & _). by destruct (site_network si). }
  do 14 read_field Hval.
  assert (m (long arg_public_addresses) = public_address_texts h) as Haddr.
  { rewrite Hval by (repeat first [apply list_elem_of_here|apply list_elem_of_further]).
    apply (joined_values _ _ ","%char); [done..|by apply address_texts_no_comma|done]. }
  assert (many arg_probe_targets public_key_from_str m = Ok keys) as Hmany.
  { eapply many_read; [apply Hval; repeat first [apply list_elem_of_here|apply list_elem_of_further]|].
    rewrite (joined_values _ _ ","%char (h_probe_targets h)); [done..| |done].
    eapply Forall_impl; [exact Htargets|]. intros t [_ Ht]. eapply over_impl; [|exact Ht].
    intros c [d Hd] ->. by vm_compute in Hd. }
  unfold many at 1. rewrite Haddr.
  destruct (result_mapM _ (public_address_texts h)) as [addresses|e|w]; [|done..].
  cbn [result_bind]. do 12 read_field Hval. rewrite Hmany. cbn [result_bind].
  read_field Hval. reflexivity.
Qed.

(** The alias fits the 32 bytes of the announcement, followed by zeros. *)
Lemma host_alias_fits h : host_wf h →
  ∃ zeros, alias_bytes (deployed_alias h) =
      Ok (String.list_byte_of_string (deployed_alias h) ++ replicate zeros x00)%list ∧
    (String.length (deployed_alias h) + zeros = 32)%nat.
Proof.
  intros Hwf. assert (String.length (deployed_alias h) ≤ 32)%nat as Hlen.
  { unfold deployed_alias. destruct (h_kld_node_alias h) as [a|] eqn:Ha; simpl; [|lia].
    by apply (wf_alias _ Hwf). }
  exists (32 - String.length (deployed_alias h))%nat. split; [|lia]. unfold alias_bytes.
  by rewrite length_list_byte, bool_decide_eq_true_2.
Qed.

Lemma host_targets h : same_keys → host_wf h →
  ∃ keys, Forall2 (λ t k, public_key_from_str t = Some k) (h_probe_targets h) keys.
Proof.
  intros Hsame Hwf. pose proof (wf_targets _ Hwf) as Ht.
  induction (h_probe_targets h) as [|t l IH]; [by exists []|].
  destruct IH as [keys Hkeys]; [intros t' ?; apply Ht; by right|].
  destruct (Hsame t) as [k Hk]; [apply Ht; by left|]. exists (k :: keys). by constructor.
Qed.

(** The addresses of a host as the node announces them. *)
Definition announced (ip : IpAddr) : SocketAddress := from_socket_addr (mk_socket_addr ip 9234).
Definition announced_ipv6 (h : Host) : list SocketAddress :=
  match h_ipv6_address h with Some ip => [announced ip] | None => [] end.

Lemma announced_read ip : ip_ok ip →
  address_from_str (print_socket_addr (mk_socket_addr ip 9234)) = Some (announced ip).
Proof.
  intros Hip. unfold address_from_str, from_str.
  by erewrite ldk_reads_sockets by (apply parse_print_socket_addr; [done|split; simpl; lia]).
Qed.

Lemma public_addresses_read h :
  host_wf h →
  result_mapM (parse_value arg_public_addresses address_from_str) (public_address_texts h) =
    let? a := parse_value arg_public_addresses address_from_str (h_hostname h +:+ ":9234") in
    Ok (a :: announced_ipv6 h).
Proof.
  intros Hwf. unfold public_address_texts, announced_ipv6. cbn [result_mapM].
  destruct (parse_value _ _ (h_hostname h +:+ ":9234")); [|done..]. cbn [result_bind].
  destruct (h_ipv6_address h) as [[|l]|] eqn:H6; [| |done].
  - by destruct (wf_ipv6 _ Hwf _ H6).
  - destruct (wf_ipv6 _ Hwf _ H6) as (_ & Hok & _). pose proof (announced_read (V6 l) Hok) as Hr.
    unfold parse_value. cbn [result_mapM].
    change ("[" +:+ print_ip (V6 l) +:+ "]:9234") with (print_socket_addr (mk_socket_addr (V6 l) 9234)).
    by rewrite Hr.
Qed.

Lemma load_host si h :
  site_ok si → host_ok h → host_wf h → same_keys → over (λ c, c ≠ ","%char) (h_hostname h) →
  ∃ targets, Forall2 (λ t k, public_key_from_str t = Some k) (h_probe_targets h) targets ∧
    load [] (deployed_environment si h) =
      let? a := parse_value arg_public_addresses address_from_str (h_hostname h +:+ ":9234") in
      Ok (deployed_settings si h (a :: announced_ipv6 h) targets).
Proof.
  intros Hsi Hok Hwf Hsame Hname. destruct (host_targets h Hsame Hwf) as [targets Ht].
  exists targets. split; [done|]. rewrite (load_deployed si h targets); [|done..| |done].
  - rewrite public_addresses_read by done. by destruct (parse_value _ _ _).
  - intros a Ha. by destruct (wf_ipv6 _ Hwf _ Ha) as (? & ? & _).
Qed.

(** [C16] A node that the manager deployed reads the settings that were meant: for every host of
    an accepted configuration whose host name is, with the port 9234, an address of the Lightning
    network, the environment of the service is read as the identity, the paths, the ports and the
    network of the deployment, the alias, the colour, the probing and the log level of the host or
    their defaults, and its public addresses: the host name and the IPv6 address. The alias fits
    the 32 bytes of the announcement, so that the node never panics over it. *)
Theorem deployed_settings_are_read content wd preset chk c name h si a :
  parse_config content wd preset chk = Ok c → hosts c !! name = Some h →
  site_ok si → host_ok h → same_keys →
  over (λ c, c ≠ ","%char) (h_hostname h) → from_str (h_hostname h +:+ ":9234") = Ok a →
  ∃ targets zeros,
    load [] (deployed_environment si h) = Ok (deployed_settings si h (a :: announced_ipv6 h) targets) ∧
    Forall2 (λ t k, public_key_from_str t = Some k) (h_probe_targets h) targets ∧
    h_name h = name ∧
    alias_bytes (deployed_alias h) =
      Ok (String.list_byte_of_string (deployed_alias h) ++ replicate zeros x00)%list ∧
    (String.length (deployed_alias h) + zeros = 32)%nat.
Proof.
  intros Hc Hh Hsi Hok Hsame Hname Ha. destruct (parse_config_hosts _ _ _ _ _ _ _ Hc Hh) as [Hn Hwf].
  destruct (load_host si h Hsi Hok Hwf Hsame Hname) as (targets & Ht & Hl).
  destruct (host_alias_fits h Hwf) as (zeros & Halias & Hlen). exists targets, zeros.
  split; [|done]. rewrite Hl. unfold parse_value, address_from_str. by rewrite Ha.
Qed.

(** ** Hosts without a host name of their own *)

Lemma bare_ipv6_refused l : ip_ok (V6 l) → address_from_str (print_ip (V6 l) +:+ ":9234") = None.
Proof.
  intros [Hl Hlen]. destruct (ipv6_text_colon l Hl Hlen) as (u & r & Ht & Hu).
  unfold address_from_str, from_str.
  assert (print_ip (V6 l) +:+ ":9234" = u +:+ String ":" (r +:+ String ":" "9234")) as Heq.
  { simpl. rewrite Ht, append_assoc. done. }
  rewrite Heq, two_colons_refused; [done| |by apply bare_ipv6_no_socket].
  eapply over_impl; [|exact Hu]. intros c [d Hd].
  by repeat split; intros ->; vm_compute in Hd.
Qed.

(** [C24] A host for which the file has no host name gets the text of its address for one. With
    an IPv4 address that is a public address the node reads. A host that only has an IPv6 address
    gets that without brackets before the port: the node refuses its settings and does not start,
    although the brackets are there when the same address is announced. *)
Theorem ipv6_only_node_does_not_start content wd preset chk c name h si cf host :
  parse_config content wd preset chk = Ok c → hosts c !! name = Some h →
  toml_from_str content = Ok cf → cf_hosts cf !! name = Some host → hc_hostname host = None →
  site_ok si → host_ok h → same_keys →
  match h_ipv4_address h with
  | Some ip => ∃ s, load [] (deployed_environment si h) = Ok s ∧
                    public_addresses s = announced ip :: announced_ipv6 h
  | None => load [] (deployed_environment si h) =
              Err (InvalidValue "public-addresses" (h_hostname h +:+ ":9234"))
  end.
Proof.
  intros Hc Hh Hcf Hhost Hnone Hsi Hok Hsame.
  destruct (parse_config_hosts _ _ _ _ _ _ _ Hc Hh) as [_ Hwf].
  destruct (parse_config_from_file _ _ _ _ _ _ _ Hc Hh) as (? & ? & h0 & peers & Hcf' & Hhost' & Hv & Heq).
  rewrite Hcf in Hcf'. injection Hcf' as <-. rewrite Hhost in Hhost'. injection Hhost' as <-. subst h.
  apply validate_host_hostname in Hv as (ip & Hip & Hname). rewrite Hnone in Hname.
  simpl in Hname. set (h := set_cockroach_peers peers h0) in *.
  change (h_hostname h0) with (h_hostname h) in Hname.
  change (opt_or (h_ipv4_address h) (h_ipv6_address h) = Some ip) in Hip.
  assert (ip_ok ip) as Hipok.
  { destruct (h_ipv4_address h) eqn:H4; simpl in Hip; simplify_eq; [by apply Hok|].
    by apply (wf_ipv6 _ Hwf). }
  destruct (load_host si h Hsi Hok Hwf Hsame) as (targets & _ & Hl).
  { rewrite Hname. destruct (parse_ip_spec (print_ip ip) ip (parse_print_ip ip Hipok)) as [Ht _].
    eapply over_impl; [|exact Ht]. intros x [[d Hd]|[-> | ->]] Hx; [subst; by vm_compute in Hd|done..]. }
  rewrite Hl, Hname. unfold parse_value. destruct (h_ipv4_address h) as [ip4|] eqn:H4; simpl in Hip.
  - injection Hip as ->. pose proof (wf_ipv4 _ Hwf _ H4) as H4'. destruct ip as [x y z w|]; [|done].
    eexists. pose proof (announced_read (V4 x y z w) Hipok) as Hr.
    change (print_socket_addr (mk_socket_addr (V4 x y z w) 9234)) with
      (print_ip (V4 x y z w) +:+ ":9234") in Hr.
    rewrite Hr. by split.
  - destruct (wf_ipv6 _ Hwf _ Hip) as (H6 & _). destruct ip as [|l]; [done|].
    by rewrite (bare_ipv6_refused l Hipok).
Qed.
End Service.

(** ** The process of a deployed node *)

Section Process.
Context {HO : HashOrder} {HOL : HashOrderLaws} {MT : MgrTypes} {MG : Manager} {RL : RegexLaws}.
Context {LA : LdkAddresses} {LL : LdkAddressLaws} {CL : Clap} {CW : ClapLaws}.
Context {LT : LdkTypes} {FR : BdkFeeRate} {B : Bdk} {LN : Lightning} {D : Sql.Driver} {PB : Probes} {BT : Boot}.
Context {OS : Os} {MC : Macaroons} {SD : Seeds}.
(** [LevelFilter::from_str] of the log crate, which reads the names of its levels. *)
Context (level_from_str : string → option LevelFilter).
Hypothesis level_names : ∀ l : LogLevel, is_Some (level_from_str (log_level_text l)).

Definition run_settings_of (s : Settings) : run_settings :=
  mk_run_settings (Settings.mnemonic_path s) (Settings.data_dir s) (bitcoin_network s).

(** [main] of src/kld/src/kld/main.rs: the exit code, the logger and the machine. clap ends the
    process with the code 2. *)
Definition process_main (argv : list string) (e : environment) (w : surroundings) (how : ended)
    (l : logging) (m : machine) : result string Z * logging * machine :=
  match load argv e with
  | Ok s =>
      match level_from_str (log_level s) with
      | Some level =>
          let '(r, m) := Startup.main (run_settings_of s) w how m in
          (r, Logger.init (Settings.node_id s) level l, m)
      | None => (Panic "Invalid log level", l, m)
      end
  | _ => (Ok 2, l, m)
  end.

(** The process of a deployed host logs under the name of the host and runs with the files of its
    data directory on the network of the deployment; over the settings and the log level it never
    ends. *)
Theorem deployed_process_runs content wd preset chk c name h si a w how l m :
  parse_config content wd preset chk = Ok c → hosts c !! name = Some h →
  site_ok si → host_ok h → same_keys →
  over (λ x, x ≠ ","%char) (h_hostname h) → from_str (h_hostname h +:+ ":9234") = Ok a →
  ∃ level, process_main [] (deployed_environment si h) w how l m =
    let '(r, m') := Startup.main (mk_run_settings (site_data_dir si +:+ "/mnemonic") (site_data_dir si)
                                    (own_to_bitcoin (site_network si))) w how m in
    (r, Logger.init name level l, m').
Proof.
  intros Hc Hh Hsi Hok Hsame Hname Ha. destruct (parse_config_hosts _ _ _ _ _ _ _ Hc Hh) as [Hn Hwf].
  destruct (load_host si h Hsi Hok Hwf Hsame Hname) as (targets & _ & Hl).
  unfold process_main. rewrite Hl. unfold parse_value, address_from_str. rewrite Ha.
  cbn [ok_or result_bind].
  assert (is_Some (level_from_str (default "info" (log_level_text <$> h_kld_log_level h)))) as [level Hlevel].
  { destruct (h_kld_log_level h) as [v|]; [apply level_names|apply (level_names Info)]. }
  exists level. simpl in *. by rewrite Hlevel, Hn.
Qed.
End Process.

(** ** Concrete inputs *)

Section Instances.
#[local] Existing Instance example_mgr_types.
#[local] Existing Instance list_order.
#[local] Existing Instance example_addresses.
#[local] Existing Instance example_clap.

Definition example_site : site :=
  mk_site OwnMain 9234 26257 8332 "/var/lib/kld" "/var/lib/cockroachdb-certs" "127.0.0.1:60001" "127.0.0.1:2233".
Lemma example_site_ok : site_ok example_site.
Proof. repeat split; done. Qed.

(** A cluster whose only host has no IPv4 address and no host name. *)
Definition ipv6_host : HostConfig :=
  {| hc_ipv4_address := None; hc_ipv4_gateway := None; hc_ipv4_cidr := None;
     hc_nixos_module := "kld-node"; hc_mac_address := None;
     hc_ipv6_address := Some "2001:db8::1"; hc_ipv6_gateway := None; hc_ipv6_cidr := None;
     hc_public_ssh_keys := []; hc_install_ssh_user := None; hc_hostname := None;
     hc_disks := None; hc_bitcoind_disks := None; hc_kld_node_alias := None;
     hc_kld_node_alias_color := None; hc_kld_log_level := None;
     hc_kuutamo_monitoring_token_file := None; hc_self_monitoring_url := None;
     hc_self_monitoring_username := None; hc_self_monitoring_password := None;
     hc_promtail_client := None; hc_kld_rest_api_port := None; hc_kld_api_ip_access_list := [];
     hc_network_interface := None; hc_upgrade_schedule := None; hc_probe_interval := None;
     hc_probe_amt_msat := None; hc_probe_targets := []; hc_shutdown_graceful_sec := None;
     hc_others := ∅ |}.
Definition ipv6_file : ConfigFile :=
  {| cf_global := cf_global example_file; cf_host_defaults := cf_host_defaults example_file;
     cf_hosts := {[ "kld-00" := ipv6_host ]} |}.
Definition ipv6_manager : Manager :=
  {| mgr_regex := backtrack;
     toml_from_str s := Ok ipv6_file;
     hex_colour := @hex_colour _ example_manager;
     is_public_key := @is_public_key _ example_manager;
     base64_decode s := Some s;
     default_hash k := match k with Some _ => 1 | None => 0 end;
     read_to_string s := None; parent s := Some "/"; env_var s := None;
     monitoring_status u p := None; nix_flake_show t f := Some true |}.
Definition ipv6_config : Config :=
  match parse_config (MG := ipv6_manager) "ipv6.toml" "/" false true with
  | Ok c => c
  | _ => mk_config ∅ (mk_global "" "" "" "")
  end.
Lemma ipv6_config_ok : parse_config (MG := ipv6_manager) "ipv6.toml" "/" false true = Ok ipv6_config.
Proof. vm_compute. reflexivity. Qed.

(** A host for which the file has no probing. *)
Lemma example_host_ok h :
  (∀ a, h_ipv4_address h = Some a → ip_ok a) → h_probe_interval h = None →
  h_probe_amt_msat h = None → h_shutdown_graceful_sec h = None → host_ok h.
Proof. intros Ha Hi Hm Hs. split; [done|]. rewrite Hi, Hm, Hs. by repeat split. Qed.

Lemma example_same_keys t :
  is_public_key (Manager := example_manager) t = true → is_Some (public_key_from_str t).
Proof.
  intros [Hp Ht]%andb_true_iff. cbn [public_key_from_str example_clap]. case_bool_decide; [by subst|].
  change (forallb _ _) with (forallb (λ c, bool_decide (is_Some (to_digit 16 c))) (String.list_ascii_of_string t)).
  rewrite Ht. by eexists.
Qed.

Lemma deployed_settings_are_read_witness :
  ∃ h targets,
    hosts example_config !! "kld-00" = Some h ∧
    load [] (deployed_environment example_site h) =
      Ok (deployed_settings example_site h
            [TcpIpV4 [199; 127; 64; 2] 9234;
             TcpIpV6 [38; 5; 152; 128; 4; 0; 0; 0; 0; 0; 0; 0; 0; 0; 0; 2] 9234] targets).
Proof.
  destruct (hosts example_config !! "kld-00") as [h|] eqn:Hh; [|by vm_compute in Hh].
  pose proof Hh as Hv. vm_compute in Hv. injection Hv as Hv.
  destruct (deployed_settings_are_read (HOL := list_order_laws) (MG := example_manager)
    (RL := backtrack_laws) (LL := example_address_laws) (CW := example_clap_laws)
    "kld.toml" "/" false true example_config "kld-00" h example_site (TcpIpV4 [199; 127; 64; 2] 9234)
    example_config_ok Hh example_site_ok) as (targets & _ & Hl & _).
  - apply example_host_ok; [|by subst h..]. intros a Ha. subst h. injection Ha as <-.
    split_and!; unfold in_unsigned; lia.
  - exact example_same_keys.
  - subst h. cbn [h_hostname]. unfold over. cbn [String.list_ascii_of_string].
    repeat (apply Forall_cons_2; [done|]). by apply Forall_nil_2.
  - subst h. cbn [h_hostname]. reflexivity.
  - exists h, targets. split; [done|]. rewrite Hl. by subst h.
Defined.

Lemma ipv6_only_node_does_not_start_witness :
  ∃ h, hosts ipv6_config !! "kld-00" = Some h ∧
    load [] (deployed_environment example_site h) =
      Err (InvalidValue "public-addresses" "2001:db8::1:9234").
Proof.
  destruct (hosts ipv6_config !! "kld-00") as [h|] eqn:Hh; [|by vm_compute in Hh].
  pose proof Hh as Hv. vm_compute in Hv. injection Hv as Hv.
  exists h. split; [done|].
  pose proof (ipv6_only_node_does_not_start (HOL := list_order_laws) (MG := ipv6_manager)
    (RL := backtrack_laws) (LL := example_address_laws) (CW := example_clap_laws)
    "ipv6.toml" "/" false true ipv6_config "kld-00" h example_site ipv6_file ipv6_host
    ipv6_config_ok Hh eq_refl eq_refl eq_refl example_site_ok) as Hl.
  subst h. apply Hl; [|exact example_same_keys]. by apply example_host_ok.
Defined.
End Instances.
